(** * pg_hexedit: the page annotation engine of [pg_hexedit.c]

    A shallow embedding of the functions of [pg_hexedit.c] that classify a
    page's special section and emit the wxHexEditor tags of a relation file,
    and the properties of its specification that are settled on it.

    The program keeps its run state in file-scope variables; the embedding
    threads one record of them, [globals], through a small monad whose
    outcomes are a normal return, a call of [exit], and an access outside an
    array: a read outside the block buffer or a write past the end of
    [flagString] (which C leaves undefined).  Unsigned 32-bit arithmetic is
    written on [Z] with its wrap-around ([u32]); the block buffer is a list
    of bytes and multi-byte fields are read in the byte order of the host the
    tool is built for (little endian). *)

From Stdlib Require Import ZArith List Bool String Ascii Lia.
From Stdlib.Strings Require Byte.
Import ListNotations.

Local Open Scope string_scope.
Local Open Scope list_scope.
Local Open Scope Z_scope.

(* ================================================================== *)
(** ** Constants of the PostgreSQL 11 headers the program includes

    [postgres.h], [storage/bufpage.h], [storage/itemid.h],
    [access/htup_details.h], [access/itup.h], [access/nbtree.h],
    [access/hash.h], [access/gist.h], [access/gin_private.h] and
    [access/spgist_private.h] belong to PostgreSQL, not to this program.
    Their values are those of PostgreSQL 11 on a 64-bit little-endian
    build. *)

Module PG.

Definition MAXIMUM_ALIGNOF : Z := 8.
Definition BLCKSZ : Z := 8192.
Definition RELSEG_SIZE : Z := 131072.
Definition UINT_MAX : Z := 4294967295.

(** [TYPEALIGN(MAXIMUM_ALIGNOF, LEN)]:
    [((uintptr_t) (LEN) + (ALIGNVAL - 1)) & ~((uintptr_t) (ALIGNVAL - 1))] *)
Definition MAXALIGN (len : Z) : Z :=
  Z.land (len + (MAXIMUM_ALIGNOF - 1)) (Z.lnot (MAXIMUM_ALIGNOF - 1)).

(** sizes of types *)
Definition sizeof_uint8 : Z := 1.
Definition sizeof_uint16 : Z := 2.
Definition sizeof_uint32 : Z := 4.
Definition sizeof_TransactionId : Z := 4.
Definition sizeof_CommandId : Z := 4.
Definition sizeof_Oid : Z := 4.
Definition sizeof_BTCycleId : Z := 2.
Definition sizeof_PageXLogRecPtr : Z := 8.
Definition sizeof_ItemIdData : Z := 4.
Definition sizeof_PageHeaderData : Z := 24.
Definition SizeOfPageHeaderData : Z := 24.
Definition sizeof_BTPageOpaqueData : Z := 16.
Definition sizeof_HashPageOpaqueData : Z := 16.
Definition sizeof_GISTPageOpaqueData : Z := 16.
Definition sizeof_GinPageOpaqueData : Z := 8.
Definition sizeof_SpGistPageOpaqueData : Z := 8.

(** [offsetof(PageHeaderData, ...)] *)
Definition off_pd_lsn : Z := 0.
Definition off_pd_checksum : Z := 8.
Definition off_pd_flags : Z := 10.
Definition off_pd_lower : Z := 12.
Definition off_pd_upper : Z := 14.
Definition off_pd_special : Z := 16.
Definition off_pd_pagesize_version : Z := 18.
Definition off_pd_prune_xid : Z := 20.
Definition off_pd_linp : Z := 24.

Definition PD_HAS_FREE_LINES : Z := 1.
Definition PD_PAGE_FULL : Z := 2.
Definition PD_ALL_VISIBLE : Z := 4.
Definition PG_PAGE_LAYOUT_VERSION : Z := 4.

(** [storage/itemid.h] *)
Definition LP_UNUSED : Z := 0.
Definition LP_NORMAL : Z := 1.
Definition LP_REDIRECT : Z := 2.
Definition LP_DEAD : Z := 3.
Definition FirstOffsetNumber : Z := 1.

(** [offsetof(HeapTupleHeaderData, ...)] and the infomask bits *)
Definition off_t_infomask2 : Z := 18.
Definition off_t_infomask : Z := 20.
Definition off_t_hoff : Z := 22.
Definition off_t_bits : Z := 23.

Definition HEAP_HASNULL : Z := 1.
Definition HEAP_HASVARWIDTH : Z := 2.
Definition HEAP_HASEXTERNAL : Z := 4.
Definition HEAP_HASOID : Z := 8.
Definition HEAP_XMAX_KEYSHR_LOCK : Z := 16.
Definition HEAP_COMBOCID : Z := 32.
Definition HEAP_XMAX_EXCL_LOCK : Z := 64.
Definition HEAP_XMAX_LOCK_ONLY : Z := 128.
Definition HEAP_XMIN_COMMITTED : Z := 256.
Definition HEAP_XMIN_INVALID : Z := 512.
Definition HEAP_XMAX_COMMITTED : Z := 1024.
Definition HEAP_XMAX_INVALID : Z := 2048.
Definition HEAP_XMAX_IS_MULTI : Z := 4096.
Definition HEAP_UPDATED : Z := 8192.
Definition HEAP_MOVED_OFF : Z := 16384.
Definition HEAP_MOVED_IN : Z := 32768.
Definition HEAP_MOVED : Z := Z.lor HEAP_MOVED_OFF HEAP_MOVED_IN.

Definition HEAP_NATTS_MASK : Z := 2047.
Definition HEAP_KEYS_UPDATED : Z := 8192.
Definition HEAP_HOT_UPDATED : Z := 16384.
Definition HEAP_ONLY_TUPLE : Z := 32768.

(** [BITMAPLEN(NATTS)] is [(NATTS + 7) / 8] *)
Definition BITMAPLEN (natts : Z) : Z := (natts + 7) / 8.

(** [access/itup.h] *)
Definition sizeof_IndexTupleData : Z := 8.
Definition off_t_info : Z := 6.
Definition INDEX_SIZE_MASK : Z := 8191.

(** [access/nbtree.h] *)
Definition off_btpo_prev : Z := 0.
Definition off_btpo_next : Z := 4.
Definition off_btpo : Z := 8.
Definition off_btpo_flags : Z := 12.
Definition off_btpo_cycleid : Z := 14.
Definition MAX_BT_CYCLE_ID : Z := 65407.
Definition BTP_LEAF : Z := 1.
Definition BTP_ROOT : Z := 2.
Definition BTP_DELETED : Z := 4.
Definition BTP_META : Z := 8.
Definition BTP_HALF_DEAD : Z := 16.
Definition BTP_SPLIT_END : Z := 32.
Definition BTP_HAS_GARBAGE : Z := 64.
Definition BTP_INCOMPLETE_SPLIT : Z := 128.

(** [offsetof(BTMetaPageData, ...)] *)
Definition off_btm_magic : Z := 0.
Definition off_btm_version : Z := 4.
Definition off_btm_root : Z := 8.
Definition off_btm_level : Z := 12.
Definition off_btm_fastroot : Z := 16.
Definition off_btm_fastlevel : Z := 20.

(** page identifiers kept in the last two bytes of a page *)
Definition HASHO_PAGE_ID : Z := 65408.
Definition GIST_PAGE_ID : Z := 65409.
Definition SPGIST_PAGE_ID : Z := 65410.

End PG.

(* ================================================================== *)
(** ** Constants of [pg_hexedit.c] *)

Definition SEQUENCE_MAGIC : Z := 5911.     (* 0x1717 *)
Definition EOF_ENCOUNTERED : Z := -1.

Definition COLOR_BLACK := "#515A5A".
Definition COLOR_BLUE_DARK := "#2980B9".
Definition COLOR_BLUE_LIGHT := "#3498DB".
Definition COLOR_BROWN := "#97333D".
Definition COLOR_GREEN_BRIGHT := "#50E964".
Definition COLOR_GREEN_DARK := "#16A085".
Definition COLOR_GREEN_LIGHT := "#1ABC9C".
Definition COLOR_MAROON := "#E96950".
Definition COLOR_PINK := "#E949D1".
Definition COLOR_RED_DARK := "#912C21".
Definition COLOR_RED_LIGHT := "#E74C3C".
Definition COLOR_WHITE := "#CCD1D1".
Definition COLOR_YELLOW_DARK := "#F1C40F".
Definition COLOR_YELLOW_LIGHT := "#E9E850".

(** [enum blockSwitches] *)
Definition BLOCK_RANGE : Z := 32.
Definition BLOCK_CHECKSUMS : Z := 64.
Definition BLOCK_SKIP_LEAF : Z := 128.

(** [enum specialSectionTypes] *)
Inductive specialSectionTypes : Type :=
| SPEC_SECT_NONE
| SPEC_SECT_SEQUENCE
| SPEC_SECT_INDEX_BTREE
| SPEC_SECT_INDEX_HASH
| SPEC_SECT_INDEX_GIST
| SPEC_SECT_INDEX_GIN
| SPEC_SECT_INDEX_SPGIST
| SPEC_SECT_ERROR_UNKNOWN
| SPEC_SECT_ERROR_BOUNDARY.

(** the enumerator's value, as [printf("%u")] shows it *)
Definition specialSectionTypes_value (t : specialSectionTypes) : Z :=
  match t with
  | SPEC_SECT_NONE => 0
  | SPEC_SECT_SEQUENCE => 1
  | SPEC_SECT_INDEX_BTREE => 2
  | SPEC_SECT_INDEX_HASH => 3
  | SPEC_SECT_INDEX_GIST => 4
  | SPEC_SECT_INDEX_GIN => 5
  | SPEC_SECT_INDEX_SPGIST => 6
  | SPEC_SECT_ERROR_UNKNOWN => 7
  | SPEC_SECT_ERROR_BOUNDARY => 8
  end.

(** [enum formatChoice] *)
Inductive formatChoice : Type := ITEM_HEAP | ITEM_INDEX.

(* ================================================================== *)
(** ** Machine arithmetic and the block buffer *)

(** conversion to [unsigned int] / [uint32] *)
Definition u32 (z : Z) : Z := z mod 4294967296.

(** conversion to [uint16] *)
Definition u16 (z : Z) : Z := z mod 65536.

(** a C condition [(word & mask)] *)
Definition bit_set (word mask : Z) : bool := negb (Z.land word mask =? 0).

Definition byte_value (b : Byte.byte) : Z := Z.of_N (Byte.to_N b).

Definition byte_at (buf : list Byte.byte) (off : Z) : option Z :=
  if off <? 0 then None
  else option_map byte_value (nth_error buf (Z.to_nat off)).

(** the [n] bytes at [off], as a little-endian unsigned number; [None] when
    one of them lies outside the buffer *)
Fixpoint peek (n : nat) (buf : list Byte.byte) (off : Z) : option Z :=
  match n with
  | O => Some 0
  | S k =>
      match byte_at buf off, peek k buf (off + 1) with
      | Some b, Some r => Some (b + 256 * r)
      | _, _ => None
      end
  end.

(* ================================================================== *)
(** ** Output: wxHexEditor tags and the diagnostics printed between them *)

(** the three shapes of [<tag_text>] *)
Inductive tag_text : Type :=
| BlockText (blkno : Z) (level : option Z) (name : string)
    (* EmitXmlTag: "block %u (level %u) %s", or "block %u %s" *)
| TupleText (blkno offset : Z) (name : string)
    (* EmitXmlTupleTag: "(%u,%u) %s" *)
| ItemIdText (blkno offset lp_len lp_off : Z) (textFlags : string).
    (* EmitXmlItemId: "(%u,%d) lp_len: %u, lp_off: %u, lp_flags: %s " *)

Record TAG : Type := mkTAG {
  tag_id : Z;
  start_offset : Z;
  end_offset : Z;
  text : tag_text;
  note_colour : string
}.

(** the lines [printf] writes besides tags *)
Inductive message : Type :=
| ErrComputedHeaderLength (computed header : Z)
| ErrInvalidHeader
| ErrChecksumFailure (calculated : Z)
| ErrEndOfBlockInHeader (bytesRead : Z)
| MsgEmptyBlock
| ErrItemIndexCorrupt (maxOffset : Z)
| ErrItemBeyondBlock (blockSize bytesRead itemEnd : Z)
| ErrInvalidSpecial
| MsgUnsupportedSpecial (type : Z)
| ErrSeek (blockStart : Z)
| ErrPrematureEof
| ErrReadBlock0 (bytesRead : Z)
| MsgFooter.

Inductive output : Type :=
| OutTag (t : TAG)
| OutMsg (m : message).

(** the tags of an output, in the order they were written *)
Fixpoint tags_of (out : list output) : list TAG :=
  match out with
  | [] => []
  | OutTag t :: rest => t :: tags_of rest
  | OutMsg _ :: rest => tags_of rest
  end.

Fixpoint messages_of (out : list output) : list message :=
  match out with
  | [] => []
  | OutTag _ :: rest => messages_of rest
  | OutMsg m :: rest => m :: messages_of rest
  end.

(* ================================================================== *)
(** ** The file-scope variables *)

Record globals : Type := mkGlobals {
  blockStart : Z;            (* -R[start] *)
  blockEnd : Z;              (* -R[end] *)
  specialType : specialSectionTypes;
  blockOptions : Z;
  buffer : list Byte.byte;        (* cache for current block, malloc(blockSize) *)
  blockSize : Z;
  currentBlock : Z;
  segmentSize : Z;
  segmentNumber : Z;
  tagNumber : Z;
  pageOffset : Z;
  bytesToFormat : Z;
  blockVersion : Z;
  exitCode : Z;
  stdout : list output       (* what printf has written so far *)
}.

Definition set_specialType (v : specialSectionTypes) (g : globals) : globals :=
  mkGlobals (blockStart g) (blockEnd g) v (blockOptions g) (buffer g)
    (blockSize g) (currentBlock g) (segmentSize g) (segmentNumber g)
    (tagNumber g) (pageOffset g) (bytesToFormat g) (blockVersion g)
    (exitCode g) (stdout g).

Definition set_buffer (v : list Byte.byte) (g : globals) : globals :=
  mkGlobals (blockStart g) (blockEnd g) (specialType g) (blockOptions g) v
    (blockSize g) (currentBlock g) (segmentSize g) (segmentNumber g)
    (tagNumber g) (pageOffset g) (bytesToFormat g) (blockVersion g)
    (exitCode g) (stdout g).

Definition set_currentBlock (v : Z) (g : globals) : globals :=
  mkGlobals (blockStart g) (blockEnd g) (specialType g) (blockOptions g)
    (buffer g) (blockSize g) v (segmentSize g) (segmentNumber g)
    (tagNumber g) (pageOffset g) (bytesToFormat g) (blockVersion g)
    (exitCode g) (stdout g).

Definition set_tagNumber (v : Z) (g : globals) : globals :=
  mkGlobals (blockStart g) (blockEnd g) (specialType g) (blockOptions g)
    (buffer g) (blockSize g) (currentBlock g) (segmentSize g)
    (segmentNumber g) v (pageOffset g) (bytesToFormat g) (blockVersion g)
    (exitCode g) (stdout g).

Definition set_pageOffset (v : Z) (g : globals) : globals :=
  mkGlobals (blockStart g) (blockEnd g) (specialType g) (blockOptions g)
    (buffer g) (blockSize g) (currentBlock g) (segmentSize g)
    (segmentNumber g) (tagNumber g) v (bytesToFormat g) (blockVersion g)
    (exitCode g) (stdout g).

Definition set_bytesToFormat (v : Z) (g : globals) : globals :=
  mkGlobals (blockStart g) (blockEnd g) (specialType g) (blockOptions g)
    (buffer g) (blockSize g) (currentBlock g) (segmentSize g)
    (segmentNumber g) (tagNumber g) (pageOffset g) v (blockVersion g)
    (exitCode g) (stdout g).

Definition set_blockVersion (v : Z) (g : globals) : globals :=
  mkGlobals (blockStart g) (blockEnd g) (specialType g) (blockOptions g)
    (buffer g) (blockSize g) (currentBlock g) (segmentSize g)
    (segmentNumber g) (tagNumber g) (pageOffset g) (bytesToFormat g) v
    (exitCode g) (stdout g).

Definition set_exitCode (v : Z) (g : globals) : globals :=
  mkGlobals (blockStart g) (blockEnd g) (specialType g) (blockOptions g)
    (buffer g) (blockSize g) (currentBlock g) (segmentSize g)
    (segmentNumber g) (tagNumber g) (pageOffset g) (bytesToFormat g)
    (blockVersion g) v (stdout g).

Definition set_stdout (v : list output) (g : globals) : globals :=
  mkGlobals (blockStart g) (blockEnd g) (specialType g) (blockOptions g)
    (buffer g) (blockSize g) (currentBlock g) (segmentSize g)
    (segmentNumber g) (tagNumber g) (pageOffset g) (bytesToFormat g)
    (blockVersion g) (exitCode g) v.

(* ================================================================== *)
(** ** The monad of the program's functions *)

Inductive outcome (A : Type) : Type :=
| Ret (a : A) (g : globals)   (* the function returned [a] *)
| Exit (g : globals)          (* exit(exitCode) was called *)
| Fault (g : globals).        (* a read outside the block buffer, or a
                                 write outside a [char] array, in [g] *)

Arguments Ret {A} a g.
Arguments Exit {A} g.
Arguments Fault {A} g.

Definition M (A : Type) : Type := globals -> outcome A.

Definition ret {A} (a : A) : M A := fun g => Ret a g.

Definition bind {A B} (m : M A) (k : A -> M B) : M B :=
  fun g =>
    match m g with
    | Ret a g' => k a g'
    | Exit g' => Exit g'
    | Fault g' => Fault g'
    end.

Notation "x <- m ;; k" := (bind m (fun x => k))
  (at level 61, m at next level, right associativity).
Notation "m ;; k" := (bind m (fun _ => k))
  (at level 61, right associativity).

Definition get {A} (f : globals -> A) : M A := fun g => Ret (f g) g.
Definition modify (f : globals -> globals) : M unit := fun g => Ret tt (f g).

(** [exit(exitCode)] *)
Definition exit {A} : M A := fun g => Exit g.

(** the file-scope variables an outcome ends with *)
Definition final {A} (o : outcome A) : globals :=
  match o with
  | Ret _ g => g
  | Exit g => g
  | Fault g => g
  end.

(** [printf] of a diagnostic *)
Definition say (m : message) (g : globals) : globals :=
  set_stdout (stdout g ++ [OutMsg m]) g.

Definition printf (m : message) : M unit := modify (say m).

(** a read of [n] bytes of the block buffer at offset [off] *)
Definition load (n : nat) (off : Z) : M Z :=
  fun g =>
    match peek n (buffer g) off with
    | Some v => Ret v g
    | None => Fault g
    end.

(** the calls of [strcat] that build [built] in a [char] array of [size]
    bytes: the text and its final NUL are written past the end of the array
    when they take more than [size] bytes *)
Definition strcat_into (size : Z) (built : string) : M unit :=
  fun g =>
    if Z.of_nat (String.length built) + 1 <=? size then Ret tt g
    else Fault g.

(** C's [a && b], whose right operand is evaluated only when needed *)
Definition andM (a : bool) (b : M bool) : M bool :=
  if a then b else ret false.

(** [for (offset = first; offset <= maxOffset; offset = OffsetNumberNext(offset))],
    unrolled [n] times *)
Fixpoint for_offsets (n : nat) (offset : Z) (body : Z -> M unit) : M unit :=
  match n with
  | O => ret tt
  | S k => body offset ;; for_offsets k (offset + 1) body
  end.

(* ================================================================== *)
(** ** Strings built with [strcat] *)

Definition strcat (dst src : string) : string := String.append dst src.

(** [if (word & mask) strcat(flagString, name);] *)
Definition strcat_flag (word mask : Z) (name : string) (flagString : string)
  : string :=
  if bit_set word mask then strcat flagString name else flagString.

(** [if (strlen(flagString)) flagString[strlen(flagString) - 1] = '\0';] *)
Fixpoint chop_last (s : string) : string :=
  match s with
  | EmptyString => EmptyString
  | String c EmptyString => EmptyString
  | String c rest => String c (chop_last rest)
  end.

(* ================================================================== *)
(** ** Accessors of [storage/bufpage.h] and [storage/itemid.h]

    The page is always the block buffer. *)

Definition pd_checksum : M Z := load 2 PG.off_pd_checksum.
Definition pd_flags : M Z := load 2 PG.off_pd_flags.
Definition pd_lower : M Z := load 2 PG.off_pd_lower.
Definition pd_upper : M Z := load 2 PG.off_pd_upper.
Definition pd_special : M Z := load 2 PG.off_pd_special.
Definition pd_pagesize_version : M Z := load 2 PG.off_pd_pagesize_version.

(** [(Size) (pd_pagesize_version & (uint16) 0xFF00)] *)
Definition page_size_of (pagesize_version : Z) : Z :=
  Z.land pagesize_version 65280.

Definition PageGetPageSize : M Z :=
  v <- pd_pagesize_version ;; ret (page_size_of v).

(** [(uint8) (pd_pagesize_version & 0x00FF)] *)
Definition PageGetPageLayoutVersion : M Z :=
  v <- pd_pagesize_version ;; ret (Z.land v 255).

(** [(uint16) (PageGetPageSize(page) - pd_special)] *)
Definition PageGetSpecialSize : M Z :=
  sz <- PageGetPageSize ;;
  sp <- pd_special ;;
  ret (u16 (sz - sp)).

(** [pd_lower <= SizeOfPageHeaderData ? 0 :
     (pd_lower - SizeOfPageHeaderData) / sizeof(ItemIdData)] *)
Definition max_offset_of (lower : Z) : Z :=
  if lower <=? PG.SizeOfPageHeaderData then 0
  else (lower - PG.SizeOfPageHeaderData) / PG.sizeof_ItemIdData.

Definition PageGetMaxOffsetNumber : M Z :=
  lo <- pd_lower ;; ret (max_offset_of lo).

(** the line pointer [pd_linp[offset - 1]], as its 32-bit word *)
Definition PageGetItemId (offset : Z) : M Z :=
  load 4 (PG.off_pd_linp + PG.sizeof_ItemIdData * (offset - 1)).

(** [unsigned lp_off:15, lp_flags:2, lp_len:15] *)
Definition ItemIdGetOffset (itemId : Z) : Z := Z.land itemId 32767.
Definition ItemIdGetFlags (itemId : Z) : Z := Z.land (Z.shiftr itemId 15) 3.
Definition ItemIdGetLength (itemId : Z) : Z :=
  Z.land (Z.shiftr itemId 17) 32767.

(** [(t_info & INDEX_SIZE_MASK)] *)
Definition IndexTupleSize (t_info : Z) : Z := Z.land t_info PG.INDEX_SIZE_MASK.

(* ================================================================== *)
(** ** [GetBlockSize]

    [head] is what [fread(&localCache, 1, pageHeaderSize, fp)] delivered. *)

Definition GetBlockSize (head : list Byte.byte) : M Z :=
  let pageHeaderSize := PG.sizeof_PageHeaderData in
  let bytesRead := Z.of_nat (List.length head) in
  if bytesRead =? pageHeaderSize then
    match peek 2 head PG.off_pd_pagesize_version with
    | Some v => ret (page_size_of v)
    | None => ret 0
    end
  else
    printf (ErrReadBlock0 bytesRead) ;;
    modify (set_exitCode 1) ;;
    ret 0.

(* ================================================================== *)
(** ** [GetSpecialSectionType] *)

Definition GetSpecialSectionType : M specialSectionTypes :=
  btf <- get bytesToFormat ;;
  if PG.sizeof_PageHeaderData <? btf then
    specialOffset <- pd_special ;;
    bs <- get blockSize ;;
    if (specialOffset =? 0) || (bs <? specialOffset) || (btf <? specialOffset)
    then ret SPEC_SECT_ERROR_BOUNDARY
    else
      (* ptype points at the last two bytes of the page *)
      let ptype := load 2 (bs - PG.sizeof_uint16) in
      let specialSize := u32 (bs - specialOffset) in
      if specialSize =? 0 then ret SPEC_SECT_NONE
      else if specialSize =? PG.MAXALIGN PG.sizeof_uint32 then
        if btf =? bs then
          specialValue <- load 4 specialOffset ;;
          if specialValue =? SEQUENCE_MAGIC then ret SPEC_SECT_SEQUENCE
          else
            isSpGist <- andM (specialSize =? PG.MAXALIGN PG.sizeof_SpGistPageOpaqueData)
                          (p <- ptype ;; ret (p =? PG.SPGIST_PAGE_ID)) ;;
            if isSpGist then ret SPEC_SECT_INDEX_SPGIST
            else if specialSize =? PG.MAXALIGN PG.sizeof_GinPageOpaqueData
            then ret SPEC_SECT_INDEX_GIN
            else ret SPEC_SECT_ERROR_UNKNOWN
        else ret SPEC_SECT_ERROR_UNKNOWN
      else
        isSpGist <- andM (specialSize =? PG.MAXALIGN PG.sizeof_SpGistPageOpaqueData)
                      (andM (btf =? bs)
                         (p <- ptype ;; ret (p =? PG.SPGIST_PAGE_ID))) ;;
        if isSpGist then ret SPEC_SECT_INDEX_SPGIST
        else if specialSize =? PG.MAXALIGN PG.sizeof_GinPageOpaqueData
        then ret SPEC_SECT_INDEX_GIN
        else if (2 <? specialSize) && (btf =? bs) then
          p <- ptype ;;
          if (p <=? PG.MAX_BT_CYCLE_ID)
             && (specialSize =? PG.MAXALIGN PG.sizeof_BTPageOpaqueData)
          then ret SPEC_SECT_INDEX_BTREE
          else if (p =? PG.HASHO_PAGE_ID)
                  && (specialSize =? PG.MAXALIGN PG.sizeof_HashPageOpaqueData)
          then ret SPEC_SECT_INDEX_HASH
          else if (p =? PG.GIST_PAGE_ID)
                  && (specialSize =? PG.MAXALIGN PG.sizeof_GISTPageOpaqueData)
          then ret SPEC_SECT_INDEX_GIST
          else ret SPEC_SECT_ERROR_UNKNOWN
        else ret SPEC_SECT_ERROR_UNKNOWN
  else ret SPEC_SECT_ERROR_UNKNOWN.

(* ================================================================== *)
(** ** [GetHeapTupleHeaderFlags]

    [htup] is the tuple header's offset in the block buffer.  The failure of
    [malloc(512)] is not modelled. *)

Definition infomask_string (t_infomask : Z) : string :=
  let s := strcat "" "t_infomask ( " in
  let s := strcat_flag t_infomask PG.HEAP_HASNULL "HEAP_HASNULL|" s in
  let s := strcat_flag t_infomask PG.HEAP_HASVARWIDTH "HEAP_HASVARWIDTH|" s in
  let s := strcat_flag t_infomask PG.HEAP_HASEXTERNAL "HEAP_HASEXTERNAL|" s in
  let s := strcat_flag t_infomask PG.HEAP_HASOID "HEAP_HASOID|" s in
  let s := strcat_flag t_infomask PG.HEAP_XMAX_KEYSHR_LOCK "HEAP_XMAX_KEYSHR_LOCK|" s in
  let s := strcat_flag t_infomask PG.HEAP_COMBOCID "HEAP_COMBOCID|" s in
  let s := strcat_flag t_infomask PG.HEAP_XMAX_EXCL_LOCK "HEAP_XMAX_EXCL_LOCK|" s in
  let s := strcat_flag t_infomask PG.HEAP_XMAX_LOCK_ONLY "HEAP_XMAX_LOCK_ONLY|" s in
  let s := strcat_flag t_infomask PG.HEAP_XMIN_COMMITTED "HEAP_XMIN_COMMITTED|" s in
  let s := strcat_flag t_infomask PG.HEAP_XMIN_INVALID "HEAP_XMIN_INVALID|" s in
  let s := strcat_flag t_infomask PG.HEAP_XMAX_COMMITTED "HEAP_XMAX_COMMITTED|" s in
  let s := strcat_flag t_infomask PG.HEAP_XMAX_INVALID "HEAP_XMAX_INVALID|" s in
  let s := strcat_flag t_infomask PG.HEAP_XMAX_IS_MULTI "HEAP_XMAX_IS_MULTI|" s in
  let s := strcat_flag t_infomask PG.HEAP_UPDATED "HEAP_UPDATED|" s in
  let s := strcat_flag t_infomask PG.HEAP_MOVED_OFF "HEAP_MOVED_OFF|" s in
  let s := strcat_flag t_infomask PG.HEAP_MOVED_IN "HEAP_MOVED_IN|" s in
  strcat (chop_last s) " )".

Definition infomask2_string (t_infomask2 : Z) : string :=
  let s := strcat "" "t_infomask2 ( " in
  let s := strcat_flag t_infomask2 PG.HEAP_KEYS_UPDATED "HEAP_KEYS_UPDATED|" s in
  let s := strcat_flag t_infomask2 PG.HEAP_HOT_UPDATED "HEAP_HOT_UPDATED|" s in
  let s := strcat_flag t_infomask2 PG.HEAP_ONLY_TUPLE "HEAP_ONLY_TUPLE|" s in
  strcat (chop_last s) " )".

Definition GetHeapTupleHeaderFlags (htup : Z) (isInfomask2 : bool) : M string :=
  localHoff <- load 1 (htup + PG.off_t_hoff) ;;
  let localBitOffset := PG.off_t_bits in
  flagString <-
    (if negb isInfomask2 then
       t_infomask <- load 2 (htup + PG.off_t_infomask) ;;
       ret (infomask_string t_infomask)
     else
       t_infomask2 <- load 2 (htup + PG.off_t_infomask2) ;;
       ret (infomask2_string t_infomask2)) ;;
  t_infomask <- load 2 (htup + PG.off_t_infomask) ;;
  bitmapLength <-
    (if bit_set t_infomask PG.HEAP_HASNULL then
       t_infomask2 <- load 2 (htup + PG.off_t_infomask2) ;;
       ret (PG.BITMAPLEN (Z.land t_infomask2 PG.HEAP_NATTS_MASK))
     else ret 0) ;;
  let oidLength := if bit_set t_infomask PG.HEAP_HASOID then PG.sizeof_Oid else 0 in
  let computedLength := PG.MAXALIGN (localBitOffset + bitmapLength + oidLength) in
  (if negb (computedLength =? localHoff) then
     printf (ErrComputedHeaderLength computedLength localHoff) ;;
     modify (set_exitCode 1)
   else ret tt) ;;
  ret flagString.

(* ================================================================== *)
(** ** [IsBtreeMetaPage] *)

Definition IsBtreeMetaPage : M bool :=
  specialSize <- PageGetSpecialSize ;;
  btf <- get bytesToFormat ;;
  bs <- get blockSize ;;
  if (specialSize =? PG.MAXALIGN PG.sizeof_BTPageOpaqueData) && (btf =? bs) then
    sp <- pd_special ;;
    btpo_cycleid <- load 2 (sp + PG.off_btpo_cycleid) ;;
    if btpo_cycleid <=? PG.MAX_BT_CYCLE_ID then
      btpo_flags <- load 2 (sp + PG.off_btpo_flags) ;;
      if bit_set btpo_flags PG.BTP_META then ret true else ret false
    else ret false
  else ret false.

(* ================================================================== *)
(** ** The three tag writers

    Each writes one [<TAG>] whose id is [tagNumber++].  The offsets are
    [uint32] parameters: the arguments are converted on the way in. *)

Definition push (start_offset end_offset : Z) (text : tag_text)
    (note_colour : string) (g : globals) : globals :=
  set_tagNumber (u32 (tagNumber g + 1))
    (set_stdout
       (stdout g
        ++ [OutTag (mkTAG (tagNumber g) start_offset end_offset text
                      note_colour)])
       g).

Definition emit (start_offset end_offset : Z) (text : tag_text)
    (note_colour : string) : M unit :=
  modify (push start_offset end_offset text note_colour).

Definition EmitXmlTag (blkno level : Z) (name color : string)
    (relfileOff relfileOffEnd : Z) : M unit :=
  emit (u32 relfileOff) (u32 relfileOffEnd)
    (BlockText blkno (if level =? PG.UINT_MAX then None else Some level) name)
    color.

Definition EmitXmlTupleTag (blkno offset : Z) (name color : string)
    (relfileOff relfileOffEnd : Z) : M unit :=
  emit (u32 relfileOff) (u32 relfileOffEnd) (TupleText blkno offset name)
    color.

(** the end offset is computed in [size_t] and printed with [%lu] *)
Definition EmitXmlItemId (blkno offset itemId relfileOff : Z)
    (textFlags : string) : M unit :=
  emit (u32 relfileOff) ((u32 relfileOff + PG.sizeof_ItemIdData) - 1)
    (ItemIdText blkno offset (ItemIdGetLength itemId) (ItemIdGetOffset itemId)
       textFlags)
    COLOR_BLUE_LIGHT.

(* ================================================================== *)
(** ** [EmitXmlHeapTuple]

    [htup] is the tuple header's offset in the block buffer. *)

Definition EmitXmlHeapTuple (blkno offset htup relfileOff itemSize : Z)
  : M unit :=
  let relfileOff := u32 relfileOff in
  let relfileOffOrig := relfileOff in
  let relfileOffNext := u32 (relfileOff + PG.sizeof_TransactionId) in
  EmitXmlTupleTag blkno offset "xmin" COLOR_RED_LIGHT relfileOff
    (relfileOffNext - 1) ;;
  let relfileOff := relfileOffNext in
  let relfileOffNext := u32 (relfileOffNext + PG.sizeof_TransactionId) in
  EmitXmlTupleTag blkno offset "xmax" COLOR_RED_LIGHT relfileOff
    (relfileOffNext - 1) ;;
  let relfileOff := relfileOffNext in
  t_infomask <- load 2 (htup + PG.off_t_infomask) ;;
  relfileOffNext <-
    (if negb (bit_set t_infomask PG.HEAP_MOVED) then
       let relfileOffNext := u32 (relfileOffNext + PG.sizeof_CommandId) in
       EmitXmlTupleTag blkno offset "t_cid" COLOR_RED_DARK relfileOff
         (relfileOffNext - 1) ;;
       ret relfileOffNext
     else
       let relfileOffNext := u32 (relfileOffNext + PG.sizeof_TransactionId) in
       EmitXmlTupleTag blkno offset "t_xvac" COLOR_PINK relfileOff
         (relfileOffNext - 1) ;;
       ret relfileOffNext) ;;
  let relfileOff := relfileOffNext in
  let relfileOffNext := u32 (relfileOffNext + PG.sizeof_uint16) in
  EmitXmlTupleTag blkno offset "t_ctid->bi_hi" COLOR_BLUE_LIGHT relfileOff
    (relfileOffNext - 1) ;;
  let relfileOff := relfileOffNext in
  let relfileOffNext := u32 (relfileOffNext + PG.sizeof_uint16) in
  EmitXmlTupleTag blkno offset "t_ctid->bi_lo" COLOR_BLUE_LIGHT relfileOff
    (relfileOffNext - 1) ;;
  let relfileOff := relfileOffNext in
  let relfileOffNext := u32 (relfileOffNext + PG.sizeof_uint16) in
  EmitXmlTupleTag blkno offset "t_ctid->offsetNumber" COLOR_BLUE_DARK
    relfileOff (relfileOffNext - 1) ;;
  flagString <- GetHeapTupleHeaderFlags htup true ;;
  let relfileOff := relfileOffNext in
  let relfileOffNext := u32 (relfileOffNext + PG.sizeof_uint16) in
  EmitXmlTupleTag blkno offset flagString COLOR_GREEN_LIGHT relfileOff
    (relfileOffNext - 1) ;;
  flagString <- GetHeapTupleHeaderFlags htup false ;;
  let relfileOff := relfileOffNext in
  let relfileOffNext := u32 (relfileOffNext + PG.sizeof_uint16) in
  EmitXmlTupleTag blkno offset flagString COLOR_GREEN_DARK relfileOff
    (relfileOffNext - 1) ;;
  let relfileOff := relfileOffNext in
  let relfileOffNext := u32 (relfileOffNext + PG.sizeof_uint8) in
  EmitXmlTupleTag blkno offset "t_hoff" COLOR_YELLOW_DARK relfileOff
    (relfileOffNext - 1) ;;
  let relfileOff := relfileOffNext in
  t_hoff <- load 1 (htup + PG.off_t_hoff) ;;
  let relfileOffNext := u32 (relfileOffOrig + t_hoff) in
  EmitXmlTupleTag blkno offset "t_bits" COLOR_YELLOW_DARK relfileOff
    (relfileOffNext - 1) ;;
  let relfileOff := relfileOffNext in
  EmitXmlTupleTag blkno offset "contents" COLOR_WHITE relfileOff
    ((relfileOffOrig + itemSize) - 1).

(* ================================================================== *)
(** ** [EmitXmlIndexTuple]

    [tuple] is the index tuple's offset in the block buffer. *)

Definition EmitXmlIndexTuple (blkno offset tuple relfileOff : Z) : M unit :=
  let relfileOff := u32 relfileOff in
  let relfileOffOrig := relfileOff in
  let relfileOffNext := u32 (relfileOff + PG.sizeof_uint16) in
  EmitXmlTupleTag blkno offset "t_tid->bi_hi" COLOR_BLUE_LIGHT relfileOff
    (relfileOffNext - 1) ;;
  let relfileOff := relfileOffNext in
  let relfileOffNext := u32 (relfileOffNext + PG.sizeof_uint16) in
  EmitXmlTupleTag blkno offset "t_tid->bi_lo" COLOR_BLUE_LIGHT relfileOff
    (relfileOffNext - 1) ;;
  let relfileOff := relfileOffNext in
  let relfileOffNext := u32 (relfileOffNext + PG.sizeof_uint16) in
  EmitXmlTupleTag blkno offset "t_tid->offsetNumber" COLOR_BLUE_DARK
    relfileOff (relfileOffNext - 1) ;;
  let relfileOff := relfileOffNext in
  let relfileOffNext := u32 (relfileOffNext + PG.sizeof_uint16) in
  EmitXmlTupleTag blkno offset "t_info" COLOR_YELLOW_DARK relfileOff
    (relfileOffNext - 1) ;;
  (* tuple contents -- "minus infinity" items have none *)
  let relfileOff := relfileOffNext in
  t_info <- load 2 (tuple + PG.off_t_info) ;;
  let relfileOffNext := u32 (relfileOffOrig + IndexTupleSize t_info) in
  if relfileOff <? relfileOffNext then
    EmitXmlTupleTag blkno offset "contents" COLOR_WHITE relfileOff
      (relfileOffNext - 1)
  else ret tt.

(* ================================================================== *)
(** ** [EmitXmlPageHeader], [EmitXmlTuples], [EmitXmlSpecial],
       [EmitXmlPage], [EmitXmlFile] *)

(** the [switch (itemFlags)] of [EmitXmlPageHeader]; two bits have no fifth
    value, so its [default] is not reached *)
Definition textFlags_of (itemFlags : Z) : string :=
  if itemFlags =? PG.LP_UNUSED then "LP_UNUSED"
  else if itemFlags =? PG.LP_NORMAL then "LP_NORMAL"
  else if itemFlags =? PG.LP_REDIRECT then "LP_REDIRECT"
  else if itemFlags =? PG.LP_DEAD then "LP_DEAD"
  else "0x??".

Definition pd_flags_string (flags : Z) : string :=
  let s := strcat "" "pd_flags - " in
  let s := strcat_flag flags PG.PD_HAS_FREE_LINES "PD_HAS_FREE_LINES|" s in
  let s := strcat_flag flags PG.PD_PAGE_FULL "PD_PAGE_FULL|" s in
  let s := strcat_flag flags PG.PD_ALL_VISIBLE "PD_ALL_VISIBLE|" s in
  chop_last s.

(** what the calls of [strcat] in [EmitXmlSpecial] build in
    [flagString], before its last character is cut off *)
Definition btpo_flags_built (flags : Z) : string :=
  let s := strcat "" "btpo_flags - " in
  let s := strcat_flag flags PG.BTP_LEAF "BTP_LEAF|" s in
  let s := strcat_flag flags PG.BTP_ROOT "BTP_ROOT|" s in
  let s := strcat_flag flags PG.BTP_DELETED "BTP_DELETED|" s in
  let s := strcat_flag flags PG.BTP_META "BTP_META|" s in
  let s := strcat_flag flags PG.BTP_HALF_DEAD "BTP_HALF_DEAD|" s in
  let s := strcat_flag flags PG.BTP_SPLIT_END "BTP_SPLIT_END|" s in
  let s := strcat_flag flags PG.BTP_HAS_GARBAGE "BTP_HAS_GARBAGE|" s in
  strcat_flag flags PG.BTP_INCOMPLETE_SPLIT "BTP_INCOMPLETE_SPLIT|" s.

Definition btpo_flags_string (flags : Z) : string :=
  chop_last (btpo_flags_built flags).

(** the eight tags of the fixed page header *)
Definition EmitXmlPageHeader_fields (blkno level : Z) : M unit :=
  pageOffset' <- get pageOffset ;;
  EmitXmlTag blkno level "LSN" COLOR_YELLOW_LIGHT
    pageOffset'
    ((pageOffset' + PG.sizeof_PageXLogRecPtr) - 1) ;;
  EmitXmlTag blkno level "checksum" COLOR_GREEN_BRIGHT
    (pageOffset' + PG.off_pd_checksum)
    ((pageOffset' + PG.off_pd_flags) - 1) ;;
  flags <- pd_flags ;;
  EmitXmlTag blkno level (pd_flags_string flags) COLOR_YELLOW_DARK
    (pageOffset' + PG.off_pd_flags)
    ((pageOffset' + PG.off_pd_lower) - 1) ;;
  EmitXmlTag blkno level "pd_lower" COLOR_MAROON
    (pageOffset' + PG.off_pd_lower)
    ((pageOffset' + PG.off_pd_upper) - 1) ;;
  EmitXmlTag blkno level "pd_upper" COLOR_MAROON
    (pageOffset' + PG.off_pd_upper)
    ((pageOffset' + PG.off_pd_special) - 1) ;;
  EmitXmlTag blkno level "pd_special" COLOR_GREEN_BRIGHT
    (pageOffset' + PG.off_pd_special)
    ((pageOffset' + PG.off_pd_pagesize_version) - 1) ;;
  EmitXmlTag blkno level "pd_pagesize_version" COLOR_BROWN
    (pageOffset' + PG.off_pd_pagesize_version)
    ((pageOffset' + PG.off_pd_prune_xid) - 1) ;;
  EmitXmlTag blkno level "pd_prune_xid" COLOR_RED_LIGHT
    (pageOffset' + PG.off_pd_prune_xid)
    ((pageOffset' + PG.off_pd_linp) - 1).

(** the six tags of the meta block of a btree meta page *)
Definition EmitXmlPageHeader_meta (blkno level : Z) : M unit :=
  pageOffset' <- get pageOffset ;;
  let metaStartOffset := u32 (pageOffset' + PG.MAXALIGN PG.SizeOfPageHeaderData) in
  EmitXmlTag blkno level "btm_magic" COLOR_PINK
    (metaStartOffset + PG.off_btm_magic)
    (metaStartOffset + PG.off_btm_version - 1) ;;
  EmitXmlTag blkno level "btm_version" COLOR_PINK
    (metaStartOffset + PG.off_btm_version)
    (metaStartOffset + PG.off_btm_root - 1) ;;
  EmitXmlTag blkno level "btm_root" COLOR_PINK
    (metaStartOffset + PG.off_btm_root)
    (metaStartOffset + PG.off_btm_level - 1) ;;
  EmitXmlTag blkno level "btm_level" COLOR_PINK
    (metaStartOffset + PG.off_btm_level)
    (metaStartOffset + PG.off_btm_fastroot - 1) ;;
  EmitXmlTag blkno level "btm_fastroot" COLOR_PINK
    (metaStartOffset + PG.off_btm_fastroot)
    (metaStartOffset + PG.off_btm_fastlevel - 1) ;;
  EmitXmlTag blkno level "btm_fastlevel" COLOR_PINK
    (metaStartOffset + PG.off_btm_fastlevel)
    (metaStartOffset + PG.off_btm_fastlevel + PG.sizeof_uint32 - 1).

(** the body of the loop over the line pointers *)
Definition EmitXmlPageHeader_item (blkno headerBytes offset : Z) : M unit :=
  itemId <- PageGetItemId offset ;;
  let itemFlags := ItemIdGetFlags itemId in
  let textFlags := textFlags_of itemFlags in
  pageOffset' <- get pageOffset ;;
  EmitXmlItemId blkno offset itemId
    (pageOffset' + headerBytes + (PG.sizeof_ItemIdData * (offset - 1)))
    textFlags.

Section Engine.

(** [pg_checksum_page] of PostgreSQL's [storage/checksum_impl.h], applied to
    the block buffer and a block number *)
Variable pg_checksum_page : list Byte.byte -> Z -> Z.

(** the checks [EmitXmlPageHeader] ends with: the header's bounds, and
    the checksum when asked for *)
Definition EmitXmlPageHeader_checks (blkno maxOffset : Z) : M unit :=
  bs <- get blockSize ;;
  blockVersion' <- get blockVersion ;;
  upper <- pd_upper ;;
  special <- pd_special ;;
  lower <- pd_lower ;;
  (if (maxOffset <? 0)
      || (bs <? maxOffset)
      || negb (blockVersion' =? PG.PG_PAGE_LAYOUT_VERSION)
      || (bs <? upper)
      || (special <? upper)
      || (lower <? PG.sizeof_PageHeaderData - PG.sizeof_ItemIdData)
      || (bs <? lower)
      || (upper <? lower)
      || (bs <? special)
   then printf ErrInvalidHeader ;; modify (set_exitCode 1)
   else ret tt) ;;
  blockOptions' <- get blockOptions ;;
  if bit_set blockOptions' BLOCK_CHECKSUMS then
    segmentSize' <- get segmentSize ;;
    segmentNumber' <- get segmentNumber ;;
    let delta := u32 ((segmentSize' / bs) * segmentNumber') in
    page <- get buffer ;;
    let calc_checksum := pg_checksum_page page (u32 (delta + blkno)) in
    checksum <- pd_checksum ;;
    if negb (calc_checksum =? checksum) then
      printf (ErrChecksumFailure calc_checksum) ;;
      modify (set_exitCode 1)
    else ret tt
  else ret tt.

(** what [EmitXmlPageHeader] does when the header without its line
    pointers was read; [btf] is [bytesToFormat] *)
Definition EmitXmlPageHeader_body (blkno level btf : Z) : M Z :=
  maxOffset <- PageGetMaxOffsetNumber ;;
  let headerBytes := PG.off_pd_linp in
  v <- PageGetPageLayoutVersion ;;
  modify (set_blockVersion v) ;;
  (* We don't count itemidarray as header *)
  let itemsLength := u32 (maxOffset * PG.sizeof_ItemIdData) in
  let partial := (0 <? maxOffset) && (btf <? headerBytes + itemsLength) in
  let headerBytes := if partial then btf else headerBytes in
  let rc := if partial then EOF_ENCOUNTERED else 0 in
  EmitXmlPageHeader_fields blkno level ;;
  isMeta <- IsBtreeMetaPage ;;
  (if isMeta then
     EmitXmlPageHeader_meta blkno level
     (* headerBytes += sizeof(BTMetaPageData), not read afterwards *)
   else
     for_offsets (Z.to_nat maxOffset) PG.FirstOffsetNumber
       (EmitXmlPageHeader_item blkno headerBytes)) ;;
  EmitXmlPageHeader_checks blkno maxOffset ;;
  ret rc.

Definition EmitXmlPageHeader (blkno level : Z) : M Z :=
  btf <- get bytesToFormat ;;
  rc <-
    (if btf <? PG.off_pd_linp then
       (* headerBytes = bytesToFormat *)
       ret EOF_ENCOUNTERED
     else EmitXmlPageHeader_body blkno level btf) ;;
  (if rc =? EOF_ENCOUNTERED then
     printf (ErrEndOfBlockInHeader btf) ;;
     modify (set_exitCode 1)
   else ret tt) ;;
  ret rc.

(** the body of the loop over the items *)
Definition EmitXmlTuples_item (blkno : Z) (formatAs : formatChoice)
    (offset : Z) : M unit :=
  itemId <- PageGetItemId offset ;;
  let itemSize := ItemIdGetLength itemId in
  let itemOffset := ItemIdGetOffset itemId in
  bs <- get blockSize ;;
  btf <- get bytesToFormat ;;
  pageOffset' <- get pageOffset ;;
  match formatAs with
  | ITEM_HEAP =>
      if (bs <? u32 (itemOffset + itemSize))
         || (btf <? u32 (itemOffset + itemSize))
      then
        printf (ErrItemBeyondBlock bs btf (u32 (itemOffset + itemSize))) ;;
        modify (set_exitCode 1) ;;
        exit
      else if negb (itemSize =? 0) then
        (* htup = PageGetItem(page, itemId) *)
        EmitXmlHeapTuple blkno offset itemOffset (pageOffset' + itemOffset)
          itemSize
      else ret tt
  | ITEM_INDEX =>
      (* tuple = PageGetItem(page, itemId) *)
      EmitXmlIndexTuple blkno offset itemOffset (pageOffset' + itemOffset)
  end.

Definition EmitXmlTuples (blkno : Z) : M unit :=
  maxOffset <- PageGetMaxOffsetNumber ;;
  isMeta <- IsBtreeMetaPage ;;
  if isMeta then ret tt
  else
    bs <- get blockSize ;;
    if maxOffset =? 0 then
      printf MsgEmptyBlock ;;
      modify (set_exitCode 1) ;;
      exit
    else if (maxOffset <? 0) || (bs <? maxOffset) then
      printf (ErrItemIndexCorrupt maxOffset) ;;
      modify (set_exitCode 1) ;;
      exit
    else
      specialType' <- get specialType ;;
      formatAs <-
        match specialType' with
        | SPEC_SECT_INDEX_HASH
        | SPEC_SECT_INDEX_GIST
        | SPEC_SECT_INDEX_GIN
        | SPEC_SECT_INDEX_SPGIST =>
            modify (set_exitCode 1) ;;
            exit
        | SPEC_SECT_INDEX_BTREE => ret ITEM_INDEX
        | _ => ret ITEM_HEAP
        end ;;
      for_offsets (Z.to_nat maxOffset) PG.FirstOffsetNumber
        (EmitXmlTuples_item blkno formatAs).

Definition EmitXmlSpecial (blkno level : Z) : M unit :=
  specialOffset <- pd_special ;;
  specialType' <- get specialType ;;
  pageOffset' <- get pageOffset ;;
  match specialType' with
  | SPEC_SECT_ERROR_UNKNOWN
  | SPEC_SECT_ERROR_BOUNDARY =>
      printf ErrInvalidSpecial ;;
      modify (set_exitCode 1)
  | SPEC_SECT_INDEX_BTREE =>
      EmitXmlTag blkno level "btpo_prev" COLOR_BLACK
        (pageOffset' + specialOffset + PG.off_btpo_prev)
        ((pageOffset' + specialOffset + PG.off_btpo_next) - 1) ;;
      EmitXmlTag blkno level "btpo_next" COLOR_BLACK
        (pageOffset' + specialOffset + PG.off_btpo_next)
        ((pageOffset' + specialOffset + PG.off_btpo) - 1) ;;
      EmitXmlTag blkno level "btpo.level" COLOR_BLACK
        (pageOffset' + specialOffset + PG.off_btpo)
        ((pageOffset' + specialOffset + PG.off_btpo_flags) - 1) ;;
      btpo_flags <- load 2 (specialOffset + PG.off_btpo_flags) ;;
      (* char flagString[100] *)
      strcat_into 100 (btpo_flags_built btpo_flags) ;;
      EmitXmlTag blkno level (btpo_flags_string btpo_flags) COLOR_BLACK
        (pageOffset' + specialOffset + PG.off_btpo_flags)
        ((pageOffset' + specialOffset + PG.off_btpo_cycleid) - 1) ;;
      EmitXmlTag blkno level "btpo_cycleid" COLOR_BLACK
        (pageOffset' + specialOffset + PG.off_btpo_cycleid)
        ((pageOffset' + specialOffset + PG.off_btpo_cycleid
          + PG.sizeof_BTCycleId) - 1)
  | SPEC_SECT_SEQUENCE
  | SPEC_SECT_INDEX_HASH
  | SPEC_SECT_INDEX_GIST
  | SPEC_SECT_INDEX_GIN
  | SPEC_SECT_INDEX_SPGIST =>
      printf (MsgUnsupportedSpecial (specialSectionTypes_value specialType')) ;;
      modify (set_exitCode 1)
  | SPEC_SECT_NONE => ret tt
  end.

Definition EmitXmlPage (blkno : Z) : M unit :=
  bs <- get blockSize ;;
  cur <- get currentBlock ;;
  modify (set_pageOffset (u32 (bs * cur))) ;;
  t <- GetSpecialSectionType ;;
  modify (set_specialType t) ;;
  specialType' <- get specialType ;;
  pageOffset' <- get pageOffset ;;
  blockOptions' <- get blockOptions ;;
  let decode (level : Z) : M unit :=
    rc <- EmitXmlPageHeader blkno level ;;
    (* If we didn't encounter a partial read in header, carry on...  *)
    if negb (rc =? EOF_ENCOUNTERED) then
      EmitXmlTuples blkno ;;
      specialType' <- get specialType ;;
      match specialType' with
      | SPEC_SECT_NONE => ret tt
      | _ => EmitXmlSpecial blkno level
      end
    else ret tt
  in
  match specialType' with
  | SPEC_SECT_INDEX_BTREE =>
      (* btreeSection = PageGetSpecialPointer(page) *)
      sp <- pd_special ;;
      level <- load 4 (sp + PG.off_btpo) ;;
      btpo_flags <- load 2 (sp + PG.off_btpo_flags) ;;
      if bit_set btpo_flags PG.BTP_LEAF
         && negb (bit_set btpo_flags PG.BTP_ROOT)
         && bit_set blockOptions' BLOCK_SKIP_LEAF
      then
        EmitXmlTag blkno level "leaf page" COLOR_GREEN_DARK
          pageOffset'
          ((pageOffset' + PG.BLCKSZ) - 1)
      else decode level
  | _ => decode PG.UINT_MAX
  end.

(** [bytesToFormat = fread(buffer, 1, blockSize, fp)]: [block] is what is
    left of the file at the current position, at most [blockSize] bytes of
    it are copied to the front of the buffer *)
Definition fread (block : list Byte.byte) : M unit :=
  bs <- get blockSize ;;
  let data := firstn (Z.to_nat bs) block in
  buf <- get buffer ;;
  modify (set_buffer (data ++ skipn (List.length data) buf)) ;;
  modify (set_bytesToFormat (Z.of_nat (List.length data))).

(** the [while (contentsToDump)] loop of [EmitXmlFile].  [file] holds what
    the successive calls of [fread] deliver: the blocks of the file from the
    current position on, the last of them possibly short; past its end
    [fread] delivers nothing. *)
Fixpoint EmitXmlFile_loop (file : list (list Byte.byte)) (initialRead : bool)
  : M unit :=
  fread (hd [] file) ;;
  btf <- get bytesToFormat ;;
  if btf =? 0 then
    (if initialRead then printf ErrPrematureEof else ret tt) ;;
    (* contentsToDump = 0, so the range test fails and currentBlock++ runs *)
    modify (fun g => set_currentBlock (u32 (currentBlock g + 1)) g)
  else
    cur <- get currentBlock ;;
    EmitXmlPage cur ;;
    blockOptions' <- get blockOptions ;;
    cur <- get currentBlock ;;
    blockEnd' <- get blockEnd ;;
    if bit_set blockOptions' BLOCK_RANGE && (u32 blockEnd' <=? cur) then
      (* contentsToDump = 0 *)
      ret tt
    else
      modify (fun g => set_currentBlock (u32 (currentBlock g + 1)) g) ;;
      match file with
      | [] => ret tt
      | _ :: rest => EmitXmlFile_loop rest false
      end.

(** [fseek_fails] tells whether [fseek] reports an error; when it does not,
    the file is read from block [blockStart] on *)
Definition EmitXmlFile (file : list (list Byte.byte)) (fseek_fails : bool)
  : M unit :=
  blockOptions' <- get blockOptions ;;
  blockStart' <- get blockStart ;;
  (if bit_set blockOptions' BLOCK_RANGE then
     if fseek_fails then
       printf (ErrSeek blockStart') ;;
       modify (set_exitCode 1)
       (* contentsToDump = 0 *)
     else
       modify (set_currentBlock (u32 blockStart')) ;;
       EmitXmlFile_loop (skipn (Z.to_nat blockStart') file) true
   else
     EmitXmlFile_loop file true) ;;
  (* EmitXmlFooter *)
  printf MsgFooter.

End Engine.

(* ================================================================== *)
(** ** Concrete pages

    Pages of 256 bytes (the smallest page size the size field can hold),
    layout version 4, written out byte by byte the way PostgreSQL lays them
    out.  They serve as the inputs the properties below are evaluated on. *)

Module Pages.

Definition byte_of (z : Z) : Byte.byte :=
  match Byte.of_N (Z.to_N (z mod 256)) with
  | Some b => b
  | None => Byte.x00
  end.

(** the [n] bytes of [v], least significant first *)
Fixpoint le_bytes (n : nat) (v : Z) : list Byte.byte :=
  match n with
  | O => []
  | S k => byte_of v :: le_bytes k (v / 256)
  end.

(** [data] written over [buf] from index [off] on *)
Definition poke (off : nat) (data : list Byte.byte) (buf : list Byte.byte)
  : list Byte.byte :=
  firstn off buf ++ data ++ skipn (off + List.length data) buf.

Definition zeros (n : nat) : list Byte.byte := repeat Byte.x00 n.

(** a [PageHeaderData] without line pointers: LSN 0, checksum 0,
    flags 0, page size 256 and layout version 4, no prune xid *)
Definition header (lower upper special : Z) : list Byte.byte :=
  le_bytes 8 0 ++ le_bytes 2 0 ++ le_bytes 2 0 ++ le_bytes 2 lower
  ++ le_bytes 2 upper ++ le_bytes 2 special ++ le_bytes 2 (256 + 4)
  ++ le_bytes 4 0.

(** an [ItemIdData] *)
Definition item_id (lp_off lp_flags lp_len : Z) : list Byte.byte :=
  le_bytes 4 (lp_off + 32768 * lp_flags + 131072 * lp_len).

(** the 23 fixed bytes of a heap tuple header and its [t_hoff] padding:
    xmin 2, xmax 0, cid 0, ctid (0,1), one attribute, no null bitmap *)
Definition heap_tuple_header (t_infomask : Z) : list Byte.byte :=
  le_bytes 4 2 ++ le_bytes 4 0 ++ le_bytes 4 0
  ++ le_bytes 2 0 ++ le_bytes 2 0 ++ le_bytes 2 1
  ++ le_bytes 2 1 ++ le_bytes 2 t_infomask ++ le_bytes 1 24 ++ le_bytes 1 0.

(** the 8 bytes of an index tuple header pointing at heap tuple (0,1) *)
Definition index_tuple_header (t_info : Z) : list Byte.byte :=
  le_bytes 2 0 ++ le_bytes 2 0 ++ le_bytes 2 1 ++ le_bytes 2 t_info.

(** a [BTPageOpaqueData] *)
Definition bt_opaque (level flags cycleid : Z) : list Byte.byte :=
  le_bytes 4 0 ++ le_bytes 4 0 ++ le_bytes 4 level ++ le_bytes 2 flags
  ++ le_bytes 2 cycleid.

(** a heap page with one normal line pointer: a tuple of 40 bytes at
    offset 100 *)
Definition heap_page_one_tuple : list Byte.byte :=
  poke 100 (heap_tuple_header PG.HEAP_XMAX_INVALID)
    (poke 24 (item_id 100 PG.LP_NORMAL 40)
       (poke 0 (header 28 100 256) (zeros 256))).

(** a heap page the way PostgreSQL fills it, from the end of the page
    downwards: line pointer 1 at offset 216, line pointer 2 at 176, then
    a dead pointer without storage and an unused pointer that still has a
    length *)
Definition heap_page : list Byte.byte :=
  poke 216 (heap_tuple_header PG.HEAP_XMAX_INVALID)
    (poke 176 (heap_tuple_header PG.HEAP_XMAX_INVALID)
       (poke 24 (item_id 216 PG.LP_NORMAL 40 ++ item_id 176 PG.LP_NORMAL 40
                 ++ item_id 0 PG.LP_DEAD 0 ++ item_id 176 PG.LP_UNUSED 40)
          (poke 0 (header 40 176 256) (zeros 256)))).

(** a sequence page: the magic [0x1717] in a special section of 8 bytes,
    one tuple *)
Definition sequence_page : list Byte.byte :=
  poke 248 (le_bytes 4 SEQUENCE_MAGIC)
    (poke 200 (heap_tuple_header PG.HEAP_XMAX_INVALID)
       (poke 24 (item_id 200 PG.LP_NORMAL 48)
          (poke 0 (header 28 200 248) (zeros 256)))).

(** a btree root page that is a leaf, with two index tuples: the first
    line pointer claims 100 bytes at offset 200, past the end of the
    block; the second tuple has no key *)
Definition btree_page : list Byte.byte :=
  poke 240 (bt_opaque 0 (Z.lor PG.BTP_LEAF PG.BTP_ROOT) 0)
    (poke 200 (index_tuple_header 16)
       (poke 192 (index_tuple_header 8)
          (poke 24 (item_id 200 PG.LP_NORMAL 100
                    ++ item_id 192 PG.LP_NORMAL 8)
             (poke 0 (header 32 192 240) (zeros 256))))).

(** a btree leaf page, not the root, with one index tuple *)
Definition btree_leaf_page : list Byte.byte :=
  poke 240 (bt_opaque 0 PG.BTP_LEAF 0)
    (poke 224 (index_tuple_header 16)
       (poke 24 (item_id 224 PG.LP_NORMAL 16)
          (poke 0 (header 28 224 240) (zeros 256)))).

(** a btree meta page: the meta flag and cycle id 0 in the opaque
    struct; [pd_lower] is set past the meta block, as PostgreSQL 11
    does *)
Definition btree_meta_page : list Byte.byte :=
  poke 240 (bt_opaque 0 PG.BTP_META 0)
    (poke 24 (le_bytes 4 340322 ++ le_bytes 4 3 ++ le_bytes 4 1
              ++ le_bytes 4 0 ++ le_bytes 4 1 ++ le_bytes 4 0)
       (poke 0 (header 72 240 240) (zeros 256))).

(** a hash index page: the hash page id in the last two bytes of a
    special section of 16 bytes, one item *)
Definition hash_page : list Byte.byte :=
  poke 254 (le_bytes 2 PG.HASHO_PAGE_ID)
    (poke 224 (index_tuple_header 16)
       (poke 24 (item_id 224 PG.LP_NORMAL 16)
          (poke 0 (header 28 224 240) (zeros 256)))).

(** a heap page whose second line pointer claims 40 bytes at offset 240,
    past the end of the block *)
Definition overflow_page : list Byte.byte :=
  poke 200 (heap_tuple_header PG.HEAP_XMAX_INVALID)
    (poke 24 (item_id 200 PG.LP_NORMAL 40 ++ item_id 240 PG.LP_NORMAL 40)
       (poke 0 (header 32 200 256) (zeros 256))).

(** a heap page whose first line pointer, unused, claims 40 bytes at
    offset 250, past the end of the block, and whose second line pointer
    is a normal tuple of 40 bytes at offset 176 *)
Definition unfit_first_page : list Byte.byte :=
  poke 176 (heap_tuple_header PG.HEAP_XMAX_INVALID)
    (poke 24 (item_id 250 PG.LP_UNUSED 40 ++ item_id 176 PG.LP_NORMAL 40)
       (poke 0 (header 32 176 256) (zeros 256))).

(** a heap page without line pointers *)
Definition empty_page : list Byte.byte :=
  poke 0 (header 24 256 256) (zeros 256).

(** a page whose special offset, 300, lies past the end of the block *)
Definition bad_special_page : list Byte.byte :=
  poke 200 (heap_tuple_header PG.HEAP_XMAX_INVALID)
    (poke 24 (item_id 200 PG.LP_NORMAL 40)
       (poke 0 (header 28 200 300) (zeros 256))).

(** the file-scope variables as [main] leaves them before [EmitXmlFile]
    for a file of 256-byte pages and the given options; the buffer is
    what [malloc] returned *)
Definition start (options : Z) : globals :=
  mkGlobals (-1) (-1) SPEC_SECT_NONE options (zeros 256) 256 0
    (PG.RELSEG_SIZE * PG.BLCKSZ) 0 0 0 0 0 0 [].

(** the state in which [EmitXmlPage] finds block [blkno] holding [page],
    of which [n] bytes were read *)
Definition loaded (options : Z) (page : list Byte.byte) (blkno n : Z)
  : globals :=
  set_bytesToFormat n
    (set_currentBlock blkno (set_buffer page (start options))).

(** the blocks above as [EmitXmlPage] finds them in block 0 of a run
    without options *)
Definition heap_block_one_tuple : globals :=
  loaded 0 heap_page_one_tuple 0 256.
Definition heap_block : globals := loaded 0 heap_page 0 256.
Definition sequence_block : globals := loaded 0 sequence_page 0 256.
Definition btree_block : globals := loaded 0 btree_page 0 256.
Definition btree_meta_block : globals := loaded 0 btree_meta_page 0 256.
Definition hash_block : globals := loaded 0 hash_page 0 256.
Definition bad_special_block : globals := loaded 0 bad_special_page 0 256.

Definition overflow_block : globals := loaded 0 overflow_page 0 256.
Definition unfit_first_block : globals := loaded 0 unfit_first_page 0 256.
Definition empty_block : globals := loaded 0 empty_page 0 256.

(** a last block of which only 16 bytes could be read *)
Definition short_block : globals := loaded 0 heap_page 0 16.

(** a checksum function for the runs below, which do not verify
    checksums *)
Definition no_checksum (page : list Byte.byte) (blkno : Z) : Z := 0.

End Pages.

(* ================================================================== *)
(** ** States of a run

    [main] sets [blockSize] to what [GetBlockSize] returns, the page size
    field of block 0 masked with [0xFF00], goes on only when it is positive,
    and allocates [blockSize] bytes for [buffer]; [fread] never delivers more
    than [blockSize] bytes. *)

Definition run_state (g : globals) : Prop :=
  blockSize g mod 256 = 0 /\
  0 < blockSize g <= 65280 /\
  Z.of_nat (List.length (buffer g)) = blockSize g /\
  0 <= bytesToFormat g <= blockSize g.

(* ================================================================== *)
(** ** Reading the buffer *)

Lemma byte_value_range (b : Byte.byte) : 0 <= byte_value b < 256.
Proof.
  unfold byte_value.
  pose proof (Byte.to_N_bounded b) as H.
  lia.
Qed.

Lemma byte_at_Some (buf : list Byte.byte) (off : Z) :
  0 <= off < Z.of_nat (List.length buf) ->
  exists v, byte_at buf off = Some v /\ 0 <= v < 256.
Proof.
  intros H. unfold byte_at.
  destruct (off <? 0) eqn:E; [apply Z.ltb_lt in E; lia|].
  destruct (nth_error buf (Z.to_nat off)) as [b|] eqn:N.
  - exists (byte_value b). split; [reflexivity | apply byte_value_range].
  - apply nth_error_None in N. lia.
Qed.

Lemma byte_at_range (buf : list Byte.byte) (off v : Z) :
  byte_at buf off = Some v -> 0 <= v < 256 /\ 0 <= off < Z.of_nat (List.length buf).
Proof.
  unfold byte_at. destruct (off <? 0) eqn:E; [discriminate|].
  apply Z.ltb_ge in E.
  destruct (nth_error buf (Z.to_nat off)) as [b|] eqn:N; [|discriminate].
  intros H. inversion H; subst. split; [apply byte_value_range|].
  assert (Z.to_nat off < List.length buf)%nat
    by (apply nth_error_Some; congruence).
  lia.
Qed.

Lemma peek_S (n : nat) (buf : list Byte.byte) (off : Z) :
  peek (S n) buf off =
  match byte_at buf off, peek n buf (off + 1) with
  | Some b, Some r => Some (b + 256 * r)
  | _, _ => None
  end.
Proof. reflexivity. Qed.

Lemma peek_Some (n : nat) (buf : list Byte.byte) (off : Z) :
  0 <= off -> off + Z.of_nat n <= Z.of_nat (List.length buf) ->
  exists v, peek n buf off = Some v /\ 0 <= v < 256 ^ Z.of_nat n.
Proof.
  revert off. induction n as [|n IH]; intros off H0 H1.
  - exists 0. simpl. split; [reflexivity | lia].
  - destruct (byte_at_Some buf off) as (b & Hb & Rb); [lia|].
    destruct (IH (off + 1)) as (r & Hr & Rr); [lia | lia |].
    exists (b + 256 * r). rewrite peek_S, Hb, Hr.
    split; [reflexivity|].
    rewrite Nat2Z.inj_succ, Z.pow_succ_r by apply Nat2Z.is_nonneg.
    set (p := 256 ^ Z.of_nat n) in *. lia.
Qed.

Lemma peek_range (n : nat) (buf : list Byte.byte) (off v : Z) :
  peek n buf off = Some v -> 0 <= v < 256 ^ Z.of_nat n.
Proof.
  revert off v. induction n as [|n IH]; intros off v H.
  - simpl in H. inversion H. simpl. lia.
  - rewrite peek_S in H.
    destruct (byte_at buf off) as [b|] eqn:Hb; [|discriminate].
    destruct (peek n buf (off + 1)) as [r|] eqn:Hr; [|discriminate].
    assert (E : v = b + 256 * r) by congruence.
    subst v. clear H.
    apply byte_at_range in Hb. apply IH in Hr.
    rewrite Nat2Z.inj_succ, Z.pow_succ_r by apply Nat2Z.is_nonneg.
    set (p := 256 ^ Z.of_nat n) in *. lia.
Qed.

Lemma peek2_range (buf : list Byte.byte) (off v : Z) :
  peek 2 buf off = Some v -> 0 <= v < 65536.
Proof. intros H. apply peek_range in H. exact H. Qed.

Lemma peek4_range (buf : list Byte.byte) (off v : Z) :
  peek 4 buf off = Some v -> 0 <= v < 4294967296.
Proof. intros H. apply peek_range in H. exact H. Qed.

Lemma load_peek (n : nat) (off v : Z) (g : globals) :
  peek n (buffer g) off = Some v -> load n off g = Ret v g.
Proof. intros H. unfold load. rewrite H. reflexivity. Qed.

Lemma bind_Ret {A B} (m : M A) (k : A -> M B) (g g' : globals) (a : A) :
  m g = Ret a g' -> bind m k g = k a g'.
Proof. intros H. unfold bind. rewrite H. reflexivity. Qed.

Lemma bind_Exit {A B} (m : M A) (k : A -> M B) (g g' : globals) :
  m g = Exit g' -> bind m k g = Exit g'.
Proof. intros H. unfold bind. rewrite H. reflexivity. Qed.

(** unfolding of the monad's combinators, and of the projections of an
    updated [globals] *)
Ltac unfold_monad :=
  cbv beta iota delta [bind ret get modify exit printf emit andM].

Ltac proj :=
  cbn [blockStart blockEnd specialType blockOptions buffer blockSize
       currentBlock segmentSize segmentNumber tagNumber pageOffset
       bytesToFormat blockVersion exitCode stdout
       set_specialType set_buffer set_currentBlock set_tagNumber
       set_pageOffset set_bytesToFormat set_blockVersion set_exitCode
       set_stdout].

Lemma MAXALIGN_uint32 : PG.MAXALIGN PG.sizeof_uint32 = 8.
Proof. reflexivity. Qed.

(* ================================================================== *)
(** ** The classifier *)

(** C1: on a fully read page whose special section has the size
    [MAXALIGN(sizeof(uint32))], [GetSpecialSectionType] answers Sequence when
    the four bytes at the special offset are the sequence magic; otherwise
    SP-GiST when the last two bytes of the page are the SP-GiST page id and
    the size is that of the SP-GiST opaque struct; otherwise GIN when the
    size is that of the GIN opaque struct; otherwise the unknown error. *)
Theorem GetSpecialSectionType_ambiguous_size (g : globals) (special : Z) :
  run_state g ->
  peek 2 (buffer g) PG.off_pd_special = Some special ->
  blockSize g - special = PG.MAXALIGN PG.sizeof_uint32 ->
  bytesToFormat g = blockSize g ->
  exists magic ptype,
    peek 4 (buffer g) special = Some magic /\
    peek 2 (buffer g) (blockSize g - 2) = Some ptype /\
    GetSpecialSectionType g =
      Ret (if magic =? SEQUENCE_MAGIC then SPEC_SECT_SEQUENCE
           else if (ptype =? PG.SPGIST_PAGE_ID)
                   && (blockSize g - special
                       =? PG.MAXALIGN PG.sizeof_SpGistPageOpaqueData)
           then SPEC_SECT_INDEX_SPGIST
           else if blockSize g - special
                   =? PG.MAXALIGN PG.sizeof_GinPageOpaqueData
           then SPEC_SECT_INDEX_GIN
           else SPEC_SECT_ERROR_UNKNOWN) g.
Proof.
  intros (Hmod & Hbs & Hlen & Hbtf) Hsp Hsize Hfull.
  rewrite MAXALIGN_uint32 in Hsize.
  assert (Hbs256 : 256 <= blockSize g).
  { pose proof (Z.div_mod (blockSize g) 256 ltac:(lia)) as D.
    rewrite Hmod in D. lia. }
  destruct (peek_Some 4 (buffer g) special) as (magic & Hmagic & _);
    [lia | simpl Z.of_nat; lia |].
  destruct (peek_Some 2 (buffer g) (blockSize g - 2)) as (ptype & Hptype & _);
    [lia | simpl Z.of_nat; lia |].
  exists magic, ptype. split; [exact Hmagic|]. split; [exact Hptype|].
  unfold GetSpecialSectionType, pd_special. unfold_monad.
  replace (PG.sizeof_PageHeaderData <? bytesToFormat g) with true
    by (symmetry; apply Z.ltb_lt; unfold PG.sizeof_PageHeaderData; lia).
  rewrite (load_peek _ _ _ _ Hsp). cbv iota beta.
  replace (special =? 0) with false by (symmetry; apply Z.eqb_neq; lia).
  replace (blockSize g <? special) with false by (symmetry; apply Z.ltb_ge; lia).
  replace (bytesToFormat g <? special) with false
    by (symmetry; apply Z.ltb_ge; lia).
  change (false || false || false) with false. cbv iota beta.
  replace (u32 (blockSize g - special)) with 8
    by (rewrite Hsize; reflexivity).
  rewrite Hsize, Hfull, MAXALIGN_uint32, !Z.eqb_refl.
  change (8 =? 0) with false. cbv iota beta.
  rewrite (load_peek _ _ _ _ Hmagic). cbv iota beta.
  destruct (magic =? SEQUENCE_MAGIC); [reflexivity|].
  change PG.sizeof_uint16 with 2.
  rewrite (load_peek _ _ _ _ Hptype). cbv iota beta.
  rewrite andb_true_r.
  destruct (ptype =? PG.SPGIST_PAGE_ID); reflexivity.
Qed.

(** C8: when more than the page header was read, [GetSpecialSectionType]
    answers the boundary error for a special offset that is 0, or greater
    than the block size, or greater than the number of bytes read; when at
    most the page header was read it answers the unknown error. *)
Theorem GetSpecialSectionType_errors (g : globals) (special : Z)
    (Hsp : peek 2 (buffer g) PG.off_pd_special = Some special) :
  (PG.sizeof_PageHeaderData < bytesToFormat g ->
   special = 0 \/ blockSize g < special \/ bytesToFormat g < special ->
   GetSpecialSectionType g = Ret SPEC_SECT_ERROR_BOUNDARY g)
  /\
  (bytesToFormat g <= PG.sizeof_PageHeaderData ->
   GetSpecialSectionType g = Ret SPEC_SECT_ERROR_UNKNOWN g).
Proof.
  split.
  - intros Hbtf Hcase.
    unfold GetSpecialSectionType, pd_special. unfold_monad.
    replace (PG.sizeof_PageHeaderData <? bytesToFormat g) with true
      by (symmetry; apply Z.ltb_lt; exact Hbtf).
    rewrite (load_peek _ _ _ _ Hsp). cbv iota beta.
    replace ((special =? 0) || (blockSize g <? special)
             || (bytesToFormat g <? special)) with true; [reflexivity|].
    symmetry. rewrite !orb_true_iff, Z.eqb_eq, !Z.ltb_lt. tauto.
  - intros Hbtf.
    unfold GetSpecialSectionType. unfold_monad.
    replace (PG.sizeof_PageHeaderData <? bytesToFormat g) with false
      by (symmetry; apply Z.ltb_ge; exact Hbtf).
    reflexivity.
Qed.

(* ================================================================== *)
(** ** Relations the functions keep between the state they start in and
       the state they end in, whatever the outcome *)

Definition keeps (R : globals -> globals -> Prop) {A} (m : M A) : Prop :=
  forall g, R g (final (m g)).

Lemma keeps_chain (R1 R2 R3 : globals -> globals -> Prop) {A B}
    (m : M A) (k : A -> M B) :
  (forall a b, R1 a b -> R3 a b) ->
  (forall a b c, R1 a b -> R2 b c -> R3 a c) ->
  keeps R1 m -> (forall x, keeps R2 (k x)) -> keeps R3 (bind m k).
Proof.
  intros Hsub Hcomp Hm Hk g. unfold bind.
  specialize (Hm g).
  destruct (m g) as [a g' | g' | g']; simpl in *.
  - eapply Hcomp; [exact Hm | apply Hk].
  - apply Hsub, Hm.
  - apply Hsub, Hm.
Qed.

Section Keeps.

Variable R : globals -> globals -> Prop.
Hypothesis R_refl : forall g, R g g.
Hypothesis R_trans : forall a b c, R a b -> R b c -> R a c.

Lemma keeps_eq {A} (m : M A) : keeps eq m -> keeps R m.
Proof. intros H g. rewrite <- (H g). apply R_refl. Qed.

Lemma keeps_ret {A} (a : A) : keeps R (ret a).
Proof. intros g. apply R_refl. Qed.

Lemma keeps_get {A} (f : globals -> A) : keeps R (get f).
Proof. intros g. apply R_refl. Qed.

Lemma keeps_exit {A} : keeps R (@exit A).
Proof. intros g. apply R_refl. Qed.

Lemma keeps_load (n : nat) (off : Z) : keeps R (load n off).
Proof.
  intros g. unfold load. destruct (peek n (buffer g) off); apply R_refl.
Qed.

Lemma keeps_strcat_into (size : Z) (built : string) :
  keeps R (strcat_into size built).
Proof.
  intros g. unfold strcat_into.
  destruct (Z.of_nat (String.length built) + 1 <=? size); apply R_refl.
Qed.

Lemma keeps_bind {A B} (m : M A) (k : A -> M B) :
  keeps R m -> (forall x, keeps R (k x)) -> keeps R (bind m k).
Proof. apply keeps_chain; [auto | exact R_trans]. Qed.

Lemma keeps_andM (a : bool) (b : M bool) : keeps R b -> keeps R (andM a b).
Proof. intros H. destruct a; [exact H | apply keeps_ret]. Qed.

Lemma keeps_for_offsets (n : nat) (offset : Z) (body : Z -> M unit) :
  (forall o, keeps R (body o)) -> keeps R (for_offsets n offset body).
Proof.
  intros H. revert offset.
  induction n as [|n IH]; intros offset; simpl.
  - apply keeps_ret.
  - apply keeps_bind; [apply H | intros _; apply IH].
Qed.

End Keeps.

(** one step of a proof that a function keeps a relation: [refl] and
    [trans] are the proofs that the relation is reflexive and transitive,
    [known] solves the goals about functions already dealt with *)
Ltac keeps_with refl trans known :=
  cbv zeta;
  repeat first
    [ apply (keeps_ret _ refl)
    | apply (keeps_get _ refl)
    | apply (keeps_exit _ refl)
    | apply (keeps_load _ refl)
    | apply (keeps_strcat_into _ refl)
    | known
    | apply (keeps_bind _ trans); [| intros ?]
    | apply (keeps_andM _ refl)
    | apply (keeps_for_offsets _ refl trans); intros ?
    | match goal with
      | |- keeps _ (if ?c then _ else _) => destruct c
      | |- keeps _ (match ?x with _ => _ end) => destruct x
      end ].

(** *** Functions that only read *)

Lemma eq_trans_globals (a b c : globals) : a = b -> b = c -> a = c.
Proof. congruence. Qed.

Ltac reads := keeps_with (@eq_refl globals) eq_trans_globals fail.

Lemma reads_pd_checksum : keeps eq pd_checksum.
Proof. unfold pd_checksum. reads. Qed.

Lemma reads_pd_flags : keeps eq pd_flags.
Proof. unfold pd_flags. reads. Qed.

Lemma reads_pd_lower : keeps eq pd_lower.
Proof. unfold pd_lower. reads. Qed.

Lemma reads_pd_upper : keeps eq pd_upper.
Proof. unfold pd_upper. reads. Qed.

Lemma reads_pd_special : keeps eq pd_special.
Proof. unfold pd_special. reads. Qed.

Lemma reads_PageGetPageLayoutVersion : keeps eq PageGetPageLayoutVersion.
Proof. unfold PageGetPageLayoutVersion, pd_pagesize_version. reads. Qed.

Lemma reads_PageGetSpecialSize : keeps eq PageGetSpecialSize.
Proof.
  unfold PageGetSpecialSize, PageGetPageSize, pd_pagesize_version, pd_special.
  reads.
Qed.

Lemma reads_PageGetMaxOffsetNumber : keeps eq PageGetMaxOffsetNumber.
Proof. unfold PageGetMaxOffsetNumber, pd_lower. reads. Qed.

Lemma reads_PageGetItemId (offset : Z) : keeps eq (PageGetItemId offset).
Proof. unfold PageGetItemId. reads. Qed.

Lemma reads_IsBtreeMetaPage : keeps eq IsBtreeMetaPage.
Proof.
  unfold IsBtreeMetaPage, PageGetSpecialSize, PageGetPageSize,
    pd_pagesize_version, pd_special.
  reads.
Qed.

Lemma reads_GetSpecialSectionType : keeps eq GetSpecialSectionType.
Proof. unfold GetSpecialSectionType, pd_special. reads. Qed.

Create HintDb readers.
#[local] Hint Resolve reads_pd_checksum reads_pd_flags reads_pd_lower
  reads_pd_upper reads_pd_special reads_PageGetPageLayoutVersion
  reads_PageGetSpecialSize reads_PageGetMaxOffsetNumber reads_PageGetItemId
  reads_IsBtreeMetaPage reads_GetSpecialSectionType : readers.

(** *** What the decoders of a page leave alone

    Between [EmitXmlPage]'s classification of a block and the end of its
    decoding only the tag counter, the output, the exit code and the block
    version change. *)

Definition frame (g g' : globals) : Prop :=
  blockStart g' = blockStart g /\
  blockEnd g' = blockEnd g /\
  specialType g' = specialType g /\
  blockOptions g' = blockOptions g /\
  buffer g' = buffer g /\
  blockSize g' = blockSize g /\
  currentBlock g' = currentBlock g /\
  segmentSize g' = segmentSize g /\
  segmentNumber g' = segmentNumber g /\
  pageOffset g' = pageOffset g /\
  bytesToFormat g' = bytesToFormat g.

Lemma frame_refl (g : globals) : frame g g.
Proof. unfold frame. repeat split. Qed.

Lemma frame_trans (a b c : globals) : frame a b -> frame b c -> frame a c.
Proof. unfold frame. intuition congruence. Qed.

Lemma frame_buffer g g' : frame g g' -> buffer g' = buffer g.
Proof. unfold frame. tauto. Qed.

Lemma frame_pageOffset g g' : frame g g' -> pageOffset g' = pageOffset g.
Proof. unfold frame. tauto. Qed.

Lemma frame_specialType g g' : frame g g' -> specialType g' = specialType g.
Proof. unfold frame. tauto. Qed.

Lemma frame_printf (m : message) : keeps frame (printf m).
Proof. intros g. unfold frame. repeat split. Qed.

Lemma frame_emit so eo tx c : keeps frame (emit so eo tx c).
Proof. intros g. unfold frame. repeat split. Qed.

Lemma frame_set_exitCode (v : Z) : keeps frame (modify (set_exitCode v)).
Proof. intros g. unfold frame. repeat split. Qed.

Lemma frame_set_blockVersion (v : Z) :
  keeps frame (modify (set_blockVersion v)).
Proof. intros g. unfold frame. repeat split. Qed.

Create HintDb frames.
#[local] Hint Resolve frame_printf frame_emit frame_set_exitCode
  frame_set_blockVersion : frames.

Ltac frame_known :=
  first [ solve [auto with frames nocore]
        | apply (keeps_eq _ frame_refl); solve [auto with readers nocore] ].

Ltac frames := keeps_with frame_refl frame_trans frame_known.

Lemma frame_EmitXmlTag blkno level name color relfileOff relfileOffEnd :
  keeps frame (EmitXmlTag blkno level name color relfileOff relfileOffEnd).
Proof. unfold EmitXmlTag. frames. Qed.

Lemma frame_EmitXmlTupleTag blkno offset name color relfileOff relfileOffEnd :
  keeps frame
    (EmitXmlTupleTag blkno offset name color relfileOff relfileOffEnd).
Proof. unfold EmitXmlTupleTag. frames. Qed.

Lemma frame_EmitXmlItemId blkno offset itemId relfileOff textFlags :
  keeps frame (EmitXmlItemId blkno offset itemId relfileOff textFlags).
Proof. unfold EmitXmlItemId. frames. Qed.

Lemma frame_GetHeapTupleHeaderFlags htup isInfomask2 :
  keeps frame (GetHeapTupleHeaderFlags htup isInfomask2).
Proof. unfold GetHeapTupleHeaderFlags. frames. Qed.

#[local] Hint Resolve frame_EmitXmlTag frame_EmitXmlTupleTag
  frame_EmitXmlItemId frame_GetHeapTupleHeaderFlags : frames.

Lemma frame_EmitXmlHeapTuple blkno offset htup relfileOff itemSize :
  keeps frame (EmitXmlHeapTuple blkno offset htup relfileOff itemSize).
Proof. unfold EmitXmlHeapTuple. frames. Qed.

Lemma frame_EmitXmlIndexTuple blkno offset tuple relfileOff :
  keeps frame (EmitXmlIndexTuple blkno offset tuple relfileOff).
Proof. unfold EmitXmlIndexTuple. frames. Qed.

Lemma frame_EmitXmlPageHeader_fields blkno level :
  keeps frame (EmitXmlPageHeader_fields blkno level).
Proof. unfold EmitXmlPageHeader_fields. frames. Qed.

Lemma frame_EmitXmlPageHeader_meta blkno level :
  keeps frame (EmitXmlPageHeader_meta blkno level).
Proof. unfold EmitXmlPageHeader_meta. frames. Qed.

Lemma frame_EmitXmlPageHeader_item blkno headerBytes offset :
  keeps frame (EmitXmlPageHeader_item blkno headerBytes offset).
Proof. unfold EmitXmlPageHeader_item. frames. Qed.

#[local] Hint Resolve frame_EmitXmlHeapTuple frame_EmitXmlIndexTuple
  frame_EmitXmlPageHeader_fields frame_EmitXmlPageHeader_meta
  frame_EmitXmlPageHeader_item : frames.

Lemma frame_EmitXmlPageHeader_checks cs blkno maxOffset :
  keeps frame (EmitXmlPageHeader_checks cs blkno maxOffset).
Proof. unfold EmitXmlPageHeader_checks. frames. Qed.

#[local] Hint Resolve frame_EmitXmlPageHeader_checks : frames.

Lemma frame_EmitXmlPageHeader cs blkno level :
  keeps frame (EmitXmlPageHeader cs blkno level).
Proof. unfold EmitXmlPageHeader, EmitXmlPageHeader_body. frames. Qed.

Lemma frame_EmitXmlTuples_item blkno formatAs offset :
  keeps frame (EmitXmlTuples_item blkno formatAs offset).
Proof. unfold EmitXmlTuples_item. frames. Qed.

#[local] Hint Resolve frame_EmitXmlPageHeader frame_EmitXmlTuples_item
  : frames.

Lemma frame_EmitXmlTuples blkno : keeps frame (EmitXmlTuples blkno).
Proof. unfold EmitXmlTuples. frames. Qed.

Lemma frame_EmitXmlSpecial blkno level :
  keeps frame (EmitXmlSpecial blkno level).
Proof. unfold EmitXmlSpecial. frames. Qed.

(** *** Tag identifiers

    [ids_from n ts]: the tags [ts] carry the identifiers [n], [n + 1], ...
    of a 32-bit counter, and [counter_after n ts] is the counter after
    them. *)

Fixpoint ids_from (n : Z) (ts : list TAG) : Prop :=
  match ts with
  | [] => True
  | t :: rest => tag_id t = n /\ ids_from (u32 (n + 1)) rest
  end.

Fixpoint counter_after (n : Z) (ts : list TAG) : Z :=
  match ts with
  | [] => n
  | _ :: rest => counter_after (u32 (n + 1)) rest
  end.

(** strictly increasing, and non-decreasing, lists of numbers *)
Fixpoint increasing (l : list Z) : Prop :=
  match l with
  | a :: (b :: _) as rest => a < b /\ increasing rest
  | _ => True
  end.

Fixpoint nondecreasingb (l : list Z) : bool :=
  match l with
  | a :: (b :: _) as rest => (a <=? b) && nondecreasingb rest
  | _ => true
  end.

Definition emits (g g' : globals) : Prop :=
  exists new,
    stdout g' = stdout g ++ new /\
    ids_from (tagNumber g) (tags_of new) /\
    tagNumber g' = counter_after (tagNumber g) (tags_of new).

Lemma tags_of_app (a b : list output) :
  tags_of (a ++ b) = tags_of a ++ tags_of b.
Proof.
  induction a as [|[t|m] a IH]; simpl; [reflexivity | f_equal; exact IH | exact IH].
Qed.

Lemma ids_from_app (n : Z) (a b : list TAG) :
  ids_from n (a ++ b) <-> ids_from n a /\ ids_from (counter_after n a) b.
Proof.
  revert n. induction a as [|t a IH]; intros n; simpl.
  - tauto.
  - rewrite IH. tauto.
Qed.

Lemma counter_after_app (n : Z) (a b : list TAG) :
  counter_after n (a ++ b) = counter_after (counter_after n a) b.
Proof.
  revert n. induction a as [|t a IH]; intros n; simpl; [reflexivity | apply IH].
Qed.

Lemma emits_refl (g : globals) : emits g g.
Proof.
  exists []. rewrite app_nil_r. simpl. repeat split.
Qed.

Lemma emits_trans (a b c : globals) : emits a b -> emits b c -> emits a c.
Proof.
  intros (n1 & S1 & I1 & C1) (n2 & S2 & I2 & C2).
  exists (n1 ++ n2). rewrite S2, S1, app_assoc, tags_of_app.
  split; [reflexivity|]. split.
  - apply ids_from_app. rewrite <- C1. tauto.
  - rewrite counter_after_app, <- C1. exact C2.
Qed.

Lemma emits_silent (f : globals -> globals) :
  (forall g, stdout (f g) = stdout g /\ tagNumber (f g) = tagNumber g) ->
  keeps emits (modify f).
Proof.
  intros H g. destruct (H g) as (S & T).
  exists []. simpl. rewrite S, T, app_nil_r. repeat split.
Qed.

Lemma emits_printf (m : message) : keeps emits (printf m).
Proof. intros g. exists [OutMsg m]. simpl. repeat split. Qed.

Lemma emits_emit so eo tx c : keeps emits (emit so eo tx c).
Proof.
  intros g. exists [OutTag (mkTAG (tagNumber g) so eo tx c)].
  simpl. repeat split.
Qed.

Lemma emits_set_exitCode v : keeps emits (modify (set_exitCode v)).
Proof. apply emits_silent. intros g. split; reflexivity. Qed.

Lemma emits_set_blockVersion v : keeps emits (modify (set_blockVersion v)).
Proof. apply emits_silent. intros g. split; reflexivity. Qed.

Lemma emits_set_pageOffset v : keeps emits (modify (set_pageOffset v)).
Proof. apply emits_silent. intros g. split; reflexivity. Qed.

Lemma emits_set_specialType v : keeps emits (modify (set_specialType v)).
Proof. apply emits_silent. intros g. split; reflexivity. Qed.

Lemma emits_set_buffer v : keeps emits (modify (set_buffer v)).
Proof. apply emits_silent. intros g. split; reflexivity. Qed.

Lemma emits_set_bytesToFormat v : keeps emits (modify (set_bytesToFormat v)).
Proof. apply emits_silent. intros g. split; reflexivity. Qed.

Lemma emits_set_currentBlock v : keeps emits (modify (set_currentBlock v)).
Proof. apply emits_silent. intros g. split; reflexivity. Qed.

Lemma emits_next_block :
  keeps emits (modify (fun g => set_currentBlock (u32 (currentBlock g + 1)) g)).
Proof. apply emits_silent. intros g. split; reflexivity. Qed.

Create HintDb emitters.
#[local] Hint Resolve emits_printf emits_emit emits_set_exitCode
  emits_set_blockVersion emits_set_pageOffset emits_set_specialType
  emits_set_buffer emits_set_bytesToFormat emits_set_currentBlock
  emits_next_block : emitters.

Ltac emits_known :=
  first [ solve [auto with emitters nocore]
        | apply (keeps_eq _ emits_refl); solve [auto with readers nocore] ].

Ltac emitting := keeps_with emits_refl emits_trans emits_known.

Lemma emits_EmitXmlTag blkno level name color relfileOff relfileOffEnd :
  keeps emits (EmitXmlTag blkno level name color relfileOff relfileOffEnd).
Proof. unfold EmitXmlTag. emitting. Qed.

Lemma emits_EmitXmlTupleTag blkno offset name color relfileOff relfileOffEnd :
  keeps emits
    (EmitXmlTupleTag blkno offset name color relfileOff relfileOffEnd).
Proof. unfold EmitXmlTupleTag. emitting. Qed.

Lemma emits_EmitXmlItemId blkno offset itemId relfileOff textFlags :
  keeps emits (EmitXmlItemId blkno offset itemId relfileOff textFlags).
Proof. unfold EmitXmlItemId. emitting. Qed.

Lemma emits_GetHeapTupleHeaderFlags htup isInfomask2 :
  keeps emits (GetHeapTupleHeaderFlags htup isInfomask2).
Proof. unfold GetHeapTupleHeaderFlags. emitting. Qed.

#[local] Hint Resolve emits_EmitXmlTag emits_EmitXmlTupleTag
  emits_EmitXmlItemId emits_GetHeapTupleHeaderFlags : emitters.

Lemma emits_EmitXmlHeapTuple blkno offset htup relfileOff itemSize :
  keeps emits (EmitXmlHeapTuple blkno offset htup relfileOff itemSize).
Proof. unfold EmitXmlHeapTuple. emitting. Qed.

Lemma emits_EmitXmlIndexTuple blkno offset tuple relfileOff :
  keeps emits (EmitXmlIndexTuple blkno offset tuple relfileOff).
Proof. unfold EmitXmlIndexTuple. emitting. Qed.

Lemma emits_EmitXmlPageHeader_fields blkno level :
  keeps emits (EmitXmlPageHeader_fields blkno level).
Proof. unfold EmitXmlPageHeader_fields. emitting. Qed.

Lemma emits_EmitXmlPageHeader_meta blkno level :
  keeps emits (EmitXmlPageHeader_meta blkno level).
Proof. unfold EmitXmlPageHeader_meta. emitting. Qed.

Lemma emits_EmitXmlPageHeader_item blkno headerBytes offset :
  keeps emits (EmitXmlPageHeader_item blkno headerBytes offset).
Proof. unfold EmitXmlPageHeader_item. emitting. Qed.

#[local] Hint Resolve emits_EmitXmlHeapTuple emits_EmitXmlIndexTuple
  emits_EmitXmlPageHeader_fields emits_EmitXmlPageHeader_meta
  emits_EmitXmlPageHeader_item : emitters.

Lemma emits_EmitXmlPageHeader_checks cs blkno maxOffset :
  keeps emits (EmitXmlPageHeader_checks cs blkno maxOffset).
Proof. unfold EmitXmlPageHeader_checks. emitting. Qed.

#[local] Hint Resolve emits_EmitXmlPageHeader_checks : emitters.

Lemma emits_EmitXmlPageHeader cs blkno level :
  keeps emits (EmitXmlPageHeader cs blkno level).
Proof. unfold EmitXmlPageHeader, EmitXmlPageHeader_body. emitting. Qed.

Lemma emits_EmitXmlTuples_item blkno formatAs offset :
  keeps emits (EmitXmlTuples_item blkno formatAs offset).
Proof. unfold EmitXmlTuples_item. emitting. Qed.

#[local] Hint Resolve emits_EmitXmlPageHeader emits_EmitXmlTuples_item
  : emitters.

Lemma emits_EmitXmlTuples_loop blkno n first :
  keeps emits (for_offsets n first (EmitXmlTuples_item blkno ITEM_HEAP)).
Proof. emitting. Qed.

Lemma emits_EmitXmlTuples blkno : keeps emits (EmitXmlTuples blkno).
Proof. unfold EmitXmlTuples. emitting. Qed.

Lemma emits_EmitXmlSpecial blkno level :
  keeps emits (EmitXmlSpecial blkno level).
Proof. unfold EmitXmlSpecial. emitting. Qed.

#[local] Hint Resolve emits_EmitXmlTuples emits_EmitXmlSpecial : emitters.

Lemma emits_EmitXmlPage cs blkno : keeps emits (EmitXmlPage cs blkno).
Proof. unfold EmitXmlPage. emitting. Qed.

Lemma emits_fread block : keeps emits (fread block).
Proof. unfold fread. emitting. Qed.

#[local] Hint Resolve emits_EmitXmlPage emits_fread : emitters.

Lemma emits_EmitXmlFile_loop cs file initialRead :
  keeps emits (EmitXmlFile_loop cs file initialRead).
Proof.
  revert initialRead. induction file as [|block rest IH]; intros initialRead;
    simpl EmitXmlFile_loop; emitting.
Qed.

#[local] Hint Resolve emits_EmitXmlFile_loop : emitters.

Lemma emits_EmitXmlFile cs file fseek_fails :
  keeps emits (EmitXmlFile cs file fseek_fails).
Proof. unfold EmitXmlFile. emitting. Qed.

(* ================================================================== *)
(** ** What the tuple decoders write *)

(** a tag without its identifier *)
Definition shape (t : TAG) : Z * Z * tag_text * string :=
  (start_offset t, end_offset t, text t, note_colour t).

Lemma u32_idem (a : Z) : u32 (u32 a) = u32 a.
Proof. unfold u32. apply Z.mod_mod. lia. Qed.

Lemma u32_idem_add (a b : Z) : u32 (u32 a + b) = u32 (a + b).
Proof. unfold u32. apply Zplus_mod_idemp_l. Qed.

Lemma u32_idem_sub (a b : Z) : u32 (u32 a - b) = u32 (a - b).
Proof. unfold u32. apply Zminus_mod_idemp_l. Qed.

Lemma u32_idem_add_sub (a b c : Z) : u32 (u32 a + b - c) = u32 (a + b - c).
Proof.
  replace (u32 a + b - c) with (u32 a + (b - c)) by lia.
  rewrite u32_idem_add. f_equal. lia.
Qed.

Lemma u32_small (a : Z) : 0 <= a < 4294967296 -> u32 a = a.
Proof. intros H. unfold u32. apply Z.mod_small. exact H. Qed.

Lemma u32_range (a : Z) : 0 <= u32 a < 4294967296.
Proof. unfold u32. apply Z.mod_pos_bound. lia. Qed.

(** evaluation of a function of the monad on a state whose reads are known *)
Ltac mred :=
  cbv beta iota delta [bind ret get modify exit printf emit andM load
                       EmitXmlTag EmitXmlTupleTag EmitXmlItemId].

Ltac mstate :=
  cbn [blockStart blockEnd specialType blockOptions buffer blockSize
       currentBlock segmentSize segmentNumber tagNumber pageOffset
       bytesToFormat blockVersion exitCode stdout
       set_specialType set_buffer set_currentBlock set_tagNumber
       set_pageOffset set_bytesToFormat set_blockVersion set_exitCode
       set_stdout push say final].

(** equations between wrapped sums, and the removal of the inner
    wrap-arounds of a wrapped sum *)
Ltac u32_eq :=
  unfold PG.sizeof_TransactionId, PG.sizeof_CommandId, PG.sizeof_uint16,
    PG.sizeof_uint8, PG.sizeof_uint32, PG.sizeof_ItemIdData,
    PG.sizeof_PageXLogRecPtr, PG.sizeof_BTCycleId;
  try (rewrite_strat
         (bottomup (choice u32_idem_add_sub
                      (choice u32_idem_add (choice u32_idem_sub u32_idem)))));
  first [ solve [f_equal; lia]
        | unfold u32; Z.div_mod_to_equations; lia ].

Ltac u32_strip t :=
  lazymatch t with
  | u32 ?x => u32_strip x
  | ?x + ?y =>
      let x' := u32_strip x in
      let y' := u32_strip y in
      constr:(x' + y')
  | ?x - ?y =>
      let x' := u32_strip x in
      let y' := u32_strip y in
      constr:(x' - y')
  | _ => t
  end.

Ltac u32_norm :=
  repeat match goal with
         | |- context [u32 ?a] =>
             lazymatch a with
             | context [u32 _] => idtac
             end;
             let a' := u32_strip a in
             progress (replace (u32 a) with (u32 a') by u32_eq)
         end.

(** evaluation that takes both branches of the conditions it meets; [rw]
    rewrites the reads that are known *)
Ltac mrun rw :=
  repeat first
    [ progress (mred; mstate; rw)
    | match goal with
      | |- context [(if ?c then _ else _) _] => destruct c
      end ].

Ltac shapes :=
  cbn [tags_of messages_of map app]; unfold shape;
  cbn [start_offset end_offset text note_colour].

Ltac shape_eq :=
  repeat match goal with
         | |- ?x = ?x => reflexivity
         | |- _ :: _ = _ :: _ => f_equal
         | |- (_, _) = (_, _) => f_equal
         | |- u32 _ = u32 _ => u32_eq
         end.

Lemma EmitXmlIndexTuple_run blkno offset tuple relfileOff t_info g :
  peek 2 (buffer g) (tuple + PG.off_t_info) = Some t_info ->
  exists g' new,
    EmitXmlIndexTuple blkno offset tuple relfileOff g = Ret tt g' /\
    stdout g' = stdout g ++ new /\
    messages_of new = [] /\
    map shape (tags_of new) =
      [ (u32 relfileOff, u32 (relfileOff + 1),
         TupleText blkno offset "t_tid->bi_hi", COLOR_BLUE_LIGHT);
        (u32 (relfileOff + 2), u32 (relfileOff + 3),
         TupleText blkno offset "t_tid->bi_lo", COLOR_BLUE_LIGHT);
        (u32 (relfileOff + 4), u32 (relfileOff + 5),
         TupleText blkno offset "t_tid->offsetNumber", COLOR_BLUE_DARK);
        (u32 (relfileOff + 6), u32 (relfileOff + 7),
         TupleText blkno offset "t_info", COLOR_YELLOW_DARK) ]
      ++ (if u32 (relfileOff + 8) <? u32 (relfileOff + IndexTupleSize t_info)
          then [ (u32 (relfileOff + 8),
                  u32 (relfileOff + IndexTupleSize t_info - 1),
                  TupleText blkno offset "contents", COLOR_WHITE) ]
          else []).
Proof.
  intros Hinfo.
  unfold EmitXmlIndexTuple, EmitXmlTupleTag. mred. mstate.
  rewrite Hinfo. mred. mstate.
  u32_norm.
  replace (relfileOff + PG.sizeof_uint16 + PG.sizeof_uint16
           + PG.sizeof_uint16 + PG.sizeof_uint16) with (relfileOff + 8)
    by (unfold PG.sizeof_uint16; ring).
  destruct (u32 (relfileOff + 8) <? u32 (relfileOff + IndexTupleSize t_info)).
  - eexists. eexists. split; [reflexivity|]. mstate.
    rewrite <- !app_assoc. cbn [app].
    split; [reflexivity|]. split; [reflexivity|].
    shapes. shape_eq.
  - eexists. eexists. split; [reflexivity|]. mstate.
    rewrite <- !app_assoc. cbn [app].
    split; [reflexivity|]. split; [reflexivity|].
    shapes. shape_eq.
Qed.

(** the header length [GetHeapTupleHeaderFlags] computes, and the state
    it leaves after comparing it with [t_hoff] *)
Definition computed_header_length (t_infomask t_infomask2 : Z) : Z :=
  PG.MAXALIGN
    (PG.off_t_bits
     + (if bit_set t_infomask PG.HEAP_HASNULL
        then PG.BITMAPLEN (Z.land t_infomask2 PG.HEAP_NATTS_MASK)
        else 0)
     + (if bit_set t_infomask PG.HEAP_HASOID then PG.sizeof_Oid else 0)).

Definition header_length_check (t_infomask t_infomask2 t_hoff : Z)
    (g : globals) : globals :=
  if computed_header_length t_infomask t_infomask2 =? t_hoff then g
  else
    set_exitCode 1
      (say (ErrComputedHeaderLength
              (computed_header_length t_infomask t_infomask2) t_hoff) g).

Lemma GetHeapTupleHeaderFlags_run htup isInfomask2 g
    t_infomask2 t_infomask t_hoff :
  peek 2 (buffer g) (htup + PG.off_t_infomask2) = Some t_infomask2 ->
  peek 2 (buffer g) (htup + PG.off_t_infomask) = Some t_infomask ->
  peek 1 (buffer g) (htup + PG.off_t_hoff) = Some t_hoff ->
  GetHeapTupleHeaderFlags htup isInfomask2 g =
    Ret (if isInfomask2 then infomask2_string t_infomask2
         else infomask_string t_infomask)
        (header_length_check t_infomask t_infomask2 t_hoff g).
Proof.
  intros H2 H1 H0.
  unfold GetHeapTupleHeaderFlags, header_length_check, computed_header_length.
  cbv zeta.
  destruct isInfomask2; cbn [negb];
    destruct (bit_set t_infomask PG.HEAP_HASNULL) eqn:EN;
    match goal with
    | |- context [?a =? t_hoff] => destruct (a =? t_hoff) eqn:EC
    end;
    mrun ltac:(rewrite ?H2, ?H1, ?H0, ?EN, ?EC; cbn [negb]);
    reflexivity.
Qed.

Lemma EmitXmlTag_run blkno level name color relfileOff relfileOffEnd g :
  EmitXmlTag blkno level name color relfileOff relfileOffEnd g =
  Ret tt
    (push (u32 relfileOff) (u32 relfileOffEnd)
       (BlockText blkno (if level =? PG.UINT_MAX then None else Some level)
          name)
       color g).
Proof. reflexivity. Qed.

Lemma EmitXmlTupleTag_run blkno offset name color relfileOff relfileOffEnd g :
  EmitXmlTupleTag blkno offset name color relfileOff relfileOffEnd g =
  Ret tt
    (push (u32 relfileOff) (u32 relfileOffEnd) (TupleText blkno offset name)
       color g).
Proof. reflexivity. Qed.

(** one step of an evaluation: the first function of a sequence returns *)
Ltac mstep known :=
  (erewrite bind_Ret by
      first [ apply EmitXmlTupleTag_run
            | apply EmitXmlTag_run
            | apply load_peek; eassumption
            | known
            | reflexivity ]);
  cbv beta.

Lemma EmitXmlHeapTuple_run blkno offset htup relfileOff itemSize g
    t_infomask2 t_infomask t_hoff :
  peek 2 (buffer g) (htup + PG.off_t_infomask2) = Some t_infomask2 ->
  peek 2 (buffer g) (htup + PG.off_t_infomask) = Some t_infomask ->
  peek 1 (buffer g) (htup + PG.off_t_hoff) = Some t_hoff ->
  exists g' new,
    EmitXmlHeapTuple blkno offset htup relfileOff itemSize g = Ret tt g' /\
    stdout g' = stdout g ++ new /\
    map shape (tags_of new) =
      [ (u32 relfileOff, u32 (relfileOff + 3),
         TupleText blkno offset "xmin", COLOR_RED_LIGHT);
        (u32 (relfileOff + 4), u32 (relfileOff + 7),
         TupleText blkno offset "xmax", COLOR_RED_LIGHT);
        (u32 (relfileOff + 8), u32 (relfileOff + 11),
         TupleText blkno offset
           (if bit_set t_infomask PG.HEAP_MOVED then "t_xvac" else "t_cid"),
         if bit_set t_infomask PG.HEAP_MOVED then COLOR_PINK
         else COLOR_RED_DARK);
        (u32 (relfileOff + 12), u32 (relfileOff + 13),
         TupleText blkno offset "t_ctid->bi_hi", COLOR_BLUE_LIGHT);
        (u32 (relfileOff + 14), u32 (relfileOff + 15),
         TupleText blkno offset "t_ctid->bi_lo", COLOR_BLUE_LIGHT);
        (u32 (relfileOff + 16), u32 (relfileOff + 17),
         TupleText blkno offset "t_ctid->offsetNumber", COLOR_BLUE_DARK);
        (u32 (relfileOff + 18), u32 (relfileOff + 19),
         TupleText blkno offset (infomask2_string t_infomask2),
         COLOR_GREEN_LIGHT);
        (u32 (relfileOff + 20), u32 (relfileOff + 21),
         TupleText blkno offset (infomask_string t_infomask),
         COLOR_GREEN_DARK);
        (u32 (relfileOff + 22), u32 (relfileOff + 22),
         TupleText blkno offset "t_hoff", COLOR_YELLOW_DARK);
        (u32 (relfileOff + 23), u32 (relfileOff + t_hoff - 1),
         TupleText blkno offset "t_bits", COLOR_YELLOW_DARK);
        (u32 (relfileOff + t_hoff), u32 (relfileOff + itemSize - 1),
         TupleText blkno offset "contents", COLOR_WHITE) ].
Proof.
  intros H2 H1 H0.
  unfold EmitXmlHeapTuple. cbv zeta.
  destruct (bit_set t_infomask PG.HEAP_MOVED) eqn:EM;
    destruct (computed_header_length t_infomask t_infomask2 =? t_hoff) eqn:EC;
    (eexists; eexists; split;
     [ do 3 mstep fail; rewrite EM; cbn [negb];
       repeat (mstep ltac:(apply GetHeapTupleHeaderFlags_run; eassumption);
               try unfold header_length_check; rewrite ?EC);
       apply EmitXmlTupleTag_run
     | mstate;
       rewrite <- !app_assoc; cbn [app];
       split; [reflexivity|]; shapes; shape_eq ]).
Qed.

(* ================================================================== *)
(** ** Index tuples without a key *)

(** C7, as the code has it: an index tuple whose size field leaves no
    payload ([IndexTupleSize] is the size of the tuple header) gets exactly
    four tags, three for the parts of the tuple pointer and one for
    [t_info], and no contents tag. *)
Theorem EmitXmlIndexTuple_no_payload blkno offset tuple relfileOff g t_info :
  peek 2 (buffer g) (tuple + PG.off_t_info) = Some t_info ->
  IndexTupleSize t_info - PG.sizeof_IndexTupleData = 0 ->
  exists g' new,
    EmitXmlIndexTuple blkno offset tuple relfileOff g = Ret tt g' /\
    stdout g' = stdout g ++ new /\
    messages_of new = [] /\
    map shape (tags_of new) =
      [ (u32 relfileOff, u32 (relfileOff + 1),
         TupleText blkno offset "t_tid->bi_hi", COLOR_BLUE_LIGHT);
        (u32 (relfileOff + 2), u32 (relfileOff + 3),
         TupleText blkno offset "t_tid->bi_lo", COLOR_BLUE_LIGHT);
        (u32 (relfileOff + 4), u32 (relfileOff + 5),
         TupleText blkno offset "t_tid->offsetNumber", COLOR_BLUE_DARK);
        (u32 (relfileOff + 6), u32 (relfileOff + 7),
         TupleText blkno offset "t_info", COLOR_YELLOW_DARK) ].
Proof.
  intros Hinfo Hsize.
  destruct (EmitXmlIndexTuple_run blkno offset tuple relfileOff t_info g Hinfo)
    as (g' & new & Hrun & Hout & Hmsg & Htags).
  exists g', new. repeat split; try assumption.
  rewrite Htags.
  replace (IndexTupleSize t_info) with 8
    by (unfold PG.sizeof_IndexTupleData in Hsize; lia).
  rewrite Z.ltb_irrefl. reflexivity.
Qed.

(** C7 as stated fails: the second index tuple of [Pages.btree_page] has a
    size field of 8, hence no payload, and gets four tags, not two. *)
Lemma EmitXmlIndexTuple_two_tags_counterexample :
  peek 2 (buffer Pages.btree_block) (192 + PG.off_t_info) = Some 8 /\
  IndexTupleSize 8 - PG.sizeof_IndexTupleData = 0 /\
  List.length
    (tags_of (stdout (final (EmitXmlIndexTuple 0 2 192 192 Pages.btree_block))))
  = 4%nat /\
  List.length
    (tags_of (stdout (final (EmitXmlIndexTuple 0 2 192 192 Pages.btree_block))))
  <> 2%nat.
Proof. vm_compute. repeat split; discriminate. Qed.

(* ================================================================== *)
(** ** A block of which less than the page header was read *)

(** C9: when fewer bytes were read than the page header without its line
    pointers takes, [EmitXmlPage] writes no tag at all, reports the end of
    the block within the header, sets the exit code to 1 and returns; and
    the loop of [EmitXmlFile] goes on to what follows in the file. *)
Theorem EmitXmlPage_partial_header cs :
  (forall blkno g,
     bytesToFormat g < PG.off_pd_linp ->
     exists g',
       EmitXmlPage cs blkno g = Ret tt g' /\
       stdout g' =
         stdout g ++ [OutMsg (ErrEndOfBlockInHeader (bytesToFormat g))] /\
       tagNumber g' = tagNumber g /\
       exitCode g' = 1)
  /\
  (forall block rest initialRead g,
     (0 < List.length block < 24)%nat ->
     24 <= blockSize g ->
     bit_set (blockOptions g) BLOCK_RANGE
       && (u32 (blockEnd g) <=? currentBlock g) = false ->
     exists g',
       EmitXmlFile_loop cs (block :: rest) initialRead g =
         EmitXmlFile_loop cs rest false g' /\
       stdout g' =
         stdout g
         ++ [OutMsg (ErrEndOfBlockInHeader (Z.of_nat (List.length block)))] /\
       tagNumber g' = tagNumber g /\
       exitCode g' = 1 /\
       currentBlock g' = u32 (currentBlock g + 1)).
Proof.
  assert (Hpage : forall blkno g,
     bytesToFormat g < PG.off_pd_linp ->
     EmitXmlPage cs blkno g =
       Ret tt
         (set_exitCode 1
            (say (ErrEndOfBlockInHeader (bytesToFormat g))
               (set_specialType SPEC_SECT_ERROR_UNKNOWN
                  (set_pageOffset (u32 (blockSize g * currentBlock g)) g))))).
  { intros blkno g Hbtf.
    unfold EmitXmlPage, GetSpecialSectionType, EmitXmlPageHeader.
    cbv zeta. mred. mstate.
    replace (PG.sizeof_PageHeaderData <? bytesToFormat g) with false
      by (symmetry; apply Z.ltb_ge; unfold PG.sizeof_PageHeaderData,
            PG.off_pd_linp in *; lia).
    mred. mstate.
    replace (bytesToFormat g <? PG.off_pd_linp) with true
      by (symmetry; apply Z.ltb_lt; exact Hbtf).
    mred. mstate.
    change (EOF_ENCOUNTERED =? EOF_ENCOUNTERED) with true.
    mred. mstate. reflexivity. }
  split.
  - intros blkno g Hbtf. eexists. split; [apply Hpage; exact Hbtf|].
    mstate. repeat split.
  - intros block rest initialRead g Hlen Hbs Hrange.
    cbn [EmitXmlFile_loop hd]. unfold fread. mred. mstate.
    replace (firstn (Z.to_nat (blockSize g)) block) with block
      by (symmetry; apply firstn_all2; lia).
    replace (Z.of_nat (List.length block) =? 0) with false
      by (symmetry; apply Z.eqb_neq; lia).
    mred. mstate.
    rewrite Hpage by (mstate; unfold PG.off_pd_linp; lia).
    mred. mstate. rewrite Hrange. mred. mstate.
    eexists. split; [reflexivity|]. mstate. repeat split.
Qed.

(* ================================================================== *)
(** ** Line pointers and the tuples they point at *)

Lemma land_32767_range (x : Z) : 0 <= Z.land x 32767 <= 32767.
Proof.
  change 32767 with (Z.ones 15) at 1 2.
  rewrite Z.land_ones by lia.
  pose proof (Z.mod_pos_bound x (2 ^ 15) ltac:(lia)) as H.
  change (2 ^ 15) with 32768 in *. lia.
Qed.

Lemma ItemIdGetOffset_range (itemId : Z) : 0 <= ItemIdGetOffset itemId <= 32767.
Proof. apply land_32767_range. Qed.

Lemma ItemIdGetLength_range (itemId : Z) : 0 <= ItemIdGetLength itemId <= 32767.
Proof. apply land_32767_range. Qed.

Lemma PageGetItemId_run offset itemId g :
  peek 4 (buffer g) (PG.off_pd_linp + PG.sizeof_ItemIdData * (offset - 1))
    = Some itemId ->
  PageGetItemId offset g = Ret itemId g.
Proof. intros H. unfold PageGetItemId. apply load_peek. exact H. Qed.

(** a heap item that fits on the block and has a length is handed to
    [EmitXmlHeapTuple] with its offset in the file *)
Lemma EmitXmlTuples_item_heap blkno offset itemId g :
  peek 4 (buffer g) (PG.off_pd_linp + PG.sizeof_ItemIdData * (offset - 1))
    = Some itemId ->
  ItemIdGetLength itemId <> 0 ->
  ItemIdGetOffset itemId + ItemIdGetLength itemId <= blockSize g ->
  ItemIdGetOffset itemId + ItemIdGetLength itemId <= bytesToFormat g ->
  EmitXmlTuples_item blkno ITEM_HEAP offset g =
    EmitXmlHeapTuple blkno offset (ItemIdGetOffset itemId)
      (pageOffset g + ItemIdGetOffset itemId) (ItemIdGetLength itemId) g.
Proof.
  intros Hid Hlen Hbs Hbtf.
  pose proof (ItemIdGetOffset_range itemId) as Ro.
  pose proof (ItemIdGetLength_range itemId) as Rl.
  unfold EmitXmlTuples_item. cbv zeta.
  rewrite (bind_Ret _ _ _ _ _ (PageGetItemId_run _ _ _ Hid)).
  mred. mstate.
  rewrite u32_small by lia.
  replace (blockSize g <? ItemIdGetOffset itemId + ItemIdGetLength itemId)
    with false by (symmetry; apply Z.ltb_ge; lia).
  replace (bytesToFormat g <? ItemIdGetOffset itemId + ItemIdGetLength itemId)
    with false by (symmetry; apply Z.ltb_ge; lia).
  replace (ItemIdGetLength itemId =? 0) with false
    by (symmetry; apply Z.eqb_neq; exact Hlen).
  reflexivity.
Qed.


(* ================================================================== *)
(** ** The loop of [EmitXmlTuples] over a heap page *)

(** the line pointer of slot [k], as [PageGetItemId] reads it *)
Definition item_at (g : globals) (k : Z) : option Z :=
  peek 4 (buffer g) (PG.off_pd_linp + PG.sizeof_ItemIdData * (k - 1)).

(** the test [EmitXmlTuples] makes before it formats a heap item *)
Definition fitsb (g : globals) (itemId : Z) : bool :=
  (ItemIdGetOffset itemId + ItemIdGetLength itemId <=? blockSize g)
  && (ItemIdGetOffset itemId + ItemIdGetLength itemId <=? bytesToFormat g).

(** the fixed part of the tuple header of an item lies in the buffer, or
    the item has no length and its header is not read *)
Definition header_in_buffer (g : globals) (itemId : Z) : bool :=
  (ItemIdGetLength itemId =? 0)
  || (ItemIdGetOffset itemId + PG.off_t_bits
      <=? Z.of_nat (List.length (buffer g))).

Definition heap_slot_okb (g : globals) (k : Z) : bool :=
  match item_at g k with
  | Some itemId => fitsb g itemId && header_in_buffer g itemId
  | None => false
  end.

(** the offsets a loop of [n] rounds from [first] goes through *)
Fixpoint offsets (n : nat) (first : Z) : list Z :=
  match n with
  | O => []
  | S k => first :: offsets k (first + 1)
  end.

(** the tags of the tuple of slot [k] among [ts] *)
Definition is_tuple_of (k : Z) (tx : tag_text) : bool :=
  match tx with
  | TupleText _ offset _ => offset =? k
  | _ => false
  end.

Definition tuple_tags (k : Z) (ts : list TAG) : list TAG :=
  filter (fun t => is_tuple_of k (text t)) ts.

Lemma in_offsets (n : nat) (first k : Z) :
  In k (offsets n first) <-> first <= k < first + Z.of_nat n.
Proof.
  revert first. induction n as [|n IH]; intros first.
  - simpl. lia.
  - cbn [offsets In]. rewrite IH. lia.
Qed.

Lemma shapes_texts (ts : list TAG) (L : list (Z * Z * tag_text * string)) :
  map shape ts = L -> map text ts = map (fun s => snd (fst s)) L.
Proof.
  intros <-. rewrite map_map. apply map_ext. intros t. reflexivity.
Qed.

Lemma tuple_tags_length (k : Z) (ts : list TAG) :
  List.length (tuple_tags k ts)
  = List.length (filter (is_tuple_of k) (map text ts)).
Proof.
  unfold tuple_tags. induction ts as [|t ts IH]; [reflexivity|].
  cbn [filter map]. destruct (is_tuple_of k (text t)); cbn [List.length];
    rewrite IH; reflexivity.
Qed.

Lemma tuple_tags_nil_iff (k : Z) (ts : list TAG) :
  tuple_tags k ts = [] <-> filter (is_tuple_of k) (map text ts) = [].
Proof.
  split; intros H.
  - apply length_zero_iff_nil. rewrite <- tuple_tags_length, H. reflexivity.
  - apply length_zero_iff_nil. rewrite tuple_tags_length, H. reflexivity.
Qed.

Lemma tuple_tags_app (k : Z) (a b : list TAG) :
  tuple_tags k (a ++ b) = tuple_tags k a ++ tuple_tags k b.
Proof. apply filter_app. Qed.

Lemma frame_item_at g g' k : frame g g' -> item_at g' k = item_at g k.
Proof.
  intros F. unfold item_at.
  assert (buffer g' = buffer g) as -> by (unfold frame in F; tauto).
  reflexivity.
Qed.

Lemma frame_heap_slot_okb g g' k :
  frame g g' -> heap_slot_okb g' k = heap_slot_okb g k.
Proof.
  intros F. unfold heap_slot_okb, fitsb, header_in_buffer.
  rewrite (frame_item_at _ _ _ F).
  unfold frame in F.
  destruct F as (_ & _ & _ & _ & -> & -> & _ & _ & _ & _ & ->).
  reflexivity.
Qed.

Lemma keeps_Ret (R : globals -> globals -> Prop) {A} (m : M A) g a g' :
  keeps R m -> m g = Ret a g' -> R g g'.
Proof. intros K E. specialize (K g). rewrite E in K. exact K. Qed.

(** what the loop body does with a heap item that fits *)
Lemma EmitXmlTuples_item_heap_ok blkno k g itemId :
  item_at g k = Some itemId ->
  fitsb g itemId = true ->
  header_in_buffer g itemId = true ->
  exists g' new,
    EmitXmlTuples_item blkno ITEM_HEAP k g = Ret tt g' /\
    frame g g' /\
    tags_of (stdout g') = tags_of (stdout g) ++ new /\
    (forall j, j <> k -> tuple_tags j new = []) /\
    List.length (tuple_tags k new)
      = (if ItemIdGetLength itemId =? 0 then 0%nat else 11%nat) /\
    (ItemIdGetLength itemId <> 0 ->
     exists t rest,
       new = t :: rest /\
       shape t = (u32 (pageOffset g + ItemIdGetOffset itemId),
                  u32 (pageOffset g + ItemIdGetOffset itemId + 3),
                  TupleText blkno k "xmin", COLOR_RED_LIGHT)).
Proof.
  intros Hid Hfit Hbuf.
  pose proof (ItemIdGetOffset_range itemId) as Ro.
  pose proof (ItemIdGetLength_range itemId) as Rl.
  unfold fitsb in Hfit. apply andb_prop in Hfit. destruct Hfit as (Hbs & Hbtf).
  apply Z.leb_le in Hbs. apply Z.leb_le in Hbtf.
  destruct (ItemIdGetLength itemId =? 0) eqn:Elen.
  - (* no length: nothing is written *)
    apply Z.eqb_eq in Elen.
    exists g, []. split.
    { unfold EmitXmlTuples_item. cbv zeta. unfold item_at in Hid.
      rewrite (bind_Ret _ _ _ _ _ (PageGetItemId_run _ _ _ Hid)).
      mred. mstate. rewrite Elen, Z.add_0_r, u32_small by lia.
      replace (blockSize g <? ItemIdGetOffset itemId) with false
        by (symmetry; apply Z.ltb_ge; lia).
      replace (bytesToFormat g <? ItemIdGetOffset itemId) with false
        by (symmetry; apply Z.ltb_ge; lia).
      reflexivity. }
    split; [apply frame_refl|]. split; [rewrite app_nil_r; reflexivity|].
    split; [reflexivity|]. split; [reflexivity|]. intros H. contradiction.
  - apply Z.eqb_neq in Elen.
    unfold header_in_buffer in Hbuf.
    replace (ItemIdGetLength itemId =? 0) with false in Hbuf
      by (symmetry; apply Z.eqb_neq; exact Elen).
    cbn [orb] in Hbuf. apply Z.leb_le in Hbuf. unfold PG.off_t_bits in Hbuf.
    destruct (peek_Some 2 (buffer g) (ItemIdGetOffset itemId + PG.off_t_infomask2))
      as (i2 & H2 & _); [unfold PG.off_t_infomask2; lia
                        | unfold PG.off_t_infomask2; simpl Z.of_nat; lia |].
    destruct (peek_Some 2 (buffer g) (ItemIdGetOffset itemId + PG.off_t_infomask))
      as (i1 & H1 & _); [unfold PG.off_t_infomask; lia
                        | unfold PG.off_t_infomask; simpl Z.of_nat; lia |].
    destruct (peek_Some 1 (buffer g) (ItemIdGetOffset itemId + PG.off_t_hoff))
      as (h & H0 & _); [unfold PG.off_t_hoff; lia
                       | unfold PG.off_t_hoff; simpl Z.of_nat; lia |].
    unfold item_at in Hid.
    destruct (EmitXmlHeapTuple_run blkno k (ItemIdGetOffset itemId)
                (pageOffset g + ItemIdGetOffset itemId)
                (ItemIdGetLength itemId) g _ _ _ H2 H1 H0)
      as (g' & out & Hrun & Hout & Hshape).
    exists g', (tags_of out).
    rewrite (EmitXmlTuples_item_heap _ _ _ _ Hid Elen Hbs Hbtf).
    split; [exact Hrun|].
    split; [exact (keeps_Ret _ _ _ _ _ (frame_EmitXmlHeapTuple _ _ _ _ _) Hrun)|].
    split; [rewrite Hout; apply tags_of_app|].
    pose proof (shapes_texts _ _ Hshape) as Htext. cbn [map fst snd] in Htext.
    split.
    { intros j Hj. apply tuple_tags_nil_iff. rewrite Htext.
      cbn [filter is_tuple_of].
      replace (k =? j) with false by (symmetry; apply Z.eqb_neq; lia).
      reflexivity. }
    split.
    { rewrite tuple_tags_length, Htext. cbn [filter is_tuple_of].
      rewrite Z.eqb_refl. reflexivity. }
    intros _.
    destruct (tags_of out) as [|t rest]; [discriminate Hshape|].
    exists t, rest. split; [reflexivity|].
    cbn [map] in Hshape. congruence.
Qed.

(** the formats [EmitXmlTuples] chooses between: the special sections
    that make it format items as heap tuples *)
Definition heap_formatted (t : specialSectionTypes) : bool :=
  match t with
  | SPEC_SECT_NONE | SPEC_SECT_SEQUENCE
  | SPEC_SECT_ERROR_UNKNOWN | SPEC_SECT_ERROR_BOUNDARY => true
  | _ => false
  end.

(** the special sections that make [EmitXmlTuples] give up *)
Definition unsupported_index (t : specialSectionTypes) : bool :=
  match t with
  | SPEC_SECT_INDEX_HASH | SPEC_SECT_INDEX_GIST
  | SPEC_SECT_INDEX_GIN | SPEC_SECT_INDEX_SPGIST => true
  | _ => false
  end.

Lemma for_offsets_app (a b : nat) (first : Z) (body : Z -> M unit) g :
  for_offsets (a + b) first body g =
  bind (for_offsets a first body)
    (fun _ => for_offsets b (first + Z.of_nat a) body) g.
Proof.
  revert first g. induction a as [|a IH]; intros first g.
  - cbn [for_offsets Nat.add]. unfold bind, ret. rewrite Z.add_0_r. reflexivity.
  - cbn [for_offsets Nat.add]. unfold bind.
    destruct (body first g) as [[] g1 | g1 | g1]; try reflexivity.
    rewrite IH. unfold bind.
    replace (first + 1 + Z.of_nat a) with (first + Z.of_nat (S a)) by lia.
    reflexivity.
Qed.

Lemma forallb_same {A} (f h : A -> bool) (l : list A) :
  (forall x, f x = h x) -> forallb f l = forallb h l.
Proof.
  intros E. induction l as [|x l IH]; [reflexivity|].
  cbn [forallb]. rewrite E, IH. reflexivity.
Qed.

Lemma heap_loop_ok blkno (n : nat) :
  forall first g,
    forallb (heap_slot_okb g) (offsets n first) = true ->
    exists g' new,
      for_offsets n first (EmitXmlTuples_item blkno ITEM_HEAP) g = Ret tt g' /\
      frame g g' /\
      tags_of (stdout g') = tags_of (stdout g) ++ new /\
      (forall j, ~ In j (offsets n first) -> tuple_tags j new = []) /\
      (forall k itemId,
         In k (offsets n first) -> item_at g k = Some itemId ->
         List.length (tuple_tags k new)
           = (if ItemIdGetLength itemId =? 0 then 0%nat else 11%nat) /\
         (ItemIdGetLength itemId <> 0 ->
          exists t rest,
            tuple_tags k new = t :: rest /\
            shape t = (u32 (pageOffset g + ItemIdGetOffset itemId),
                       u32 (pageOffset g + ItemIdGetOffset itemId + 3),
                       TupleText blkno k "xmin", COLOR_RED_LIGHT))).
Proof.
  induction n as [|n IH]; intros first g Hok.
  - exists g, []. cbn [for_offsets offsets]. split; [reflexivity|].
    split; [apply frame_refl|]. split; [rewrite app_nil_r; reflexivity|].
    split; [reflexivity|]. intros k itemId [].
  - cbn [offsets forallb] in Hok. apply andb_prop in Hok.
    destruct Hok as (Hfirst & Hrest).
    unfold heap_slot_okb in Hfirst.
    destruct (item_at g first) as [itemId0|] eqn:Hid; [|discriminate].
    apply andb_prop in Hfirst. destruct Hfirst as (Hfit & Hbuf).
    destruct (EmitXmlTuples_item_heap_ok blkno first g itemId0 Hid Hfit Hbuf)
      as (g1 & new1 & Hrun1 & F1 & Hout1 & Hother1 & Hlen1 & Hxmin1).
    assert (Hrest1 : forallb (heap_slot_okb g1) (offsets n (first + 1)) = true).
    { rewrite <- Hrest. apply forallb_same. intros k.
      apply frame_heap_slot_okb. exact F1. }
    destruct (IH (first + 1) g1 Hrest1)
      as (g2 & new2 & Hrun2 & F2 & Hout2 & Hother2 & Hslots2).
    exists g2, (new1 ++ new2).
    split.
    { cbn [for_offsets]. rewrite (bind_Ret _ _ _ _ _ Hrun1). exact Hrun2. }
    split; [exact (frame_trans _ _ _ F1 F2)|].
    split; [rewrite Hout2, Hout1, app_assoc; reflexivity|].
    assert (Hpo : pageOffset g1 = pageOffset g)
      by (unfold frame in F1; tauto).
    split.
    { intros j Hj. cbn [offsets In] in Hj.
      rewrite tuple_tags_app, Hother1, Hother2; [reflexivity | tauto |].
      intros ->. tauto. }
    intros k itemId Hin Hk. cbn [offsets In] in Hin.
    rewrite tuple_tags_app.
    destruct (Z.eq_dec first k) as [<- | Hne].
    + (* the slot of this round *)
      rewrite Hid in Hk. injection Hk as <-.
      rewrite (Hother2 first) by (rewrite in_offsets; lia).
      rewrite app_nil_r. split; [exact Hlen1|].
      intros Hlen. destruct (Hxmin1 Hlen) as (t & rest & -> & Hshape).
      exists t, (tuple_tags first rest). split; [|exact Hshape].
      unfold tuple_tags. cbn [filter].
      replace (text t) with (TupleText blkno first "xmin")
        by (unfold shape in Hshape; congruence).
      cbn [is_tuple_of]. rewrite Z.eqb_refl. reflexivity.
    + (* a slot of a later round *)
      destruct Hin as [Heq | Hin]; [contradiction|].
      rewrite (Hother1 k) by (intros ->; contradiction).
      cbn [app]. rewrite <- Hpo. apply Hslots2; [exact Hin|].
      rewrite (frame_item_at _ _ _ F1). exact Hk.
Qed.

Lemma PageGetMaxOffsetNumber_run lower g :
  peek 2 (buffer g) PG.off_pd_lower = Some lower ->
  PageGetMaxOffsetNumber g = Ret (max_offset_of lower) g.
Proof.
  intros H. unfold PageGetMaxOffsetNumber, pd_lower.
  rewrite (bind_Ret _ _ _ _ _ (load_peek _ _ _ _ H)). reflexivity.
Qed.

Lemma max_offset_of_nonneg lower : 0 <= lower -> 0 <= max_offset_of lower.
Proof.
  intros H. unfold max_offset_of.
  destruct (lower <=? PG.SizeOfPageHeaderData) eqn:E; [lia|].
  apply Z.leb_gt in E. apply Z.div_pos; unfold PG.sizeof_ItemIdData; lia.
Qed.

(** on a page that is not a btree meta page and lists at least one item,
    [EmitXmlTuples] with the heap format is its loop over the items *)
Lemma EmitXmlTuples_heap_loop blkno g lower :
  peek 2 (buffer g) PG.off_pd_lower = Some lower ->
  IsBtreeMetaPage g = Ret false g ->
  heap_formatted (specialType g) = true ->
  0 < max_offset_of lower <= blockSize g ->
  EmitXmlTuples blkno g =
    for_offsets (Z.to_nat (max_offset_of lower)) PG.FirstOffsetNumber
      (EmitXmlTuples_item blkno ITEM_HEAP) g.
Proof.
  intros Hlo Hmeta Hfmt Hmax.
  unfold EmitXmlTuples.
  rewrite (bind_Ret _ _ _ _ _ (PageGetMaxOffsetNumber_run _ _ Hlo)).
  rewrite (bind_Ret _ _ _ _ _ Hmeta).
  mred. mstate.
  replace (max_offset_of lower =? 0) with false
    by (symmetry; apply Z.eqb_neq; lia).
  replace (max_offset_of lower <? 0) with false
    by (symmetry; apply Z.ltb_ge; lia).
  replace (blockSize g <? max_offset_of lower) with false
    by (symmetry; apply Z.ltb_ge; lia).
  cbn [orb].
  destruct (specialType g); try discriminate Hfmt; reflexivity.
Qed.

(** a heap item that does not fit stops the program *)
Lemma EmitXmlTuples_item_heap_unfit blkno j g itemId :
  item_at g j = Some itemId ->
  fitsb g itemId = false ->
  EmitXmlTuples_item blkno ITEM_HEAP j g =
    Exit (set_exitCode 1
            (say (ErrItemBeyondBlock (blockSize g) (bytesToFormat g)
                    (ItemIdGetOffset itemId + ItemIdGetLength itemId)) g)).
Proof.
  intros Hid Hfit.
  pose proof (ItemIdGetOffset_range itemId) as Ro.
  pose proof (ItemIdGetLength_range itemId) as Rl.
  unfold EmitXmlTuples_item. cbv zeta. unfold item_at in Hid.
  rewrite (bind_Ret _ _ _ _ _ (PageGetItemId_run _ _ _ Hid)).
  mred. mstate. rewrite u32_small by lia.
  replace ((blockSize g <? ItemIdGetOffset itemId + ItemIdGetLength itemId)
           || (bytesToFormat g
               <? ItemIdGetOffset itemId + ItemIdGetLength itemId))
    with true; [reflexivity|].
  unfold fitsb in Hfit. rewrite !Z.leb_antisym, <- negb_orb in Hfit.
  symmetry. apply negb_false_iff. exact Hfit.
Qed.



(* ================================================================== *)
(** ** Pages with a special section the program does not decode *)

(** functions that only look at the block: they return in the state they
    were called in, or stop at a read outside the buffer, and do the same
    in every state with the same buffer, block size and number of bytes
    read *)
Definition same_block (g g' : globals) : Prop :=
  buffer g' = buffer g /\ blockSize g' = blockSize g /\
  bytesToFormat g' = bytesToFormat g.

Definition block_reader {A} (m : M A) : Prop :=
  forall g,
    match m g with
    | Ret a g1 => g1 = g /\ forall g', same_block g g' -> m g' = Ret a g'
    | Exit _ => False
    | Fault g1 => g1 = g
    end.

Lemma block_reader_ret {A} (a : A) : block_reader (ret a).
Proof. intros g. split; [reflexivity|]. intros g' _. reflexivity. Qed.

Lemma block_reader_load n off : block_reader (load n off).
Proof.
  intros g. unfold load.
  destruct (peek n (buffer g) off) as [v|] eqn:E; [|reflexivity].
  split; [reflexivity|]. intros g' (Hb & _). rewrite Hb, E. reflexivity.
Qed.

Lemma block_reader_blockSize : block_reader (get blockSize).
Proof.
  intros g. split; [reflexivity|]. intros g' (_ & Hs & _).
  unfold get. rewrite Hs. reflexivity.
Qed.

Lemma block_reader_bytesToFormat : block_reader (get bytesToFormat).
Proof.
  intros g. split; [reflexivity|]. intros g' (_ & _ & Hb).
  unfold get. rewrite Hb. reflexivity.
Qed.

Lemma block_reader_bind {A B} (m : M A) (k : A -> M B) :
  block_reader m -> (forall a, block_reader (k a)) -> block_reader (bind m k).
Proof.
  intros Hm Hk g. unfold bind. specialize (Hm g).
  destruct (m g) as [a g1 | g1 | g1]; [| contradiction | exact Hm].
  destruct Hm as (-> & Hm). specialize (Hk a g).
  destruct (k a g) as [b g2 | g2 | g2]; [| contradiction | exact Hk].
  destruct Hk as (-> & Hk). split; [reflexivity|].
  intros g' S. rewrite (Hm g' S). apply Hk. exact S.
Qed.

Lemma block_reader_andM a (b : M bool) :
  block_reader b -> block_reader (andM a b).
Proof. intros H. destruct a; [exact H | apply block_reader_ret]. Qed.

Ltac block_reading :=
  cbv zeta;
  repeat first
    [ apply block_reader_ret
    | apply block_reader_load
    | apply block_reader_blockSize
    | apply block_reader_bytesToFormat
    | apply block_reader_bind; [| intros ?]
    | apply block_reader_andM
    | match goal with
      | |- block_reader (if ?c then _ else _) => destruct c
      end ].

Lemma block_reader_GetSpecialSectionType : block_reader GetSpecialSectionType.
Proof. unfold GetSpecialSectionType, pd_special. block_reading. Qed.

Lemma block_reader_IsBtreeMetaPage : block_reader IsBtreeMetaPage.
Proof.
  unfold IsBtreeMetaPage, PageGetSpecialSize, PageGetPageSize,
    pd_pagesize_version, pd_special.
  block_reading.
Qed.

Lemma block_reader_Ret {A} (m : M A) g g' a :
  block_reader m -> m g = Ret a g -> same_block g g' -> m g' = Ret a g'.
Proof.
  intros Hm E S. specialize (Hm g). rewrite E in Hm. apply Hm. exact S.
Qed.

Lemma frame_same_block g g' : frame g g' -> same_block g g'.
Proof. unfold frame, same_block. tauto. Qed.

(** [EmitXmlPage] on a block whose special section is not that of a btree
    page *)
Lemma EmitXmlPage_not_btree cs blkno g t :
  GetSpecialSectionType g = Ret t g ->
  t <> SPEC_SECT_INDEX_BTREE ->
  EmitXmlPage cs blkno g =
    bind (EmitXmlPageHeader cs blkno PG.UINT_MAX)
      (fun rc =>
         if negb (rc =? EOF_ENCOUNTERED) then
           EmitXmlTuples blkno ;;
           specialType' <- get specialType ;;
           match specialType' with
           | SPEC_SECT_NONE => ret tt
           | _ => EmitXmlSpecial blkno PG.UINT_MAX
           end
         else ret tt)
      (set_specialType t
         (set_pageOffset (u32 (blockSize g * currentBlock g)) g)).
Proof.
  intros Ht Hne.
  assert (Ht' : GetSpecialSectionType
                  (set_pageOffset (u32 (blockSize g * currentBlock g)) g)
                = Ret t (set_pageOffset (u32 (blockSize g * currentBlock g)) g)).
  { apply (block_reader_Ret _ g); [apply block_reader_GetSpecialSectionType
                                  | exact Ht | repeat split]. }
  unfold EmitXmlPage. cbv zeta.
  do 3 (rewrite bind_Ret with (a := _) (g' := _) by reflexivity; cbv beta).
  rewrite (bind_Ret _ _ _ _ _ Ht').
  do 4 (rewrite bind_Ret with (a := _) (g' := _) by reflexivity; cbv beta).
  mstate.
  destruct t; try reflexivity. contradiction.
Qed.

Lemma EmitXmlSpecial_unsupported blkno level g special :
  peek 2 (buffer g) PG.off_pd_special = Some special ->
  specialType g = SPEC_SECT_SEQUENCE \/ unsupported_index (specialType g) = true ->
  EmitXmlSpecial blkno level g =
    Ret tt
      (set_exitCode 1
         (say (MsgUnsupportedSpecial
                 (specialSectionTypes_value (specialType g))) g)).
Proof.
  intros Hsp Ht. unfold EmitXmlSpecial, pd_special.
  rewrite (bind_Ret _ _ _ _ _ (load_peek _ _ _ _ Hsp)).
  mred. mstate.
  destruct (specialType g); destruct Ht as [Ht | Ht]; try discriminate Ht;
    reflexivity.
Qed.

Lemma EmitXmlTuples_unsupported blkno g lower :
  peek 2 (buffer g) PG.off_pd_lower = Some lower ->
  IsBtreeMetaPage g = Ret false g ->
  unsupported_index (specialType g) = true ->
  exists g',
    EmitXmlTuples blkno g = Exit g' /\
    exitCode g' = 1 /\
    tagNumber g' = tagNumber g /\
    (stdout g' = stdout g \/
     stdout g' = stdout g ++ [OutMsg MsgEmptyBlock] \/
     stdout g' = stdout g ++ [OutMsg (ErrItemIndexCorrupt (max_offset_of lower))]).
Proof.
  intros Hlo Hmeta Ht. unfold EmitXmlTuples.
  rewrite (bind_Ret _ _ _ _ _ (PageGetMaxOffsetNumber_run _ _ Hlo)).
  rewrite (bind_Ret _ _ _ _ _ Hmeta).
  mred. mstate.
  destruct (max_offset_of lower =? 0).
  { eexists. split; [reflexivity|]. mstate. auto. }
  destruct ((max_offset_of lower <? 0) || (blockSize g <? max_offset_of lower)).
  { eexists. split; [reflexivity|]. mstate. auto. }
  destruct (specialType g); try discriminate Ht;
    (eexists; split; [reflexivity|]; mstate; auto).
Qed.

(** C3, as the code has it.  A block classified as a sequence, once its
    header and its tuples are written, gets the report of an unsupported
    special section, no tag for that section, the exit code 1, and the run
    goes on.  A block classified as a hash, GiST, GIN or SP-GiST page whose
    header was read in full, and that [IsBtreeMetaPage] does not take for a
    meta page, stops the program with exit code 1 in [EmitXmlTuples]:
    no tuple tag, no tag for the special section and no report of an
    unsupported section is written. *)
Theorem EmitXmlPage_unsupported_special cs blkno g t special lower rc g2 :
  GetSpecialSectionType g = Ret t g ->
  peek 2 (buffer g) PG.off_pd_special = Some special ->
  peek 2 (buffer g) PG.off_pd_lower = Some lower ->
  EmitXmlPageHeader cs blkno PG.UINT_MAX
    (set_specialType t (set_pageOffset (u32 (blockSize g * currentBlock g)) g))
    = Ret rc g2 ->
  rc <> EOF_ENCOUNTERED ->
  (t = SPEC_SECT_SEQUENCE ->
   forall g3,
     EmitXmlTuples blkno g2 = Ret tt g3 ->
     EmitXmlPage cs blkno g =
       Ret tt
         (set_exitCode 1
            (say (MsgUnsupportedSpecial
                    (specialSectionTypes_value SPEC_SECT_SEQUENCE)) g3)))
  /\
  (unsupported_index t = true ->
   IsBtreeMetaPage g2 = Ret false g2 ->
   exists g',
     EmitXmlPage cs blkno g = Exit g' /\
     exitCode g' = 1 /\
     tagNumber g' = tagNumber g2 /\
     (stdout g' = stdout g2 \/
      stdout g' = stdout g2 ++ [OutMsg MsgEmptyBlock] \/
      stdout g' =
        stdout g2 ++ [OutMsg (ErrItemIndexCorrupt (max_offset_of lower))])).
Proof.
  intros Ht Hsp Hlo Hhdr Hrc.
  pose proof (keeps_Ret _ _ _ _ _ (frame_EmitXmlPageHeader cs blkno _) Hhdr)
    as F2.
  assert (Hbuf2 : buffer g2 = buffer g) by (unfold frame in F2; tauto).
  assert (Ht2 : specialType g2 = t) by (unfold frame in F2; tauto).
  assert (Hrcb : negb (rc =? EOF_ENCOUNTERED) = true)
    by (apply negb_true_iff, Z.eqb_neq; exact Hrc).
  split.
  - intros -> g3 Htup.
    rewrite (EmitXmlPage_not_btree _ _ _ _ Ht) by discriminate.
    rewrite (bind_Ret _ _ _ _ _ Hhdr). rewrite Hrcb.
    rewrite (bind_Ret _ _ _ _ _ Htup).
    pose proof (keeps_Ret _ _ _ _ _ (frame_EmitXmlTuples blkno) Htup) as F3.
    assert (Hbuf3 : buffer g3 = buffer g)
      by (unfold frame in F3; intuition congruence).
    assert (Ht3 : specialType g3 = SPEC_SECT_SEQUENCE)
      by (unfold frame in F3; intuition congruence).
    mred. rewrite Ht3.
    rewrite (EmitXmlSpecial_unsupported blkno PG.UINT_MAX g3 special)
      by (rewrite ?Hbuf3, ?Ht3; auto).
    rewrite Ht3. reflexivity.
  - intros Hu Hmeta.
    destruct (EmitXmlTuples_unsupported blkno g2 lower)
      as (g' & Hrun & Hexit & Htag & Hout);
      [rewrite Hbuf2; exact Hlo | exact Hmeta | rewrite Ht2; exact Hu |].
    exists g'.
    rewrite (EmitXmlPage_not_btree _ _ _ _ Ht)
      by (intros ->; discriminate Hu).
    rewrite (bind_Ret _ _ _ _ _ Hhdr). rewrite Hrcb.
    rewrite (bind_Exit _ _ _ _ Hrun). auto.
Qed.

(* ================================================================== *)
(** ** The page header *)

(** functions that write no tag *)
Definition quiet (g g' : globals) : Prop :=
  frame g g' /\
  tagNumber g' = tagNumber g /\
  tags_of (stdout g') = tags_of (stdout g).

Lemma quiet_refl g : quiet g g.
Proof. split; [apply frame_refl | split; reflexivity]. Qed.

Lemma quiet_trans a b c : quiet a b -> quiet b c -> quiet a c.
Proof.
  intros (F1 & T1 & S1) (F2 & T2 & S2).
  split; [exact (frame_trans _ _ _ F1 F2)|]. split; congruence.
Qed.

Lemma quiet_printf m : keeps quiet (printf m).
Proof.
  intros g. split; [apply frame_printf|]. split; [reflexivity|].
  cbn. rewrite tags_of_app. apply app_nil_r.
Qed.

Lemma quiet_set_exitCode v : keeps quiet (modify (set_exitCode v)).
Proof.
  intros g. split; [apply frame_set_exitCode|]. split; reflexivity.
Qed.

Lemma quiet_set_blockVersion v : keeps quiet (modify (set_blockVersion v)).
Proof.
  intros g. split; [apply frame_set_blockVersion|]. split; reflexivity.
Qed.

Create HintDb quiets.
#[local] Hint Resolve quiet_printf quiet_set_exitCode quiet_set_blockVersion
  : quiets.

Ltac quiet_known :=
  first [ solve [auto with quiets nocore]
        | apply (keeps_eq _ quiet_refl); solve [auto with readers nocore] ].

Ltac quietly := keeps_with quiet_refl quiet_trans quiet_known.

Lemma quiet_EmitXmlPageHeader_checks cs blkno maxOffset :
  keeps quiet (EmitXmlPageHeader_checks cs blkno maxOffset).
Proof. unfold EmitXmlPageHeader_checks. quietly. Qed.

(** the fixed part of the page header lies in the buffer *)
Definition header_readable (g : globals) : Prop :=
  PG.off_pd_linp <= Z.of_nat (List.length (buffer g)).

Lemma header_peek g off n :
  header_readable g -> 0 <= off -> off + Z.of_nat n <= PG.off_pd_linp ->
  exists v, peek n (buffer g) off = Some v.
Proof.
  intros H H0 H1. unfold header_readable in H.
  destruct (peek_Some n (buffer g) off) as (v & Hv & _); [lia | lia |].
  exists v. exact Hv.
Qed.

(** the checks return *)
Lemma EmitXmlPageHeader_checks_returns cs blkno maxOffset g :
  header_readable g ->
  exists g',
    EmitXmlPageHeader_checks cs blkno maxOffset g = Ret tt g' /\ quiet g g'.
Proof.
  intros Hh.
  destruct (header_peek g PG.off_pd_upper 2 Hh) as (upper & Hup);
    [unfold PG.off_pd_upper; lia | unfold PG.off_pd_upper, PG.off_pd_linp;
                                   simpl Z.of_nat; lia |].
  destruct (header_peek g PG.off_pd_special 2 Hh) as (special & Hsp);
    [unfold PG.off_pd_special; lia | unfold PG.off_pd_special, PG.off_pd_linp;
                                     simpl Z.of_nat; lia |].
  destruct (header_peek g PG.off_pd_lower 2 Hh) as (lower & Hlo);
    [unfold PG.off_pd_lower; lia | unfold PG.off_pd_lower, PG.off_pd_linp;
                                   simpl Z.of_nat; lia |].
  destruct (header_peek g PG.off_pd_checksum 2 Hh) as (checksum & Hck);
    [unfold PG.off_pd_checksum; lia | unfold PG.off_pd_checksum,
                                      PG.off_pd_linp; simpl Z.of_nat; lia |].
  assert (Hex : exists g', EmitXmlPageHeader_checks cs blkno maxOffset g
                           = Ret tt g').
  { unfold EmitXmlPageHeader_checks, pd_upper, pd_special, pd_lower,
      pd_checksum.
    cbv zeta.
    mrun ltac:(rewrite ?Hup, ?Hsp, ?Hlo, ?Hck);
      eexists; reflexivity. }
  destruct Hex as (g' & Hrun). exists g'. split; [exact Hrun|].
  exact (keeps_Ret _ _ _ _ _ (quiet_EmitXmlPageHeader_checks _ _ _) Hrun).
Qed.

Lemma EmitXmlPageHeader_fields_run blkno level g flags :
  peek 2 (buffer g) PG.off_pd_flags = Some flags ->
  exists g' new,
    EmitXmlPageHeader_fields blkno level g = Ret tt g' /\
    frame g g' /\
    tags_of (stdout g') = tags_of (stdout g) ++ new /\
    map shape new =
      (let text name :=
         BlockText blkno (if level =? PG.UINT_MAX then None else Some level)
           name in
       [ (u32 (pageOffset g), u32 (pageOffset g + 7),
          text "LSN", COLOR_YELLOW_LIGHT);
         (u32 (pageOffset g + 8), u32 (pageOffset g + 9),
          text "checksum", COLOR_GREEN_BRIGHT);
         (u32 (pageOffset g + 10), u32 (pageOffset g + 11),
          text (pd_flags_string flags), COLOR_YELLOW_DARK);
         (u32 (pageOffset g + 12), u32 (pageOffset g + 13),
          text "pd_lower", COLOR_MAROON);
         (u32 (pageOffset g + 14), u32 (pageOffset g + 15),
          text "pd_upper", COLOR_MAROON);
         (u32 (pageOffset g + 16), u32 (pageOffset g + 17),
          text "pd_special", COLOR_GREEN_BRIGHT);
         (u32 (pageOffset g + 18), u32 (pageOffset g + 19),
          text "pd_pagesize_version", COLOR_BROWN);
         (u32 (pageOffset g + 20), u32 (pageOffset g + 23),
          text "pd_prune_xid", COLOR_RED_LIGHT) ]).
Proof.
  intros Hfl.
  assert (Hex : exists g', EmitXmlPageHeader_fields blkno level g = Ret tt g').
  { unfold EmitXmlPageHeader_fields, pd_flags.
    mrun ltac:(rewrite ?Hfl). eexists; reflexivity. }
  destruct Hex as (g' & Hrun). exists g'.
  pose proof (keeps_Ret _ _ _ _ _ (frame_EmitXmlPageHeader_fields _ _) Hrun)
    as F.
  revert Hrun. unfold EmitXmlPageHeader_fields, pd_flags.
  mrun ltac:(rewrite ?Hfl). intros Hrun. injection Hrun as <-.
  eexists. split; [reflexivity|]. split; [exact F|].
  mstate. rewrite !tags_of_app. cbn [tags_of]. rewrite <- !app_assoc.
  cbn [app]. split; [reflexivity|].
  cbv zeta. cbn [map]. unfold shape. cbn [start_offset end_offset text
                                             note_colour].
  unfold PG.off_pd_checksum, PG.off_pd_flags, PG.off_pd_lower,
    PG.off_pd_upper, PG.off_pd_special, PG.off_pd_pagesize_version,
    PG.off_pd_prune_xid, PG.off_pd_linp, PG.sizeof_PageXLogRecPtr.
  shape_eq.
Qed.

Lemma PageGetPageLayoutVersion_run pv g :
  peek 2 (buffer g) PG.off_pd_pagesize_version = Some pv ->
  PageGetPageLayoutVersion g = Ret (Z.land pv 255) g.
Proof.
  intros H. unfold PageGetPageLayoutVersion, pd_pagesize_version.
  rewrite (bind_Ret _ _ _ _ _ (load_peek _ _ _ _ H)). reflexivity.
Qed.

Lemma EmitXmlPageHeader_meta_run blkno level g :
  exists g' new,
    EmitXmlPageHeader_meta blkno level g = Ret tt g' /\
    frame g g' /\
    tags_of (stdout g') = tags_of (stdout g) ++ new /\
    map shape new =
      (let text name :=
         BlockText blkno (if level =? PG.UINT_MAX then None else Some level)
           name in
       [ (u32 (pageOffset g + 24), u32 (pageOffset g + 27),
          text "btm_magic", COLOR_PINK);
         (u32 (pageOffset g + 28), u32 (pageOffset g + 31),
          text "btm_version", COLOR_PINK);
         (u32 (pageOffset g + 32), u32 (pageOffset g + 35),
          text "btm_root", COLOR_PINK);
         (u32 (pageOffset g + 36), u32 (pageOffset g + 39),
          text "btm_level", COLOR_PINK);
         (u32 (pageOffset g + 40), u32 (pageOffset g + 43),
          text "btm_fastroot", COLOR_PINK);
         (u32 (pageOffset g + 44), u32 (pageOffset g + 47),
          text "btm_fastlevel", COLOR_PINK) ]).
Proof.
  unfold EmitXmlPageHeader_meta. cbv zeta. mred. mstate.
  eexists. eexists. split; [reflexivity|].
  split; [unfold frame; repeat split|].
  mstate. rewrite !tags_of_app. cbn [tags_of]. rewrite <- !app_assoc.
  cbn [app]. split; [reflexivity|].
  cbv zeta. cbn [map]. unfold shape.
  cbn [start_offset end_offset text note_colour].
  change (PG.MAXALIGN PG.SizeOfPageHeaderData) with 24.
  unfold PG.off_btm_magic, PG.off_btm_version, PG.off_btm_root,
    PG.off_btm_level, PG.off_btm_fastroot, PG.off_btm_fastlevel.
  shape_eq.
Qed.

Lemma IsBtreeMetaPage_meta g pv special cycleid flags :
  peek 2 (buffer g) PG.off_pd_pagesize_version = Some pv ->
  peek 2 (buffer g) PG.off_pd_special = Some special ->
  u16 (page_size_of pv - special) = PG.MAXALIGN PG.sizeof_BTPageOpaqueData ->
  bytesToFormat g = blockSize g ->
  peek 2 (buffer g) (special + PG.off_btpo_cycleid) = Some cycleid ->
  cycleid <= PG.MAX_BT_CYCLE_ID ->
  peek 2 (buffer g) (special + PG.off_btpo_flags) = Some flags ->
  bit_set flags PG.BTP_META = true ->
  IsBtreeMetaPage g = Ret true g.
Proof.
  intros Hpv Hsp Hsize Hfull Hcyc Hle Hfl Hmeta.
  unfold IsBtreeMetaPage, PageGetSpecialSize, PageGetPageSize,
    pd_pagesize_version, pd_special.
  mred. rewrite Hpv, Hsp. mred. rewrite Hsize, Hfull, !Z.eqb_refl.
  cbn [andb]. mred. rewrite Hsp, Hcyc. mred.
  replace (cycleid <=? PG.MAX_BT_CYCLE_ID) with true
    by (symmetry; apply Z.leb_le; exact Hle).
  mred. rewrite Hfl, Hmeta. reflexivity.
Qed.

(** C5: on a fully read page whose special section has the size of the
    btree opaque struct, whose cycle id is valid and whose meta flag is set,
    [EmitXmlPageHeader] writes the eight tags of the page header and the six
    tags of the meta block and nothing else, and [EmitXmlTuples] returns at
    once, whatever [pd_lower] and [pd_upper] are: no tag for a line pointer
    or a tuple is written.  The size of the special section is the one
    [PageGetSpecialSize] computes from the page's own size field. *)
Theorem EmitXmlPageHeader_meta_page cs blkno level g pv special cycleid flags :
  run_state g ->
  bytesToFormat g = blockSize g ->
  peek 2 (buffer g) PG.off_pd_pagesize_version = Some pv ->
  peek 2 (buffer g) PG.off_pd_special = Some special ->
  u16 (page_size_of pv - special) = PG.MAXALIGN PG.sizeof_BTPageOpaqueData ->
  peek 2 (buffer g) (special + PG.off_btpo_cycleid) = Some cycleid ->
  cycleid <= PG.MAX_BT_CYCLE_ID ->
  peek 2 (buffer g) (special + PG.off_btpo_flags) = Some flags ->
  bit_set flags PG.BTP_META = true ->
  exists pd_flags_word rc g' new,
    peek 2 (buffer g) PG.off_pd_flags = Some pd_flags_word /\
    EmitXmlPageHeader cs blkno level g = Ret rc g' /\
    tags_of (stdout g') = tags_of (stdout g) ++ new /\
    map shape new =
      (let text name :=
         BlockText blkno (if level =? PG.UINT_MAX then None else Some level)
           name in
       [ (u32 (pageOffset g), u32 (pageOffset g + 7),
          text "LSN", COLOR_YELLOW_LIGHT);
         (u32 (pageOffset g + 8), u32 (pageOffset g + 9),
          text "checksum", COLOR_GREEN_BRIGHT);
         (u32 (pageOffset g + 10), u32 (pageOffset g + 11),
          text (pd_flags_string pd_flags_word), COLOR_YELLOW_DARK);
         (u32 (pageOffset g + 12), u32 (pageOffset g + 13),
          text "pd_lower", COLOR_MAROON);
         (u32 (pageOffset g + 14), u32 (pageOffset g + 15),
          text "pd_upper", COLOR_MAROON);
         (u32 (pageOffset g + 16), u32 (pageOffset g + 17),
          text "pd_special", COLOR_GREEN_BRIGHT);
         (u32 (pageOffset g + 18), u32 (pageOffset g + 19),
          text "pd_pagesize_version", COLOR_BROWN);
         (u32 (pageOffset g + 20), u32 (pageOffset g + 23),
          text "pd_prune_xid", COLOR_RED_LIGHT);
         (u32 (pageOffset g + 24), u32 (pageOffset g + 27),
          text "btm_magic", COLOR_PINK);
         (u32 (pageOffset g + 28), u32 (pageOffset g + 31),
          text "btm_version", COLOR_PINK);
         (u32 (pageOffset g + 32), u32 (pageOffset g + 35),
          text "btm_root", COLOR_PINK);
         (u32 (pageOffset g + 36), u32 (pageOffset g + 39),
          text "btm_level", COLOR_PINK);
         (u32 (pageOffset g + 40), u32 (pageOffset g + 43),
          text "btm_fastroot", COLOR_PINK);
         (u32 (pageOffset g + 44), u32 (pageOffset g + 47),
          text "btm_fastlevel", COLOR_PINK) ]) /\
    EmitXmlTuples blkno g' = Ret tt g'.
Proof.
  intros (Hmod & Hbs & Hlen & Hbtf) Hfull Hpv Hsp Hsize Hcyc Hle Hfl Hmeta.
  assert (Hbs256 : 256 <= blockSize g).
  { pose proof (Z.div_mod (blockSize g) 256 ltac:(lia)) as D.
    rewrite Hmod in D. lia. }
  assert (Hh : header_readable g)
    by (unfold header_readable, PG.off_pd_linp; lia).
  destruct (header_peek g PG.off_pd_flags 2 Hh) as (pdf & Hpdf);
    [unfold PG.off_pd_flags; lia
    | unfold PG.off_pd_flags, PG.off_pd_linp; simpl Z.of_nat; lia |].
  destruct (header_peek g PG.off_pd_lower 2 Hh) as (lower & Hlo);
    [unfold PG.off_pd_lower; lia
    | unfold PG.off_pd_lower, PG.off_pd_linp; simpl Z.of_nat; lia |].
  pose proof (IsBtreeMetaPage_meta g pv special cycleid flags
                Hpv Hsp Hsize Hfull Hcyc Hle Hfl Hmeta) as HisMeta.
  (* the header's body *)
  set (maxOffset := max_offset_of lower).
  set (g1 := set_blockVersion (Z.land pv 255) g).
  destruct (EmitXmlPageHeader_fields_run blkno level g1 pdf Hpdf)
    as (g2 & new2 & Hrun2 & F2 & Hout2 & Hshape2).
  assert (Hmeta2 : IsBtreeMetaPage g2 = Ret true g2).
  { apply (block_reader_Ret _ g); [apply block_reader_IsBtreeMetaPage
                                  | exact HisMeta |].
    apply frame_same_block.
    apply (frame_trans _ g1); [unfold frame; repeat split | exact F2]. }
  destruct (EmitXmlPageHeader_meta_run blkno level g2)
    as (g3 & new3 & Hrun3 & F3 & Hout3 & Hshape3).
  assert (F13 : frame g g3).
  { apply (frame_trans _ g1); [unfold frame; repeat split|].
    exact (frame_trans _ _ _ F2 F3). }
  assert (Hh3 : header_readable g3).
  { unfold header_readable in *.
    rewrite (frame_buffer _ _ F13). exact Hh. }
  destruct (EmitXmlPageHeader_checks_returns cs blkno maxOffset g3 Hh3)
    as (g4 & Hrun4 & F4 & Htag4 & Hout4).
  set (rc := if (0 <? maxOffset)
                && (bytesToFormat g
                    <? PG.off_pd_linp + u32 (maxOffset * PG.sizeof_ItemIdData))
             then EOF_ENCOUNTERED else 0).
  assert (Hbody : EmitXmlPageHeader_body cs blkno level (bytesToFormat g) g
                  = Ret rc g4).
  { unfold EmitXmlPageHeader_body. cbv zeta.
    rewrite (bind_Ret _ _ _ _ _ (PageGetMaxOffsetNumber_run _ _ Hlo)).
    rewrite (bind_Ret _ _ _ _ _ (PageGetPageLayoutVersion_run _ _ Hpv)).
    rewrite bind_Ret with (a := tt) (g' := g1) by reflexivity.
    rewrite (bind_Ret _ _ _ _ _ Hrun2).
    rewrite (bind_Ret _ _ _ _ _ Hmeta2).
    rewrite (bind_Ret _ _ _ _ _ Hrun3).
    fold maxOffset.
    rewrite (bind_Ret _ _ _ _ _ Hrun4).
    reflexivity. }
  assert (Htags : tags_of (stdout g4) = tags_of (stdout g) ++ new2 ++ new3).
  { rewrite Hout4, Hout3, Hout2. rewrite app_assoc. reflexivity. }
  assert (Hpo2 : pageOffset g2 = pageOffset g)
    by (rewrite (frame_pageOffset _ _ F2); reflexivity).
  (* the end of EmitXmlPageHeader, and EmitXmlTuples *)
  assert (Hend : exists g',
             EmitXmlPageHeader cs blkno level g = Ret rc g' /\ quiet g4 g').
  { unfold EmitXmlPageHeader.
    rewrite bind_Ret with (a := bytesToFormat g) (g' := g) by reflexivity.
    replace (bytesToFormat g <? PG.off_pd_linp) with false
      by (symmetry; apply Z.ltb_ge; unfold PG.off_pd_linp; lia).
    rewrite (bind_Ret _ _ _ _ _ Hbody).
    destruct (rc =? EOF_ENCOUNTERED).
    - eexists. split; [reflexivity|].
      apply (quiet_trans _ (say (ErrEndOfBlockInHeader (bytesToFormat g)) g4)).
      + apply (quiet_printf _ g4).
      + apply (quiet_set_exitCode 1).
    - eexists. split; [reflexivity | apply quiet_refl]. }
  destruct Hend as (g' & Hrun & F' & _ & Hout').
  exists pdf, rc, g', (new2 ++ new3).
  split; [exact Hpdf|]. split; [exact Hrun|].
  split; [rewrite Hout'; exact Htags|].
  split.
  { rewrite map_app, Hshape2, Hshape3, Hpo2. reflexivity. }
  assert (F : frame g g')
    by (exact (frame_trans _ _ _ F13 (frame_trans _ _ _ F4 F'))).
  unfold EmitXmlTuples.
  assert (Hlo' : peek 2 (buffer g') PG.off_pd_lower = Some lower).
  { rewrite (frame_buffer _ _ F). exact Hlo. }
  rewrite (bind_Ret _ _ _ _ _ (PageGetMaxOffsetNumber_run _ _ Hlo')).
  rewrite (bind_Ret _ _ _ _ _
             (block_reader_Ret _ g g' true block_reader_IsBtreeMetaPage
                HisMeta (frame_same_block _ _ F))).
  reflexivity.
Qed.

(* ================================================================== *)
(** ** The order of the tags *)

Lemma ids_from_increasing (ts : list TAG) :
  forall n,
    0 <= n -> n + Z.of_nat (List.length ts) <= 4294967296 ->
    ids_from n ts -> increasing (map tag_id ts).
Proof.
  induction ts as [|t ts IH]; intros n Hn Hlen Hids; [exact I|].
  cbn [ids_from] in Hids. destruct Hids as (Hid & Hrest).
  cbn [List.length] in Hlen.
  destruct ts as [|t2 ts]; [exact I|].
  cbn [List.length] in Hlen.
  rewrite u32_small in Hrest by lia.
  cbn [map increasing]. split.
  - cbn [ids_from] in Hrest. destruct Hrest as (Hid2 & _). lia.
  - apply (IH (n + 1)); [lia | cbn [List.length]; lia | exact Hrest].
Qed.

(** [ascending lo hi l]: the numbers of [l] increase strictly and lie
    between [lo] and [hi], [hi] excluded *)
Fixpoint ascending (lo hi : Z) (l : list Z) : Prop :=
  match l with
  | [] => lo <= hi
  | x :: rest => lo <= x /\ ascending (x + 1) hi rest
  end.

Lemma ascending_le lo hi l : ascending lo hi l -> lo <= hi.
Proof.
  revert lo. induction l as [|x l IH]; intros lo H; [exact H|].
  destruct H as (H1 & H2). apply IH in H2. lia.
Qed.

Lemma ascending_weaken lo lo' hi hi' l :
  ascending lo hi l -> lo' <= lo -> hi <= hi' -> ascending lo' hi' l.
Proof.
  revert lo lo'. induction l as [|x l IH]; intros lo lo' H Hlo Hhi.
  - cbn in *. lia.
  - destruct H as (H1 & H2). split; [lia|].
    apply (IH (x + 1)); [exact H2 | lia | exact Hhi].
Qed.

Lemma ascending_app lo mid hi a b :
  ascending lo mid a -> ascending mid hi b -> ascending lo hi (a ++ b).
Proof.
  revert lo. induction a as [|x a IH]; intros lo Ha Hb.
  - cbn in *. apply (ascending_weaken mid lo hi hi); [exact Hb | exact Ha | lia].
  - destruct Ha as (H1 & H2). split; [exact H1 | apply IH; assumption].
Qed.

Lemma ascending_increasing lo hi l : ascending lo hi l -> increasing l.
Proof.
  revert lo. induction l as [|x l IH]; intros lo H; [exact I|].
  destruct H as (H1 & H2). destruct l as [|y l]; [exact I|].
  split; [destruct H2 as (H2 & _); lia | exact (IH _ H2)].
Qed.

(** the tags written between [g] and [g'] start at increasing offsets
    between [lo] and [hi], counted from the block's offset in the file *)
Definition ascends (lo hi : Z) (g g' : globals) : Prop :=
  frame g g' /\
  exists new,
    tags_of (stdout g') = tags_of (stdout g) ++ new /\
    ascending (pageOffset g + lo) (pageOffset g + hi) (map start_offset new).

Lemma ascends_chain a b c g1 g2 g3 :
  ascends a b g1 g2 -> ascends b c g2 g3 -> ascends a c g1 g3.
Proof.
  intros (F1 & n1 & S1 & A1) (F2 & n2 & S2 & A2).
  split; [exact (frame_trans _ _ _ F1 F2)|].
  exists (n1 ++ n2). rewrite S2, S1, app_assoc. split; [reflexivity|].
  rewrite map_app. rewrite (frame_pageOffset _ _ F1) in A2.
  exact (ascending_app _ _ _ _ _ A1 A2).
Qed.

Lemma ascends_weaken a a' b b' g g' :
  ascends a b g g' -> a' <= a -> b <= b' -> ascends a' b' g g'.
Proof.
  intros (F & n & S & A) Ha Hb. split; [exact F|]. exists n.
  split; [exact S|]. apply (ascending_weaken _ _ _ _ _ A); lia.
Qed.

Lemma quiet_ascends a g g' : quiet g g' -> ascends a a g g'.
Proof.
  intros (F & _ & S). split; [exact F|]. exists [].
  rewrite app_nil_r. split; [exact S|]. cbn. lia.
Qed.

(** a relation on the state a function starts in and the state it ends
    in, for one starting state *)
Definition sat (R : globals -> globals -> Prop) {A} (m : M A) (g : globals)
  : Prop :=
  R g (final (m g)).

Lemma sat_bind (R1 R2 R3 : globals -> globals -> Prop) {A B}
    (m : M A) (k : A -> M B) g :
  sat R1 m g ->
  (forall a g1, m g = Ret a g1 -> sat R2 (k a) g1) ->
  (forall a b, R1 a b -> R3 a b) ->
  (forall a b c, R1 a b -> R2 b c -> R3 a c) ->
  sat R3 (bind m k) g.
Proof.
  unfold sat, bind. intros Hm Hk Hsub Hcomp.
  destruct (m g) as [a g1 | g1 | g1] eqn:E; cbn [final] in *.
  - exact (Hcomp _ _ _ Hm (Hk a g1 eq_refl)).
  - apply Hsub. exact Hm.
  - apply Hsub. exact Hm.
Qed.

Lemma keeps_sat R {A} (m : M A) g : keeps R m -> sat R m g.
Proof. intros K. exact (K g). Qed.

(** the tag of one line pointer *)
Lemma EmitXmlPageHeader_item_ascends blkno headerBytes offset g :
  0 <= pageOffset g ->
  0 <= headerBytes + PG.sizeof_ItemIdData * (offset - 1) ->
  pageOffset g + headerBytes + PG.sizeof_ItemIdData * offset <= 4294967296 ->
  sat (ascends (headerBytes + PG.sizeof_ItemIdData * (offset - 1))
               (headerBytes + PG.sizeof_ItemIdData * offset))
      (EmitXmlPageHeader_item blkno headerBytes offset) g.
Proof.
  intros Hpo Hlo Hhi. unfold sat, EmitXmlPageHeader_item, PageGetItemId.
  unfold PG.sizeof_ItemIdData in *.
  mred. destruct (peek 4 (buffer g) (PG.off_pd_linp + 4 * (offset - 1))).
  - mred. unfold ascends. mstate. split; [unfold frame; repeat split|].
    eexists. rewrite tags_of_app. cbn [tags_of]. split; [reflexivity|].
    cbn [map start_offset ascending]. rewrite u32_small by lia. lia.
  - cbn [final].
    apply (ascends_weaken (headerBytes + 4 * (offset - 1)) _
                          (headerBytes + 4 * (offset - 1)));
      [apply quiet_ascends, quiet_refl | lia | lia].
Qed.

(** the tags of the line pointers *)
Lemma EmitXmlPageHeader_items_ascend blkno headerBytes (n : nat) :
  forall first g,
    0 <= pageOffset g ->
    0 <= headerBytes + PG.sizeof_ItemIdData * (first - 1) ->
    pageOffset g + headerBytes
      + PG.sizeof_ItemIdData * (first - 1 + Z.of_nat n) <= 4294967296 ->
    sat (ascends (headerBytes + PG.sizeof_ItemIdData * (first - 1))
                 (headerBytes
                  + PG.sizeof_ItemIdData * (first - 1 + Z.of_nat n)))
        (for_offsets n first (EmitXmlPageHeader_item blkno headerBytes)) g.
Proof.
  unfold PG.sizeof_ItemIdData.
  induction n as [|n IH]; intros first g Hpo Hlo Hhi.
  - cbn [for_offsets]. unfold sat. cbn [final ret].
    replace (first - 1 + Z.of_nat 0) with (first - 1) by lia.
    apply quiet_ascends, quiet_refl.
  - cbn [for_offsets].
    apply (sat_bind
             (ascends (headerBytes + 4 * (first - 1)) (headerBytes + 4 * first))
             (ascends (headerBytes + 4 * first)
                      (headerBytes + 4 * (first - 1 + Z.of_nat (S n))))).
    + apply EmitXmlPageHeader_item_ascends;
        unfold PG.sizeof_ItemIdData; lia.
    + intros [] g1 Hrun.
      pose proof (keeps_Ret _ _ _ _ _
                    (frame_EmitXmlPageHeader_item _ _ _) Hrun) as F.
      replace (headerBytes + 4 * first)
        with (headerBytes + 4 * (first + 1 - 1)) by lia.
      replace (first - 1 + Z.of_nat (S n))
        with (first + 1 - 1 + Z.of_nat n) by lia.
      apply IH; rewrite ?(frame_pageOffset _ _ F); lia.
    + intros a b H. apply (ascends_weaken _ _ _ _ _ _ H); lia.
    + intros a b c. apply ascends_chain.
Qed.

Lemma sat_quiet_then a b {A B} (m : M A) (k : A -> M B) g :
  keeps quiet m -> a <= b ->
  (forall x g1, m g = Ret x g1 -> sat (ascends a b) (k x) g1) ->
  sat (ascends a b) (bind m k) g.
Proof.
  intros Hm Hab Hk.
  apply (sat_bind (ascends a a) (ascends a b)).
  - apply quiet_ascends. exact (Hm g).
  - exact Hk.
  - intros x y H. apply (ascends_weaken _ _ _ _ _ _ H); lia.
  - intros x y z. apply ascends_chain.
Qed.

Lemma sat_then_quiet a b {A B} (m : M A) (k : A -> M B) g :
  sat (ascends a b) m g -> (forall x, keeps quiet (k x)) ->
  sat (ascends a b) (bind m k) g.
Proof.
  intros Hm Hk.
  apply (sat_bind (ascends a b) (ascends b b)).
  - exact Hm.
  - intros x g1 _. apply quiet_ascends. exact (Hk x g1).
  - auto.
  - intros x y z. apply ascends_chain.
Qed.

Lemma max_offset_of_bound lower :
  0 <= lower < 65536 -> 0 <= max_offset_of lower <= 16377.
Proof.
  intros H. unfold max_offset_of, PG.SizeOfPageHeaderData, PG.sizeof_ItemIdData.
  destruct (lower <=? 24) eqn:E; [lia|]. apply Z.leb_gt in E.
  split; [apply Z.div_pos; lia|].
  assert ((lower - 24) / 4 < 16378)
    by (apply Z.div_lt_upper_bound; lia).
  lia.
Qed.

(** the tags of [EmitXmlPageHeader] start at increasing offsets *)
Lemma EmitXmlPageHeader_ascends cs blkno level g :
  run_state g ->
  0 <= pageOffset g ->
  pageOffset g + 131072 <= 4294967296 ->
  sat (ascends 0 131072) (EmitXmlPageHeader cs blkno level) g.
Proof.
  intros (Hmod & Hbs & Hlen & Hbtf) Hpo Hhi.
  assert (Hbs256 : 256 <= blockSize g).
  { pose proof (Z.div_mod (blockSize g) 256 ltac:(lia)) as D.
    rewrite Hmod in D. lia. }
  assert (Hh : header_readable g)
    by (unfold header_readable, PG.off_pd_linp; lia).
  destruct (header_peek g PG.off_pd_flags 2 Hh) as (pdf & Hpdf);
    [unfold PG.off_pd_flags; lia
    | unfold PG.off_pd_flags, PG.off_pd_linp; simpl Z.of_nat; lia |].
  destruct (header_peek g PG.off_pd_lower 2 Hh) as (lower & Hlo);
    [unfold PG.off_pd_lower; lia
    | unfold PG.off_pd_lower, PG.off_pd_linp; simpl Z.of_nat; lia |].
  pose proof (max_offset_of_bound lower (peek2_range _ _ _ Hlo)) as Hmax.
  unfold EmitXmlPageHeader.
  apply sat_quiet_then; [quietly | lia |].
  intros btf g0 Eb. injection Eb as <- <-.
  apply sat_then_quiet; [| intros rc; quietly].
  destruct (bytesToFormat g <? PG.off_pd_linp) eqn:Ebtf.
  { apply (ascends_weaken 0 _ 0); [| lia | lia].
    apply quiet_ascends. apply quiet_refl. }
  apply Z.ltb_ge in Ebtf. unfold PG.off_pd_linp in Ebtf.
  unfold EmitXmlPageHeader_body. cbv zeta.
  apply sat_quiet_then; [quietly | lia |].
  intros maxOffset g0 E1.
  rewrite (PageGetMaxOffsetNumber_run _ _ Hlo) in E1. injection E1 as <- <-.
  apply sat_quiet_then; [quietly | lia |].
  intros v g0 E2.
  pose proof (keeps_Ret _ _ _ _ _ reads_PageGetPageLayoutVersion E2) as <-.
  apply sat_quiet_then; [quietly | lia |].
  intros [] g1 E3. injection E3 as <-.
  (* the eight tags of the header *)
  destruct (EmitXmlPageHeader_fields_run blkno level
              (set_blockVersion v g) pdf Hpdf)
    as (g2 & new2 & Hrun2 & F2 & Hout2 & Hshape2).
  apply (sat_bind (ascends 0 24) (ascends 24 131072)).
  - unfold sat. rewrite Hrun2. cbn [final]. split; [exact F2|].
    exists new2. split; [exact Hout2|].
    rewrite <- (map_map shape (fun s => fst (fst (fst s)))), Hshape2.
    cbv zeta. cbn [map fst]. mstate.
    rewrite !u32_small by lia. cbn [ascending]. lia.
  - intros [] g2' E4. rewrite Hrun2 in E4. injection E4 as <-.
    assert (Hpo2 : pageOffset g2 = pageOffset g)
      by (rewrite (frame_pageOffset _ _ F2); reflexivity).
    apply sat_quiet_then; [quietly | lia |].
    intros isMeta g0 E3.
    pose proof (keeps_Ret _ _ _ _ _ reads_IsBtreeMetaPage E3) as <-.
    apply sat_then_quiet;
      [| intros x; apply (keeps_bind _ quiet_trans);
         [apply quiet_EmitXmlPageHeader_checks | intros ?; quietly]].
    destruct isMeta.
    + destruct (EmitXmlPageHeader_meta_run blkno level g2)
        as (g3 & new3 & Hrun3 & F3 & Hout3 & Hshape3).
      unfold sat. rewrite Hrun3. cbn [final]. split; [exact F3|].
      exists new3. split; [exact Hout3|].
      rewrite <- (map_map shape (fun s => fst (fst (fst s)))), Hshape3.
      cbv zeta. cbn [map fst]. rewrite Hpo2.
      rewrite !u32_small by lia. cbn [ascending]. lia.
    + set (hb := if (0 <? max_offset_of lower)
                    && (bytesToFormat g
                        <? PG.off_pd_linp
                           + u32 (max_offset_of lower * PG.sizeof_ItemIdData))
                 then bytesToFormat g else PG.off_pd_linp).
      assert (Hhb : 24 <= hb <= 65280).
      { unfold hb, PG.off_pd_linp.
        destruct ((0 <? max_offset_of lower)
                  && (bytesToFormat g
                      <? 24 + u32 (max_offset_of lower * PG.sizeof_ItemIdData)));
          lia. }
      pose proof (EmitXmlPageHeader_items_ascend blkno hb
                    (Z.to_nat (max_offset_of lower)) PG.FirstOffsetNumber g2)
        as Hloop.
      unfold PG.FirstOffsetNumber, PG.sizeof_ItemIdData in Hloop.
      apply (ascends_weaken _ _ _ _ _ _ (Hloop ltac:(lia) ltac:(lia) ltac:(lia)));
        lia.
  - intros a b H. apply (ascends_weaken _ _ _ _ _ _ H); lia.
  - intros a b c. apply ascends_chain.
Qed.

Lemma starts_of_shapes (ts : list TAG) :
  map start_offset ts = map (fun s => fst (fst (fst s))) (map shape ts).
Proof. rewrite map_map. reflexivity. Qed.

(** C2, as the code has it.  Every tag takes the current value of the tag
    counter as its identifier and increments the counter, so over a whole
    run the identifiers are consecutive and, as long as the 32-bit counter
    does not wrap, strictly increasing.  Within a page, the tags of the page
    header and of the line pointers (or of the meta block) start at strictly
    increasing offsets, and so do the tags of any one row tuple whose
    [t_hoff] is past its fixed fields, and those of any one index tuple, as
    long as the offsets stay below the 4 GB they can hold.  Nothing is
    said of the order between the tuples of a page. *)
Theorem tag_order cs :
  (forall file fseek_fails g,
     exists new,
       stdout (final (EmitXmlFile cs file fseek_fails g)) = stdout g ++ new /\
       ids_from (tagNumber g) (tags_of new) /\
       tagNumber (final (EmitXmlFile cs file fseek_fails g))
         = counter_after (tagNumber g) (tags_of new) /\
       (0 <= tagNumber g ->
        tagNumber g + Z.of_nat (List.length (tags_of new)) <= 4294967296 ->
        increasing (map tag_id (tags_of new))))
  /\
  (forall blkno level g,
     run_state g ->
     0 <= pageOffset g ->
     pageOffset g + 131072 <= 4294967296 ->
     exists new,
       tags_of (stdout (final (EmitXmlPageHeader cs blkno level g)))
         = tags_of (stdout g) ++ new /\
       increasing (map start_offset new))
  /\
  (forall blkno offset htup relfileOff itemSize g t_infomask2 t_infomask
          t_hoff,
     peek 2 (buffer g) (htup + PG.off_t_infomask2) = Some t_infomask2 ->
     peek 2 (buffer g) (htup + PG.off_t_infomask) = Some t_infomask ->
     peek 1 (buffer g) (htup + PG.off_t_hoff) = Some t_hoff ->
     0 <= relfileOff ->
     23 < t_hoff ->
     relfileOff + t_hoff < 4294967296 ->
     exists new,
       tags_of (stdout (final (EmitXmlHeapTuple blkno offset htup relfileOff
                                 itemSize g)))
         = tags_of (stdout g) ++ new /\
       increasing (map start_offset new))
  /\
  (forall blkno offset tuple relfileOff g t_info,
     peek 2 (buffer g) (tuple + PG.off_t_info) = Some t_info ->
     0 <= relfileOff ->
     relfileOff + 8 < 4294967296 ->
     exists new,
       tags_of (stdout (final (EmitXmlIndexTuple blkno offset tuple relfileOff
                                 g)))
         = tags_of (stdout g) ++ new /\
       increasing (map start_offset new)).
Proof.
  split; [|split; [|split]].
  - intros file fseek_fails g.
    destruct (emits_EmitXmlFile cs file fseek_fails g) as (new & S & I & C).
    exists new. repeat split; try assumption.
    intros Hn Hlen. exact (ids_from_increasing _ _ Hn Hlen I).
  - intros blkno level g Hrun Hpo Hhi.
    destruct (EmitXmlPageHeader_ascends cs blkno level g Hrun Hpo Hhi)
      as (_ & new & S & A).
    exists new. split; [exact S|].
    exact (ascending_increasing _ _ _ A).
  - intros blkno offset htup relfileOff itemSize g t_infomask2 t_infomask
      t_hoff H2 H1 H0 Hlo Hoff Hhi.
    destruct (EmitXmlHeapTuple_run blkno offset htup relfileOff itemSize g
                _ _ _ H2 H1 H0) as (g' & new & Hrun & Hout & Hshape).
    exists (tags_of new). rewrite Hrun. cbn [final].
    rewrite Hout, tags_of_app. split; [reflexivity|].
    rewrite (starts_of_shapes (tags_of new)), Hshape. cbn [map fst].
    rewrite !u32_small by lia. cbn [increasing]. lia.
  - intros blkno offset tuple relfileOff g t_info Hinfo Hlo Hhi.
    destruct (EmitXmlIndexTuple_run blkno offset tuple relfileOff t_info g
                Hinfo) as (g' & new & Hrun & Hout & _ & Hshape).
    exists (tags_of new). rewrite Hrun. cbn [final].
    rewrite Hout, tags_of_app. split; [reflexivity|].
    rewrite (starts_of_shapes (tags_of new)), Hshape.
    destruct (u32 (relfileOff + 8) <? u32 (relfileOff + IndexTupleSize t_info));
      cbn [map fst app]; rewrite !u32_small by lia; cbn [increasing]; lia.
Qed.

(** C2 as stated fails: on [Pages.heap_page], whose first tuple lies
    above its second, as PostgreSQL places them, the tags of the page do not
    start at non-decreasing offsets: the first tuple's tags start at 216 and
    the second tuple's tags, written after them, at 176. *)
Lemma tag_offsets_counterexample :
  nondecreasingb
    (map start_offset
       (tags_of (stdout (final (EmitXmlPage Pages.no_checksum 0
                                  Pages.heap_block)))))
  = false /\
  map start_offset
    (tuple_tags 1
       (tags_of (stdout (final (EmitXmlPage Pages.no_checksum 0
                                  Pages.heap_block)))))
  = [216; 220; 224; 228; 230; 232; 234; 236; 238; 239; 240] /\
  map start_offset
    (tuple_tags 2
       (tags_of (stdout (final (EmitXmlPage Pages.no_checksum 0
                                  Pages.heap_block)))))
  = [176; 180; 184; 188; 190; 192; 194; 196; 198; 199; 200].
Proof. vm_compute. repeat split. Qed.

(** C3 as stated fails: [Pages.hash_page] is classified as a hash page,
    and the run over a file that holds it stops in [EmitXmlTuples] with exit
    code 1, without a report of an unsupported special section. *)
Lemma unsupported_hash_counterexample :
  GetSpecialSectionType Pages.hash_block
    = Ret SPEC_SECT_INDEX_HASH Pages.hash_block /\
  match EmitXmlFile Pages.no_checksum [Pages.hash_page; Pages.heap_page] false
          (Pages.start 0) with
  | Exit g =>
      exitCode g = 1 /\ messages_of (stdout g) = [] /\ currentBlock g = 0
  | _ => False
  end.
Proof. vm_compute. repeat split. Qed.



(* ================================================================== *)
(** ** The properties above on the concrete pages *)

(** evaluation of a closed proposition *)
Ltac evaluate :=
  vm_compute; repeat split; try reflexivity; try (intro; discriminate).

Lemma GetSpecialSectionType_ambiguous_size_witness :
  run_state Pages.sequence_block /\
  GetSpecialSectionType Pages.sequence_block
    = Ret SPEC_SECT_SEQUENCE Pages.sequence_block.
Proof.
  assert (Hrun : run_state Pages.sequence_block) by (unfold run_state; evaluate).
  split; [exact Hrun|].
  destruct (GetSpecialSectionType_ambiguous_size Pages.sequence_block 248)
    as (magic & ptype & Hm & Hp & Hres).
  - exact Hrun.
  - vm_compute. reflexivity.
  - vm_compute. reflexivity.
  - reflexivity.
  - rewrite Hres.
    assert (E : magic = SEQUENCE_MAGIC)
      by (vm_compute in Hm; injection Hm as Hm; symmetry; exact Hm).
    rewrite E. reflexivity.
Defined.

Lemma GetSpecialSectionType_errors_witness :
  GetSpecialSectionType Pages.bad_special_block
    = Ret SPEC_SECT_ERROR_BOUNDARY Pages.bad_special_block /\
  GetSpecialSectionType Pages.short_block
    = Ret SPEC_SECT_ERROR_UNKNOWN Pages.short_block.
Proof.
  split.
  - assert (H : peek 2 (buffer Pages.bad_special_block) PG.off_pd_special
                = Some 300) by (vm_compute; reflexivity).
    apply (proj1 (GetSpecialSectionType_errors Pages.bad_special_block 300 H)).
    + vm_compute. reflexivity.
    + right. left. vm_compute. reflexivity.
  - assert (H : peek 2 (buffer Pages.short_block) PG.off_pd_special
                = Some 256) by (vm_compute; reflexivity).
    apply (proj2 (GetSpecialSectionType_errors Pages.short_block 256 H)).
    vm_compute. intro; discriminate.
Defined.

Lemma EmitXmlPage_partial_header_witness :
  bytesToFormat Pages.short_block < PG.off_pd_linp /\
  (exists g',
     EmitXmlPage Pages.no_checksum 0 Pages.short_block = Ret tt g' /\
     stdout g' = [OutMsg (ErrEndOfBlockInHeader 16)] /\
     exitCode g' = 1) /\
  (exists g',
     EmitXmlFile_loop Pages.no_checksum
       [firstn 16 Pages.heap_page; Pages.heap_page] true (Pages.start 0)
     = EmitXmlFile_loop Pages.no_checksum [Pages.heap_page] false g' /\
     stdout g' = [OutMsg (ErrEndOfBlockInHeader 16)] /\
     currentBlock g' = 1).
Proof.
  assert (H : bytesToFormat Pages.short_block < PG.off_pd_linp)
    by (vm_compute; reflexivity).
  split; [exact H|]. split.
  - destruct (proj1 (EmitXmlPage_partial_header Pages.no_checksum)
                0 Pages.short_block H) as (g' & Hrun & Hout & _ & Hexit).
    exists g'. repeat split; assumption.
  - destruct (proj2 (EmitXmlPage_partial_header Pages.no_checksum)
                (firstn 16 Pages.heap_page) [Pages.heap_page] true
                (Pages.start 0))
      as (g' & Hrun & Hout & _ & _ & Hcur).
    + vm_compute. lia.
    + vm_compute. intro; discriminate.
    + vm_compute. reflexivity.
    + exists g'. repeat split; assumption.
Defined.


Lemma EmitXmlIndexTuple_no_payload_witness :
  exists g' new,
    EmitXmlIndexTuple 0 2 192 192 Pages.btree_block = Ret tt g' /\
    stdout g' = stdout Pages.btree_block ++ new /\
    List.length (tags_of new) = 4%nat.
Proof.
  destruct (EmitXmlIndexTuple_no_payload 0 2 192 192 Pages.btree_block 8)
    as (g' & new & Hrun & Hout & _ & Hshape).
  - vm_compute. reflexivity.
  - vm_compute. reflexivity.
  - exists g', new. split; [exact Hrun|]. split; [exact Hout|].
    rewrite <- (length_map shape), Hshape. reflexivity.
Defined.



Lemma EmitXmlPage_unsupported_special_witness :
  (exists g',
     EmitXmlPage Pages.no_checksum 0 Pages.sequence_block = Ret tt g' /\
     exitCode g' = 1 /\
     messages_of (stdout g')
       = [MsgUnsupportedSpecial
            (specialSectionTypes_value SPEC_SECT_SEQUENCE)]) /\
  (exists g',
     EmitXmlPage Pages.no_checksum 0 Pages.hash_block = Exit g' /\
     exitCode g' = 1).
Proof.
  split.
  - pose (g1 := set_specialType SPEC_SECT_SEQUENCE
                  (set_pageOffset
                     (u32 (blockSize Pages.sequence_block
                           * currentBlock Pages.sequence_block))
                     Pages.sequence_block)).
    pose (g2 := final (EmitXmlPageHeader Pages.no_checksum 0 PG.UINT_MAX g1)).
    pose (g3 := final (EmitXmlTuples 0 g2)).
    assert (Hhdr : EmitXmlPageHeader Pages.no_checksum 0 PG.UINT_MAX g1
                   = Ret 0 g2) by (vm_compute; reflexivity).
    assert (Htup : EmitXmlTuples 0 g2 = Ret tt g3) by (vm_compute; reflexivity).
    pose proof (proj1 (EmitXmlPage_unsupported_special Pages.no_checksum 0
                         Pages.sequence_block SPEC_SECT_SEQUENCE 248 28 0 g2
                         ltac:(vm_compute; reflexivity)
                         ltac:(vm_compute; reflexivity)
                         ltac:(vm_compute; reflexivity)
                         Hhdr
                         ltac:(vm_compute; intro; discriminate))
                  eq_refl g3 Htup) as Hpage.
    eexists. split; [exact Hpage|]. evaluate.
  - pose (g1 := set_specialType SPEC_SECT_INDEX_HASH
                  (set_pageOffset
                     (u32 (blockSize Pages.hash_block
                           * currentBlock Pages.hash_block))
                     Pages.hash_block)).
    pose (g2 := final (EmitXmlPageHeader Pages.no_checksum 0 PG.UINT_MAX g1)).
    assert (Hhdr : EmitXmlPageHeader Pages.no_checksum 0 PG.UINT_MAX g1
                   = Ret 0 g2) by (vm_compute; reflexivity).
    destruct (proj2 (EmitXmlPage_unsupported_special Pages.no_checksum 0
                       Pages.hash_block SPEC_SECT_INDEX_HASH 240 28 0 g2
                       ltac:(vm_compute; reflexivity)
                       ltac:(vm_compute; reflexivity)
                       ltac:(vm_compute; reflexivity)
                       Hhdr
                       ltac:(vm_compute; intro; discriminate))
                eq_refl ltac:(vm_compute; reflexivity))
      as (g' & Hrun & Hexit & _).
    exists g'. split; assumption.
Defined.

Lemma EmitXmlPageHeader_meta_page_witness :
  exists rc g' new,
    EmitXmlPageHeader Pages.no_checksum 0 0 Pages.btree_meta_block
      = Ret rc g' /\
    tags_of (stdout g') = new /\
    List.length new = 14%nat /\
    EmitXmlTuples 0 g' = Ret tt g'.
Proof.
  destruct (EmitXmlPageHeader_meta_page Pages.no_checksum 0 0
              Pages.btree_meta_block (256 + 4) 240 0 PG.BTP_META)
    as (pdf & rc & g' & new & _ & Hrun & Hout & Hshape & Htup).
  - unfold run_state. evaluate.
  - reflexivity.
  - vm_compute. reflexivity.
  - vm_compute. reflexivity.
  - vm_compute. reflexivity.
  - vm_compute. reflexivity.
  - vm_compute. intro; discriminate.
  - vm_compute. reflexivity.
  - vm_compute. reflexivity.
  - exists rc, g', new. split; [exact Hrun|]. split; [exact Hout|].
    split; [|exact Htup].
    rewrite <- (length_map shape), Hshape. reflexivity.
Defined.

Lemma tag_order_witness :
  (exists new,
     tags_of (stdout (final (EmitXmlFile Pages.no_checksum
                               [Pages.heap_page; Pages.btree_page] false
                               (Pages.start 0)))) = new /\
     increasing (map tag_id new)) /\
  (exists new,
     tags_of (stdout (final (EmitXmlPageHeader Pages.no_checksum 0
                               PG.UINT_MAX Pages.heap_block))) = new /\
     increasing (map start_offset new)) /\
  (exists new,
     tags_of (stdout (final (EmitXmlHeapTuple 0 1 216 216 40
                               Pages.heap_block))) = new /\
     increasing (map start_offset new)) /\
  (exists new,
     tags_of (stdout (final (EmitXmlIndexTuple 0 2 192 192
                               Pages.btree_block))) = new /\
     increasing (map start_offset new)).
Proof.
  destruct (tag_order Pages.no_checksum) as (Hids & Hhdr & Hheap & Hindex).
  split; [|split; [|split]].
  - destruct (Hids [Pages.heap_page; Pages.btree_page] false (Pages.start 0))
      as (new & Hout & _ & _ & Hinc).
    exists (tags_of new). split; [rewrite Hout; reflexivity|].
    apply Hinc; [vm_compute; intro; discriminate|].
    assert (E : tags_of new
                = tags_of (stdout (final (EmitXmlFile Pages.no_checksum
                                            [Pages.heap_page; Pages.btree_page]
                                            false (Pages.start 0)))))
      by (rewrite Hout; reflexivity).
    rewrite E. vm_compute. intro; discriminate.
  - destruct (Hhdr 0 PG.UINT_MAX Pages.heap_block) as (new & Hout & Hinc).
    + unfold run_state. evaluate.
    + vm_compute. intro; discriminate.
    + vm_compute. intro; discriminate.
    + exists new. split; [rewrite Hout; reflexivity | exact Hinc].
  - destruct (Hheap 0 1 216 216 40 Pages.heap_block 1 2048 24
                ltac:(evaluate) ltac:(evaluate) ltac:(evaluate)
                ltac:(evaluate) ltac:(evaluate) ltac:(evaluate))
      as (new & Hout & Hinc).
    exists new. split; [rewrite Hout; reflexivity | exact Hinc].
  - destruct (Hindex 0 2 192 192 Pages.btree_block 8
                ltac:(evaluate) ltac:(evaluate) ltac:(evaluate))
      as (new & Hout & Hinc).
    exists new. split; [rewrite Hout; reflexivity | exact Hinc].
Defined.

(* ================================================================== *)
(** * Further properties of the program

    What follows goes beyond the properties above: the rest of the
    classifier, the layout of the tags of a page, what the run of a file
    keeps, and the command line. *)

(* ================================================================== *)
(** ** The classifier on every block *)

Lemma run_state_block g :
  run_state g -> 256 <= blockSize g.
Proof.
  intros (Hmod & Hbs & _).
  pose proof (Z.div_mod (blockSize g) 256 ltac:(lia)) as D.
  rewrite Hmod in D. lia.
Qed.

Lemma run_state_peek g n off :
  run_state g -> 0 <= off -> off + Z.of_nat n <= blockSize g ->
  exists v, peek n (buffer g) off = Some v.
Proof.
  intros (_ & _ & Hlen & _) H0 H1.
  destruct (peek_Some n (buffer g) off) as (v & Hv & _); [lia | lia |].
  exists v. exact Hv.
Qed.

(** the classifier returns in every state of a run; when it answers none
    and btree *)
Lemma GetSpecialSectionType_total g special :
  run_state g ->
  peek 2 (buffer g) PG.off_pd_special = Some special ->
  exists t,
    GetSpecialSectionType g = Ret t g /\
    (t = SPEC_SECT_NONE <->
     special = blockSize g /\ bytesToFormat g = blockSize g) /\
    (t = SPEC_SECT_INDEX_BTREE ->
     blockSize g - special = PG.MAXALIGN PG.sizeof_BTPageOpaqueData /\
     bytesToFormat g = blockSize g).
Proof.
  intros Hrun Hsp.
  pose proof (run_state_block g Hrun) as Hbs256.
  pose proof (peek2_range _ _ _ Hsp) as Rsp.
  destruct (run_state_peek g 2 (blockSize g - 2) Hrun) as (ptype & Hptype);
    [lia | simpl Z.of_nat; lia |].
  destruct Hrun as (Hmod & Hbs & Hlen & Hbtf).
  unfold GetSpecialSectionType, pd_special. unfold_monad.
  destruct (PG.sizeof_PageHeaderData <? bytesToFormat g) eqn:E1.
  2:{ eexists. split; [reflexivity|].
      apply Z.ltb_ge in E1. unfold PG.sizeof_PageHeaderData in E1.
      split; [split; [discriminate | lia] | discriminate]. }
  apply Z.ltb_lt in E1.
  rewrite (load_peek _ _ _ _ Hsp). cbv iota beta.
  destruct ((special =? 0) || (blockSize g <? special)
            || (bytesToFormat g <? special)) eqn:E2.
  { eexists. split; [reflexivity|].
    split; [|discriminate].
    split; [discriminate|]. intros (H1 & H2).
    rewrite !orb_true_iff, Z.eqb_eq, !Z.ltb_lt in E2. lia. }
  rewrite !orb_false_iff, Z.eqb_neq, !Z.ltb_ge in E2.
  destruct E2 as ((N0 & N1) & N2).
  rewrite (u32_small (blockSize g - special)) by lia.
  change PG.sizeof_uint16 with 2.
  destruct (blockSize g - special =? 0) eqn:E3.
  { apply Z.eqb_eq in E3. eexists. split; [reflexivity|].
    split; [|discriminate].
    split; [intros _; lia | reflexivity]. }
  apply Z.eqb_neq in E3.
  assert (Hno : forall t,
            t <> SPEC_SECT_NONE -> t <> SPEC_SECT_INDEX_BTREE ->
            (t = SPEC_SECT_NONE <->
             special = blockSize g /\ bytesToFormat g = blockSize g) /\
            (t = SPEC_SECT_INDEX_BTREE ->
             blockSize g - special = PG.MAXALIGN PG.sizeof_BTPageOpaqueData /\
             bytesToFormat g = blockSize g)).
  { intros t Ht Hb. split; [|intros H; contradiction].
    split; [intros H; contradiction | intros (H & _); lia]. }
  change (PG.MAXALIGN PG.sizeof_uint32) with 8.
  change (PG.MAXALIGN PG.sizeof_SpGistPageOpaqueData) with 8.
  change (PG.MAXALIGN PG.sizeof_GinPageOpaqueData) with 8.
  destruct (blockSize g - special =? 8) eqn:E4; cbv iota beta.
  - apply Z.eqb_eq in E4.
    destruct (bytesToFormat g =? blockSize g) eqn:E5.
    2:{ eexists. split; [reflexivity | apply Hno; discriminate]. }
    destruct (run_state_peek g 4 special) as (magic & Hmagic);
      [unfold run_state; tauto | lia | simpl Z.of_nat; lia |].
    rewrite (load_peek _ _ _ _ Hmagic). cbv iota beta.
    destruct (magic =? SEQUENCE_MAGIC).
    { eexists. split; [reflexivity | apply Hno; discriminate]. }
    rewrite (load_peek _ _ _ _ Hptype). cbv iota beta.
    destruct (ptype =? PG.SPGIST_PAGE_ID);
      (eexists; split; [reflexivity | apply Hno; discriminate]).
  - destruct ((2 <? blockSize g - special)
              && (bytesToFormat g =? blockSize g)) eqn:E6.
    2:{ eexists. split; [reflexivity | apply Hno; discriminate]. }
    rewrite (load_peek _ _ _ _ Hptype). cbv iota beta.
    destruct ((ptype <=? PG.MAX_BT_CYCLE_ID)
              && (blockSize g - special
                  =? PG.MAXALIGN PG.sizeof_BTPageOpaqueData)) eqn:E7.
    { eexists. split; [reflexivity|].
      apply andb_true_iff in E6, E7.
      destruct E6 as (_ & E6). destruct E7 as (_ & E7).
      apply Z.eqb_eq in E6, E7.
      split; [|intros _; split; assumption].
      split; [discriminate | intros (H & _); lia]. }
    repeat match goal with
           | |- context [if ?c then _ else _] => destruct c
           end;
      (eexists; split; [reflexivity | apply Hno; discriminate]).
Qed.

(** X1: [GetSpecialSectionType] looks at the special offset and, only when the
    block was read in full, at the four bytes at the special offset and at
    the last two bytes of the block.  In a state of a run it therefore
    never reads outside the buffer and always returns, leaving every
    variable as it was.  It answers that there is no special section
    exactly when more than a page header was read, in full, and the special
    offset is the block size; and it answers btree only for a block read in
    full whose special section has the size of the btree opaque struct. *)
Theorem GetSpecialSectionType_returns g special :
  run_state g ->
  peek 2 (buffer g) PG.off_pd_special = Some special ->
  exists t,
    GetSpecialSectionType g = Ret t g /\
    (t = SPEC_SECT_NONE <->
     special = blockSize g /\ bytesToFormat g = blockSize g) /\
    (t = SPEC_SECT_INDEX_BTREE ->
     blockSize g - special = PG.MAXALIGN PG.sizeof_BTPageOpaqueData /\
     bytesToFormat g = blockSize g).
Proof. exact (GetSpecialSectionType_total g special). Qed.

(** the classifier on a block that was not read in full *)
Lemma GetSpecialSectionType_short_read g special :
  run_state g ->
  peek 2 (buffer g) PG.off_pd_special = Some special ->
  bytesToFormat g < blockSize g ->
  GetSpecialSectionType g =
    Ret (if (PG.sizeof_PageHeaderData <? bytesToFormat g)
            && ((special =? 0) || (bytesToFormat g <? special))
         then SPEC_SECT_ERROR_BOUNDARY
         else SPEC_SECT_ERROR_UNKNOWN) g.
Proof.
  intros Hrun Hsp Hpart.
  pose proof (peek2_range _ _ _ Hsp) as Rsp.
  destruct Hrun as (Hmod & Hbs & Hlen & Hbtf).
  unfold GetSpecialSectionType, pd_special. unfold_monad.
  destruct (PG.sizeof_PageHeaderData <? bytesToFormat g) eqn:E1;
    [|reflexivity].
  rewrite (load_peek _ _ _ _ Hsp). cbv iota beta. cbn [andb].
  destruct (special =? 0) eqn:E2; [reflexivity|]. cbn [orb].
  destruct (bytesToFormat g <? special) eqn:E3;
    [rewrite orb_true_r; reflexivity|].
  apply Z.eqb_neq in E2. apply Z.ltb_ge in E3.
  replace (blockSize g <? special) with false
    by (symmetry; apply Z.ltb_ge; lia).
  cbn [orb].
  rewrite (u32_small (blockSize g - special)) by lia.
  replace (blockSize g - special =? 0) with false
    by (symmetry; apply Z.eqb_neq; lia).
  replace (bytesToFormat g =? blockSize g) with false
    by (symmetry; apply Z.eqb_neq; lia).
  rewrite !andb_false_r.
  change (PG.MAXALIGN PG.sizeof_uint32) with 8.
  change (PG.MAXALIGN PG.sizeof_SpGistPageOpaqueData) with 8.
  change (PG.MAXALIGN PG.sizeof_GinPageOpaqueData) with 8.
  destruct (blockSize g - special =? 8); reflexivity.
Qed.

(** X2: A block that was not read in full is never taken for a page of some
    family, and never for a page without a special section: the classifier
    answers the boundary error when more than a page header was read and
    the special offset is 0 or lies past the bytes read, and the unknown
    error otherwise. *)
Theorem GetSpecialSectionType_partial_block g special :
  run_state g ->
  peek 2 (buffer g) PG.off_pd_special = Some special ->
  bytesToFormat g < blockSize g ->
  GetSpecialSectionType g =
    Ret (if (PG.sizeof_PageHeaderData <? bytesToFormat g)
            && ((special =? 0) || (bytesToFormat g <? special))
         then SPEC_SECT_ERROR_BOUNDARY
         else SPEC_SECT_ERROR_UNKNOWN) g.
Proof. exact (GetSpecialSectionType_short_read g special). Qed.

(** the classifier on a block read in full, by its last two bytes *)
Lemma GetSpecialSectionType_by_page_id g special ptype :
  run_state g ->
  bytesToFormat g = blockSize g ->
  peek 2 (buffer g) PG.off_pd_special = Some special ->
  0 < special < blockSize g ->
  blockSize g - special <> PG.MAXALIGN PG.sizeof_uint32 ->
  peek 2 (buffer g) (blockSize g - PG.sizeof_uint16) = Some ptype ->
  GetSpecialSectionType g =
    Ret (if blockSize g - special =? PG.MAXALIGN PG.sizeof_BTPageOpaqueData
         then
           if ptype <=? PG.MAX_BT_CYCLE_ID then SPEC_SECT_INDEX_BTREE
           else if ptype =? PG.HASHO_PAGE_ID then SPEC_SECT_INDEX_HASH
           else if ptype =? PG.GIST_PAGE_ID then SPEC_SECT_INDEX_GIST
           else SPEC_SECT_ERROR_UNKNOWN
         else SPEC_SECT_ERROR_UNKNOWN) g.
Proof.
  intros Hrun Hfull Hsp Hin Hsize Hptype.
  pose proof (run_state_block g Hrun) as Hbs256.
  assert (Hbs : blockSize g <= 65280) by (unfold run_state in Hrun; lia).
  unfold GetSpecialSectionType, pd_special. unfold_monad.
  replace (PG.sizeof_PageHeaderData <? bytesToFormat g) with true
    by (symmetry; apply Z.ltb_lt; unfold PG.sizeof_PageHeaderData; lia).
  rewrite (load_peek _ _ _ _ Hsp). cbv iota beta.
  replace (special =? 0) with false by (symmetry; apply Z.eqb_neq; lia).
  replace (blockSize g <? special) with false
    by (symmetry; apply Z.ltb_ge; lia).
  replace (bytesToFormat g <? special) with false
    by (symmetry; apply Z.ltb_ge; lia).
  cbn [orb].
  rewrite (u32_small (blockSize g - special)) by lia.
  replace (blockSize g - special =? 0) with false
    by (symmetry; apply Z.eqb_neq; lia).
  change (PG.MAXALIGN PG.sizeof_SpGistPageOpaqueData)
    with (PG.MAXALIGN PG.sizeof_uint32).
  change (PG.MAXALIGN PG.sizeof_GinPageOpaqueData)
    with (PG.MAXALIGN PG.sizeof_uint32).
  change (PG.MAXALIGN PG.sizeof_HashPageOpaqueData)
    with (PG.MAXALIGN PG.sizeof_BTPageOpaqueData).
  change (PG.MAXALIGN PG.sizeof_GISTPageOpaqueData)
    with (PG.MAXALIGN PG.sizeof_BTPageOpaqueData).
  replace (blockSize g - special =? PG.MAXALIGN PG.sizeof_uint32) with false
    by (symmetry; apply Z.eqb_neq; exact Hsize).
  cbv iota beta. rewrite Hfull, Z.eqb_refl, andb_true_r.
  destruct (2 <? blockSize g - special) eqn:E2.
  - rewrite (load_peek _ _ _ _ Hptype). cbv iota beta.
    destruct (blockSize g - special =? PG.MAXALIGN PG.sizeof_BTPageOpaqueData);
      rewrite ?andb_true_r, ?andb_false_r; [|reflexivity].
    destruct (ptype <=? PG.MAX_BT_CYCLE_ID); [reflexivity|].
    destruct (ptype =? PG.HASHO_PAGE_ID); [reflexivity|].
    destruct (ptype =? PG.GIST_PAGE_ID); reflexivity.
  - apply Z.ltb_ge in E2.
    replace (blockSize g - special =? PG.MAXALIGN PG.sizeof_BTPageOpaqueData)
      with false; [reflexivity|].
    symmetry. apply Z.eqb_neq. change (PG.MAXALIGN PG.sizeof_BTPageOpaqueData)
      with 16. lia.
Qed.

(** X3: On a block read in full whose special section is neither empty nor
    of the size shared by sequences, GIN and SP-GiST, the family is told by
    the last two bytes of the block, and only for a special section of the
    size of the btree opaque struct (which the hash and GiST opaque structs
    share): a value up to [MAX_BT_CYCLE_ID] means btree, the hash page id
    hash, the GiST page id GiST; every other block gets the unknown
    error. *)
Theorem GetSpecialSectionType_index_family g special ptype :
  run_state g ->
  bytesToFormat g = blockSize g ->
  peek 2 (buffer g) PG.off_pd_special = Some special ->
  0 < special < blockSize g ->
  blockSize g - special <> PG.MAXALIGN PG.sizeof_uint32 ->
  peek 2 (buffer g) (blockSize g - PG.sizeof_uint16) = Some ptype ->
  GetSpecialSectionType g =
    Ret (if blockSize g - special =? PG.MAXALIGN PG.sizeof_BTPageOpaqueData
         then
           if ptype <=? PG.MAX_BT_CYCLE_ID then SPEC_SECT_INDEX_BTREE
           else if ptype =? PG.HASHO_PAGE_ID then SPEC_SECT_INDEX_HASH
           else if ptype =? PG.GIST_PAGE_ID then SPEC_SECT_INDEX_GIST
           else SPEC_SECT_ERROR_UNKNOWN
         else SPEC_SECT_ERROR_UNKNOWN) g.
Proof. exact (GetSpecialSectionType_by_page_id g special ptype). Qed.

(** X4: [IsBtreeMetaPage] and the classifier agree: on a block whose own
    page size field is the block size of the run, a page that
    [IsBtreeMetaPage] takes for a btree meta page is classified as a btree
    page. *)
Theorem IsBtreeMetaPage_classified g pv :
  run_state g ->
  peek 2 (buffer g) PG.off_pd_pagesize_version = Some pv ->
  page_size_of pv = blockSize g ->
  IsBtreeMetaPage g = Ret true g ->
  GetSpecialSectionType g = Ret SPEC_SECT_INDEX_BTREE g.
Proof.
  intros Hrun Hpv Hsz Hmeta.
  pose proof (run_state_block g Hrun) as Hbs256.
  assert (Hbs : blockSize g <= 65280) by (unfold run_state in Hrun; lia).
  destruct (run_state_peek g 2 PG.off_pd_special Hrun) as (special & Hsp);
    [unfold PG.off_pd_special; lia
    | unfold PG.off_pd_special; simpl Z.of_nat; lia |].
  pose proof (peek2_range _ _ _ Hsp) as Rsp.
  revert Hmeta.
  unfold IsBtreeMetaPage, PageGetSpecialSize, PageGetPageSize,
    pd_pagesize_version, pd_special.
  unfold_monad.
  rewrite (load_peek _ _ _ _ Hpv). cbv iota beta.
  rewrite (load_peek _ _ _ _ Hsp). cbv iota beta.
  rewrite Hsz.
  destruct (u16 (blockSize g - special)
            =? PG.MAXALIGN PG.sizeof_BTPageOpaqueData) eqn:E1;
    [|discriminate].
  destruct (bytesToFormat g =? blockSize g) eqn:E2; [|discriminate].
  cbn [andb]. cbv iota beta.
  rewrite (load_peek _ _ _ _ Hsp). cbv iota beta.
  apply Z.eqb_eq in E1, E2.
  change (PG.MAXALIGN PG.sizeof_BTPageOpaqueData) with 16 in E1.
  assert (Hspecial : special = blockSize g - 16).
  { unfold u16 in E1.
    destruct (Z_lt_le_dec (blockSize g - special) 0) as [Hneg|Hpos].
    - replace (blockSize g - special)
        with ((blockSize g - special + 65536) + (-1) * 65536) in E1 by ring.
      rewrite Z.mod_add, Z.mod_small in E1 by lia. lia.
    - rewrite Z.mod_small in E1 by lia. lia. }
  destruct (load 2 (special + PG.off_btpo_cycleid) g)
    as [cycleid g1 | g1 | g1] eqn:Ecyc; try discriminate.
  unfold load in Ecyc.
  destruct (peek 2 (buffer g) (special + PG.off_btpo_cycleid))
    as [c|] eqn:Hc; [|discriminate].
  assert (c = cycleid /\ g1 = g) as (-> & ->)
    by (split; congruence).
  destruct (cycleid <=? PG.MAX_BT_CYCLE_ID) eqn:E3; [|discriminate].
  intros _.
  rewrite (GetSpecialSectionType_by_page_id g special cycleid Hrun E2 Hsp).
  - replace (blockSize g - special) with 16 by lia.
    change (16 =? PG.MAXALIGN PG.sizeof_BTPageOpaqueData) with true.
    cbv iota. rewrite E3. reflexivity.
  - lia.
  - change (PG.MAXALIGN PG.sizeof_uint32) with 8. lia.
  - rewrite <- Hc. f_equal. unfold PG.off_btpo_cycleid, PG.sizeof_uint16. lia.
Qed.

(* ================================================================== *)
(** ** The flag strings and their buffers

    The flag strings are built with [strcat] in buffers of a fixed size:
    512 bytes from [malloc] in [GetHeapTupleHeaderFlags], [char
    flagString[100]] in [EmitXmlPageHeader] and in [EmitXmlSpecial].  A
    string of length [n] takes [n + 1] bytes. *)

Lemma strcat_length (a b : string) :
  String.length (strcat a b) = (String.length a + String.length b)%nat.
Proof.
  unfold strcat. induction a as [|c a IH]; simpl; [reflexivity|].
  rewrite IH. reflexivity.
Qed.

Lemma strcat_flag_length (word mask : Z) (name s : string) :
  (String.length s <= String.length (strcat_flag word mask name s)
   <= String.length s + String.length name)%nat.
Proof.
  unfold strcat_flag. destruct (bit_set word mask).
  - rewrite strcat_length. lia.
  - lia.
Qed.

Lemma chop_last_length (s : string) :
  String.length (chop_last s) = pred (String.length s).
Proof.
  induction s as [|c s IH]; [reflexivity|].
  destruct s as [|d s]; [reflexivity|].
  change (chop_last (String c (String d s)))
    with (String c (chop_last (String d s))).
  cbn [String.length] in *. rewrite IH. reflexivity.
Qed.

(** bounds on the length of a string built by a chain of
    [strcat_flag] *)
Ltac flag_lengths :=
  repeat match goal with
         | |- context [strcat_flag ?w ?m ?name ?s] =>
             pose proof (strcat_flag_length w m name s);
             generalize dependent (strcat_flag w m name s); intros
         | H : context [strcat_flag ?w ?m ?name ?s] |- _ =>
             pose proof (strcat_flag_length w m name s);
             generalize dependent (strcat_flag w m name s); intros
         end;
  cbn [String.length strcat String.append] in *; lia.

(** the flags of [btpo_flags] that [EmitXmlSpecial] names *)
Definition btpo_flags_named : list Z :=
  [PG.BTP_LEAF; PG.BTP_ROOT; PG.BTP_DELETED; PG.BTP_META; PG.BTP_HALF_DEAD;
   PG.BTP_SPLIT_END; PG.BTP_HAS_GARBAGE; PG.BTP_INCOMPLETE_SPLIT].

(** X5: The flag strings of a heap tuple fit the 512 bytes allocated for
    them, whatever the two info masks hold, and the flag string of the
    page header fits its 100 bytes.  The flag string of a btree special
    section fits its 100 bytes while it is being built (before its last
    [|] is cut off) as long as [BTP_INCOMPLETE_SPLIT] is clear or at most six
    of the eight flags are set; with all eight flags set it takes 118
    bytes. *)
Theorem flag_strings_fit :
  (forall t_infomask,
     (String.length (infomask_string t_infomask) + 1 <= 512)%nat) /\
  (forall t_infomask2,
     (String.length (infomask2_string t_infomask2) + 1 <= 512)%nat) /\
  (forall flags,
     (String.length (pd_flags_string flags) + 2 <= 100)%nat) /\
  (forall flags,
     bit_set flags PG.BTP_INCOMPLETE_SPLIT = false \/
     (List.length (filter (bit_set flags) btpo_flags_named) <= 6)%nat ->
     (String.length (btpo_flags_string flags) + 2 <= 100)%nat) /\
  (String.length (btpo_flags_string 255) + 2 = 118)%nat.
Proof.
  split; [|split; [|split; [|split]]].
  - intros w. unfold infomask_string.
    rewrite strcat_length, chop_last_length.
    flag_lengths.
  - intros w. unfold infomask2_string.
    rewrite strcat_length, chop_last_length.
    flag_lengths.
  - intros w. unfold pd_flags_string.
    rewrite chop_last_length.
    flag_lengths.
  - intros w H. unfold btpo_flags_string, btpo_flags_built, strcat_flag.
    unfold btpo_flags_named in H. cbn [filter] in H.
    destruct (bit_set w PG.BTP_LEAF), (bit_set w PG.BTP_ROOT),
      (bit_set w PG.BTP_DELETED), (bit_set w PG.BTP_META),
      (bit_set w PG.BTP_HALF_DEAD), (bit_set w PG.BTP_SPLIT_END),
      (bit_set w PG.BTP_HAS_GARBAGE), (bit_set w PG.BTP_INCOMPLETE_SPLIT);
      cbn [List.length] in H;
      first [ vm_compute; lia
            | exfalso; destruct H as [H|H]; [discriminate H | lia] ].
  - vm_compute. reflexivity.
Qed.

(* ================================================================== *)
(** ** The bytes the tags of a page cover *)

(** [tiles lo hi ts]: the tags [ts] cover the bytes from [lo] up to
    [hi], [hi] excluded, one after the other, without a gap and without an
    overlap; a tag may be empty (it then ends one byte before it starts) *)
Fixpoint tiles (lo hi : Z) (ts : list TAG) : Prop :=
  match ts with
  | [] => lo = hi
  | t :: rest =>
      start_offset t = lo /\ lo <= end_offset t + 1 /\
      tiles (end_offset t + 1) hi rest
  end.

Lemma tiles_app lo mid hi a b :
  tiles lo mid a -> tiles mid hi b -> tiles lo hi (a ++ b).
Proof.
  revert lo. induction a as [|t a IH]; intros lo Ha Hb.
  - cbn in Ha. subst. exact Hb.
  - destruct Ha as (H1 & H2 & H3). cbn [app tiles].
    split; [exact H1|]. split; [exact H2|]. apply IH; assumption.
Qed.

Lemma tiles_le lo hi ts : tiles lo hi ts -> lo <= hi.
Proof.
  revert lo. induction ts as [|t ts IH]; intros lo H.
  - cbn in H. lia.
  - destruct H as (H1 & H2 & H3). apply IH in H3. lia.
Qed.

(** [tiles] read off the shapes of the tags *)
Fixpoint tiles_shapes (lo hi : Z) (l : list (Z * Z * tag_text * string))
  : Prop :=
  match l with
  | [] => lo = hi
  | (s, e, _, _) :: rest => s = lo /\ lo <= e + 1 /\ tiles_shapes (e + 1) hi rest
  end.

Lemma tiles_of_shapes lo hi ts :
  tiles_shapes lo hi (map shape ts) -> tiles lo hi ts.
Proof.
  revert lo. induction ts as [|t ts IH]; intros lo H; [exact H|].
  cbn [map tiles_shapes shape] in H. destruct H as (H1 & H2 & H3).
  cbn [tiles]. split; [exact H1|]. split; [exact H2|]. apply IH. exact H3.
Qed.


(** X7: The tags of an index tuple cover its bytes, from its first byte to
    the last byte its size field declares, one after the other.  This
    needs a size field that holds at least the size of the tuple header. *)
Theorem EmitXmlIndexTuple_tiles blkno offset tuple relfileOff g t_info :
  peek 2 (buffer g) (tuple + PG.off_t_info) = Some t_info ->
  0 <= relfileOff ->
  PG.sizeof_IndexTupleData <= IndexTupleSize t_info ->
  relfileOff + IndexTupleSize t_info < 4294967296 ->
  exists g' new,
    EmitXmlIndexTuple blkno offset tuple relfileOff g = Ret tt g' /\
    tags_of (stdout g') = tags_of (stdout g) ++ new /\
    tiles relfileOff (relfileOff + IndexTupleSize t_info) new.
Proof.
  intros Hinfo Hlo Hsize Hhi.
  destruct (EmitXmlIndexTuple_run blkno offset tuple relfileOff t_info g
              Hinfo) as (g' & new & Hrun & Hout & _ & Hshape).
  exists g', (tags_of new).
  split; [exact Hrun|]. split; [rewrite Hout; apply tags_of_app|].
  apply tiles_of_shapes. rewrite Hshape.
  unfold PG.sizeof_IndexTupleData in Hsize.
  destruct (Z.eq_dec (IndexTupleSize t_info) 8) as [E8|N8].
  - rewrite E8, Z.ltb_irrefl. rewrite E8 in Hhi.
    rewrite !u32_small by lia. cbn [app tiles_shapes]. lia.
  - rewrite !u32_small by lia.
    replace (relfileOff + 8 <? relfileOff + IndexTupleSize t_info)
      with true by (symmetry; apply Z.ltb_lt; lia).
    cbn [app tiles_shapes]. lia.
Qed.

(** a text that fits its array is built without a write outside it *)
Lemma strcat_into_fits size built g :
  Z.of_nat (String.length built) + 1 <= size ->
  strcat_into size built g = Ret tt g.
Proof.
  intros H. unfold strcat_into.
  replace (Z.of_nat (String.length built) + 1 <=? size) with true
    by (symmetry; apply Z.leb_le; exact H).
  reflexivity.
Qed.

Lemma btpo_flags_built_fits flags :
  (String.length (btpo_flags_string flags) + 2 <= 100)%nat ->
  Z.of_nat (String.length (btpo_flags_built flags)) + 1 <= 100.
Proof.
  unfold btpo_flags_string. rewrite chop_last_length. lia.
Qed.

(** X8: For a btree page [EmitXmlSpecial] writes five tags and no message,
    and leaves the exit code alone: the two sibling links, the level, the
    flags by name and the cycle id; together they cover the sixteen bytes
    of the opaque struct at the special offset, one after the other.  The
    flags are such that their names fit the buffer of 100 bytes they are
    collected in. *)
Theorem EmitXmlSpecial_btree blkno level g special flags :
  specialType g = SPEC_SECT_INDEX_BTREE ->
  peek 2 (buffer g) PG.off_pd_special = Some special ->
  peek 2 (buffer g) (special + PG.off_btpo_flags) = Some flags ->
  (String.length (btpo_flags_string flags) + 2 <= 100)%nat ->
  exists g' new,
    EmitXmlSpecial blkno level g = Ret tt g' /\
    stdout g' = stdout g ++ new /\
    messages_of new = [] /\
    exitCode g' = exitCode g /\
    map text (tags_of new) =
      map (BlockText blkno (if level =? PG.UINT_MAX then None else Some level))
        ["btpo_prev"; "btpo_next"; "btpo.level"; btpo_flags_string flags;
         "btpo_cycleid"] /\
    (0 <= pageOffset g + special ->
     pageOffset g + special + PG.sizeof_BTPageOpaqueData < 4294967296 ->
     tiles (pageOffset g + special)
       (pageOffset g + special + PG.sizeof_BTPageOpaqueData) (tags_of new)).
Proof.
  intros Ht Hsp Hfl Hfit.
  unfold EmitXmlSpecial, pd_special. mred. rewrite Hsp. mred. rewrite Ht.
  mred. mstate. rewrite Hfl. mred. mstate.
  rewrite strcat_into_fits by (apply btpo_flags_built_fits; exact Hfit).
  mred. mstate.
  eexists. eexists. split; [reflexivity|]. mstate.
  rewrite <- !app_assoc. cbn [app].
  split; [reflexivity|].
  split; [reflexivity|].
  split; [reflexivity|].
  split; [reflexivity|].
  intros Hlo Hhi. unfold PG.sizeof_BTPageOpaqueData in Hhi.
  unfold PG.off_btpo_prev, PG.off_btpo_next, PG.off_btpo, PG.off_btpo_flags,
    PG.off_btpo_cycleid, PG.sizeof_BTCycleId, PG.sizeof_BTPageOpaqueData.
  cbn [tags_of tiles start_offset end_offset].
  rewrite !u32_small by lia. lia.
Qed.

(** *** The page header and the line pointers *)

(** two bits of a line pointer hold its state, so the [default] of the
    [switch] over them is never taken *)
Lemma textFlags_of_named (itemId : Z) :
  In (textFlags_of (ItemIdGetFlags itemId))
    ["LP_UNUSED"; "LP_NORMAL"; "LP_REDIRECT"; "LP_DEAD"].
Proof.
  unfold ItemIdGetFlags.
  change 3 with (Z.ones 2). rewrite Z.land_ones by lia.
  pose proof (Z.mod_pos_bound (Z.shiftr itemId 15) (2 ^ 2) ltac:(lia)) as R.
  set (f := Z.shiftr itemId 15 mod 2 ^ 2) in *.
  assert (C : f = 0 \/ f = 1 \/ f = 2 \/ f = 3) by lia.
  destruct C as [-> | [-> | [-> | ->]]]; cbn; tauto.
Qed.

(** the tag of line pointer [k]: four bytes of the array that starts
    [headerBytes] bytes into the block, and the length, the offset and the
    state the line pointer holds *)
Definition line_pointer_tag (blkno headerBytes : Z) (g : globals) (k : Z)
    (t : TAG) : Prop :=
  exists itemId,
    item_at g k = Some itemId /\
    shape t =
      (u32 (pageOffset g + headerBytes + PG.sizeof_ItemIdData * (k - 1)),
       u32 (pageOffset g + headerBytes + PG.sizeof_ItemIdData * (k - 1))
       + PG.sizeof_ItemIdData - 1,
       ItemIdText blkno k (ItemIdGetLength itemId) (ItemIdGetOffset itemId)
         (textFlags_of (ItemIdGetFlags itemId)),
       COLOR_BLUE_LIGHT).

Lemma EmitXmlPageHeader_item_run blkno hb k g itemId :
  item_at g k = Some itemId ->
  exists g' t,
    EmitXmlPageHeader_item blkno hb k g = Ret tt g' /\
    frame g g' /\
    tags_of (stdout g') = tags_of (stdout g) ++ [t] /\
    line_pointer_tag blkno hb g k t.
Proof.
  intros Hid. unfold item_at in Hid.
  unfold EmitXmlPageHeader_item, PageGetItemId. mred. rewrite Hid. mred.
  eexists. eexists. split; [reflexivity|]. mstate.
  split; [unfold frame; repeat split|].
  split; [rewrite tags_of_app; reflexivity|].
  exists itemId. split; [exact Hid|]. unfold shape.
  cbn [start_offset end_offset text note_colour]. reflexivity.
Qed.

Lemma line_pointer_tag_frame blkno hb g g' k t :
  frame g g' ->
  line_pointer_tag blkno hb g' k t -> line_pointer_tag blkno hb g k t.
Proof.
  intros F (itemId & Hid & Hs). exists itemId.
  rewrite (frame_item_at _ _ _ F) in Hid.
  rewrite (frame_pageOffset _ _ F) in Hs. split; assumption.
Qed.

Lemma EmitXmlPageHeader_items_run blkno hb (n : nat) :
  forall first g,
    (forall k, In k (offsets n first) -> item_at g k <> None) ->
    exists g' new,
      for_offsets n first (EmitXmlPageHeader_item blkno hb) g = Ret tt g' /\
      frame g g' /\
      tags_of (stdout g') = tags_of (stdout g) ++ new /\
      Forall2 (line_pointer_tag blkno hb g) (offsets n first) new.
Proof.
  induction n as [|n IH]; intros first g Hall.
  - exists g, []. cbn [for_offsets offsets]. split; [reflexivity|].
    split; [apply frame_refl|]. split; [rewrite app_nil_r; reflexivity|].
    constructor.
  - cbn [for_offsets offsets] in *.
    destruct (item_at g first) as [itemId|] eqn:Hid;
      [|exfalso; apply (Hall first); [left; reflexivity | exact Hid]].
    destruct (EmitXmlPageHeader_item_run blkno hb first g itemId Hid)
      as (g1 & t & Hrun1 & F1 & Hout1 & Ht).
    destruct (IH (first + 1) g1) as (g2 & new & Hrun2 & F2 & Hout2 & Hnew).
    { intros k Hk. rewrite (frame_item_at _ _ _ F1).
      apply Hall. right. exact Hk. }
    exists g2, (t :: new).
    split; [rewrite (bind_Ret _ _ _ _ _ Hrun1); exact Hrun2|].
    split; [exact (frame_trans _ _ _ F1 F2)|].
    split; [rewrite Hout2, Hout1, <- app_assoc; reflexivity|].
    constructor; [exact Ht|].
    clear - F1 Hnew. induction Hnew as [|k t' ks ts H1 H2 IH2];
      constructor; [apply (line_pointer_tag_frame _ _ _ _ _ _ F1 H1) | exact IH2].
Qed.

Lemma shape_offsets t s e tx c :
  shape t = (s, e, tx, c) -> start_offset t = s /\ end_offset t = e.
Proof. unfold shape. intros H. split; congruence. Qed.

Lemma line_pointer_tags_tile blkno g (n : nat) :
  forall first new,
    Forall2 (line_pointer_tag blkno PG.off_pd_linp g) (offsets n first) new ->
    0 <= pageOffset g + PG.off_pd_linp + PG.sizeof_ItemIdData * (first - 1) ->
    pageOffset g + PG.off_pd_linp
      + PG.sizeof_ItemIdData * (first - 1 + Z.of_nat n) <= 4294967296 ->
    tiles (pageOffset g + PG.off_pd_linp + PG.sizeof_ItemIdData * (first - 1))
      (pageOffset g + PG.off_pd_linp
       + PG.sizeof_ItemIdData * (first - 1 + Z.of_nat n)) new.
Proof.
  unfold PG.off_pd_linp, PG.sizeof_ItemIdData.
  induction n as [|n IH]; intros first new H Hlo Hhi;
    cbn [offsets] in H; inversion H as [|k t ks ts Ht Hrest]; subst.
  - cbn [tiles]. lia.
  - destruct Ht as (itemId & _ & Hs).
    apply shape_offsets in Hs. destruct Hs as (Hs1 & Hs2).
    unfold PG.off_pd_linp, PG.sizeof_ItemIdData in *.
    rewrite u32_small in Hs1, Hs2 by lia.
    cbn [tiles]. rewrite Hs1, Hs2.
    split; [reflexivity|]. split; [lia|].
    replace (pageOffset g + 24 + 4 * (first - 1) + 4 - 1 + 1)
      with (pageOffset g + 24 + 4 * (first + 1 - 1)) by lia.
    replace (first - 1 + Z.of_nat (S n)) with (first + 1 - 1 + Z.of_nat n)
      by lia.
    apply IH; [exact Hrest | lia | lia].
Qed.

(** X9: On a page that is not a btree meta page and whose line pointers were
    all read, [EmitXmlPageHeader] returns 0 after it has written the eight
    tags of the fixed header and then one tag for each line pointer, in
    the order of the array: the tag of line pointer [k] covers its four
    bytes and shows its length, its offset and its state, which is one of
    the four names.  Together the tags cover the header and the array, one
    after the other. *)
Theorem EmitXmlPageHeader_line_pointers cs blkno level g lower :
  run_state g ->
  peek 2 (buffer g) PG.off_pd_lower = Some lower ->
  IsBtreeMetaPage g = Ret false g ->
  PG.off_pd_linp + PG.sizeof_ItemIdData * max_offset_of lower
    <= bytesToFormat g ->
  exists g' fields items,
    EmitXmlPageHeader cs blkno level g = Ret 0 g' /\
    tags_of (stdout g') = tags_of (stdout g) ++ fields ++ items /\
    List.length fields = 8%nat /\
    Forall2 (line_pointer_tag blkno PG.off_pd_linp g)
      (offsets (Z.to_nat (max_offset_of lower)) PG.FirstOffsetNumber) items /\
    (forall itemId,
       In (textFlags_of (ItemIdGetFlags itemId))
         ["LP_UNUSED"; "LP_NORMAL"; "LP_REDIRECT"; "LP_DEAD"]) /\
    (0 <= pageOffset g ->
     pageOffset g + PG.off_pd_linp
       + PG.sizeof_ItemIdData * max_offset_of lower <= 4294967296 ->
     tiles (pageOffset g)
       (pageOffset g + PG.off_pd_linp
        + PG.sizeof_ItemIdData * max_offset_of lower)
       (fields ++ items)).
Proof.
  intros Hrun Hlo HisMeta Hread.
  pose proof (run_state_block g Hrun) as Hbs256.
  destruct Hrun as (Hmod & Hbs & Hlen & Hbtf).
  assert (Hh : header_readable g)
    by (unfold header_readable, PG.off_pd_linp; lia).
  destruct (header_peek g PG.off_pd_flags 2 Hh) as (pdf & Hpdf);
    [unfold PG.off_pd_flags; lia
    | unfold PG.off_pd_flags, PG.off_pd_linp; simpl Z.of_nat; lia |].
  destruct (header_peek g PG.off_pd_pagesize_version 2 Hh) as (pv & Hpv);
    [unfold PG.off_pd_pagesize_version; lia
    | unfold PG.off_pd_pagesize_version, PG.off_pd_linp; simpl Z.of_nat; lia |].
  pose proof (max_offset_of_bound lower (peek2_range _ _ _ Hlo)) as Hmax.
  set (maxOffset := max_offset_of lower) in *.
  set (g1 := set_blockVersion (Z.land pv 255) g).
  destruct (EmitXmlPageHeader_fields_run blkno level g1 pdf Hpdf)
    as (g2 & new2 & Hrun2 & F2 & Hout2 & Hshape2).
  assert (F12 : frame g g2)
    by (apply (frame_trans _ g1); [unfold frame; repeat split | exact F2]).
  assert (Hmeta2 : IsBtreeMetaPage g2 = Ret false g2).
  { apply (block_reader_Ret _ g); [apply block_reader_IsBtreeMetaPage
                                  | exact HisMeta |].
    apply frame_same_block. exact F12. }
  destruct (EmitXmlPageHeader_items_run blkno PG.off_pd_linp
              (Z.to_nat maxOffset) PG.FirstOffsetNumber g2)
    as (g3 & new3 & Hrun3 & F3 & Hout3 & Hnew3).
  { intros k Hk. apply in_offsets in Hk. unfold PG.FirstOffsetNumber in Hk.
    rewrite (frame_item_at _ _ _ F12). unfold item_at.
    unfold PG.off_pd_linp, PG.sizeof_ItemIdData in *.
    destruct (peek_Some 4 (buffer g) (24 + 4 * (k - 1))) as (v & Hv & _);
      [lia | simpl Z.of_nat; lia |].
    rewrite Hv. discriminate. }
  assert (F13 : frame g g3) by exact (frame_trans _ _ _ F12 F3).
  assert (Hh3 : header_readable g3).
  { unfold header_readable in *. rewrite (frame_buffer _ _ F13). exact Hh. }
  destruct (EmitXmlPageHeader_checks_returns cs blkno maxOffset g3 Hh3)
    as (g4 & Hrun4 & F4 & Htag4 & Hout4).
  assert (Hpart : (0 <? maxOffset)
                  && (bytesToFormat g
                      <? PG.off_pd_linp + u32 (maxOffset * PG.sizeof_ItemIdData))
                  = false).
  { unfold PG.off_pd_linp, PG.sizeof_ItemIdData in *.
    rewrite u32_small by lia.
    apply andb_false_iff. right. apply Z.ltb_ge. lia. }
  assert (Hbody : EmitXmlPageHeader_body cs blkno level (bytesToFormat g) g
                  = Ret 0 g4).
  { unfold EmitXmlPageHeader_body. cbv zeta.
    rewrite (bind_Ret _ _ _ _ _ (PageGetMaxOffsetNumber_run _ _ Hlo)).
    rewrite (bind_Ret _ _ _ _ _ (PageGetPageLayoutVersion_run _ _ Hpv)).
    rewrite bind_Ret with (a := tt) (g' := g1) by reflexivity.
    rewrite (bind_Ret _ _ _ _ _ Hrun2).
    rewrite (bind_Ret _ _ _ _ _ Hmeta2).
    fold maxOffset. rewrite Hpart.
    rewrite (bind_Ret _ _ _ _ _ Hrun3).
    rewrite (bind_Ret _ _ _ _ _ Hrun4).
    reflexivity. }
  exists g4, new2, new3.
  split.
  { unfold EmitXmlPageHeader.
    rewrite bind_Ret with (a := bytesToFormat g) (g' := g) by reflexivity.
    replace (bytesToFormat g <? PG.off_pd_linp) with false
      by (symmetry; apply Z.ltb_ge;
          unfold PG.off_pd_linp, PG.sizeof_ItemIdData in *; lia).
    rewrite (bind_Ret _ _ _ _ _ Hbody). reflexivity. }
  split; [rewrite Hout4, Hout3, Hout2, <- app_assoc; reflexivity|].
  split; [rewrite <- (length_map shape), Hshape2; reflexivity|].
  assert (Hitems : Forall2 (line_pointer_tag blkno PG.off_pd_linp g)
                     (offsets (Z.to_nat maxOffset) PG.FirstOffsetNumber) new3).
  { clear - F12 Hnew3. induction Hnew3 as [|k t ks ts H1 H2 IH];
      constructor;
      [apply (line_pointer_tag_frame _ _ _ _ _ _ F12 H1) | exact IH]. }
  split; [exact Hitems|].
  split; [exact textFlags_of_named|].
  intros Hpo Hhi.
  apply (tiles_app _ (pageOffset g + PG.off_pd_linp)).
  - apply tiles_of_shapes. rewrite Hshape2. cbv zeta.
    unfold PG.off_pd_linp, PG.sizeof_ItemIdData in *. unfold g1. mstate.
    rewrite !u32_small by lia. cbn [tiles_shapes]. lia.
  - pose proof (line_pointer_tags_tile blkno g (Z.to_nat maxOffset)
                  PG.FirstOffsetNumber new3 Hitems) as T.
    unfold PG.FirstOffsetNumber, PG.off_pd_linp, PG.sizeof_ItemIdData in *.
    replace (1 - 1 + Z.of_nat (Z.to_nat maxOffset)) with maxOffset in T by lia.
    replace (pageOffset g + 24 + 4 * (1 - 1)) with (pageOffset g + 24) in T
      by lia.
    apply T; lia.
Qed.

(* ================================================================== *)
(** ** Leaf pages that are not itemized *)

(** X10: With [-l], a btree leaf page that is not the root gets one tag and
    nothing else: no header, line pointer, tuple or special section tag,
    and no message.  The tag starts at the block's offset in the file and
    spans [BLCKSZ] bytes, the block size PostgreSQL was built with, not the
    block size of the file. *)
Theorem EmitXmlPage_leaf_page cs blkno g special level flags :
  GetSpecialSectionType g = Ret SPEC_SECT_INDEX_BTREE g ->
  peek 2 (buffer g) PG.off_pd_special = Some special ->
  peek 4 (buffer g) (special + PG.off_btpo) = Some level ->
  peek 2 (buffer g) (special + PG.off_btpo_flags) = Some flags ->
  bit_set (blockOptions g) BLOCK_SKIP_LEAF = true ->
  bit_set flags PG.BTP_LEAF = true ->
  bit_set flags PG.BTP_ROOT = false ->
  exists g',
    EmitXmlPage cs blkno g = Ret tt g' /\
    exitCode g' = exitCode g /\
    stdout g' =
      stdout g
      ++ [OutTag
            (mkTAG (tagNumber g)
               (u32 (blockSize g * currentBlock g))
               (u32 (blockSize g * currentBlock g + PG.BLCKSZ - 1))
               (BlockText blkno
                  (if level =? PG.UINT_MAX then None else Some level)
                  "leaf page")
               COLOR_GREEN_DARK)].
Proof.
  intros Ht Hsp Hlv Hfl Hopt Hleaf Hroot.
  assert (Ht' : GetSpecialSectionType
                  (set_pageOffset (u32 (blockSize g * currentBlock g)) g)
                = Ret SPEC_SECT_INDEX_BTREE
                    (set_pageOffset (u32 (blockSize g * currentBlock g)) g)).
  { apply (block_reader_Ret _ g); [apply block_reader_GetSpecialSectionType
                                  | exact Ht | repeat split]. }
  unfold EmitXmlPage. cbv zeta.
  do 3 (rewrite bind_Ret with (a := _) (g' := _) by reflexivity; cbv beta).
  rewrite (bind_Ret _ _ _ _ _ Ht').
  do 4 (rewrite bind_Ret with (a := _) (g' := _) by reflexivity; cbv beta).
  mstate.
  unfold pd_special. mred. mstate. rewrite Hsp. mred. mstate.
  rewrite Hlv. mred. mstate.
  rewrite Hfl. mred. mstate. rewrite Hleaf, Hroot, Hopt. cbn [andb negb].
  mred. mstate.
  eexists. split; [reflexivity|]. mstate.
  split; [reflexivity|]. do 3 f_equal. u32_eq.
Qed.

(* ================================================================== *)
(** ** What the decoding of a block leaves alone, and the exit code *)

Lemma keeps_weaken (R R' : globals -> globals -> Prop) {A} (m : M A) :
  (forall a b, R a b -> R' a b) -> keeps R m -> keeps R' m.
Proof. intros H K g. apply H, K. Qed.

(** the variables that only [main] and the loop of [EmitXmlFile] set *)
Definition steady (g g' : globals) : Prop :=
  blockStart g' = blockStart g /\
  blockEnd g' = blockEnd g /\
  blockOptions g' = blockOptions g /\
  buffer g' = buffer g /\
  blockSize g' = blockSize g /\
  currentBlock g' = currentBlock g /\
  segmentSize g' = segmentSize g /\
  segmentNumber g' = segmentNumber g /\
  bytesToFormat g' = bytesToFormat g.

Lemma steady_refl g : steady g g.
Proof. unfold steady. repeat split. Qed.

Lemma steady_trans a b c : steady a b -> steady b c -> steady a c.
Proof. unfold steady. intuition congruence. Qed.

Lemma frame_steady a b : frame a b -> steady a b.
Proof. unfold frame, steady. tauto. Qed.

Lemma steady_set_pageOffset v : keeps steady (modify (set_pageOffset v)).
Proof. intros g. unfold steady. repeat split. Qed.

Lemma steady_set_specialType v : keeps steady (modify (set_specialType v)).
Proof. intros g. unfold steady. repeat split. Qed.

Lemma steady_of_frame {A} (m : M A) : keeps frame m -> keeps steady m.
Proof. apply keeps_weaken. exact frame_steady. Qed.

Ltac steady_known :=
  first [ apply steady_set_pageOffset
        | apply steady_set_specialType
        | apply steady_of_frame;
          first [ solve [auto with frames nocore]
                | apply frame_EmitXmlTuples
                | apply frame_EmitXmlSpecial
                | apply (keeps_eq _ frame_refl);
                  solve [auto with readers nocore] ] ].

Ltac steadily := keeps_with steady_refl steady_trans steady_known.

(** what the decoding of a block leaves alone *)
Lemma steady_EmitXmlPage cs blkno g :
  steady g (final (EmitXmlPage cs blkno g)).
Proof.
  revert g. change (keeps steady (EmitXmlPage cs blkno)).
  unfold EmitXmlPage. steadily.
Qed.

(** X11: [EmitXmlPage] changes neither the block buffer, nor the number of
    bytes read into it, nor the block size, the block counter, the options,
    the block range or the segment: it only sets the block's offset, its
    special section type and version, advances the tag counter, writes
    output and raises the exit code. *)
Theorem EmitXmlPage_steady cs blkno g :
  steady g (final (EmitXmlPage cs blkno g)).
Proof. exact (steady_EmitXmlPage cs blkno g). Qed.

(** *** The exit code *)

(** the exit code is left as it is or set to 1 *)
Definition raises (g g' : globals) : Prop :=
  exitCode g' = exitCode g \/ exitCode g' = 1.

Lemma raises_refl g : raises g g.
Proof. left. reflexivity. Qed.

Lemma raises_trans a b c : raises a b -> raises b c -> raises a c.
Proof. unfold raises. intros [H1|H1] [H2|H2]; rewrite ?H2, ?H1; tauto. Qed.

Ltac raises_known :=
  first [ apply (keeps_eq _ raises_refl); solve [auto with readers nocore]
        | match goal with
          | |- keeps raises (printf _) => intros ?; left; reflexivity
          | |- keeps raises (emit _ _ _ _) => intros ?; left; reflexivity
          | |- keeps raises (modify _) =>
              intros ?; unfold raises, modify, final; mstate;
              first [left; reflexivity | right; reflexivity]
          end ].

Create HintDb raisers.

Ltac raising :=
  keeps_with raises_refl raises_trans
    ltac:(first [solve [auto with raisers nocore] | raises_known]).

Lemma raises_EmitXmlTag blkno level name color relfileOff relfileOffEnd :
  keeps raises (EmitXmlTag blkno level name color relfileOff relfileOffEnd).
Proof. unfold EmitXmlTag. raising. Qed.

Lemma raises_EmitXmlTupleTag blkno offset name color relfileOff relfileOffEnd :
  keeps raises
    (EmitXmlTupleTag blkno offset name color relfileOff relfileOffEnd).
Proof. unfold EmitXmlTupleTag. raising. Qed.

Lemma raises_EmitXmlItemId blkno offset itemId relfileOff textFlags :
  keeps raises (EmitXmlItemId blkno offset itemId relfileOff textFlags).
Proof. unfold EmitXmlItemId. raising. Qed.

Lemma raises_GetHeapTupleHeaderFlags htup isInfomask2 :
  keeps raises (GetHeapTupleHeaderFlags htup isInfomask2).
Proof. unfold GetHeapTupleHeaderFlags. raising. Qed.

#[local] Hint Resolve raises_EmitXmlTag raises_EmitXmlTupleTag
  raises_EmitXmlItemId raises_GetHeapTupleHeaderFlags : raisers.

Lemma raises_EmitXmlHeapTuple blkno offset htup relfileOff itemSize :
  keeps raises (EmitXmlHeapTuple blkno offset htup relfileOff itemSize).
Proof. unfold EmitXmlHeapTuple. raising. Qed.

Lemma raises_EmitXmlIndexTuple blkno offset tuple relfileOff :
  keeps raises (EmitXmlIndexTuple blkno offset tuple relfileOff).
Proof. unfold EmitXmlIndexTuple. raising. Qed.

Lemma raises_EmitXmlPageHeader cs blkno level :
  keeps raises (EmitXmlPageHeader cs blkno level).
Proof.
  unfold EmitXmlPageHeader, EmitXmlPageHeader_body, EmitXmlPageHeader_checks,
    EmitXmlPageHeader_fields, EmitXmlPageHeader_meta, EmitXmlPageHeader_item.
  raising.
Qed.

#[local] Hint Resolve raises_EmitXmlHeapTuple raises_EmitXmlIndexTuple
  raises_EmitXmlPageHeader : raisers.

Lemma raises_EmitXmlTuples blkno : keeps raises (EmitXmlTuples blkno).
Proof. unfold EmitXmlTuples, EmitXmlTuples_item. raising. Qed.

Lemma raises_EmitXmlSpecial blkno level :
  keeps raises (EmitXmlSpecial blkno level).
Proof. unfold EmitXmlSpecial. raising. Qed.

#[local] Hint Resolve raises_EmitXmlTuples raises_EmitXmlSpecial : raisers.

Lemma raises_EmitXmlPage cs blkno : keeps raises (EmitXmlPage cs blkno).
Proof. unfold EmitXmlPage. raising. Qed.

#[local] Hint Resolve raises_EmitXmlPage : raisers.

Lemma raises_EmitXmlFile_loop cs file initialRead :
  keeps raises (EmitXmlFile_loop cs file initialRead).
Proof.
  revert initialRead. induction file as [|block rest IH]; intros initialRead;
    simpl EmitXmlFile_loop; unfold fread; raising.
Qed.

#[local] Hint Resolve raises_EmitXmlFile_loop : raisers.

(** a call of [exit] comes with the exit code 1 *)
Definition exits_failing {A} (m : M A) : Prop :=
  forall g g', m g = Exit g' -> exitCode g' = 1.

Lemma exits_failing_total {A} (m : M A) :
  (forall g, exists a g', m g = Ret a g') -> exits_failing m.
Proof. intros H g g' E. destruct (H g) as (a & g1 & E1). congruence. Qed.

Lemma exits_failing_ret {A} (a : A) : exits_failing (ret a).
Proof. intros g g' E. discriminate. Qed.

Lemma exits_failing_get {A} (f : globals -> A) : exits_failing (get f).
Proof. intros g g' E. discriminate. Qed.

Lemma exits_failing_modify f : exits_failing (modify f).
Proof. intros g g' E. discriminate. Qed.

Lemma exits_failing_load n off : exits_failing (load n off).
Proof.
  intros g g' E. unfold load in E.
  destruct (peek n (buffer g) off); discriminate.
Qed.

Lemma exits_failing_strcat_into size built :
  exits_failing (strcat_into size built).
Proof.
  intros g g' E. unfold strcat_into in E.
  destruct (Z.of_nat (String.length built) + 1 <=? size); discriminate.
Qed.

Lemma exits_failing_exit {A} :
  exits_failing (modify (set_exitCode 1) ;; @exit A).
Proof. intros g g' E. injection E as <-. reflexivity. Qed.

Lemma exits_failing_bind {A B} (m : M A) (k : A -> M B) :
  exits_failing m -> (forall x, exits_failing (k x)) ->
  exits_failing (bind m k).
Proof.
  intros Hm Hk g g' E. unfold bind in E.
  destruct (m g) as [a g1 | g1 | g1] eqn:Em.
  - exact (Hk a g1 g' E).
  - injection E as <-. exact (Hm g g1 Em).
  - discriminate.
Qed.

Lemma exits_failing_andM a (b : M bool) :
  exits_failing b -> exits_failing (andM a b).
Proof. intros H. destruct a; [exact H | apply exits_failing_ret]. Qed.

Lemma exits_failing_for_offsets n offset (body : Z -> M unit) :
  (forall o, exits_failing (body o)) ->
  exits_failing (for_offsets n offset body).
Proof.
  intros H. revert offset. induction n as [|n IH]; intros offset; simpl.
  - apply exits_failing_ret.
  - apply exits_failing_bind; [apply H | intros _; apply IH].
Qed.

Create HintDb exiters.

Ltac exiting :=
  cbv zeta;
  repeat first
    [ apply exits_failing_ret
    | apply exits_failing_get
    | apply exits_failing_load
    | apply exits_failing_strcat_into
    | apply exits_failing_exit
    | solve [auto with exiters nocore]
    | match goal with
      | |- exits_failing (printf _) => apply exits_failing_modify
      | |- exits_failing (emit _ _ _ _) => apply exits_failing_modify
      | |- exits_failing (modify _) => apply exits_failing_modify
      end
    | apply exits_failing_bind; [| intros ?]
    | apply exits_failing_andM
    | apply exits_failing_for_offsets; intros ?
    | match goal with
      | |- exits_failing (if ?c then _ else _) => destruct c
      | |- exits_failing (match ?x with _ => _ end) => destruct x
      end ].

Lemma exits_failing_IsBtreeMetaPage : exits_failing IsBtreeMetaPage.
Proof.
  unfold IsBtreeMetaPage, PageGetSpecialSize, PageGetPageSize,
    pd_pagesize_version, pd_special.
  exiting.
Qed.

Lemma exits_failing_GetSpecialSectionType :
  exits_failing GetSpecialSectionType.
Proof. unfold GetSpecialSectionType, pd_special. exiting. Qed.

Lemma exits_failing_GetHeapTupleHeaderFlags htup isInfomask2 :
  exits_failing (GetHeapTupleHeaderFlags htup isInfomask2).
Proof. unfold GetHeapTupleHeaderFlags. exiting. Qed.

#[local] Hint Resolve exits_failing_IsBtreeMetaPage
  exits_failing_GetSpecialSectionType exits_failing_GetHeapTupleHeaderFlags
  : exiters.

Lemma exits_failing_EmitXmlHeapTuple blkno offset htup relfileOff itemSize :
  exits_failing (EmitXmlHeapTuple blkno offset htup relfileOff itemSize).
Proof. unfold EmitXmlHeapTuple, EmitXmlTupleTag. exiting. Qed.

Lemma exits_failing_EmitXmlIndexTuple blkno offset tuple relfileOff :
  exits_failing (EmitXmlIndexTuple blkno offset tuple relfileOff).
Proof. unfold EmitXmlIndexTuple, EmitXmlTupleTag. exiting. Qed.

Lemma exits_failing_EmitXmlPageHeader cs blkno level :
  exits_failing (EmitXmlPageHeader cs blkno level).
Proof.
  unfold EmitXmlPageHeader, EmitXmlPageHeader_body, EmitXmlPageHeader_checks,
    EmitXmlPageHeader_fields, EmitXmlPageHeader_meta, EmitXmlPageHeader_item,
    EmitXmlTag, EmitXmlItemId, PageGetMaxOffsetNumber,
    PageGetPageLayoutVersion, PageGetItemId, pd_special, pd_lower, pd_upper,
    pd_flags, pd_checksum, pd_pagesize_version.
  exiting.
Qed.

#[local] Hint Resolve exits_failing_EmitXmlHeapTuple
  exits_failing_EmitXmlIndexTuple exits_failing_EmitXmlPageHeader : exiters.

Lemma exits_failing_EmitXmlTuples blkno : exits_failing (EmitXmlTuples blkno).
Proof.
  unfold EmitXmlTuples, EmitXmlTuples_item, PageGetMaxOffsetNumber,
    PageGetItemId, pd_lower.
  exiting.
Qed.

Lemma exits_failing_EmitXmlSpecial blkno level :
  exits_failing (EmitXmlSpecial blkno level).
Proof. unfold EmitXmlSpecial, EmitXmlTag, pd_special. exiting. Qed.

#[local] Hint Resolve exits_failing_EmitXmlTuples exits_failing_EmitXmlSpecial
  : exiters.

Lemma exits_failing_EmitXmlPage cs blkno :
  exits_failing (EmitXmlPage cs blkno).
Proof. unfold EmitXmlPage, EmitXmlTag, pd_special. exiting. Qed.

#[local] Hint Resolve exits_failing_EmitXmlPage : exiters.

Lemma exits_failing_EmitXmlFile_loop cs file initialRead :
  exits_failing (EmitXmlFile_loop cs file initialRead).
Proof.
  revert initialRead. induction file as [|block rest IH]; intros initialRead;
    simpl EmitXmlFile_loop; unfold fread; exiting.
Qed.

#[local] Hint Resolve exits_failing_EmitXmlFile_loop : exiters.

(** the exit code over the run of a file *)
Lemma EmitXmlFile_raises cs file fseek_fails g :
  raises g (final (EmitXmlFile cs file fseek_fails g)) /\
  (forall g', EmitXmlFile cs file fseek_fails g = Exit g' -> exitCode g' = 1).
Proof.
  split.
  - revert g. change (keeps raises (EmitXmlFile cs file fseek_fails)).
    unfold EmitXmlFile. raising.
  - revert g.
    change (exits_failing (EmitXmlFile cs file fseek_fails)).
    unfold EmitXmlFile. exiting.
Qed.

(** X12: Over the run of a file the exit code is only ever raised to 1: a
    failure recorded for one block is not cleared by a later block, and a
    run that starts with exit code 0 ends with 0 or 1.  Whenever the run is
    stopped by [exit], the exit code is 1. *)
Theorem EmitXmlFile_exit_code cs file fseek_fails g :
  raises g (final (EmitXmlFile cs file fseek_fails g)) /\
  (forall g', EmitXmlFile cs file fseek_fails g = Exit g' -> exitCode g' = 1).
Proof. exact (EmitXmlFile_raises cs file fseek_fails g). Qed.

(* ================================================================== *)
(** ** What is written over a run *)

(** [writes P g g']: the output of [g'] is the output of [g] followed by
    lines and tags that all satisfy [P] *)
Definition writes (P : output -> Prop) (g g' : globals) : Prop :=
  exists new, stdout g' = stdout g ++ new /\ Forall P new.

Lemma writes_refl P g : writes P g g.
Proof. exists []. split; [symmetry; apply app_nil_r | constructor]. Qed.

Lemma writes_trans P a b c : writes P a b -> writes P b c -> writes P a c.
Proof.
  intros (n1 & S1 & F1) (n2 & S2 & F2). exists (n1 ++ n2).
  split; [rewrite S2, S1, app_assoc; reflexivity|].
  apply Forall_app. split; assumption.
Qed.

Lemma writes_one P (o : output) (f : globals -> globals) :
  (forall g, stdout (f g) = stdout g ++ [o]) -> P o ->
  keeps (writes P) (modify f).
Proof.
  intros Hf Ho g. exists [o]. split; [apply Hf | repeat constructor; exact Ho].
Qed.

Lemma writes_none P (f : globals -> globals) :
  (forall g, stdout (f g) = stdout g) -> keeps (writes P) (modify f).
Proof.
  intros Hf g. exists []. split; [cbn; rewrite Hf, app_nil_r; reflexivity|].
  constructor.
Qed.

(** [solveP] proves [P] of the line or tag that is written *)
Ltac writes_known solveP :=
  first [ apply (keeps_eq _ (writes_refl _));
          solve [auto with readers nocore]
        | match goal with
          | |- keeps (writes ?P) (printf ?m) =>
              apply (writes_one P (OutMsg m) (say m));
              [intros ?; reflexivity | solveP]
          | |- keeps (writes ?P) (emit ?s ?e ?tx ?c) =>
              intros ?; eexists; split; [reflexivity|];
              repeat constructor; solveP
          | |- keeps (writes ?P) (modify ?f) =>
              apply (writes_none P f); intros ?; reflexivity
          end ].

(** *** The footer *)

Definition not_footer (o : output) : Prop := o <> OutMsg MsgFooter.

Create HintDb writers.

Ltac writing :=
  keeps_with (writes_refl not_footer) (writes_trans not_footer)
    ltac:(first [ solve [auto with writers nocore]
                | writes_known ltac:(unfold not_footer; discriminate) ]).

Lemma unfinished_GetHeapTupleHeaderFlags htup isInfomask2 :
  keeps (writes not_footer) (GetHeapTupleHeaderFlags htup isInfomask2).
Proof. unfold GetHeapTupleHeaderFlags. writing. Qed.

#[local] Hint Resolve unfinished_GetHeapTupleHeaderFlags : writers.

Lemma unfinished_EmitXmlHeapTuple blkno offset htup relfileOff itemSize :
  keeps (writes not_footer)
    (EmitXmlHeapTuple blkno offset htup relfileOff itemSize).
Proof. unfold EmitXmlHeapTuple, EmitXmlTupleTag. writing. Qed.

Lemma unfinished_EmitXmlIndexTuple blkno offset tuple relfileOff :
  keeps (writes not_footer) (EmitXmlIndexTuple blkno offset tuple relfileOff).
Proof. unfold EmitXmlIndexTuple, EmitXmlTupleTag. writing. Qed.

Lemma unfinished_EmitXmlPageHeader cs blkno level :
  keeps (writes not_footer) (EmitXmlPageHeader cs blkno level).
Proof.
  unfold EmitXmlPageHeader, EmitXmlPageHeader_body, EmitXmlPageHeader_checks,
    EmitXmlPageHeader_fields, EmitXmlPageHeader_meta, EmitXmlPageHeader_item,
    EmitXmlTag, EmitXmlItemId.
  writing.
Qed.

#[local] Hint Resolve unfinished_EmitXmlHeapTuple
  unfinished_EmitXmlIndexTuple unfinished_EmitXmlPageHeader : writers.

Lemma unfinished_EmitXmlTuples blkno :
  keeps (writes not_footer) (EmitXmlTuples blkno).
Proof. unfold EmitXmlTuples, EmitXmlTuples_item. writing. Qed.

Lemma unfinished_EmitXmlSpecial blkno level :
  keeps (writes not_footer) (EmitXmlSpecial blkno level).
Proof. unfold EmitXmlSpecial, EmitXmlTag. writing. Qed.

#[local] Hint Resolve unfinished_EmitXmlTuples unfinished_EmitXmlSpecial
  : writers.

Lemma unfinished_EmitXmlPage cs blkno :
  keeps (writes not_footer) (EmitXmlPage cs blkno).
Proof. unfold EmitXmlPage, EmitXmlTag. writing. Qed.

#[local] Hint Resolve unfinished_EmitXmlPage : writers.

Lemma unfinished_EmitXmlFile_loop cs file initialRead :
  keeps (writes not_footer) (EmitXmlFile_loop cs file initialRead).
Proof.
  revert initialRead. induction file as [|block rest IH]; intros initialRead;
    simpl EmitXmlFile_loop; unfold fread; writing.
Qed.

(** the footer is the last thing a run that returns writes *)
Lemma EmitXmlFile_closes cs file fseek_fails g :
  exists new,
    Forall not_footer new /\
    stdout (final (EmitXmlFile cs file fseek_fails g)) =
      stdout g ++ new
      ++ match EmitXmlFile cs file fseek_fails g with
         | Ret _ _ => [OutMsg MsgFooter]
         | _ => []
         end.
Proof.
  unfold EmitXmlFile.
  rewrite bind_Ret with (a := blockOptions g) (g' := g) by reflexivity.
  rewrite bind_Ret with (a := blockStart g) (g' := g) by reflexivity.
  set (body := if bit_set (blockOptions g) BLOCK_RANGE then _ else _).
  assert (K : keeps (writes not_footer) body).
  { unfold body. pose proof (unfinished_EmitXmlFile_loop cs) as L.
    keeps_with (writes_refl not_footer) (writes_trans not_footer)
      ltac:(first [ apply L
                  | writes_known ltac:(unfold not_footer; discriminate) ]). }
  destruct (K g) as (new & Hout & Hnew). exists new. split; [exact Hnew|].
  unfold bind. destruct (body g) as [[] g1 | g1 | g1]; cbn [final] in *.
  - unfold printf, modify. mstate. rewrite Hout, app_assoc. reflexivity.
  - rewrite app_nil_r. exact Hout.
  - rewrite app_nil_r. exact Hout.
Qed.

(** X13: [EmitXmlFile] writes the footer that closes the XML document exactly
    once, as the last thing it writes, when it returns; when the run is
    stopped by [exit] (or by a read outside the buffer) no footer is
    written, and the document is left open. *)
Theorem EmitXmlFile_footer cs file fseek_fails g :
  exists new,
    Forall not_footer new /\
    stdout (final (EmitXmlFile cs file fseek_fails g)) =
      stdout g ++ new
      ++ match EmitXmlFile cs file fseek_fails g with
         | Ret _ _ => [OutMsg MsgFooter]
         | _ => []
         end.
Proof. exact (EmitXmlFile_closes cs file fseek_fails g). Qed.

(** *** The block numbers the tags carry *)

(** the block number in the text of a tag *)
Definition tag_blkno (t : TAG) : Z :=
  match text t with
  | BlockText blkno _ _ => blkno
  | TupleText blkno _ _ => blkno
  | ItemIdText blkno _ _ _ _ => blkno
  end.

(** every tag written carries a block number that satisfies [P] *)
Definition blocks (P : Z -> Prop) (o : output) : Prop :=
  match o with
  | OutTag t => P (tag_blkno t)
  | OutMsg _ => True
  end.

Lemma writes_weaken (P Q : output -> Prop) a b :
  (forall o, P o -> Q o) -> writes P a b -> writes Q a b.
Proof.
  intros H (new & S & F). exists new. split; [exact S|].
  revert F. apply Forall_impl. exact H.
Qed.

Lemma writes_tags (P : Z -> Prop) g g' :
  writes (blocks P) g g' ->
  exists new,
    tags_of (stdout g') = tags_of (stdout g) ++ new /\
    Forall (fun t => P (tag_blkno t)) new.
Proof.
  intros (new & S & F). exists (tags_of new).
  split; [rewrite S; apply tags_of_app|]. clear S.
  induction F as [|o l H1 H2 IH]; cbn [tags_of]; [constructor|].
  destruct o as [t|m]; [constructor; [exact H1 | exact IH] | exact IH].
Qed.

Create HintDb labellers.

Ltac labelling b :=
  keeps_with (writes_refl (blocks (eq b))) (writes_trans (blocks (eq b)))
    ltac:(first [ solve [auto with labellers nocore]
                | writes_known ltac:(exact I) ]).

Lemma labels_GetHeapTupleHeaderFlags b htup isInfomask2 :
  keeps (writes (blocks (eq b))) (GetHeapTupleHeaderFlags htup isInfomask2).
Proof. unfold GetHeapTupleHeaderFlags. labelling b. Qed.

#[local] Hint Resolve labels_GetHeapTupleHeaderFlags : labellers.

Lemma labels_EmitXmlHeapTuple blkno offset htup relfileOff itemSize :
  keeps (writes (blocks (eq blkno)))
    (EmitXmlHeapTuple blkno offset htup relfileOff itemSize).
Proof. unfold EmitXmlHeapTuple, EmitXmlTupleTag. labelling blkno. Qed.

Lemma labels_EmitXmlIndexTuple blkno offset tuple relfileOff :
  keeps (writes (blocks (eq blkno)))
    (EmitXmlIndexTuple blkno offset tuple relfileOff).
Proof. unfold EmitXmlIndexTuple, EmitXmlTupleTag. labelling blkno. Qed.

Lemma labels_EmitXmlPageHeader cs blkno level :
  keeps (writes (blocks (eq blkno))) (EmitXmlPageHeader cs blkno level).
Proof.
  unfold EmitXmlPageHeader, EmitXmlPageHeader_body, EmitXmlPageHeader_checks,
    EmitXmlPageHeader_fields, EmitXmlPageHeader_meta, EmitXmlPageHeader_item,
    EmitXmlTag, EmitXmlItemId.
  labelling blkno.
Qed.

#[local] Hint Resolve labels_EmitXmlHeapTuple labels_EmitXmlIndexTuple
  labels_EmitXmlPageHeader : labellers.

Lemma labels_EmitXmlTuples blkno :
  keeps (writes (blocks (eq blkno))) (EmitXmlTuples blkno).
Proof. unfold EmitXmlTuples, EmitXmlTuples_item. labelling blkno. Qed.

Lemma labels_EmitXmlSpecial blkno level :
  keeps (writes (blocks (eq blkno))) (EmitXmlSpecial blkno level).
Proof. unfold EmitXmlSpecial, EmitXmlTag. labelling blkno. Qed.

#[local] Hint Resolve labels_EmitXmlTuples labels_EmitXmlSpecial : labellers.

Lemma labels_EmitXmlPage cs blkno :
  keeps (writes (blocks (eq blkno))) (EmitXmlPage cs blkno).
Proof. unfold EmitXmlPage, EmitXmlTag. labelling blkno. Qed.

Lemma bind_Fault {A B} (m : M A) (k : A -> M B) (g g' : globals) :
  m g = Fault g' -> bind m k g = Fault g'.
Proof. intros H. unfold bind. rewrite H. reflexivity. Qed.

(** the block numbers of a loop that starts at block [lo] of a file
    with [n] blocks left, under a range that ends with block [last] when
    [range] is set *)
Definition block_bounds (lo n : Z) (range : bool) (last : Z) (b : Z) : Prop :=
  lo <= b < lo + n /\ (range = true -> b <= Z.max lo last).

Lemma writes_silent P a b : stdout b = stdout a -> writes P a b.
Proof.
  intros H. exists []. split; [rewrite H, app_nil_r; reflexivity | constructor].
Qed.

Lemma EmitXmlFile_loop_blocks cs file :
  forall initialRead g,
    0 <= currentBlock g ->
    currentBlock g + Z.of_nat (List.length file) < 4294967296 ->
    writes
      (blocks (block_bounds (currentBlock g) (Z.of_nat (List.length file))
                 (bit_set (blockOptions g) BLOCK_RANGE) (u32 (blockEnd g))))
      g (final (EmitXmlFile_loop cs file initialRead g)).
Proof.
  induction file as [|block rest IH]; intros initialRead g Hlo Hhi.
  - (* nothing left to read *)
    simpl EmitXmlFile_loop. unfold fread. mred. mstate.
    rewrite firstn_nil. cbn [List.length app skipn Z.of_nat Z.eqb].
    destruct initialRead; mred; mstate.
    + eexists. unfold say. mstate. split; [reflexivity|].
      repeat constructor.
    + apply writes_silent. reflexivity.
  - set (P := blocks _).
    set (g1 := set_bytesToFormat
                 (Z.of_nat (List.length (firstn (Z.to_nat (blockSize g)) block)))
                 (set_buffer
                    (firstn (Z.to_nat (blockSize g)) block
                     ++ skipn (List.length
                                 (firstn (Z.to_nat (blockSize g)) block))
                          (buffer g)) g)).
    assert (W1 : writes P g g1) by (apply writes_silent; reflexivity).
    simpl EmitXmlFile_loop.
    rewrite bind_Ret with (a := tt) (g' := g1) by reflexivity.
    rewrite bind_Ret with (a := bytesToFormat g1) (g' := g1) by reflexivity.
    destruct (bytesToFormat g1 =? 0).
    { apply (writes_trans P _ g1 _ W1).
      destruct initialRead; mred; mstate.
      - eexists. unfold say. mstate. split; [reflexivity|].
        repeat constructor.
      - apply writes_silent. reflexivity. }
    rewrite bind_Ret with (a := currentBlock g1) (g' := g1) by reflexivity.
    change (currentBlock g1) with (currentBlock g).
    pose proof (labels_EmitXmlPage cs (currentBlock g) g1) as L.
    pose proof (steady_EmitXmlPage cs (currentBlock g) g1) as St.
    assert (Hsub : forall o,
              blocks (eq (currentBlock g)) o -> P o).
    { intros [t|m] Ho; [|exact I]. cbn in Ho. unfold P. cbn.
      rewrite <- Ho. unfold block_bounds. cbn [List.length].
      split; [lia|]. intros _. lia. }
    apply (writes_weaken _ P _ _ Hsub) in L.
    pose proof (writes_trans P _ _ _ W1 L) as W2.
    destruct (EmitXmlPage cs (currentBlock g) g1) as [[] g2 | g2 | g2] eqn:E;
      cbn [final] in L, St, W2;
      [| rewrite (bind_Exit _ _ _ _ E); exact W2
       | rewrite (bind_Fault _ _ _ _ E); exact W2].
    rewrite (bind_Ret _ _ _ _ _ E).
    rewrite bind_Ret with (a := blockOptions g2) (g' := g2) by reflexivity.
    rewrite bind_Ret with (a := currentBlock g2) (g' := g2) by reflexivity.
    rewrite bind_Ret with (a := blockEnd g2) (g' := g2) by reflexivity.
    destruct St as (_ & Hbe & Hopt & _ & _ & Hcur & _).
    change (blockEnd g1) with (blockEnd g) in Hbe.
    change (blockOptions g1) with (blockOptions g) in Hopt.
    change (currentBlock g1) with (currentBlock g) in Hcur.
    rewrite Hbe, Hopt, Hcur.
    destruct (bit_set (blockOptions g) BLOCK_RANGE
              && (u32 (blockEnd g) <=? currentBlock g)) eqn:Estop;
      [exact W2|].
    set (g3 := set_currentBlock (u32 (currentBlock g2 + 1)) g2).
    rewrite bind_Ret with (a := tt) (g' := g3) by reflexivity.
    assert (Hcur3 : currentBlock g3 = currentBlock g + 1).
    { unfold g3. mstate. rewrite Hcur. apply u32_small.
      cbn [List.length] in Hhi. lia. }
    assert (W3 : writes P g2 g3) by (apply writes_silent; reflexivity).
    apply (writes_trans P _ g3 _ (writes_trans P _ _ _ W2 W3)).
    specialize (IH false g3).
    rewrite Hcur3 in IH.
    change (blockOptions g3) with (blockOptions g2) in IH.
    change (blockEnd g3) with (blockEnd g2) in IH.
    rewrite Hopt, Hbe in IH.
    cbn [List.length] in Hhi.
    apply (writes_weaken _ P _ _) in IH; [exact IH | | lia | lia].
    intros [t|m] Ho; [|exact I]. unfold P. cbn in Ho |- *.
    unfold block_bounds in *. cbn [List.length].
    destruct Ho as (Hb & Hr). split; [lia|].
    intros Hrange. specialize (Hr Hrange). rewrite Hrange in Estop.
    cbn [andb] in Estop. apply Z.leb_gt in Estop. lia.
Qed.

Lemma writes_then_footer P {A} (m : M A) g :
  writes (blocks P) g (final (m g)) ->
  writes (blocks P) g (final (bind m (fun _ => printf MsgFooter) g)).
Proof.
  intros W. unfold bind. destruct (m g) as [a g1 | g1 | g1]; cbn [final] in *;
    [|exact W | exact W].
  apply (writes_trans _ _ g1 _ W).
  exists [OutMsg MsgFooter]. split; [reflexivity | repeat constructor].
Qed.

(** X14: The tags of a run carry the numbers of the blocks that were read.
    Without a block range, a run that starts at block [currentBlock] (0 in
    [main]) over a file of [n] blocks numbers its tags from that block up
    to the last block of the file.  With a block range that starts within
    what an [unsigned int] can address, every tag carries a block number
    of the range, and of the file; nothing is written for a block outside
    the range. *)
Theorem EmitXmlFile_block_numbers cs file fseek_fails g :
  (bit_set (blockOptions g) BLOCK_RANGE = false ->
   0 <= currentBlock g ->
   currentBlock g + Z.of_nat (List.length file) < 4294967296 ->
   exists new,
     tags_of (stdout (final (EmitXmlFile cs file fseek_fails g)))
       = tags_of (stdout g) ++ new /\
     Forall (fun t => currentBlock g <= tag_blkno t
                      < currentBlock g + Z.of_nat (List.length file)) new)
  /\
  (bit_set (blockOptions g) BLOCK_RANGE = true ->
   0 <= blockStart g <= blockEnd g ->
   blockEnd g < 4294967296 ->
   blockSize g * blockStart g < 4294967296 ->
   Z.of_nat (List.length file) < 4294967296 ->
   exists new,
     tags_of (stdout (final (EmitXmlFile cs file fseek_fails g)))
       = tags_of (stdout g) ++ new /\
     Forall (fun t => blockStart g <= tag_blkno t <= blockEnd g /\
                      tag_blkno t < Z.of_nat (List.length file)) new).
Proof.
  split.
  - intros Hrange Hlo Hhi.
    apply (writes_tags
             (fun b => currentBlock g <= b
                       < currentBlock g + Z.of_nat (List.length file))).
    unfold EmitXmlFile.
    rewrite bind_Ret with (a := blockOptions g) (g' := g) by reflexivity.
    rewrite bind_Ret with (a := blockStart g) (g' := g) by reflexivity.
    rewrite Hrange. apply writes_then_footer.
    pose proof (EmitXmlFile_loop_blocks cs file true g Hlo Hhi) as W.
    revert W. apply writes_weaken.
    intros [t|m] Ho; [|exact I]. cbn in Ho |- *.
    destruct Ho as (Hb & _). exact Hb.
  - intros Hrange Hse Hend Hpos Hlen.
    apply (writes_tags
             (fun b => blockStart g <= b <= blockEnd g /\
                       b < Z.of_nat (List.length file))).
    unfold EmitXmlFile.
    rewrite bind_Ret with (a := blockOptions g) (g' := g) by reflexivity.
    rewrite bind_Ret with (a := blockStart g) (g' := g) by reflexivity.
    rewrite Hrange. apply writes_then_footer.
    destruct fseek_fails.
    + mred. mstate. eexists. unfold say. mstate.
      split; [reflexivity | repeat constructor].
    + set (g0 := set_currentBlock (u32 (blockStart g)) g).
      rewrite bind_Ret with (a := tt) (g' := g0) by reflexivity.
      assert (Hcur : currentBlock g0 = blockStart g)
        by (unfold g0; mstate; apply u32_small; lia).
      pose proof (length_skipn (Z.to_nat (blockStart g)) file) as Hskip.
      pose proof (EmitXmlFile_loop_blocks cs
                    (skipn (Z.to_nat (blockStart g)) file) true g0) as W.
      rewrite Hcur in W.
      change (blockOptions g0) with (blockOptions g) in W.
      change (blockEnd g0) with (blockEnd g) in W.
      rewrite Hrange in W.
      apply (writes_trans _ _ g0);
        [apply writes_silent; reflexivity|].
      specialize (W ltac:(lia) ltac:(lia)).
      revert W. apply writes_weaken.
      intros [t|m] Ho; [|exact I]. cbn in Ho |- *.
      destruct Ho as (Hb & Hr). specialize (Hr eq_refl).
      rewrite u32_small in Hr by lia. lia.
Qed.

(* ================================================================== *)
(** ** A run without a block to read *)

(** X15: When [fseek] to the start of a block range fails, [EmitXmlFile]
    reports the seek error, sets the exit code to 1, reads nothing and
    closes the document.  When the first [fread] delivers nothing, because
    the file is empty or because the range starts past its end (which
    [fseek] does not report; the position is one that an [unsigned int]
    holds), it reports the premature end of the file and
    closes the document, and the exit code stays as it was.  No tag is
    written in either case. *)
Theorem EmitXmlFile_nothing_to_read cs file g :
  (bit_set (blockOptions g) BLOCK_RANGE = true ->
   EmitXmlFile cs file true g =
     Ret tt (say MsgFooter (set_exitCode 1 (say (ErrSeek (blockStart g)) g))))
  /\
  (bit_set (blockOptions g) BLOCK_RANGE = false ->
   file = [] ->
   forall fseek_fails,
   exists g',
     EmitXmlFile cs file fseek_fails g = Ret tt g' /\
     stdout g' = stdout g ++ [OutMsg ErrPrematureEof; OutMsg MsgFooter] /\
     exitCode g' = exitCode g /\
     tagNumber g' = tagNumber g)
  /\
  (bit_set (blockOptions g) BLOCK_RANGE = true ->
   Z.of_nat (List.length file) <= blockStart g ->
   blockSize g * blockStart g < 4294967296 ->
   exists g',
     EmitXmlFile cs file false g = Ret tt g' /\
     stdout g' = stdout g ++ [OutMsg ErrPrematureEof; OutMsg MsgFooter] /\
     exitCode g' = exitCode g /\
     tagNumber g' = tagNumber g).
Proof.
  split; [|split].
  - intros Hrange. unfold EmitXmlFile. mred. rewrite Hrange. reflexivity.
  - intros Hrange -> fseek_fails. unfold EmitXmlFile. mred. rewrite Hrange.
    simpl EmitXmlFile_loop. unfold fread. mred. mstate.
    rewrite firstn_nil. cbn [List.length app skipn Z.of_nat Z.eqb].
    mred. mstate. eexists. split; [reflexivity|]. unfold say. mstate.
    rewrite <- app_assoc. repeat split.
  - intros Hrange Hpast _. unfold EmitXmlFile. mred. rewrite Hrange. mstate.
    rewrite skipn_all2 by lia.
    simpl EmitXmlFile_loop. unfold fread. mred. mstate.
    rewrite firstn_nil. cbn [List.length app skipn Z.of_nat Z.eqb].
    mred. mstate. eexists. split; [reflexivity|]. unfold say. mstate.
    rewrite <- app_assoc. repeat split.
Qed.

(* ================================================================== *)
(** ** The block size, the buffer and the states of a run *)

Lemma page_size_of_range pv :
  page_size_of pv mod 256 = 0 /\ 0 <= page_size_of pv <= 65280.
Proof.
  unfold page_size_of.
  assert (E : Z.land pv 65280 = Z.land (Z.shiftr pv 8) 255 * 2 ^ 8).
  { rewrite <- Z.shiftl_mul_pow2 by lia.
    apply Z.bits_inj'. intros n Hn.
    rewrite Z.land_spec. change 65280 with (Z.shiftl 255 8).
    destruct (Z_lt_le_dec n 8) as [Hlt|Hge].
    - rewrite !Z.shiftl_spec_low by lia. apply andb_false_r.
    - rewrite !Z.shiftl_spec by lia.
      rewrite Z.land_spec, Z.shiftr_spec by lia.
      replace (n - 8 + 8) with n by lia. reflexivity. }
  rewrite E.
  assert (R : 0 <= Z.land (Z.shiftr pv 8) 255 < 256).
  { change 255 with (Z.ones 8). rewrite Z.land_ones by lia.
    apply Z.mod_pos_bound. lia. }
  change (2 ^ 8) with 256.
  split; [apply Z.mod_mul; lia | lia].
Qed.

(** what [main] sets up before it runs the loop over the blocks: a block
    size as [GetBlockSize] returns it and a buffer of that size *)
Definition buffer_ready (g : globals) : Prop :=
  blockSize g mod 256 = 0 /\
  0 < blockSize g <= 65280 /\
  Z.of_nat (List.length (buffer g)) = blockSize g.

(** the two ways [GetBlockSize] ends *)
Lemma GetBlockSize_cases head g :
  exists size g',
    GetBlockSize head g = Ret size g' /\
    size mod 256 = 0 /\ 0 <= size <= 65280 /\
    (Z.of_nat (List.length head) = PG.sizeof_PageHeaderData ->
     g' = g /\
     exists pv,
       peek 2 head PG.off_pd_pagesize_version = Some pv /\
       size = page_size_of pv) /\
    (Z.of_nat (List.length head) <> PG.sizeof_PageHeaderData ->
     size = 0 /\
     g' = set_exitCode 1
            (say (ErrReadBlock0 (Z.of_nat (List.length head))) g)).
Proof.
  unfold GetBlockSize. cbv zeta.
  destruct (Z.of_nat (List.length head) =? PG.sizeof_PageHeaderData) eqn:E.
  - apply Z.eqb_eq in E.
    destruct (peek_Some 2 head PG.off_pd_pagesize_version)
      as (pv & Hpv & Rpv);
      [unfold PG.off_pd_pagesize_version; lia
      | rewrite E; unfold PG.off_pd_pagesize_version,
          PG.sizeof_PageHeaderData; simpl Z.of_nat; lia |].
    rewrite Hpv. exists (page_size_of pv), g.
    destruct (page_size_of_range pv) as (H1 & H2).
    split; [reflexivity|]. split; [exact H1|]. split; [exact H2|].
    split; [|intros N; contradiction].
    intros _. split; [reflexivity|]. exists pv. split; reflexivity.
  - apply Z.eqb_neq in E. eexists. eexists. split; [reflexivity|].
    split; [reflexivity|]. split; [lia|].
    split; [intros H; contradiction|]. intros _. split; reflexivity.
Qed.

(** X16: [GetBlockSize] returns the page size field of the header of block 0,
    a multiple of 256 up to 65280, and touches nothing, when the 24 bytes
    of a page header could be read; otherwise it reports how many bytes were
    read, sets the exit code to 1 and returns 0. *)
Theorem GetBlockSize_result head g :
  exists size g',
    GetBlockSize head g = Ret size g' /\
    size mod 256 = 0 /\ 0 <= size <= 65280 /\
    (Z.of_nat (List.length head) = PG.sizeof_PageHeaderData ->
     g' = g /\
     exists pv,
       peek 2 head PG.off_pd_pagesize_version = Some pv /\
       size = page_size_of pv) /\
    (Z.of_nat (List.length head) <> PG.sizeof_PageHeaderData ->
     size = 0 /\
     g' = set_exitCode 1
            (say (ErrReadBlock0 (Z.of_nat (List.length head))) g)).
Proof. exact (GetBlockSize_cases head g). Qed.

(** X17: [fread] copies what is left of the file, up to a block, to the front
    of the buffer: with the block size and the buffer that [main] sets up,
    the state it leaves is a state of a run, with as many bytes to format
    as were read and these bytes at the front of the buffer.  The decoding
    of a block and the loop over the blocks keep the block size and the
    size of the buffer, so that every block is decoded in a state of a
    run. *)
Theorem fread_run_state cs :
  (forall block g,
     buffer_ready g ->
     exists g',
       fread block g = Ret tt g' /\
       run_state g' /\
       bytesToFormat g' = Z.min (Z.of_nat (List.length block)) (blockSize g) /\
       firstn (Z.to_nat (bytesToFormat g')) (buffer g')
         = firstn (Z.to_nat (blockSize g)) block)
  /\
  (forall blkno g,
     buffer_ready g -> buffer_ready (final (EmitXmlPage cs blkno g)))
  /\
  (forall file initialRead g,
     buffer_ready g ->
     buffer_ready (final (EmitXmlFile_loop cs file initialRead g))).
Proof.
  assert (Hfread : forall block g,
     buffer_ready g ->
     exists g',
       fread block g = Ret tt g' /\
       run_state g' /\
       bytesToFormat g' = Z.min (Z.of_nat (List.length block)) (blockSize g) /\
       firstn (Z.to_nat (bytesToFormat g')) (buffer g')
         = firstn (Z.to_nat (blockSize g)) block).
  { intros block g (Hmod & Hbs & Hlen).
    unfold fread. mred. mstate.
    eexists. split; [reflexivity|]. mstate.
    set (data := firstn (Z.to_nat (blockSize g)) block).
    assert (Hdata : List.length data
                    = Nat.min (Z.to_nat (blockSize g)) (List.length block))
      by apply length_firstn.
    split; [|split].
    - unfold run_state. mstate. split; [exact Hmod|]. split; [exact Hbs|].
      split; [|lia].
      rewrite length_app, length_skipn. lia.
    - lia.
    - rewrite Nat2Z.id. rewrite firstn_app, Nat.sub_diag, firstn_all.
      cbn [firstn]. apply app_nil_r. }
  assert (Hpage : forall blkno g,
     buffer_ready g -> buffer_ready (final (EmitXmlPage cs blkno g))).
  { intros blkno g (Hmod & Hbs & Hlen).
    destruct (steady_EmitXmlPage cs blkno g)
      as (_ & _ & _ & Hbuf & Hsize & _).
    unfold buffer_ready. rewrite Hbuf, Hsize. repeat split; tauto || lia. }
  split; [exact Hfread|]. split; [exact Hpage|].
  induction file as [|block rest IH]; intros initialRead g Hg.
  - simpl EmitXmlFile_loop.
    destruct (Hfread [] g Hg) as (g1 & Hrun1 & R1 & Hb1 & _).
    rewrite (bind_Ret _ _ _ _ _ Hrun1). mred.
    cbn [List.length Z.of_nat] in Hb1.
    replace (bytesToFormat g1 =? 0) with true
      by (symmetry; apply Z.eqb_eq; destruct Hg; lia).
    destruct R1 as (H1 & H2 & H3 & _).
    destruct initialRead; mstate; unfold buffer_ready; mstate; tauto.
  - simpl EmitXmlFile_loop.
    destruct (Hfread block g Hg) as (g1 & Hrun1 & R1 & _).
    assert (Hg1 : buffer_ready g1) by (unfold run_state in R1;
                                       unfold buffer_ready; tauto).
    rewrite (bind_Ret _ _ _ _ _ Hrun1).
    rewrite bind_Ret with (a := bytesToFormat g1) (g' := g1) by reflexivity.
    destruct (bytesToFormat g1 =? 0).
    { destruct initialRead; mred; mstate; unfold buffer_ready; mstate;
        exact Hg1. }
    rewrite bind_Ret with (a := currentBlock g1) (g' := g1) by reflexivity.
    pose proof (Hpage (currentBlock g1) g1 Hg1) as Hg2.
    destruct (EmitXmlPage cs (currentBlock g1) g1) as [[] g2 | g2 | g2] eqn:E;
      cbn [final] in Hg2;
      [| rewrite (bind_Exit _ _ _ _ E); exact Hg2
       | rewrite (bind_Fault _ _ _ _ E); exact Hg2].
    rewrite (bind_Ret _ _ _ _ _ E). mred.
    destruct (bit_set (blockOptions g2) BLOCK_RANGE
              && (u32 (blockEnd g2) <=? currentBlock g2));
      [exact Hg2|].
    apply IH. exact Hg2.
Qed.

(* ================================================================== *)
(** ** Where the tags of a block start *)

Lemma final_bind {A B} (m : M A) (k : A -> M B) g :
  final (bind m k g) =
  match m g with
  | Ret a g1 => final (k a g1)
  | Exit g1 => g1
  | Fault g1 => g1
  end.
Proof. unfold bind. destruct (m g); reflexivity. Qed.

(** the first tag written between [g] and [g'] carries the block number
    [b] and starts at [off] *)
Definition first_tag_at (b off : Z) (g g' : globals) : Prop :=
  exists t rest,
    tags_of (stdout g') = tags_of (stdout g) ++ t :: rest /\
    start_offset t = off /\ tag_blkno t = b.

Lemma first_tag_from b off g g1 g' :
  stdout g1 = stdout g -> first_tag_at b off g1 g' -> first_tag_at b off g g'.
Proof. intros E (t & rest & S & H). exists t, rest. rewrite <- E. tauto. Qed.

Lemma first_tag_then b off g g1 g2 :
  first_tag_at b off g g1 -> emits g1 g2 -> first_tag_at b off g g2.
Proof.
  intros (t & rest & S & H1 & H2) (new & S2 & _).
  exists t, (rest ++ tags_of new).
  rewrite S2, tags_of_app, S, <- app_assoc. repeat split; assumption.
Qed.

Lemma first_tag_bind b off {A B} (m : M A) (k : A -> M B) g :
  first_tag_at b off g (final (m g)) ->
  (forall x, keeps emits (k x)) ->
  first_tag_at b off g (final (bind m k g)).
Proof.
  intros H K. rewrite final_bind.
  destruct (m g) as [a g1 | g1 | g1]; cbn [final] in H; [|exact H | exact H].
  exact (first_tag_then _ _ _ _ _ H (K a g1)).
Qed.

Lemma first_tag_after b off {A B} (m : M A) (k : A -> M B) g a g1 :
  m g = Ret a g1 ->
  tags_of (stdout g1) = tags_of (stdout g) ->
  first_tag_at b off g1 (final (k a g1)) ->
  first_tag_at b off g (final (bind m k g)).
Proof.
  intros Hm Hs (t & rest & S & H). rewrite (bind_Ret _ _ _ _ _ Hm).
  exists t, rest. rewrite <- Hs. split; assumption.
Qed.

Lemma EmitXmlPageHeader_first_tag cs blkno level g :
  header_readable g ->
  PG.off_pd_linp <= bytesToFormat g ->
  first_tag_at blkno (u32 (pageOffset g)) g
    (final (EmitXmlPageHeader cs blkno level g)).
Proof.
  intros Hh Hbtf.
  destruct (header_peek g PG.off_pd_flags 2 Hh) as (pdf & Hpdf);
    [unfold PG.off_pd_flags; lia
    | unfold PG.off_pd_flags, PG.off_pd_linp; simpl Z.of_nat; lia |].
  destruct (header_peek g PG.off_pd_lower 2 Hh) as (lower & Hlo);
    [unfold PG.off_pd_lower; lia
    | unfold PG.off_pd_lower, PG.off_pd_linp; simpl Z.of_nat; lia |].
  destruct (header_peek g PG.off_pd_pagesize_version 2 Hh) as (pv & Hpv);
    [unfold PG.off_pd_pagesize_version; lia
    | unfold PG.off_pd_pagesize_version, PG.off_pd_linp; simpl Z.of_nat;
      lia |].
  unfold EmitXmlPageHeader.
  rewrite bind_Ret with (a := bytesToFormat g) (g' := g) by reflexivity.
  replace (bytesToFormat g <? PG.off_pd_linp) with false
    by (symmetry; apply Z.ltb_ge; exact Hbtf).
  apply first_tag_bind; [|intros rc; emitting].
  unfold EmitXmlPageHeader_body. cbv zeta.
  apply (first_tag_after _ _ _ _ _ _ _
           (PageGetMaxOffsetNumber_run _ _ Hlo) eq_refl).
  apply (first_tag_after _ _ _ _ _ _ _
           (PageGetPageLayoutVersion_run _ _ Hpv) eq_refl).
  set (g1 := set_blockVersion (Z.land pv 255) g).
  apply (first_tag_after _ _ _ _ g tt g1); [reflexivity | reflexivity |].
  apply first_tag_bind; [|intros []; emitting].
  destruct (EmitXmlPageHeader_fields_run blkno level g1 pdf Hpdf)
    as (g2 & new2 & Hrun2 & F2 & Hout2 & Hshape2).
  rewrite Hrun2. cbn [final].
  destruct new2 as [|t rest]; [discriminate Hshape2|].
  exists t, rest. split; [exact Hout2|].
  cbv zeta in Hshape2. cbn [map] in Hshape2.
  assert (Hs : shape t
               = (u32 (pageOffset g1), u32 (pageOffset g1 + 7),
                  BlockText blkno
                    (if level =? PG.UINT_MAX then None else Some level) "LSN",
                  COLOR_YELLOW_LIGHT)) by congruence.
  unfold shape in Hs. unfold tag_blkno.
  split; [change (pageOffset g) with (pageOffset g1); congruence|].
  replace (text t) with
    (BlockText blkno (if level =? PG.UINT_MAX then None else Some level) "LSN")
    by congruence.
  reflexivity.
Qed.

(** X18: Every block of which at least the fixed page header was read gets a
    first tag that carries the block's number and starts at the block's
    offset in the file, the block size times the block number (in 32
    bits): the tag of the LSN, or the one tag of a leaf page that is not
    itemized. *)
Theorem EmitXmlPage_first_tag cs blkno g :
  run_state g ->
  PG.off_pd_linp <= bytesToFormat g ->
  first_tag_at blkno (u32 (blockSize g * currentBlock g)) g
    (final (EmitXmlPage cs blkno g)).
Proof.
  intros Hrun Hbtf.
  set (po := u32 (blockSize g * currentBlock g)).
  set (g0 := set_pageOffset po g).
  assert (Hrun0 : run_state g0) by exact Hrun.
  pose proof (run_state_block g Hrun) as Hbs256.
  destruct (run_state_peek g0 2 PG.off_pd_special Hrun0) as (special & Hsp);
    [unfold PG.off_pd_special; lia
    | unfold PG.off_pd_special; change (blockSize g0) with (blockSize g);
      simpl Z.of_nat; lia |].
  destruct (GetSpecialSectionType_total g0 special Hrun0 Hsp)
    as (t & Ht & _ & Hbt).
  set (g1 := set_specialType t g0).
  assert (Hh1 : header_readable g1).
  { unfold header_readable, PG.off_pd_linp.
    change (buffer g1) with (buffer g).
    destruct Hrun as (_ & _ & Hlen & _). lia. }
  assert (Hdecode : forall level,
            first_tag_at blkno po g
              (final
                 (bind (EmitXmlPageHeader cs blkno level)
                    (fun rc =>
                       if negb (rc =? EOF_ENCOUNTERED) then
                         EmitXmlTuples blkno ;;
                         specialType' <- get specialType ;;
                         match specialType' with
                         | SPEC_SECT_NONE => ret tt
                         | _ => EmitXmlSpecial blkno level
                         end
                       else ret tt) g1))).
  { intros level.
    pose proof (EmitXmlPageHeader_first_tag cs blkno level g1 Hh1 Hbtf) as H.
    change (pageOffset g1) with po in H.
    replace (u32 po) with po in H by (unfold po; symmetry; apply u32_idem).
    apply (first_tag_from _ _ g g1); [reflexivity|].
    apply first_tag_bind; [exact H | intros rc; emitting]. }
  unfold EmitXmlPage. cbv zeta.
  do 3 (rewrite bind_Ret with (a := _) (g' := _) by reflexivity; cbv beta).
  fold po. fold g0.
  rewrite (bind_Ret _ _ _ _ _ Ht).
  do 4 (rewrite bind_Ret with (a := _) (g' := _) by reflexivity; cbv beta).
  fold g1. change (specialType g1) with t.
  destruct t; try apply Hdecode.
  (* a btree page: its level and flags are read first *)
  destruct (Hbt eq_refl) as (Hsize & Hfull).
  change (PG.MAXALIGN PG.sizeof_BTPageOpaqueData) with 16 in Hsize.
  change (blockSize g0) with (blockSize g) in Hsize.
  destruct (run_state_peek g 4 (special + PG.off_btpo) Hrun) as (lv & Hlv);
    [unfold PG.off_btpo; lia | unfold PG.off_btpo; simpl Z.of_nat; lia |].
  destruct (run_state_peek g 2 (special + PG.off_btpo_flags) Hrun)
    as (fl & Hfl);
    [unfold PG.off_btpo_flags; lia
    | unfold PG.off_btpo_flags; simpl Z.of_nat; lia |].
  unfold pd_special.
  rewrite (bind_Ret _ _ _ _ _ (load_peek 2 _ special g1 Hsp)).
  rewrite (bind_Ret _ _ _ _ _ (load_peek 4 _ lv g1 Hlv)).
  rewrite (bind_Ret _ _ _ _ _ (load_peek 2 _ fl g1 Hfl)).
  destruct (bit_set fl PG.BTP_LEAF && negb (bit_set fl PG.BTP_ROOT)
            && bit_set (blockOptions g1) BLOCK_SKIP_LEAF);
    [|apply Hdecode].
  change (pageOffset g1) with po.
  unfold EmitXmlTag. mred. mstate. unfold first_tag_at. mstate.
  eexists. exists []. rewrite tags_of_app. cbn [tags_of].
  split; [reflexivity|]. cbn [start_offset]. unfold tag_blkno.
  cbn [text]. split; [unfold po; apply u32_idem | reflexivity].
Qed.

(* ================================================================== *)
(** ** What the tags do not depend on

    The segment size and number enter the block number that is fed to the
    checksum, and nothing else; the checksum and the exit code decide which
    messages are printed, and nothing else. *)

(** two states that agree on everything but the segment, the exit code and
    the messages printed *)
Definition same_tags (g1 g2 : globals) : Prop :=
  blockStart g1 = blockStart g2 /\
  blockEnd g1 = blockEnd g2 /\
  specialType g1 = specialType g2 /\
  blockOptions g1 = blockOptions g2 /\
  buffer g1 = buffer g2 /\
  blockSize g1 = blockSize g2 /\
  currentBlock g1 = currentBlock g2 /\
  tagNumber g1 = tagNumber g2 /\
  pageOffset g1 = pageOffset g2 /\
  bytesToFormat g1 = bytesToFormat g2 /\
  blockVersion g1 = blockVersion g2 /\
  tags_of (stdout g1) = tags_of (stdout g2).

(** two computations that go the same way from such states: they end
    alike, with the same result, in such states *)
Definition related {A} (m1 m2 : M A) : Prop :=
  forall g1 g2,
    same_tags g1 g2 ->
    match m1 g1, m2 g2 with
    | Ret a g1', Ret b g2' => a = b /\ same_tags g1' g2'
    | Exit g1', Exit g2' => same_tags g1' g2'
    | Fault g1', Fault g2' => same_tags g1' g2'
    | _, _ => False
    end.

Lemma related_ret {A} (a : A) : related (ret a) (ret a).
Proof. intros g1 g2 H. split; [reflexivity | exact H]. Qed.

Lemma related_exit {A} : related (@exit A) (@exit A).
Proof. intros g1 g2 H. exact H. Qed.

Lemma related_get {A} (f : globals -> A) :
  (forall g1 g2, same_tags g1 g2 -> f g1 = f g2) -> related (get f) (get f).
Proof. intros Hf g1 g2 H. split; [apply Hf; exact H | exact H]. Qed.

Lemma related_modify (f : globals -> globals) :
  (forall g1 g2, same_tags g1 g2 -> same_tags (f g1) (f g2)) ->
  related (modify f) (modify f).
Proof. intros Hf g1 g2 H. split; [reflexivity | apply Hf; exact H]. Qed.

Lemma related_load n off : related (load n off) (load n off).
Proof.
  intros g1 g2 H. unfold load.
  replace (buffer g2) with (buffer g1) by (unfold same_tags in H; tauto).
  destruct (peek n (buffer g1) off); [split; [reflexivity|] |]; exact H.
Qed.

Lemma related_strcat_into size built :
  related (strcat_into size built) (strcat_into size built).
Proof.
  intros g1 g2 H. unfold strcat_into.
  destruct (Z.of_nat (String.length built) + 1 <=? size);
    [split; [reflexivity|] |]; exact H.
Qed.

Lemma related_bind {A B} (m1 m2 : M A) (k1 k2 : A -> M B) :
  related m1 m2 -> (forall a, related (k1 a) (k2 a)) ->
  related (bind m1 k1) (bind m2 k2).
Proof.
  intros Hm Hk g1 g2 H. unfold bind. specialize (Hm g1 g2 H).
  destruct (m1 g1) as [a g1' | g1' | g1'], (m2 g2) as [b g2' | g2' | g2'];
    try contradiction; try exact Hm.
  destruct Hm as (<- & Hm). exact (Hk a g1' g2' Hm).
Qed.

Lemma related_andM a (b1 b2 : M bool) :
  related b1 b2 -> related (andM a b1) (andM a b2).
Proof. intros H. destruct a; [exact H | apply related_ret]. Qed.

Lemma related_for_offsets n offset (body1 body2 : Z -> M unit) :
  (forall o, related (body1 o) (body2 o)) ->
  related (for_offsets n offset body1) (for_offsets n offset body2).
Proof.
  intros H. revert offset. induction n as [|n IH]; intros offset; simpl.
  - apply related_ret.
  - apply related_bind; [apply H | intros _; apply IH].
Qed.

Ltac same_tags_field :=
  let H := fresh in
  intros ? ? H; unfold same_tags in H; decompose [and] H; assumption.

Ltac same_tags_update :=
  let H := fresh in
  intros ? ? H; unfold same_tags in *; unfold say; mstate;
  rewrite ?tags_of_app; cbn [tags_of]; rewrite ?app_nil_r;
  decompose [and] H; repeat split; congruence.

Create HintDb relaters.

Ltac relating :=
  cbv zeta;
  repeat first
    [ apply related_ret
    | apply related_exit
    | apply related_load
    | apply related_strcat_into
    | solve [auto with relaters nocore]
    | match goal with
      | |- related (get _) (get _) => apply related_get; same_tags_field
      | |- related (printf _) (printf _) =>
          apply related_modify; same_tags_update
      | |- related (emit _ _ _ _) (emit _ _ _ _) =>
          apply related_modify; unfold push; same_tags_update
      | |- related (modify _) (modify _) =>
          apply related_modify; same_tags_update
      end
    | apply related_bind; [| intros ?]
    | apply related_andM
    | apply related_for_offsets; intros ?
    | match goal with
      | |- related (if ?c then _ else _) (if ?c then _ else _) => destruct c
      | |- related (match ?x with _ => _ end) (match ?x with _ => _ end) =>
          destruct x
      end ].

Lemma related_IsBtreeMetaPage : related IsBtreeMetaPage IsBtreeMetaPage.
Proof.
  unfold IsBtreeMetaPage, PageGetSpecialSize, PageGetPageSize,
    pd_pagesize_version, pd_special.
  relating.
Qed.

Lemma related_GetSpecialSectionType :
  related GetSpecialSectionType GetSpecialSectionType.
Proof. unfold GetSpecialSectionType, pd_special. relating. Qed.

Lemma related_GetHeapTupleHeaderFlags htup isInfomask2 :
  related (GetHeapTupleHeaderFlags htup isInfomask2)
    (GetHeapTupleHeaderFlags htup isInfomask2).
Proof. unfold GetHeapTupleHeaderFlags. relating. Qed.

#[local] Hint Resolve related_IsBtreeMetaPage related_GetSpecialSectionType
  related_GetHeapTupleHeaderFlags : relaters.

Lemma related_EmitXmlHeapTuple blkno offset htup relfileOff itemSize :
  related (EmitXmlHeapTuple blkno offset htup relfileOff itemSize)
    (EmitXmlHeapTuple blkno offset htup relfileOff itemSize).
Proof. unfold EmitXmlHeapTuple, EmitXmlTupleTag. relating. Qed.

Lemma related_EmitXmlIndexTuple blkno offset tuple relfileOff :
  related (EmitXmlIndexTuple blkno offset tuple relfileOff)
    (EmitXmlIndexTuple blkno offset tuple relfileOff).
Proof. unfold EmitXmlIndexTuple, EmitXmlTupleTag. relating. Qed.

(** the checks at the end of the page header only print messages and
    raise the exit code, whatever the checksum function and the segment *)
Lemma related_EmitXmlPageHeader_checks cs1 cs2 blkno maxOffset :
  related (EmitXmlPageHeader_checks cs1 blkno maxOffset)
    (EmitXmlPageHeader_checks cs2 blkno maxOffset).
Proof.
  unfold EmitXmlPageHeader_checks, pd_upper, pd_special, pd_lower.
  apply related_bind; [relating | intros bs].
  apply related_bind; [relating | intros bv].
  apply related_bind; [relating | intros upper].
  apply related_bind; [relating | intros special].
  apply related_bind; [relating | intros lower].
  apply related_bind; [relating | intros _].
  intros g1 g2 H. unfold pd_checksum. mred.
  replace (blockOptions g2) with (blockOptions g1)
    by (unfold same_tags in H; tauto).
  destruct (bit_set (blockOptions g1) BLOCK_CHECKSUMS);
    [|split; [reflexivity | exact H]].
  replace (buffer g2) with (buffer g1) by (unfold same_tags in H; tauto).
  destruct (peek 2 (buffer g1) PG.off_pd_checksum) as [checksum|];
    [|exact H].
  assert (Hmsg : forall m a b,
            same_tags a b -> same_tags (set_exitCode 1 (say m a)) b).
  { intros m a b Hab. revert a b Hab. unfold same_tags, say. intros a b Hab.
    mstate. rewrite tags_of_app. cbn [tags_of]. rewrite app_nil_r.
    exact Hab. }
  assert (Hsym : forall a b, same_tags a b -> same_tags b a).
  { unfold same_tags. intros a b Hab. decompose [and] Hab.
    repeat split; congruence. }
  destruct (negb (cs1 (buffer g1) _ =? checksum)),
    (negb (cs2 (buffer g1) _ =? checksum)); mstate;
    (split; [reflexivity|]);
    repeat first [ exact H | apply Hmsg | apply Hsym; apply Hmsg; apply Hsym ].
Qed.

#[local] Hint Resolve related_EmitXmlHeapTuple related_EmitXmlIndexTuple
  related_EmitXmlPageHeader_checks : relaters.

Lemma related_EmitXmlPageHeader cs1 cs2 blkno level :
  related (EmitXmlPageHeader cs1 blkno level)
    (EmitXmlPageHeader cs2 blkno level).
Proof.
  unfold EmitXmlPageHeader, EmitXmlPageHeader_body, EmitXmlPageHeader_fields,
    EmitXmlPageHeader_meta, EmitXmlPageHeader_item, EmitXmlTag, EmitXmlItemId,
    PageGetMaxOffsetNumber, PageGetPageLayoutVersion, PageGetItemId, pd_lower,
    pd_flags, pd_pagesize_version.
  relating.
Qed.

Lemma related_EmitXmlTuples blkno :
  related (EmitXmlTuples blkno) (EmitXmlTuples blkno).
Proof.
  unfold EmitXmlTuples, EmitXmlTuples_item, PageGetMaxOffsetNumber,
    PageGetItemId, pd_lower.
  relating.
Qed.

Lemma related_EmitXmlSpecial blkno level :
  related (EmitXmlSpecial blkno level) (EmitXmlSpecial blkno level).
Proof. unfold EmitXmlSpecial, EmitXmlTag, pd_special. relating. Qed.

#[local] Hint Resolve related_EmitXmlPageHeader related_EmitXmlTuples
  related_EmitXmlSpecial : relaters.

Lemma related_EmitXmlPage cs1 cs2 blkno :
  related (EmitXmlPage cs1 blkno) (EmitXmlPage cs2 blkno).
Proof. unfold EmitXmlPage, EmitXmlTag, pd_special. relating. Qed.

#[local] Hint Resolve related_EmitXmlPage : relaters.

Lemma related_EmitXmlFile_loop cs1 cs2 file initialRead :
  related (EmitXmlFile_loop cs1 file initialRead)
    (EmitXmlFile_loop cs2 file initialRead).
Proof.
  revert initialRead. induction file as [|block rest IH]; intros initialRead;
    simpl EmitXmlFile_loop; unfold fread; relating.
Qed.

#[local] Hint Resolve related_EmitXmlFile_loop : relaters.

(** X19: The tags of a run, with their identifiers, offsets and texts, are the
    same whatever the checksum function computes, whatever the segment size
    and the segment number are, and whatever the exit code was at the
    start: these only decide which messages are printed between the tags
    and which exit code the run ends with.  The run also ends the same
    way, by a return or by [exit]. *)
Theorem tags_ignore_checksum_and_segment cs1 cs2 file fseek_fails g1 g2 :
  same_tags g1 g2 ->
  tags_of (stdout (final (EmitXmlFile cs1 file fseek_fails g1)))
    = tags_of (stdout (final (EmitXmlFile cs2 file fseek_fails g2))) /\
  match EmitXmlFile cs1 file fseek_fails g1,
        EmitXmlFile cs2 file fseek_fails g2 with
  | Ret _ _, Ret _ _ | Exit _, Exit _ | Fault _, Fault _ => True
  | _, _ => False
  end.
Proof.
  intros H.
  assert (R : related (EmitXmlFile cs1 file fseek_fails)
                (EmitXmlFile cs2 file fseek_fails))
    by (unfold EmitXmlFile; relating).
  specialize (R g1 g2 H).
  destruct (EmitXmlFile cs1 file fseek_fails g1) as [a g1' | g1' | g1'],
    (EmitXmlFile cs2 file fseek_fails g2) as [b g2' | g2' | g2'];
    try contradiction; cbn [final];
    (split; [unfold same_tags in R; tauto | exact I]).
Qed.

(* ================================================================== *)
(** ** A block that ends within its line pointers *)

Lemma IsBtreeMetaPage_partial g :
  header_readable g -> bytesToFormat g <> blockSize g ->
  IsBtreeMetaPage g = Ret false g.
Proof.
  intros Hh Hne.
  destruct (header_peek g PG.off_pd_special 2 Hh) as (special & Hsp);
    [unfold PG.off_pd_special; lia
    | unfold PG.off_pd_special, PG.off_pd_linp; simpl Z.of_nat; lia |].
  destruct (header_peek g PG.off_pd_pagesize_version 2 Hh) as (pv & Hpv);
    [unfold PG.off_pd_pagesize_version; lia
    | unfold PG.off_pd_pagesize_version, PG.off_pd_linp; simpl Z.of_nat;
      lia |].
  unfold IsBtreeMetaPage, PageGetSpecialSize, PageGetPageSize,
    pd_pagesize_version, pd_special.
  mred. rewrite Hpv. mred. rewrite Hsp. mred.
  replace (bytesToFormat g =? blockSize g) with false
    by (symmetry; apply Z.eqb_neq; exact Hne).
  rewrite andb_false_r. reflexivity.
Qed.

(** X20: When the fixed page header was read but the block ends within the
    array of line pointers that [pd_lower] declares (an array that would
    fit the block), [EmitXmlPage] writes the eight tags of the header and
    one tag for each declared line pointer, then reports the end of the
    block within the header, sets the exit code to 1 and returns: no tuple
    and no special section is decoded.  The tags of the line pointers are
    then placed from the end of the bytes read on, not from the end of the
    fixed header. *)
Theorem EmitXmlPage_partial_line_pointers cs blkno g lower :
  run_state g ->
  peek 2 (buffer g) PG.off_pd_lower = Some lower ->
  PG.off_pd_linp <= bytesToFormat g
    < PG.off_pd_linp + PG.sizeof_ItemIdData * max_offset_of lower ->
  PG.off_pd_linp + PG.sizeof_ItemIdData * max_offset_of lower
    <= blockSize g ->
  exists g' out fields items,
    EmitXmlPage cs blkno g = Ret tt g' /\
    exitCode g' = 1 /\
    stdout g' =
      stdout g ++ out ++ [OutMsg (ErrEndOfBlockInHeader (bytesToFormat g))] /\
    tags_of (stdout g') = tags_of (stdout g) ++ fields ++ items /\
    List.length fields = 8%nat /\
    Forall2
      (line_pointer_tag blkno (bytesToFormat g)
         (set_pageOffset (u32 (blockSize g * currentBlock g)) g))
      (offsets (Z.to_nat (max_offset_of lower)) PG.FirstOffsetNumber) items.
Proof.
  intros Hrun Hlo Hbtf Hfit.
  pose proof (run_state_block g Hrun) as Hbs256.
  destruct (run_state_peek g 2 PG.off_pd_special Hrun) as (special & Hsp);
    [unfold PG.off_pd_special; lia
    | unfold PG.off_pd_special; simpl Z.of_nat; lia |].
  pose proof (GetSpecialSectionType_short_read g special Hrun Hsp
                ltac:(lia)) as Ht.
  match type of Ht with _ = Ret ?x _ => set (t := x) in Ht end.
  assert (Hnb : t <> SPEC_SECT_INDEX_BTREE).
  { unfold t.
    match goal with |- (if ?c then _ else _) <> _ => destruct c end;
      discriminate. }
  rewrite (EmitXmlPage_not_btree cs blkno g t Ht Hnb).
  set (g0 := set_pageOffset (u32 (blockSize g * currentBlock g)) g).
  set (g1 := set_specialType t g0).
  destruct Hrun as (Hmod & Hbs & Hlen & Hbtf').
  assert (Hh : header_readable g)
    by (unfold header_readable, PG.off_pd_linp; lia).
  destruct (header_peek g PG.off_pd_flags 2 Hh) as (pdf & Hpdf);
    [unfold PG.off_pd_flags; lia
    | unfold PG.off_pd_flags, PG.off_pd_linp; simpl Z.of_nat; lia |].
  destruct (header_peek g PG.off_pd_pagesize_version 2 Hh) as (pv & Hpv);
    [unfold PG.off_pd_pagesize_version; lia
    | unfold PG.off_pd_pagesize_version, PG.off_pd_linp; simpl Z.of_nat;
      lia |].
  pose proof (max_offset_of_bound lower (peek2_range _ _ _ Hlo)) as Hmax.
  set (maxOffset := max_offset_of lower) in *.
  set (g1' := set_blockVersion (Z.land pv 255) g1).
  destruct (EmitXmlPageHeader_fields_run blkno PG.UINT_MAX g1' pdf Hpdf)
    as (g2 & new2 & Hrun2 & F2 & Hout2 & Hshape2).
  assert (F02 : frame g1 g2).
  { apply (frame_trans _ g1'); [|exact F2].
    unfold frame, g1'. mstate. repeat split. }
  assert (Hmeta2 : IsBtreeMetaPage g2 = Ret false g2).
  { apply IsBtreeMetaPage_partial.
    - unfold header_readable. rewrite (frame_buffer _ _ F02). exact Hh.
    - destruct F02 as (_ & _ & _ & _ & _ & Hs & _ & _ & _ & _ & Hb).
      rewrite Hs, Hb. change (bytesToFormat g1 <> blockSize g1)
        with (bytesToFormat g <> blockSize g).
      unfold PG.off_pd_linp, PG.sizeof_ItemIdData in *. lia. }
  destruct (EmitXmlPageHeader_items_run blkno (bytesToFormat g)
              (Z.to_nat maxOffset) PG.FirstOffsetNumber g2)
    as (g3 & new3 & Hrun3 & F3 & Hout3 & Hnew3).
  { intros k Hk. apply in_offsets in Hk. unfold PG.FirstOffsetNumber in Hk.
    rewrite (frame_item_at _ _ _ F02). unfold item_at.
    change (buffer g1) with (buffer g).
    unfold PG.off_pd_linp, PG.sizeof_ItemIdData in *.
    destruct (peek_Some 4 (buffer g) (24 + 4 * (k - 1))) as (v & Hv & _);
      [lia | simpl Z.of_nat; lia |].
    rewrite Hv. discriminate. }
  assert (F03 : frame g1 g3) by exact (frame_trans _ _ _ F02 F3).
  assert (Hh3 : header_readable g3).
  { unfold header_readable in *. rewrite (frame_buffer _ _ F03). exact Hh. }
  destruct (EmitXmlPageHeader_checks_returns cs blkno maxOffset g3 Hh3)
    as (g4 & Hrun4 & F4 & Htag4 & Hout4).
  assert (Hpart : (0 <? maxOffset)
                  && (bytesToFormat g
                      <? PG.off_pd_linp + u32 (maxOffset * PG.sizeof_ItemIdData))
                  = true).
  { unfold PG.off_pd_linp, PG.sizeof_ItemIdData in *.
    rewrite u32_small by lia.
    apply andb_true_iff. split; [apply Z.ltb_lt | apply Z.ltb_lt]; lia. }
  assert (Hbody : EmitXmlPageHeader_body cs blkno PG.UINT_MAX (bytesToFormat g)
                    g1 = Ret EOF_ENCOUNTERED g4).
  { unfold EmitXmlPageHeader_body. cbv zeta.
    rewrite (bind_Ret _ _ _ _ _
               (PageGetMaxOffsetNumber_run lower g1 Hlo)).
    rewrite (bind_Ret _ _ _ _ _ (PageGetPageLayoutVersion_run pv g1 Hpv)).
    rewrite bind_Ret with (a := tt) (g' := g1') by reflexivity.
    rewrite (bind_Ret _ _ _ _ _ Hrun2).
    rewrite (bind_Ret _ _ _ _ _ Hmeta2).
    fold maxOffset. rewrite Hpart.
    rewrite (bind_Ret _ _ _ _ _ Hrun3).
    rewrite (bind_Ret _ _ _ _ _ Hrun4).
    reflexivity. }
  assert (Hemit : keeps emits
                    (EmitXmlPageHeader_body cs blkno PG.UINT_MAX
                       (bytesToFormat g)))
    by (unfold EmitXmlPageHeader_body; emitting).
  destruct (keeps_Ret _ _ _ _ _ Hemit Hbody) as (out & Sout & _).
  set (g5 := set_exitCode 1 (say (ErrEndOfBlockInHeader (bytesToFormat g)) g4)).
  assert (Hhdr : EmitXmlPageHeader cs blkno PG.UINT_MAX g1
                 = Ret EOF_ENCOUNTERED g5).
  { unfold EmitXmlPageHeader.
    rewrite bind_Ret with (a := bytesToFormat g) (g' := g1) by reflexivity.
    replace (bytesToFormat g <? PG.off_pd_linp) with false
      by (symmetry; apply Z.ltb_ge; lia).
    rewrite (bind_Ret _ _ _ _ _ Hbody). reflexivity. }
  exists g5, out, new2, new3.
  split; [rewrite (bind_Ret _ _ _ _ _ Hhdr); reflexivity|].
  split; [reflexivity|].
  split; [unfold g5, say; mstate; rewrite Sout, <- app_assoc; reflexivity|].
  split.
  { unfold g5, say. mstate. rewrite tags_of_app. cbn [tags_of].
    rewrite app_nil_r, Hout4, Hout3, Hout2, <- app_assoc. reflexivity. }
  split; [rewrite <- (length_map shape), Hshape2; reflexivity|].
  change (Forall2 (line_pointer_tag blkno (bytesToFormat g) g1)
            (offsets (Z.to_nat maxOffset) PG.FirstOffsetNumber) new3).
  clear - F02 Hnew3. induction Hnew3 as [|k t' ks ts H1 H2 IH];
    constructor;
    [apply (line_pointer_tag_frame _ _ _ _ _ _ F02 H1) | exact IH].
Qed.

(* ================================================================== *)
(** * The command line and [main]

    The rest of [pg_hexedit.c]: [GetOptionValue],
    [GetSegmentNumberFromFileName], [ConsumeOptions], [DisplayOptions],
    [EmitXmlDocHeader] and [main].  Command line arguments are strings; the
    file system, [malloc], the clock and [fseek] are parameters. *)

(** ** [isdigit], [isspace] and [atoi] of the C library, in the C locale

    A character that is not ASCII is no digit and no space.  [atoi] is
    that of the C library the tool is built with on x86-64:
    [(int) strtol(s, NULL, 10)], where [strtol] answers [LONG_MAX] or
    [LONG_MIN] for a number that a [long] of 64 bits cannot hold and the
    conversion to [int] keeps the low 32 bits.  A number that an [int]
    cannot hold therefore comes back as another number. *)

Definition INT_MAX : Z := 2147483647.
Definition INT_MIN : Z := -2147483648.

Definition char_code (c : ascii) : Z := Z.of_nat (nat_of_ascii c).

Definition isdigit (c : ascii) : bool :=
  (48 <=? char_code c) && (char_code c <=? 57).

Definition isspace (c : ascii) : bool :=
  (char_code c =? 32) || ((9 <=? char_code c) && (char_code c <=? 13)).

(** the number that the digits at the front of [s] spell, after [acc] *)
Fixpoint digits_value (acc : Z) (s : string) : Z :=
  match s with
  | String c rest =>
      if isdigit c then digits_value (10 * acc + (char_code c - 48)) rest
      else acc
  | EmptyString => acc
  end.

Fixpoint skip_spaces (s : string) : string :=
  match s with
  | String c rest => if isspace c then skip_spaces rest else s
  | EmptyString => s
  end.

Definition LONG_MAX : Z := 9223372036854775807.
Definition LONG_MIN : Z := -9223372036854775808.

(** the conversion of a [long] to [int]: its low 32 bits, as a signed
    number *)
Definition to_int (v : Z) : Z :=
  (v + 2147483648) mod 4294967296 - 2147483648.

Definition strtol (s : string) : Z :=
  let s := skip_spaces s in
  let v :=
    match s with
    | String c rest =>
        if Ascii.eqb c "-" then - digits_value 0 rest
        else if Ascii.eqb c "+" then digits_value 0 rest
        else digits_value 0 s
    | EmptyString => 0
    end in
  Z.max LONG_MIN (Z.min LONG_MAX v).

Definition atoi (s : string) : Z := to_int (strtol s).

(** [strlen], as a number *)
Definition strlen (s : string) : Z := Z.of_nat (String.length s).

(** [&s[n]]: the string from its character [n] on *)
Fixpoint string_from (n : nat) (s : string) : string :=
  match n, s with
  | O, _ => s
  | S k, String _ rest => string_from k rest
  | S _, EmptyString => EmptyString
  end.

(* ================================================================== *)
(** ** [GetOptionValue] *)

(** the [x] the loop [for (x = 0; x < optionStringLength; x++) if
    (!isdigit(optionString[x])) break;] ends with *)
Fixpoint leading_digits (s : string) : Z :=
  match s with
  | String c rest => if isdigit c then 1 + leading_digits rest else 0
  | EmptyString => 0
  end.

Definition GetOptionValue (optionString : string) : Z :=
  let value := -1 in
  let optionStringLength := strlen optionString in
  let x := leading_digits optionString in
  if x =? optionStringLength then atoi optionString else value.

(* ================================================================== *)
(** ** [GetSegmentNumberFromFileName] *)

(** the loop [while (isdigit(fileName[segnumOffset])) { segnumOffset--; if
    (segnumOffset < 0) return 0; }], started with [segnumOffset = n - 1]:
    [Some] of the [segnumOffset] it ends with, [None] when it returns 0 *)
Fixpoint skip_digits_back (fileName : string) (n : nat) : option nat :=
  match n with
  | O => None
  | S k =>
      match String.get k fileName with
      | Some c => if isdigit c then skip_digits_back fileName k else Some k
      | None => Some k
      end
  end.

Definition GetSegmentNumberFromFileName (fileName : string) : Z :=
  match skip_digits_back fileName (String.length fileName) with
  | None => 0
  | Some segnumOffset =>
      match String.get segnumOffset fileName with
      | Some c =>
          if negb (Ascii.eqb c ".") then 0
          else u32 (atoi (string_from (S segnumOffset) fileName))
      | None => 0
      end
  end.

(* ================================================================== *)
(** ** The variables and the output of the whole program *)

(** [enum segmentSwitches] *)
Definition SEGMENT_SIZE_FORCED : Z := 1.
Definition SEGMENT_NUMBER_FORCED : Z := 2.

(** [enum optionReturnCodes] *)
Inductive optionReturnCodes : Type :=
| OPT_RC_VALID
| OPT_RC_INVALID
| OPT_RC_FILE
| OPT_RC_DUPLICATE
| OPT_RC_COPYRIGHT.

(** the lines [printf] writes outside the decoding of the file *)
Inductive notice : Type :=
| ErrMissingRangeStart
| ErrInvalidRangeStart (optionString : string)
| ErrRangeStartGreater (blockStart range : Z)
| ErrMissingSegmentSize
| ErrInvalidSegmentSize (optionString : string)
| ErrMissingSegmentNumber
| ErrInvalidSegmentNumber (optionString : string)
| ErrOpenFile (optionString : string)
| ErrMissingFileName
| ErrInvalidOptionString (optionString : string)
| ErrUnknownOption (c : ascii)
| ErrDuplicateOption (duplicateSwitch : ascii)
| MsgCopyright
| MsgUsage
| MsgDocHeader (timeStr options : string) (fileName : option string)
| ErrCreateBuffer (blockSize : Z).

(** the variables of [globals], the variables the decoding of the file
    does not use, and what was printed before the decoding *)
Record program : Type := mkProgram {
  vars : globals;
  segmentOptions : Z;
  fp : option (list Byte.byte);   (* the contents of the open file *)
  fileName : option string;
  notices : list notice
}.

Definition set_blockStart (v : Z) (g : globals) : globals :=
  mkGlobals v (blockEnd g) (specialType g) (blockOptions g) (buffer g)
    (blockSize g) (currentBlock g) (segmentSize g) (segmentNumber g)
    (tagNumber g) (pageOffset g) (bytesToFormat g) (blockVersion g)
    (exitCode g) (stdout g).

Definition set_blockEnd (v : Z) (g : globals) : globals :=
  mkGlobals (blockStart g) v (specialType g) (blockOptions g) (buffer g)
    (blockSize g) (currentBlock g) (segmentSize g) (segmentNumber g)
    (tagNumber g) (pageOffset g) (bytesToFormat g) (blockVersion g)
    (exitCode g) (stdout g).

Definition set_blockOptions (v : Z) (g : globals) : globals :=
  mkGlobals (blockStart g) (blockEnd g) (specialType g) v (buffer g)
    (blockSize g) (currentBlock g) (segmentSize g) (segmentNumber g)
    (tagNumber g) (pageOffset g) (bytesToFormat g) (blockVersion g)
    (exitCode g) (stdout g).

Definition set_blockSize (v : Z) (g : globals) : globals :=
  mkGlobals (blockStart g) (blockEnd g) (specialType g) (blockOptions g)
    (buffer g) v (currentBlock g) (segmentSize g) (segmentNumber g)
    (tagNumber g) (pageOffset g) (bytesToFormat g) (blockVersion g)
    (exitCode g) (stdout g).

Definition set_segmentSize (v : Z) (g : globals) : globals :=
  mkGlobals (blockStart g) (blockEnd g) (specialType g) (blockOptions g)
    (buffer g) (blockSize g) (currentBlock g) v (segmentNumber g)
    (tagNumber g) (pageOffset g) (bytesToFormat g) (blockVersion g)
    (exitCode g) (stdout g).

Definition set_segmentNumber (v : Z) (g : globals) : globals :=
  mkGlobals (blockStart g) (blockEnd g) (specialType g) (blockOptions g)
    (buffer g) (blockSize g) (currentBlock g) (segmentSize g) v
    (tagNumber g) (pageOffset g) (bytesToFormat g) (blockVersion g)
    (exitCode g) (stdout g).

Definition with_vars (f : globals -> globals) (p : program) : program :=
  mkProgram (f (vars p)) (segmentOptions p) (fp p) (fileName p) (notices p).

Definition set_segmentOptions (v : Z) (p : program) : program :=
  mkProgram (vars p) v (fp p) (fileName p) (notices p).

Definition set_fp (v : option (list Byte.byte)) (p : program) : program :=
  mkProgram (vars p) (segmentOptions p) v (fileName p) (notices p).

Definition set_fileName (v : option string) (p : program) : program :=
  mkProgram (vars p) (segmentOptions p) (fp p) v (notices p).

(** [printf] of a notice *)
Definition note (m : notice) (p : program) : program :=
  mkProgram (vars p) (segmentOptions p) (fp p) (fileName p)
    (notices p ++ [m]).

(** [printf(...); exitCode = 1;] *)
Definition complain (m : notice) (p : program) : program :=
  with_vars (set_exitCode 1) (note m p).

(** the variables as the program starts with them *)
Definition initial_globals : globals :=
  mkGlobals (-1) (-1) SPEC_SECT_NONE 0 [] 0 0 (PG.RELSEG_SIZE * PG.BLCKSZ)
    0 0 0 0 0 0 [].

Definition initial_program : program :=
  mkProgram initial_globals 0 None None [].

(* ================================================================== *)
(** ** [ConsumeOptions] *)

(** what [ConsumeOptions] carries from one option to the next *)
Record consumed : Type := mkConsumed {
  rc : optionReturnCodes;
  duplicateSwitch : ascii;
  state : program
}.

(** how a round of the loop over the options ends *)
Inductive round : Type :=
| Continue (x : Z) (c : consumed)   (* the end of the body, with [x] *)
| Break (c : consumed)
| Undefined.                       (* [options[x]] past the arguments *)

Definition is_valid (r : optionReturnCodes) : bool :=
  match r with OPT_RC_VALID => true | _ => false end.

Definition is_duplicate (r : optionReturnCodes) : bool :=
  match r with OPT_RC_DUPLICATE => true | _ => false end.

(** [SET_OPTION(_x,_y,_z)] on the flags [_x], which it returns with the
    return code and the duplicate switch *)
Definition SET_OPTION (flags mask : Z) (z : ascii) (r : optionReturnCodes)
    (dup : ascii) : Z * optionReturnCodes * ascii :=
  if bit_set flags mask then (flags, OPT_RC_DUPLICATE, z)
  else (Z.lor flags mask, r, dup).

(** [options[x]] *)
Definition option_at (options : list string) (x : Z) : option string :=
  if x <? 0 then None else nth_error options (Z.to_nat x).

(** [optionString[0] != '-'] *)
Definition no_dash (optionString : string) : bool :=
  match optionString with
  | String c _ => negb (Ascii.eqb c "-")
  | EmptyString => true
  end.

(** the loop over the switches of one option string, from its character
    [y] on: [switches] holds the characters from [y] on *)
Fixpoint ConsumeOptions_switches (switches : string) (c : consumed)
  : consumed :=
  match switches with
  | EmptyString => c
  | String ch rest =>
      let c :=
        if Ascii.eqb ch "h" then
          mkConsumed OPT_RC_COPYRIGHT (duplicateSwitch c) (state c)
        else if Ascii.eqb ch "k" then
          let '(flags, r, dup) :=
            SET_OPTION (blockOptions (vars (state c))) BLOCK_CHECKSUMS "k"
              (rc c) (duplicateSwitch c) in
          mkConsumed r dup (with_vars (set_blockOptions flags) (state c))
        else if Ascii.eqb ch "l" then
          let '(flags, r, dup) :=
            SET_OPTION (blockOptions (vars (state c))) BLOCK_SKIP_LEAF "l"
              (rc c) (duplicateSwitch c) in
          mkConsumed r dup (with_vars (set_blockOptions flags) (state c))
        else
          mkConsumed OPT_RC_INVALID (duplicateSwitch c)
            (complain (ErrUnknownOption ch) (state c)) in
      (* if (rc) break; *)
      if negb (is_valid (rc c)) then c
      else ConsumeOptions_switches rest c
  end.

Section CommandLine.

(** [fopen(name, "rb")]: the contents of the file, when it can be opened *)
Variable fopen : string -> option (list Byte.byte).

(** the body of the loop over the options, for [options[x]] *)
Definition ConsumeOptions_round (numOptions : Z) (options : list string)
    (x : Z) (c : consumed) : round :=
  match option_at options x with
  | None => Undefined
  | Some optionString =>
      let optionStringLength := strlen optionString in
      let p := state c in
      if (optionStringLength =? 2) && String.eqb optionString "-R" then
        let '(flags, r, dup) :=
          SET_OPTION (blockOptions (vars p)) BLOCK_RANGE "R"
            (rc c) (duplicateSwitch c) in
        let p := with_vars (set_blockOptions flags) p in
        (* Only accept the range option once *)
        if is_duplicate r then Break (mkConsumed r dup p)
        else if u32 (numOptions - 2) <=? x then
          Break (mkConsumed OPT_RC_INVALID dup
                   (complain ErrMissingRangeStart p))
        else
          let x := u32 (x + 1) in
          match option_at options x with
          | None => Undefined
          | Some optionString =>
              let range := GetOptionValue optionString in
              if range <? 0 then
                Break (mkConsumed OPT_RC_INVALID dup
                         (complain (ErrInvalidRangeStart optionString) p))
              else
                (* The default is to dump only one block *)
                let p :=
                  with_vars (set_blockStart range)
                    (with_vars (set_blockEnd range) p) in
                if x <=? u32 (numOptions - 3) then
                  match option_at options (u32 (x + 1)) with
                  | None => Undefined
                  | Some next =>
                      let range := GetOptionValue next in
                      if 0 <=? range then
                        (* End range must be => start range *)
                        if blockStart (vars p) <=? range then
                          Continue (u32 (x + 1))
                            (mkConsumed r dup
                               (with_vars (set_blockEnd range) p))
                        else
                          Break
                            (mkConsumed OPT_RC_INVALID dup
                               (complain
                                  (ErrRangeStartGreater
                                     (blockStart (vars p)) range) p))
                      else Continue x (mkConsumed r dup p)
                  end
                else Continue x (mkConsumed r dup p)
          end
      else if (optionStringLength =? 2) && String.eqb optionString "-s" then
        let '(flags, r, dup) :=
          SET_OPTION (segmentOptions p) SEGMENT_SIZE_FORCED "s"
            (rc c) (duplicateSwitch c) in
        let p := set_segmentOptions flags p in
        (* Only accept the forced size option once *)
        if is_duplicate r then Break (mkConsumed r dup p)
        else if u32 (numOptions - 2) <=? x then
          Break (mkConsumed OPT_RC_INVALID dup
                   (complain ErrMissingSegmentSize p))
        else
          let x := u32 (x + 1) in
          match option_at options x with
          | None => Undefined
          | Some optionString =>
              let localSegmentSize := GetOptionValue optionString in
              if 0 <? localSegmentSize then
                Continue x
                  (mkConsumed r dup
                     (with_vars (set_segmentSize localSegmentSize) p))
              else
                Break (mkConsumed OPT_RC_INVALID dup
                         (complain (ErrInvalidSegmentSize optionString) p))
          end
      else if (optionStringLength =? 2) && String.eqb optionString "-n" then
        let '(flags, r, dup) :=
          SET_OPTION (segmentOptions p) SEGMENT_NUMBER_FORCED "n"
            (rc c) (duplicateSwitch c) in
        let p := set_segmentOptions flags p in
        (* Only accept the forced segment number option once *)
        if is_duplicate r then Break (mkConsumed r dup p)
        else if u32 (numOptions - 2) <=? x then
          Break (mkConsumed OPT_RC_INVALID dup
                   (complain ErrMissingSegmentNumber p))
        else
          let x := u32 (x + 1) in
          match option_at options x with
          | None => Undefined
          | Some optionString =>
              let localSegmentNumber := GetOptionValue optionString in
              if 0 <? localSegmentNumber then
                Continue x
                  (mkConsumed r dup
                     (with_vars (set_segmentNumber localSegmentNumber) p))
              else
                Break (mkConsumed OPT_RC_INVALID dup
                         (complain (ErrInvalidSegmentNumber optionString) p))
          end
      else if x =? u32 (numOptions - 1) then
        (* The last option MUST be the file name *)
        if no_dash optionString then
          match fopen optionString with
          | Some contents =>
              let p := set_fileName (Some optionString)
                         (set_fp (Some contents) p) in
              if negb (bit_set (segmentOptions p) SEGMENT_NUMBER_FORCED) then
                Continue x
                  (mkConsumed (rc c) (duplicateSwitch c)
                     (with_vars
                        (set_segmentNumber
                           (GetSegmentNumberFromFileName optionString))
                        p))
              else Continue x (mkConsumed (rc c) (duplicateSwitch c) p)
          | None =>
              Break (mkConsumed OPT_RC_FILE (duplicateSwitch c)
                       (complain (ErrOpenFile optionString) (set_fp None p)))
          end
        else if String.eqb optionString "-h" then
          Break (mkConsumed OPT_RC_COPYRIGHT (duplicateSwitch c) p)
        else
          Break (mkConsumed OPT_RC_FILE (duplicateSwitch c)
                   (complain ErrMissingFileName p))
      else
        (* Option strings must start with '-' and contain switches *)
        if no_dash optionString then
          Break (mkConsumed OPT_RC_INVALID (duplicateSwitch c)
                   (complain (ErrInvalidOptionString optionString) p))
        else
          Continue x (ConsumeOptions_switches (string_from 1 optionString) c)
  end.

(** [for (x = 1; x < numOptions; x++)]: at most [fuel] rounds; [None] when
    these do not suffice *)
Fixpoint ConsumeOptions_loop (fuel : nat) (numOptions : Z)
    (options : list string) (x : Z) (c : consumed) : option round :=
  if x <? u32 numOptions then
    match fuel with
    | O => None
    | S fuel =>
        match ConsumeOptions_round numOptions options x c with
        | Continue x c =>
            ConsumeOptions_loop fuel numOptions options (u32 (x + 1)) c
        | Break c => Some (Break c)
        | Undefined => Some Undefined
        end
    end
  else Some (Break c).

(** [ConsumeOptions]: the return code and the variables it leaves, [None]
    when it reads [options] past the arguments.  The loop has fewer rounds
    than there are options. *)
Definition ConsumeOptions (numOptions : Z) (options : list string)
    (p : program) : option (optionReturnCodes * program) :=
  match ConsumeOptions_loop (List.length options) numOptions options 1
          (mkConsumed OPT_RC_VALID zero p) with
  | Some (Break c) =>
      if is_duplicate (rc c) then
        Some (rc c, complain (ErrDuplicateOption (duplicateSwitch c)) (state c))
      else Some (rc c, state c)
  | _ => None
  end.

(* ================================================================== *)
(** ** [DisplayOptions] and [EmitXmlDocHeader] *)

Definition DisplayOptions (validOptions : optionReturnCodes) (p : program)
  : program :=
  let p :=
    match validOptions with
    | OPT_RC_COPYRIGHT => note MsgCopyright p
    | _ => p
    end in
  note MsgUsage p.

(** the loop that caches the options in [char optionBuffer[52]], over
    [options[1]] to [options[numOptions - 2]] *)
Fixpoint cache_options (optionBuffer : string) (options : list string)
  : string :=
  match options with
  | [] => optionBuffer
  | optionString :: rest =>
      if 50 <? strlen optionBuffer + strlen optionString then optionBuffer
      else cache_options (strcat (strcat optionBuffer optionString) " ") rest
  end.

(** [strftime(timeStr, ...)] of the time of the run *)
Variable timeStr : string.

(** [EmitXmlDocHeader], for the [numOptions >= 2] that [main] calls it
    with: the loop [for (x = 1; x < (numOptions - 1); x++)] then runs over
    [options[1]] to [options[numOptions - 2]] *)
Definition EmitXmlDocHeader (numOptions : Z) (options : list string)
    (p : program) : program :=
  let optionBuffer :=
    cache_options "" (firstn (Z.to_nat (numOptions - 2)) (skipn 1 options)) in
  note (MsgDocHeader timeStr
          (if 0 <? strlen optionBuffer then optionBuffer else "None")
          (fileName p))
    p.

(* ================================================================== *)
(** ** [main] *)

(** [malloc(n)]: the bytes of the buffer, when there is one *)
Variable malloc : Z -> option (list Byte.byte).

(** whether [fseek] to the start of a block range fails *)
Variable fseek_fails : bool.

Variable pg_checksum_page : list Byte.byte -> Z -> Z.

(** what successive calls of [fread(buffer, 1, n, fp)] deliver from a
    file that holds [contents] *)
Fixpoint blocks_of (fuel : nat) (n : nat) (contents : list Byte.byte)
  : list (list Byte.byte) :=
  match fuel, contents with
  | S fuel, _ :: _ =>
      firstn n contents :: blocks_of fuel n (skipn n contents)
  | _, _ => []
  end.

(** the reads of [EmitXmlFile], listed by block number as it takes them.
    Without a block range these are the blocks of the file.  With a range,
    [fseek] moves to the byte [blockSize * blockStart], a product of
    [unsigned int]s, and the reads from block [blockStart] on are the
    blocks of the file from that byte on; the blocks before [blockStart]
    are never read. *)
Definition file_reads (contents : list Byte.byte) (g : globals)
  : list (list Byte.byte) :=
  if bit_set (blockOptions g) BLOCK_RANGE then
    let position := u32 (blockSize g * blockStart g) in
    repeat [] (Z.to_nat (blockStart g))
    ++ blocks_of (List.length contents) (Z.to_nat (blockSize g))
         (skipn (Z.to_nat position) contents)
  else
    blocks_of (List.length contents) (Z.to_nat (blockSize g)) contents.

(** a line of the output of the program *)
Inductive line : Type :=
| Notice (m : notice)
| Decoded (o : output).

(** what the program wrote, in the order it was written, and the code it
    exits with *)
Record finished : Type := mkFinished {
  exit_status : Z;
  printed : list line
}.

(** the end of [main], or of a run that [exit] ends: [after] is what
    [main] printed after the file was decoded *)
Definition finish (p : program) (g : globals) (after : list notice)
  : finished :=
  mkFinished (exitCode g)
    (map Notice (notices p) ++ map Decoded (stdout g) ++ map Notice after).

(** [main(argv, argc)], where [argv] is the number of arguments and [argc]
    holds them; [None] when the run is undefined: a read of [argc] past the
    arguments, a read outside the block buffer or a write outside
    [flagString] *)
Definition main (argv : Z) (argc : list string) : option finished :=
  match (if argv <? 2 then Some (OPT_RC_COPYRIGHT, initial_program)
         else ConsumeOptions argv argc initial_program) with
  | None => None
  | Some (validOptions, p) =>
      if negb (is_valid validOptions) then
        let p := DisplayOptions validOptions p in
        Some (finish p (vars p) [])
      else
        let p := EmitXmlDocHeader argv argc p in
        match fp p with
        | None => None
        | Some contents =>
            match GetBlockSize
                    (firstn (Z.to_nat PG.sizeof_PageHeaderData) contents)
                    (vars p) with
            | Ret size g =>
                let g := set_blockSize size g in
                if 0 <? size then
                  match malloc size with
                  | Some bytes =>
                      let g := set_buffer bytes g in
                      match EmitXmlFile pg_checksum_page
                              (file_reads contents g) fseek_fails g with
                      | Ret _ g => Some (finish p g [])
                      | Exit g => Some (finish p g [])
                      | Fault _ => None
                      end
                  | None =>
                      Some (finish p (set_exitCode 1 g)
                              [ErrCreateBuffer size])
                  end
                else Some (finish p g [])
            | _ => None
            end
        end
  end.

End CommandLine.

(* ================================================================== *)
(** ** Numbers on the command line *)

(** a string of decimal digits, possibly empty *)
Fixpoint all_digits (s : string) : bool :=
  match s with
  | String c rest => isdigit c && all_digits rest
  | EmptyString => true
  end.

Lemma leading_digits_range s : 0 <= leading_digits s <= strlen s.
Proof.
  unfold strlen. induction s as [|c s IH]; cbn [leading_digits String.length].
  - lia.
  - destruct (isdigit c); lia.
Qed.

Lemma leading_digits_all s :
  leading_digits s = strlen s <-> all_digits s = true.
Proof.
  unfold strlen. induction s as [|c s IH];
    cbn [leading_digits String.length all_digits].
  - split; reflexivity.
  - pose proof (leading_digits_range s) as R. unfold strlen in R.
    destruct (isdigit c); cbn [andb].
    + rewrite <- IH. lia.
    + split; [lia | discriminate].
Qed.

Lemma isdigit_not_space c : isdigit c = true -> isspace c = false.
Proof.
  unfold isdigit, isspace. intros H.
  apply andb_true_iff in H. destruct H as (H1 & H2).
  apply Z.leb_le in H1, H2.
  apply orb_false_iff. split; [apply Z.eqb_neq; lia|].
  apply andb_false_iff. right. apply Z.leb_gt. lia.
Qed.

Lemma isdigit_not_sign c :
  isdigit c = true -> Ascii.eqb c "-" = false /\ Ascii.eqb c "+" = false.
Proof.
  intros H. split; apply Ascii.eqb_neq; intros ->; discriminate H.
Qed.

Lemma digits_value_nonneg s : forall acc, 0 <= acc -> 0 <= digits_value acc s.
Proof.
  induction s as [|c s IH]; intros acc Hacc; cbn [digits_value]; [exact Hacc|].
  destruct (isdigit c) eqn:E; [|exact Hacc].
  apply IH. unfold isdigit in E. apply andb_true_iff in E.
  destruct E as (E & _). apply Z.leb_le in E. lia.
Qed.

Lemma to_int_small v : INT_MIN <= v <= INT_MAX -> to_int v = v.
Proof.
  unfold INT_MIN, INT_MAX, to_int. intros H.
  rewrite Z.mod_small by lia. lia.
Qed.

Lemma to_int_range v : INT_MIN <= to_int v <= INT_MAX.
Proof.
  unfold INT_MIN, INT_MAX, to_int.
  pose proof (Z.mod_pos_bound (v + 2147483648) 4294967296 ltac:(lia)). lia.
Qed.

Lemma strtol_digits s :
  all_digits s = true -> strtol s = Z.min LONG_MAX (digits_value 0 s).
Proof.
  intros H. unfold strtol.
  pose proof (digits_value_nonneg s 0 ltac:(lia)) as Hnn.
  destruct s as [|c s].
  - reflexivity.
  - cbn [all_digits] in H. apply andb_true_iff in H. destruct H as (Hc & _).
    cbn [skip_spaces]. rewrite (isdigit_not_space c Hc).
    destruct (isdigit_not_sign c Hc) as (-> & ->).
    unfold LONG_MIN, LONG_MAX. lia.
Qed.

Lemma atoi_digits s :
  all_digits s = true ->
  atoi s = to_int (Z.min LONG_MAX (digits_value 0 s)).
Proof. intros H. unfold atoi. rewrite (strtol_digits s H). reflexivity. Qed.

Lemma atoi_digits_small s :
  all_digits s = true -> digits_value 0 s <= INT_MAX ->
  atoi s = digits_value 0 s.
Proof.
  intros H Hmax. rewrite (atoi_digits s H).
  pose proof (digits_value_nonneg s 0 ltac:(lia)) as Hnn.
  replace (Z.min LONG_MAX (digits_value 0 s)) with (digits_value 0 s)
    by (unfold LONG_MAX, INT_MAX in *; lia).
  apply to_int_small. unfold INT_MIN. lia.
Qed.

Lemma GetOptionValue_not_digits s :
  all_digits s = false -> GetOptionValue s = -1.
Proof.
  intros H. unfold GetOptionValue. cbv zeta.
  destruct (leading_digits s =? strlen s) eqn:E; [|reflexivity].
  apply Z.eqb_eq, leading_digits_all in E. congruence.
Qed.

Lemma GetOptionValue_atoi s :
  all_digits s = true -> GetOptionValue s = atoi s.
Proof.
  intros H. unfold GetOptionValue. cbv zeta.
  replace (leading_digits s =? strlen s) with true; [reflexivity|].
  symmetry. apply Z.eqb_eq, leading_digits_all. exact H.
Qed.

(** [GetOptionValue] answers an [int] *)
Lemma GetOptionValue_bounds s : INT_MIN <= GetOptionValue s <= INT_MAX.
Proof.
  destruct (all_digits s) eqn:E.
  - rewrite (GetOptionValue_atoi s E). apply to_int_range.
  - rewrite (GetOptionValue_not_digits s E). unfold INT_MIN, INT_MAX. lia.
Qed.

(** X21: [GetOptionValue] answers -1 for every string that holds a
    character that is no decimal digit, so a sign, a space or a letter
    anywhere makes a number invalid; for a string of digits, the empty
    string among them, it answers the number they spell when an [int]
    holds it (0 for the empty string).  A number past [INT_MAX] is not
    refused: what comes back is the low 32 bits, as a signed number, of the
    number (of [LONG_MAX] when the number is past that), so that
    2147483648 reads as [INT_MIN] and 4294967295 as -1.  The answer is
    always an [int]. *)
Theorem GetOptionValue_digits :
  (forall s, all_digits s = false -> GetOptionValue s = -1) /\
  (forall s,
     all_digits s = true -> digits_value 0 s <= INT_MAX ->
     GetOptionValue s = digits_value 0 s) /\
  GetOptionValue "" = 0 /\
  (forall s,
     all_digits s = true ->
     GetOptionValue s = to_int (Z.min LONG_MAX (digits_value 0 s))) /\
  (forall s, INT_MIN <= GetOptionValue s <= INT_MAX) /\
  GetOptionValue "2147483648" = INT_MIN /\
  GetOptionValue "4294967295" = -1.
Proof.
  split; [exact GetOptionValue_not_digits|].
  split.
  { intros s H Hmax. rewrite (GetOptionValue_atoi s H).
    exact (atoi_digits_small s H Hmax). }
  split; [reflexivity|].
  split.
  { intros s H. rewrite (GetOptionValue_atoi s H). exact (atoi_digits s H). }
  split; [exact GetOptionValue_bounds|].
  split; reflexivity.
Qed.

(* ================================================================== *)
(** ** The segment number in a file name *)

Lemma all_digits_get ds : forall k c,
  all_digits ds = true -> String.get k ds = Some c -> isdigit c = true.
Proof.
  induction ds as [|d ds IH]; intros k c H G; [discriminate G|].
  cbn [all_digits] in H. apply andb_true_iff in H. destruct H as (Hd & Hds).
  destruct k as [|k]; cbn [String.get] in G.
  - congruence.
  - exact (IH k c Hds G).
Qed.

Lemma get_append_right pre s k :
  String.get (String.length pre + k) (String.append pre s) = String.get k s.
Proof.
  induction pre as [|p pre IH]; cbn [String.length String.append Nat.add];
    [reflexivity|].
  cbn [String.get]. exact IH.
Qed.

Lemma get_some s k : (k < String.length s)%nat -> String.get k s <> None.
Proof.
  revert k. induction s as [|c s IH]; intros k H; cbn [String.length] in H;
    [lia|].
  destruct k as [|k]; cbn [String.get]; [discriminate | apply IH; lia].
Qed.

Lemma string_from_append pre s :
  string_from (String.length pre) (String.append pre s) = s.
Proof.
  induction pre as [|p pre IH]; cbn [String.length String.append string_from];
    [destruct s; reflexivity | exact IH].
Qed.

Lemma length_append_strings a b :
  String.length (String.append a b) = (String.length a + String.length b)%nat.
Proof.
  induction a as [|c a IH]; cbn [String.length String.append]; [reflexivity|].
  rewrite IH. reflexivity.
Qed.

(** the loop over the digits at the end of a name stops at the character
    before them *)
Lemma skip_digits_back_stops pre c ds :
  all_digits ds = true -> isdigit c = false ->
  forall k,
    (k <= String.length ds)%nat ->
    skip_digits_back (String.append pre (String c ds))
      (String.length pre + S k)
    = Some (String.length pre).
Proof.
  intros Hds Hc. induction k as [|k IH]; intros Hk.
  - replace (String.length pre + 1)%nat with (S (String.length pre)) by lia.
    cbn [skip_digits_back].
    replace (String.length pre) with (String.length pre + 0)%nat at 1 by lia.
    rewrite get_append_right. cbn [String.get]. rewrite Hc. reflexivity.
  - replace (String.length pre + S (S k))%nat
      with (S (String.length pre + S k)) by lia.
    cbn [skip_digits_back]. rewrite get_append_right. cbn [String.get].
    destruct (String.get k ds) as [d|] eqn:G.
    + rewrite (all_digits_get ds k d Hds G). apply IH. lia.
    + exfalso. apply (get_some ds k); [lia | exact G].
Qed.

(** a name of digits only has no segment number *)
Lemma skip_digits_back_all ds :
  all_digits ds = true ->
  forall k, (k <= String.length ds)%nat -> skip_digits_back ds k = None.
Proof.
  intros Hds. induction k as [|k IH]; intros Hk; [reflexivity|].
  cbn [skip_digits_back].
  destruct (String.get k ds) as [d|] eqn:G.
  - rewrite (all_digits_get ds k d Hds G). apply IH. lia.
  - exfalso. apply (get_some ds k); [lia | exact G].
Qed.

(** X22: [GetSegmentNumberFromFileName] reads the segment number off the end
    of the file name: for a name that ends with a dot and decimal digits
    it is the number the digits spell, when an [int] holds it (0 when no
    digit follows the dot); for a name whose last character that is no
    digit is not a dot, and for a name of digits only or an empty name, it
    is 0. *)
Theorem GetSegmentNumberFromFileName_suffix :
  (forall base ds,
     all_digits ds = true -> digits_value 0 ds <= INT_MAX ->
     GetSegmentNumberFromFileName (String.append base (String "." ds))
       = digits_value 0 ds) /\
  (forall pre c ds,
     all_digits ds = true -> isdigit c = false -> c <> "."%char ->
     GetSegmentNumberFromFileName (String.append pre (String c ds)) = 0)
  /\
  (forall ds,
     all_digits ds = true -> GetSegmentNumberFromFileName ds = 0).
Proof.
  split; [|split].
  - intros base ds Hds Hmax. unfold GetSegmentNumberFromFileName.
    rewrite length_append_strings. cbn [String.length].
    rewrite (skip_digits_back_stops base "." ds Hds eq_refl) by lia.
    replace (String.length base) with (String.length base + 0)%nat at 1 by lia.
    rewrite get_append_right. cbn [String.get].
    rewrite Ascii.eqb_refl. cbn [negb].
    replace (S (String.length base))
      with (String.length (String.append base ".")).
    2:{ rewrite length_append_strings. cbn [String.length]. lia. }
    replace (String.append base (String "." ds))
      with (String.append (String.append base ".") ds).
    2:{ clear. induction base as [|b base IH]; cbn [String.append];
          [reflexivity | rewrite IH; reflexivity]. }
    rewrite string_from_append, (atoi_digits_small ds Hds Hmax).
    apply u32_small.
    pose proof (digits_value_nonneg ds 0 ltac:(lia)). unfold INT_MAX in Hmax.
    lia.
  - intros pre c ds Hds Hc Hdot. unfold GetSegmentNumberFromFileName.
    rewrite length_append_strings. cbn [String.length].
    rewrite (skip_digits_back_stops pre c ds Hds Hc) by lia.
    replace (String.length pre) with (String.length pre + 0)%nat at 1 by lia.
    rewrite get_append_right. cbn [String.get].
    replace (Ascii.eqb c ".") with false
      by (symmetry; apply Ascii.eqb_neq; exact Hdot).
    reflexivity.
  - intros ds Hds. unfold GetSegmentNumberFromFileName.
    rewrite (skip_digits_back_all ds Hds) by lia. reflexivity.
Qed.
(* ================================================================== *)
(** ** The options [ConsumeOptions] accepts *)

(** the block range is as the program starts with it, or a range of block
    numbers that was asked for with [-R] *)
Definition range_set (g : globals) : Prop :=
  if bit_set (blockOptions g) BLOCK_RANGE
  then 0 <= blockStart g <= blockEnd g /\ blockEnd g <= INT_MAX
  else blockStart g = -1 /\ blockEnd g = -1.

(** the variables that only the decoding of the file sets are as the
    program starts with them *)
Definition undecoded (g : globals) : Prop :=
  specialType g = SPEC_SECT_NONE /\ buffer g = [] /\ blockSize g = 0 /\
  currentBlock g = 0 /\ tagNumber g = 0 /\ pageOffset g = 0 /\
  bytesToFormat g = 0 /\ blockVersion g = 0 /\ stdout g = [].

(** the file named by the last argument is open *)
Definition opened (fopen : string -> option (list Byte.byte))
    (options : list string) (p : program) : Prop :=
  exists name contents,
    List.last options EmptyString = name /\
    no_dash name = true /\
    fopen name = Some contents /\
    fp p = Some contents /\
    fileName p = Some name.

(** what holds of the variables all through [ConsumeOptions] *)
Definition settled (p : program) : Prop :=
  (exitCode (vars p) = 0 /\ notices p = [] \/ exitCode (vars p) = 1) /\
  0 < segmentSize (vars p) <= INT_MAX /\
  undecoded (vars p).

(** what holds of the return code and the variables between two options *)
Definition consuming (r : optionReturnCodes) (p : program) : Prop :=
  settled p /\
  (r = OPT_RC_INVALID \/ r = OPT_RC_FILE ->
   exitCode (vars p) = 1 /\ notices p <> []) /\
  (r = OPT_RC_VALID ->
   exitCode (vars p) = 0 /\ notices p = [] /\ range_set (vars p)).

Lemma bit_set_lor_same flags mask :
  mask <> 0 -> bit_set (Z.lor flags mask) mask = true.
Proof.
  intros H. unfold bit_set. rewrite Z.land_lor_distr_l, Z.land_diag.
  apply negb_true_iff, Z.eqb_neq. intros E. apply Z.lor_eq_0_iff in E. tauto.
Qed.

Lemma bit_set_lor_other flags mask mask' :
  Z.land mask mask' = 0 ->
  bit_set (Z.lor flags mask) mask' = bit_set flags mask'.
Proof.
  intros H. unfold bit_set. rewrite Z.land_lor_distr_l, H, Z.lor_0_r.
  reflexivity.
Qed.

(** the variables a function on the globals leaves alone *)
Definition options_only (f : globals -> globals) : Prop :=
  forall g,
    exitCode (f g) = exitCode g /\ stdout (f g) = stdout g /\
    specialType (f g) = specialType g /\ buffer (f g) = buffer g /\
    blockSize (f g) = blockSize g /\ currentBlock (f g) = currentBlock g /\
    tagNumber (f g) = tagNumber g /\ pageOffset (f g) = pageOffset g /\
    bytesToFormat (f g) = bytesToFormat g /\
    blockVersion (f g) = blockVersion g.

Lemma settled_vars p (f : globals -> globals) :
  settled p -> options_only f ->
  0 < segmentSize (f (vars p)) <= INT_MAX ->
  settled (with_vars f p).
Proof.
  intros (H1 & H4 & H5) Hf Hsize. unfold settled. cbn.
  destruct (Hf (vars p)) as (-> & F2 & F3 & F4 & F5 & F6 & F7 & F8 & F9 & F10).
  split; [exact H1|]. split; [exact Hsize|].
  unfold undecoded in *. rewrite F2, F3, F4, F5, F6, F7, F8, F9, F10.
  exact H5.
Qed.

Lemma consuming_complain r' m p :
  settled p -> r' <> OPT_RC_VALID -> consuming r' (complain m p).
Proof.
  intros (H1 & H4 & H5) Hr. unfold consuming, settled. cbn.
  split; [split; [right; reflexivity | split; [exact H4 | exact H5]]|].
  split; [|intros E; contradiction].
  intros _. split; [reflexivity|]. destruct (notices p); discriminate.
Qed.

Lemma consuming_other r' p :
  settled p -> r' = OPT_RC_DUPLICATE \/ r' = OPT_RC_COPYRIGHT ->
  consuming r' p.
Proof.
  intros H Hr. split; [exact H|].
  split.
  - intros [E|E]; destruct Hr; congruence.
  - intros E; destruct Hr; congruence.
Qed.

Lemma consuming_vars r p (f : globals -> globals) :
  consuming r p -> options_only f ->
  (r = OPT_RC_VALID -> range_set (vars p) -> range_set (f (vars p))) ->
  0 < segmentSize (f (vars p)) <= INT_MAX ->
  consuming r (with_vars f p).
Proof.
  intros (H1 & H2 & H3) Hf Hrange Hsize.
  split; [exact (settled_vars p f H1 Hf Hsize)|]. cbn.
  destruct (Hf (vars p)) as (-> & _).
  split; [exact H2|].
  intros E. destruct (H3 E) as (A & B & C). split; [exact A|].
  split; [exact B|]. exact (Hrange E C).
Qed.

Ltac only_options := intros ?; repeat split.

(** the loop over the switches of an option string *)
Lemma ConsumeOptions_switches_spec switches :
  forall c,
    consuming (rc c) (state c) ->
    consuming (rc (ConsumeOptions_switches switches c))
      (state (ConsumeOptions_switches switches c)) /\
    fp (state (ConsumeOptions_switches switches c)) = fp (state c) /\
    fileName (state (ConsumeOptions_switches switches c))
      = fileName (state c).
Proof.
  induction switches as [|ch rest IH]; intros c Hc; cbn [ConsumeOptions_switches].
  { split; [exact Hc | split; reflexivity]. }
  pose proof Hc as (Hs & _).
  assert (Hsize : 0 < segmentSize (vars (state c)) <= INT_MAX)
    by (destruct Hs as (_ & H & _); exact H).
  match goal with
  | |- context [if negb (is_valid (rc ?c1)) then _ else _] =>
      set (c' := c1);
      assert (H' : consuming (rc c') (state c') /\
                   fp (state c') = fp (state c) /\
                   fileName (state c') = fileName (state c))
  end.
  { unfold c'. destruct (Ascii.eqb ch "h").
    { split; [|split; reflexivity].
      apply consuming_other; [exact Hs | right; reflexivity]. }
    destruct (Ascii.eqb ch "k").
    { unfold SET_OPTION.
      destruct (bit_set (blockOptions (vars (state c))) BLOCK_CHECKSUMS).
      - split; [|split; reflexivity]. cbn [rc state].
        apply consuming_other; [|left; reflexivity].
        apply settled_vars; [exact Hs | only_options | exact Hsize].
      - split; [|split; reflexivity]. cbn [rc state].
        apply consuming_vars; [exact Hc | only_options | | exact Hsize].
        intros _. unfold range_set. cbn.
        rewrite bit_set_lor_other by reflexivity. tauto. }
    destruct (Ascii.eqb ch "l").
    { unfold SET_OPTION.
      destruct (bit_set (blockOptions (vars (state c))) BLOCK_SKIP_LEAF).
      - split; [|split; reflexivity]. cbn [rc state].
        apply consuming_other; [|left; reflexivity].
        apply settled_vars; [exact Hs | only_options | exact Hsize].
      - split; [|split; reflexivity]. cbn [rc state].
        apply consuming_vars; [exact Hc | only_options | | exact Hsize].
        intros _. unfold range_set. cbn.
        rewrite bit_set_lor_other by reflexivity. tauto. }
    split; [|split; reflexivity]. cbn [rc state].
    apply consuming_complain; [exact Hs | discriminate]. }
  clearbody c'. destruct H' as (H1 & H2 & H3).
  destruct (negb (is_valid (rc c'))).
  - split; [exact H1 | split; assumption].
  - destruct (IH c' H1) as (I1 & I2 & I3).
    split; [exact I1|]. split; congruence.
Qed.

Section Options.

Variable fopen : string -> option (list Byte.byte).
Variable numOptions : Z.
Variable options : list string.
Hypothesis numOptions_range : 2 <= numOptions <= INT_MAX.
Hypothesis options_length : Z.of_nat (List.length options) = numOptions.

(** every [options[x]] with [x] below [numOptions] is an argument *)
Lemma option_at_some x :
  0 <= x < numOptions ->
  exists s, option_at options x = Some s /\ In s options.
Proof.
  intros H. unfold option_at.
  replace (x <? 0) with false by (symmetry; apply Z.ltb_ge; lia).
  destruct (nth_error options (Z.to_nat x)) as [s|] eqn:E.
  - exists s. split; [reflexivity|]. exact (nth_error_In _ _ E).
  - apply nth_error_None in E. lia.
Qed.

Lemma option_at_last s :
  option_at options (numOptions - 1) = Some s ->
  List.last options EmptyString = s.
Proof.
  unfold option_at.
  replace (numOptions - 1 <? 0) with false by (symmetry; apply Z.ltb_ge; lia).
  intros E.
  destruct (exists_last (l := options)) as (front & a & ->).
  { intros ->. cbn in options_length. lia. }
  rewrite last_last. rewrite length_app in options_length.
  cbn [List.length] in options_length.
  replace (Z.to_nat (numOptions - 1)) with (List.length front) in E by lia.
  rewrite nth_error_app2, Nat.sub_diag in E by lia. cbn in E. congruence.
Qed.

(** at the head of the loop over the options, with index [x] *)
Definition at_head (x : Z) (c : consumed) : Prop :=
  1 <= x <= numOptions /\
  consuming (rc c) (state c) /\
  (x < numOptions -> fp (state c) = None /\ fileName (state c) = None) /\
  (x = numOptions -> opened fopen options (state c)).

(** when the loop is left *)
Definition at_end (c : consumed) : Prop :=
  consuming (rc c) (state c) /\
  (rc c = OPT_RC_VALID -> opened fopen options (state c)).

Lemma round_spec x c :
  at_head x c -> x < numOptions ->
  match ConsumeOptions_round fopen numOptions options x c with
  | Continue x' c' => x <= x' < numOptions /\ at_head (x' + 1) c'
  | Break c' => rc c' <> OPT_RC_VALID /\ at_end c'
  | Undefined => False
  end.
Proof.
  intros (Hx & Hc & Hclosed & _) Hlt. specialize (Hclosed Hlt).
  destruct Hclosed as (Hfp & Hname).
  unfold ConsumeOptions_round.
  destruct (option_at_some x ltac:(lia)) as (s & Hat & Hin). rewrite Hat.
  cbv zeta.
  assert (U2 : u32 (numOptions - 2) = numOptions - 2)
    by (apply u32_small; unfold INT_MAX in *; lia).
  assert (U1 : u32 (numOptions - 1) = numOptions - 1)
    by (apply u32_small; unfold INT_MAX in *; lia).
  assert (Ux : u32 (x + 1) = x + 1)
    by (apply u32_small; unfold INT_MAX in *; lia).
  rewrite U2, U1, Ux.
  pose proof Hc as (Hs & Hfailed & Hvalid).
  pose proof Hs as (_ & Hsize & _).
  destruct ((strlen s =? 2) && String.eqb s "-R") eqn:ER.
  { unfold SET_OPTION.
    destruct (bit_set (blockOptions (vars (state c))) BLOCK_RANGE) eqn:EB.
    { cbn [is_duplicate]. split; [discriminate|]. split; [|discriminate].
      cbn [rc state]. apply consuming_other; [|left; reflexivity].
      apply settled_vars; [exact Hs | only_options | exact Hsize]. }
    set (p1 := with_vars (set_blockOptions _) (state c)).
    assert (Hp1 : settled p1)
      by (apply settled_vars; [exact Hs | only_options | exact Hsize]).
    destruct (is_duplicate (rc c)) eqn:ED.
    { cbn [rc state]. split; [destruct (rc c); discriminate|].
      split; [|cbn [rc]; intros E; rewrite E in ED; discriminate].
      apply consuming_other; [exact Hp1|]. left.
      destruct (rc c); try discriminate; reflexivity. }
    destruct (numOptions - 2 <=? x) eqn:E2.
    { split; [discriminate|]. split; [|discriminate].
      apply consuming_complain; [exact Hp1 | discriminate]. }
    apply Z.leb_gt in E2.
    destruct (option_at_some (x + 1) ltac:(lia)) as (s1 & -> & Hin1).
    cbv zeta.
    pose proof (GetOptionValue_bounds s1) as Brange.
    set (range := GetOptionValue s1) in *.
    destruct (range <? 0) eqn:Eneg.
    { split; [discriminate|]. split; [|discriminate].
      apply consuming_complain; [exact Hp1 | discriminate]. }
    apply Z.ltb_ge in Eneg.
    set (p2 := with_vars (set_blockStart range) _).
    assert (Hp2 : settled p2).
    { unfold p2. apply settled_vars; [|only_options|exact Hsize].
      apply settled_vars; [exact Hp1|only_options|exact Hsize]. }
    assert (Hclosed2 : fp p2 = None /\ fileName p2 = None)
      by (split; assumption).
    assert (Hcons : forall e, range <= e <= INT_MAX ->
              consuming (rc c) (with_vars (set_blockEnd e) p2)).
    { intros e He. split.
      { apply settled_vars; [exact Hp2|only_options|exact Hsize]. }
      split; [exact Hfailed|]. intros E. destruct (Hvalid E) as (A & B & _).
      split; [exact A|]. split; [exact B|]. unfold range_set. cbn.
      rewrite bit_set_lor_same by discriminate. lia. }
    assert (Hcons2 : consuming (rc c) p2).
    { split; [exact Hp2|].
      split; [exact Hfailed|]. intros E. destruct (Hvalid E) as (A & B & _).
      split; [exact A|]. split; [exact B|]. unfold range_set. cbn.
      rewrite bit_set_lor_same by discriminate. lia. }
    rewrite (u32_small (numOptions - 3)) by (unfold INT_MAX in *; lia).
    rewrite (u32_small (x + 1 + 1)) by (unfold INT_MAX in *; lia).
    destruct (x + 1 <=? numOptions - 3) eqn:E3.
    2:{ split; [lia|]. split; [lia|]. split; [exact Hcons2|].
        split; [intros _; exact Hclosed2 | lia]. }
    apply Z.leb_le in E3.
    destruct (option_at_some (x + 1 + 1) ltac:(lia)) as (s2 & -> & Hin2).
    pose proof (GetOptionValue_bounds s2) as Brange2.
    set (range2 := GetOptionValue s2) in *.
    destruct (0 <=? range2) eqn:Epos.
    2:{ split; [lia|]. split; [lia|]. split; [exact Hcons2|].
        split; [intros _; exact Hclosed2 | lia]. }
    destruct (blockStart (vars p2) <=? range2) eqn:Ele.
    2:{ split; [discriminate|]. split; [|discriminate].
        apply consuming_complain; [exact Hp2 | discriminate]. }
    apply Z.leb_le in Ele. cbn in Ele.
    split; [lia|]. split; [lia|]. split; [apply Hcons; lia|].
    split; [intros _; exact Hclosed2 | lia]. }
  destruct ((strlen s =? 2) && String.eqb s "-s") eqn:ES.
  { unfold SET_OPTION.
    destruct (bit_set (segmentOptions (state c)) SEGMENT_SIZE_FORCED) eqn:EB.
    { cbn [is_duplicate]. split; [discriminate|]. split; [|discriminate].
      apply consuming_other; [exact Hs | left; reflexivity]. }
    destruct (is_duplicate (rc c)) eqn:ED.
    { cbn [rc state]. split; [destruct (rc c); discriminate|].
      split; [|cbn [rc]; intros E; rewrite E in ED; discriminate].
      apply consuming_other; [exact Hs|]. left.
      destruct (rc c); try discriminate; reflexivity. }
    destruct (numOptions - 2 <=? x) eqn:E2.
    { split; [discriminate|]. split; [|discriminate].
      apply consuming_complain; [exact Hs | discriminate]. }
    apply Z.leb_gt in E2.
    destruct (option_at_some (x + 1) ltac:(lia)) as (s1 & -> & Hin1).
    cbv zeta.
    pose proof (GetOptionValue_bounds s1) as Bsize.
    set (size := GetOptionValue s1) in *.
    destruct (0 <? size) eqn:Epos.
    2:{ split; [discriminate|]. split; [|discriminate].
        apply consuming_complain; [exact Hs | discriminate]. }
    apply Z.ltb_lt in Epos.
    split; [lia|]. split; [lia|]. split.
    { cbn [rc state].
      apply (consuming_vars (rc c) (set_segmentOptions _ (state c)));
        [exact Hc | only_options | intros _ H; exact H | cbn; lia]. }
    split; [intros _; split; assumption | lia]. }
  destruct ((strlen s =? 2) && String.eqb s "-n") eqn:EN.
  { unfold SET_OPTION.
    destruct (bit_set (segmentOptions (state c)) SEGMENT_NUMBER_FORCED) eqn:EB.
    { cbn [is_duplicate]. split; [discriminate|]. split; [|discriminate].
      apply consuming_other; [exact Hs | left; reflexivity]. }
    destruct (is_duplicate (rc c)) eqn:ED.
    { cbn [rc state]. split; [destruct (rc c); discriminate|].
      split; [|cbn [rc]; intros E; rewrite E in ED; discriminate].
      apply consuming_other; [exact Hs|]. left.
      destruct (rc c); try discriminate; reflexivity. }
    destruct (numOptions - 2 <=? x) eqn:E2.
    { split; [discriminate|]. split; [|discriminate].
      apply consuming_complain; [exact Hs | discriminate]. }
    apply Z.leb_gt in E2.
    destruct (option_at_some (x + 1) ltac:(lia)) as (s1 & -> & Hin1).
    cbv zeta.
    set (number := GetOptionValue s1) in *.
    destruct (0 <? number) eqn:Epos.
    2:{ split; [discriminate|]. split; [|discriminate].
        apply consuming_complain; [exact Hs | discriminate]. }
    split; [lia|]. split; [lia|]. split.
    { cbn [rc state].
      apply (consuming_vars (rc c) (set_segmentOptions _ (state c)));
        [exact Hc | only_options | intros _ H; exact H | exact Hsize]. }
    split; [intros _; split; assumption | lia]. }
  destruct (x =? numOptions - 1) eqn:Elast.
  { apply Z.eqb_eq in Elast.
    assert (Hs_last : option_at options (numOptions - 1) = Some s)
      by (rewrite <- Elast; exact Hat).
    destruct (no_dash s) eqn:Edash.
    2:{ destruct (String.eqb s "-h").
        - split; [discriminate|]. split; [|discriminate].
          apply consuming_other; [exact Hs | right; reflexivity].
        - split; [discriminate|]. split; [|discriminate].
          apply consuming_complain; [exact Hs | discriminate]. }
    destruct (fopen s) as [contents|] eqn:Eopen.
    2:{ split; [discriminate|]. split; [|discriminate].
        apply consuming_complain; [exact Hs | discriminate]. }
    assert (Hopen : forall p,
              fp p = Some contents -> fileName p = Some s ->
              opened fopen options p).
    { intros p Hp1 Hp2. exists s, contents.
      split; [exact (option_at_last s Hs_last)|]. repeat split; assumption. }
    destruct (negb (bit_set _ SEGMENT_NUMBER_FORCED)).
    - split; [lia|]. split; [lia|]. split.
      { cbn [rc state].
        apply (consuming_vars (rc c) (set_fileName _ (set_fp _ (state c))));
          [exact Hc | only_options | intros _ H; exact H | exact Hsize]. }
      split; [intros H; lia|]. intros _. apply Hopen; reflexivity.
    - split; [lia|]. split; [lia|]. split; [exact Hc|].
      split; [intros H; lia|]. intros _. apply Hopen; reflexivity. }
  destruct (no_dash s) eqn:Edash.
  { split; [discriminate|]. split; [|discriminate].
    apply consuming_complain; [exact Hs | discriminate]. }
  apply Z.eqb_neq in Elast.
  destruct (ConsumeOptions_switches_spec (string_from 1 s) c Hc)
    as (K1 & K2 & K3).
  split; [lia|]. split; [lia|]. split; [exact K1|].
  split; [intros _; split; congruence | lia].
Qed.

Lemma loop_spec fuel :
  forall x c,
    at_head x c -> (Z.to_nat (numOptions - x) <= fuel)%nat ->
    match ConsumeOptions_loop fopen fuel numOptions options x c with
    | Some (Break c') => at_end c'
    | _ => False
    end.
Proof.
  assert (Un : u32 numOptions = numOptions)
    by (apply u32_small; unfold INT_MAX in *; lia).
  induction fuel as [|fuel IH]; intros x c Hhead Hfuel.
  - cbn [ConsumeOptions_loop]. rewrite Un.
    destruct Hhead as (Hx & Hc & _ & Hopen).
    replace (x <? numOptions) with false by (symmetry; apply Z.ltb_ge; lia).
    split; [exact Hc|]. intros _. apply Hopen. lia.
  - cbn [ConsumeOptions_loop]. rewrite Un.
    destruct (x <? numOptions) eqn:E.
    2:{ apply Z.ltb_ge in E. destruct Hhead as (Hx & Hc & _ & Hopen).
        split; [exact Hc|]. intros _. apply Hopen. lia. }
    apply Z.ltb_lt in E. pose proof (round_spec x c Hhead E) as R.
    destruct (ConsumeOptions_round fopen numOptions options x c)
      as [x' c'| c' |].
    + destruct R as (Rx & Rhead). pose proof Hhead as (Hx & _).
      rewrite u32_small by (unfold INT_MAX in *; lia).
      apply IH; [exact Rhead | lia].
    + exact (proj2 R).
    + exact R.
Qed.

(** what [ConsumeOptions] returns and leaves, on the variables the program
    starts with *)
Definition consumed_spec (r : optionReturnCodes) (p : program) : Prop :=
  settled p /\
  (r <> OPT_RC_VALID -> r <> OPT_RC_COPYRIGHT ->
   exitCode (vars p) = 1 /\ notices p <> []) /\
  (r = OPT_RC_VALID ->
   exitCode (vars p) = 0 /\ notices p = [] /\ range_set (vars p) /\
   opened fopen options p).

Lemma ConsumeOptions_spec :
  match ConsumeOptions fopen numOptions options initial_program with
  | Some (r, p) => consumed_spec r p
  | None => False
  end.
Proof.
  unfold ConsumeOptions.
  assert (H0 : at_head 1 (mkConsumed OPT_RC_VALID zero initial_program)).
  { split; [lia|]. split.
    { split.
      - split; [left; split; reflexivity|].
        split; [split; [reflexivity | discriminate]|].
        repeat split.
      - split; [intros [E|E]; discriminate|]. intros _.
        split; [reflexivity|]. split; [reflexivity|]. split; reflexivity. }
    split; [intros _; split; reflexivity | intros E; lia]. }
  pose proof (loop_spec (List.length options) 1 _ H0 ltac:(lia)) as L.
  destruct (ConsumeOptions_loop fopen (List.length options) numOptions options
              1 _) as [[x' c'|c'|]|]; try contradiction.
  destruct L as ((Hs & Hfailed & Hvalid) & Hopen).
  destruct (rc c') eqn:Er; cbn [is_duplicate].
  - split; [exact Hs|]. split; [intros N; contradiction|]. intros _.
    destruct (Hvalid eq_refl) as (A & B & C).
    repeat (split; [assumption|]). exact (Hopen eq_refl).
  - split; [exact Hs|]. split; [|discriminate]. intros _ _.
    apply Hfailed. left. reflexivity.
  - split; [exact Hs|]. split; [|discriminate]. intros _ _.
    apply Hfailed. right. reflexivity.
  - destruct (consuming_complain OPT_RC_DUPLICATE
                (ErrDuplicateOption (duplicateSwitch c')) (state c') Hs
                ltac:(discriminate)) as (Ks & Kf & _).
    split; [exact Ks|]. split; [|discriminate]. intros _ _.
    cbn. split; [reflexivity|]. destruct (notices (state c')); discriminate.
  - split; [exact Hs|]. split; [intros _ N; contradiction | discriminate].
Qed.

End Options.

(** X23: [ConsumeOptions] returns for every command line of at least two
    arguments: the loop over the arguments ends, and the arguments it takes
    after [-R], [-s] and [-n] are never past the last one. *)
Theorem ConsumeOptions_returns fopen numOptions options :
  2 <= numOptions <= INT_MAX ->
  Z.of_nat (List.length options) = numOptions ->
  exists r p,
    ConsumeOptions fopen numOptions options initial_program = Some (r, p).
Proof.
  intros Hn Hlen.
  pose proof (ConsumeOptions_spec fopen numOptions options Hn Hlen) as S.
  destruct (ConsumeOptions fopen numOptions options initial_program)
    as [[r p]|]; [|contradiction].
  exists r, p. reflexivity.
Qed.

(** X24: When [ConsumeOptions] returns [OPT_RC_VALID], the last argument does
    not start with a dash and names the file that was opened, nothing was
    printed and the exit code is 0; the block range is the one the program
    starts with (-1, -1) when [-R] was not given, and blocks
    [blockStart <= blockEnd] that are not negative when it was; the segment
    size is positive. *)
Theorem ConsumeOptions_valid fopen numOptions options p :
  2 <= numOptions <= INT_MAX ->
  Z.of_nat (List.length options) = numOptions ->
  ConsumeOptions fopen numOptions options initial_program
    = Some (OPT_RC_VALID, p) ->
  opened fopen options p /\
  notices p = [] /\
  exitCode (vars p) = 0 /\
  range_set (vars p) /\
  0 < segmentSize (vars p) <= INT_MAX /\
  undecoded (vars p).
Proof.
  intros Hn Hlen E.
  pose proof (ConsumeOptions_spec fopen numOptions options Hn Hlen) as S.
  rewrite E in S. destruct S as ((_ & Hsize & Hun) & _ & Hvalid).
  destruct (Hvalid eq_refl) as (A & B & C & D).
  repeat (split; [assumption|]). exact Hun.
Qed.

(** X25: When [ConsumeOptions] returns [OPT_RC_INVALID], [OPT_RC_FILE] or
    [OPT_RC_DUPLICATE], it has printed an error and set the exit code to 1;
    whatever it returns, the exit code is 1, or it is 0 and no error was
    printed, and nothing of the XML document was written. *)
Theorem ConsumeOptions_rejected fopen numOptions options r p :
  2 <= numOptions <= INT_MAX ->
  Z.of_nat (List.length options) = numOptions ->
  ConsumeOptions fopen numOptions options initial_program = Some (r, p) ->
  (r <> OPT_RC_VALID -> r <> OPT_RC_COPYRIGHT ->
   exitCode (vars p) = 1 /\ notices p <> []) /\
  (exitCode (vars p) = 0 /\ notices p = [] \/ exitCode (vars p) = 1) /\
  stdout (vars p) = [].
Proof.
  intros Hn Hlen E.
  pose proof (ConsumeOptions_spec fopen numOptions options Hn Hlen) as S.
  rewrite E in S. destruct S as ((Hcode & _ & Hun) & Hfailed & _).
  split; [exact Hfailed|]. split; [exact Hcode|].
  unfold undecoded in Hun. tauto.
Qed.

(* ================================================================== *)
(** ** The options in the header of the document *)

Lemma strlen_strcat a b : strlen (strcat a b) = strlen a + strlen b.
Proof. unfold strlen. rewrite strcat_length. lia. Qed.

Lemma cache_options_length options :
  forall optionBuffer,
    strlen (cache_options optionBuffer options)
      <= Z.max (strlen optionBuffer) 51.
Proof.
  induction options as [|s rest IH]; intros buf; cbn [cache_options]; [lia|].
  destruct (50 <? strlen buf + strlen s) eqn:E; [lia|].
  apply Z.ltb_ge in E. specialize (IH (strcat (strcat buf s) " ")).
  rewrite !strlen_strcat in IH. change (strlen " ") with 1 in IH. lia.
Qed.

(** the options followed by a space each *)
Fixpoint spaced (options : list string) : string :=
  match options with
  | [] => EmptyString
  | s :: rest => String.append s (String.append " " (spaced rest))
  end.

Lemma cache_options_all options :
  forall optionBuffer,
    strlen optionBuffer + strlen (spaced options) <= 51 ->
    cache_options optionBuffer options
      = String.append optionBuffer (spaced options).
Proof.
  assert (nil_r : forall s, String.append s "" = s).
  { induction s as [|c s IH]; cbn; [reflexivity | rewrite IH; reflexivity]. }
  assert (assoc : forall a b c, String.append (String.append a b) c
                                = String.append a (String.append b c)).
  { induction a as [|x a IH]; intros b c; cbn;
      [reflexivity | rewrite IH; reflexivity]. }
  induction options as [|s rest IH]; intros buf H;
    cbn [cache_options spaced] in *.
  - symmetry. apply nil_r.
  - unfold strlen in H. rewrite !length_append_strings in H.
    cbn [String.length] in H.
    replace (50 <? strlen buf + strlen s) with false
      by (symmetry; apply Z.ltb_ge; unfold strlen; lia).
    unfold strcat. rewrite IH.
    + rewrite !assoc. reflexivity.
    + unfold strlen. rewrite !length_append_strings. cbn [String.length]. lia.
Qed.

(** X26: The options [EmitXmlDocHeader] caches for the header of the document
    always fit the 52 characters of [optionBuffer], the final NUL
    included, whatever the number and the length of the arguments: an
    argument that would take the text past 50 characters ends the list.
    When the arguments, a space after each, take no more than 51 characters,
    all of them are listed. *)
Theorem cache_options_fits options :
  strlen (cache_options "" options) + 1 <= 52 /\
  (strlen (spaced options) <= 51 ->
   cache_options "" options = spaced options).
Proof.
  split.
  - pose proof (cache_options_length options "") as H.
    change (strlen "") with 0 in H. lia.
  - intros H. apply (cache_options_all options ""). exact H.
Qed.
(* ================================================================== *)
(** ** The whole program *)

(** what is read at the front of a file is in the file *)
Lemma peek_firstn n k buf :
  forall off v, peek n (firstn k buf) off = Some v -> peek n buf off = Some v.
Proof.
  induction n as [|n IH]; intros off v; cbn [peek]; [tauto|].
  unfold byte_at.
  destruct (off <? 0); [discriminate|].
  destruct (nth_error (firstn k buf) (Z.to_nat off)) as [b|] eqn:E;
    [|discriminate].
  assert (E' : nth_error buf (Z.to_nat off) = Some b).
  { rewrite nth_error_firstn in E.
    destruct (Z.to_nat off <? k)%nat; [exact E | discriminate]. }
  rewrite E'. cbn [option_map].
  destruct (peek n (firstn k buf) (off + 1)) as [r|] eqn:Er; [|discriminate].
  rewrite (IH _ _ Er). tauto.
Qed.

Section Main.

Variable fopen : string -> option (list Byte.byte).
Variable timeStr : string.
Variable malloc : Z -> option (list Byte.byte).
Variable fseek_fails : bool.
Variable pg_checksum_page : list Byte.byte -> Z -> Z.
Variable argv : Z.
Variable argc : list string.
Hypothesis argv_int : argv <= INT_MAX.
Hypothesis argc_length : Z.of_nat (List.length argc) = argv.

Let run := (main fopen timeStr malloc fseek_fails pg_checksum_page).

(** the header of the document for the file the last argument names *)
Definition doc_header : notice :=
  let optionBuffer :=
    cache_options "" (firstn (Z.to_nat (argv - 2)) (skipn 1 argc)) in
  MsgDocHeader timeStr
    (if 0 <? strlen optionBuffer then optionBuffer else "None")
    (Some (List.last argc EmptyString)).

Lemma main_cases f :
  run argv argc = Some f ->
  (exit_status f = 0 \/ exit_status f = 1) /\
  (exit_status f = 0 ->
   printed f = [Notice MsgCopyright; Notice MsgUsage] \/
   (exists out,
      printed f
        = Notice doc_header :: map Decoded (out ++ [OutMsg MsgFooter]) /\
      Forall not_footer out) \/
   (printed f = [Notice doc_header] /\
    exists contents pv,
      fopen (List.last argc EmptyString) = Some contents /\
      peek 2 contents PG.off_pd_pagesize_version = Some pv /\
      page_size_of pv = 0)).
Proof.
  unfold run, main.
  destruct (argv <? 2) eqn:E2.
  { cbn. intros [= <-]. cbn. split; [left; reflexivity|]. intros _. left.
    reflexivity. }
  apply Z.ltb_ge in E2.
  pose proof (ConsumeOptions_spec fopen argv argc ltac:(lia) argc_length) as S.
  destruct (ConsumeOptions fopen argv argc initial_program) as [[r p]|];
    [|discriminate].
  destruct S as ((Hcode & Hsize & Hun) & Hfailed & Hvalid).
  destruct (negb (is_valid r)) eqn:Er.
  { intros [= <-].
    assert (Hout : stdout (vars p) = []) by (unfold undecoded in Hun; tauto).
    destruct r; try discriminate Er; cbn; rewrite Hout;
      (split; [tauto|]); intros E0;
      try (destruct Hfailed as (F & _); [discriminate | discriminate | lia]).
    left. destruct Hcode as [(_ & ->)|]; [reflexivity | lia]. }
  destruct r; try discriminate Er. clear Er Hfailed.
  destruct (Hvalid eq_refl)
    as (Hexit & Hnotices & Hrange
        & name & contents & Hname & Hdash & Hopen & Hfp & HfileName).
  unfold EmitXmlDocHeader. cbv zeta. cbn [fp note]. rewrite Hfp.
  rewrite HfileName, <- Hname. fold doc_header.
  change (vars (note doc_header p)) with (vars p).
  assert (Hprinted : forall g after,
            printed (finish (note doc_header p) g after)
            = Notice doc_header :: map Decoded (stdout g) ++ map Notice after).
  { intros g after. cbn. rewrite Hnotices. reflexivity. }
  assert (Hout : stdout (vars p) = []) by (unfold undecoded in Hun; tauto).
  set (p' := note doc_header p) in *.
  set (head := firstn _ contents).
  destruct (GetBlockSize_cases head (vars p))
    as (size & g' & -> & Hmod & Hbound & Hfull & Hshort).
  assert (Hg' : (exitCode g' = 0 \/ exitCode g' = 1) /\
                (0 < size \/ exitCode g' = 0 -> g' = vars p)).
  { destruct (Z.eq_dec (Z.of_nat (List.length head)) PG.sizeof_PageHeaderData)
      as [E|E].
    - destruct (Hfull E) as (-> & _). split; [lia | reflexivity].
    - destruct (Hshort E) as (-> & ->). cbn. split; [right; reflexivity|].
      intros [H|H]; [lia | discriminate]. }
  destruct Hg' as (Hcode' & Hsame).
  destruct (0 <? size) eqn:Epos.
  2:{ intros [= <-]. rewrite Hprinted. cbn [exit_status finish].
      change (exitCode (set_blockSize size g')) with (exitCode g').
      change (stdout (set_blockSize size g')) with (stdout g').
      split; [exact Hcode'|]. intros E0.
      right. right. rewrite (Hsame (or_intror E0)), Hout.
      split; [reflexivity|].
      apply Z.ltb_ge in Epos.
      destruct (Z.eq_dec (Z.of_nat (List.length head))
                  PG.sizeof_PageHeaderData) as [E|E].
      - destruct (Hfull E) as (_ & pv & Hpv & Hsz).
        exists contents, pv. split; [rewrite Hname; exact Hopen|].
        split; [exact (peek_firstn _ _ _ _ _ Hpv) | lia].
      - destruct (Hshort E) as (_ & Hg). rewrite Hg in E0. discriminate E0. }
  apply Z.ltb_lt in Epos. rewrite (Hsame (or_introl Epos)).
  destruct (malloc size) as [bytes|].
  2:{ intros [= <-]. cbn [exit_status finish]. split; [right; reflexivity|].
      intros E0. discriminate E0. }
  set (g0 := set_buffer bytes (set_blockSize size (vars p))).
  destruct (EmitXmlFile_raises pg_checksum_page (file_reads contents g0)
              fseek_fails g0) as (Hraise & Hexits).
  destruct (EmitXmlFile_closes pg_checksum_page (file_reads contents g0)
              fseek_fails g0) as (new & Hnew & Hclose).
  change (stdout g0) with (stdout (vars p)) in Hclose.
  rewrite Hout in Hclose. cbn [app] in Hclose.
  assert (Hcode0 : exitCode g0 = 0) by exact Hexit.
  destruct (EmitXmlFile pg_checksum_page (file_reads contents g0)
              fseek_fails g0)
    as [[] g1 | g1 | g1]; cbn [final] in *; [| |discriminate].
  - intros [= <-]. rewrite Hprinted. cbn [exit_status finish].
    split.
    { destruct Hraise as [->| ->]; [left; exact Hcode0 | right; reflexivity]. }
    intros _. right. left. exists new. rewrite Hclose, app_nil_r.
    split; [reflexivity | exact Hnew].
  - intros [= <-]. cbn [exit_status finish]. rewrite (Hexits g1 eq_refl).
    split; [right; reflexivity | discriminate].
Qed.

End Main.

(** X27: Every run of the program that ends does so with the exit status 0 or
    1: the options, the reading of the block size, the buffer and the
    decoding of the blocks only ever set the exit code to 1. *)
Theorem main_exit_status fopen timeStr malloc fseek_fails pg_checksum_page
    argv argc f :
  argv <= INT_MAX ->
  Z.of_nat (List.length argc) = argv ->
  main fopen timeStr malloc fseek_fails pg_checksum_page argv argc = Some f ->
  exit_status f = 0 \/ exit_status f = 1.
Proof.
  intros Hint Hlen Hrun.
  exact (proj1 (main_cases fopen timeStr malloc fseek_fails pg_checksum_page
                  argv argc Hint Hlen f Hrun)).
Qed.

(** X28: A run that ends with the exit status 0 has printed one of three
    things: the copyright and the usage and nothing else (no argument, or
    help asked for); or the header of the document for the file named by
    the last argument, then lines and tags none of which is the footer, then
    the footer, so that the document is closed; or the header of the
    document and nothing else, which happens when the page size in the
    header of block 0 is 0: the document is then left open, without any
    message. *)
Theorem main_success fopen timeStr malloc fseek_fails pg_checksum_page
    argv argc f :
  argv <= INT_MAX ->
  Z.of_nat (List.length argc) = argv ->
  main fopen timeStr malloc fseek_fails pg_checksum_page argv argc = Some f ->
  exit_status f = 0 ->
  printed f = [Notice MsgCopyright; Notice MsgUsage] \/
  (exists out,
     printed f
       = Notice (doc_header timeStr argv argc)
         :: map Decoded (out ++ [OutMsg MsgFooter]) /\
     Forall not_footer out) \/
  (printed f = [Notice (doc_header timeStr argv argc)] /\
   exists contents pv,
     fopen (List.last argc EmptyString) = Some contents /\
     peek 2 contents PG.off_pd_pagesize_version = Some pv /\
     page_size_of pv = 0).
Proof.
  intros Hint Hlen Hrun.
  exact (proj2 (main_cases fopen timeStr malloc fseek_fails pg_checksum_page
                  argv argc Hint Hlen f Hrun)).
Qed.
(* ================================================================== *)
(** ** The further properties on the concrete pages *)

Lemma GetSpecialSectionType_returns_witness :
  exists t,
    GetSpecialSectionType Pages.heap_block = Ret t Pages.heap_block /\
    (t = SPEC_SECT_NONE <->
     256 = blockSize Pages.heap_block /\
     bytesToFormat Pages.heap_block = blockSize Pages.heap_block) /\
    (t = SPEC_SECT_INDEX_BTREE ->
     blockSize Pages.heap_block - 256
       = PG.MAXALIGN PG.sizeof_BTPageOpaqueData /\
     bytesToFormat Pages.heap_block = blockSize Pages.heap_block).
Proof.
  apply (GetSpecialSectionType_returns Pages.heap_block 256);
    [unfold run_state; evaluate | evaluate].
Defined.

Lemma GetSpecialSectionType_partial_block_witness :
  GetSpecialSectionType Pages.short_block
    = Ret SPEC_SECT_ERROR_UNKNOWN Pages.short_block.
Proof.
  apply (GetSpecialSectionType_partial_block Pages.short_block 256);
    [unfold run_state; evaluate | evaluate | evaluate].
Defined.

Lemma GetSpecialSectionType_index_family_witness :
  GetSpecialSectionType Pages.hash_block
    = Ret SPEC_SECT_INDEX_HASH Pages.hash_block.
Proof.
  apply (GetSpecialSectionType_index_family Pages.hash_block 240 65408);
    [unfold run_state; evaluate | evaluate ..].
Defined.

Lemma IsBtreeMetaPage_classified_witness :
  GetSpecialSectionType Pages.btree_meta_block
    = Ret SPEC_SECT_INDEX_BTREE Pages.btree_meta_block.
Proof.
  apply (IsBtreeMetaPage_classified Pages.btree_meta_block 260);
    [unfold run_state; evaluate | evaluate ..].
Defined.


Lemma EmitXmlIndexTuple_tiles_witness :
  exists g' new,
    EmitXmlIndexTuple 0 1 200 200 Pages.btree_block = Ret tt g' /\
    tags_of (stdout g') = tags_of (stdout Pages.btree_block) ++ new /\
    tiles 200 (200 + IndexTupleSize 16) new.
Proof.
  apply (EmitXmlIndexTuple_tiles 0 1 200 200 Pages.btree_block 16); evaluate.
Defined.

Lemma EmitXmlSpecial_btree_witness :
  exists g' new,
    EmitXmlSpecial 0 0
      (set_specialType SPEC_SECT_INDEX_BTREE Pages.btree_block) = Ret tt g' /\
    stdout g' = new /\
    messages_of new = [] /\
    exitCode g' = 0 /\
    map text (tags_of new) =
      map (BlockText 0 (Some 0))
        ["btpo_prev"; "btpo_next"; "btpo.level"; btpo_flags_string 3;
         "btpo_cycleid"] /\
    tiles 240 256 (tags_of new).
Proof.
  destruct (EmitXmlSpecial_btree 0 0
              (set_specialType SPEC_SECT_INDEX_BTREE Pages.btree_block)
              240 3 eq_refl ltac:(evaluate) ltac:(evaluate)
              ltac:(vm_compute; lia))
    as (g' & new & H1 & H2 & H3 & H4 & H5 & H6).
  exists g', new. repeat (split; [assumption|]).
  apply H6; evaluate.
Defined.

Lemma EmitXmlPageHeader_line_pointers_witness :
  exists g' fields items,
    EmitXmlPageHeader Pages.no_checksum 0 PG.UINT_MAX Pages.heap_block
      = Ret 0 g' /\
    tags_of (stdout g') = fields ++ items /\
    List.length fields = 8%nat /\
    List.length items = 4%nat /\
    tiles 0 40 (fields ++ items).
Proof.
  destruct (EmitXmlPageHeader_line_pointers Pages.no_checksum 0 PG.UINT_MAX
              Pages.heap_block 40
              ltac:(unfold run_state; evaluate) ltac:(evaluate)
              ltac:(evaluate) ltac:(evaluate))
    as (g' & fields & items & H1 & H2 & H3 & H4 & _ & H6).
  exists g', fields, items. repeat (split; [assumption|]).
  split; [symmetry; exact (Forall2_length H4)|].
  apply H6; evaluate.
Defined.

Lemma EmitXmlPage_leaf_page_witness :
  exists g',
    EmitXmlPage Pages.no_checksum 0
      (Pages.loaded BLOCK_SKIP_LEAF Pages.btree_leaf_page 0 256) = Ret tt g' /\
    exitCode g' = 0 /\
    stdout g' =
      [OutTag
         (mkTAG 0 0 8191 (BlockText 0 (Some 0) "leaf page") COLOR_GREEN_DARK)].
Proof.
  exact (EmitXmlPage_leaf_page Pages.no_checksum 0
           (Pages.loaded BLOCK_SKIP_LEAF Pages.btree_leaf_page 0 256)
           240 0 1
           ltac:(evaluate) ltac:(evaluate) ltac:(evaluate) ltac:(evaluate)
           ltac:(evaluate) ltac:(evaluate) ltac:(evaluate)).
Defined.

Lemma EmitXmlPage_first_tag_witness :
  first_tag_at 0 0 Pages.heap_block
    (final (EmitXmlPage Pages.no_checksum 0 Pages.heap_block)).
Proof.
  exact (EmitXmlPage_first_tag Pages.no_checksum 0 Pages.heap_block
           ltac:(unfold run_state; evaluate) ltac:(evaluate)).
Defined.

(** a checksum function that finds every checksum wrong *)
Definition wrong_checksum (page : list Byte.byte) (blkno : Z) : Z := 1.

Lemma tags_ignore_checksum_and_segment_witness :
  tags_of
    (stdout
       (final
          (EmitXmlFile Pages.no_checksum [Pages.heap_page; Pages.btree_page]
             false (Pages.start BLOCK_CHECKSUMS))))
  = tags_of
      (stdout
         (final
            (EmitXmlFile wrong_checksum [Pages.heap_page; Pages.btree_page]
               false
               (set_segmentNumber 3
                  (set_segmentSize 8192 (Pages.start BLOCK_CHECKSUMS)))))).
Proof.
  assert (S : same_tags (Pages.start BLOCK_CHECKSUMS)
                (set_segmentNumber 3
                   (set_segmentSize 8192 (Pages.start BLOCK_CHECKSUMS))))
    by (unfold same_tags; repeat split).
  destruct (tags_ignore_checksum_and_segment Pages.no_checksum wrong_checksum
              [Pages.heap_page; Pages.btree_page] false _ _ S) as (H & _).
  exact H.
Defined.

Lemma EmitXmlPage_partial_line_pointers_witness :
  exists g' out fields items,
    EmitXmlPage Pages.no_checksum 0 (Pages.loaded 0 Pages.heap_page 0 28)
      = Ret tt g' /\
    exitCode g' = 1 /\
    stdout g' = out ++ [OutMsg (ErrEndOfBlockInHeader 28)] /\
    tags_of (stdout g') = fields ++ items /\
    List.length fields = 8%nat /\
    List.length items = 4%nat.
Proof.
  destruct (EmitXmlPage_partial_line_pointers Pages.no_checksum 0
              (Pages.loaded 0 Pages.heap_page 0 28) 40
              ltac:(unfold run_state; evaluate) ltac:(evaluate)
              ltac:(evaluate) ltac:(evaluate))
    as (g' & out & fields & items & H1 & H2 & H3 & H4 & H5 & H6).
  exists g', out, fields, items. repeat (split; [assumption|]).
  symmetry. exact (Forall2_length H6).
Defined.

(** a file system with one file, a relation segment that holds
    [Pages.heap_page] *)
Definition one_file (name : string) : option (list Byte.byte) :=
  if String.eqb name "rel.1" then Some Pages.heap_page else None.

(** a [malloc] that does not fail *)
Definition zeroed (n : Z) : option (list Byte.byte) :=
  Some (Pages.zeros (Z.to_nat n)).

Lemma ConsumeOptions_returns_witness :
  exists r p,
    ConsumeOptions one_file 5 ["pg_hexedit"; "-R"; "0"; "3"; "rel.1"]
      initial_program = Some (r, p).
Proof.
  apply (ConsumeOptions_returns one_file 5
           ["pg_hexedit"; "-R"; "0"; "3"; "rel.1"]); evaluate.
Defined.

Lemma ConsumeOptions_valid_witness :
  exists p,
    ConsumeOptions one_file 5 ["pg_hexedit"; "-R"; "0"; "3"; "rel.1"]
      initial_program = Some (OPT_RC_VALID, p) /\
    fp p = Some Pages.heap_page /\
    fileName p = Some "rel.1" /\
    notices p = [] /\
    exitCode (vars p) = 0 /\
    range_set (vars p).
Proof.
  destruct (ConsumeOptions one_file 5 ["pg_hexedit"; "-R"; "0"; "3"; "rel.1"]
              initial_program) as [[r p]|] eqn:E;
    [|vm_compute in E; discriminate E].
  assert (Er : r = OPT_RC_VALID)
    by (vm_compute in E; injection E as E _; symmetry; exact E).
  rewrite Er in E.
  destruct (ConsumeOptions_valid one_file 5
              ["pg_hexedit"; "-R"; "0"; "3"; "rel.1"] p
              ltac:(evaluate) ltac:(evaluate) E)
    as ((name & contents & Hname & _ & Hopen & Hfp & HfileName)
        & H2 & H3 & H4 & _).
  exists p. rewrite Er. split; [reflexivity|].
  cbn in Hname. rewrite <- Hname in *.
  split; [rewrite Hfp, <- Hopen; reflexivity|].
  repeat (split; [assumption|]). exact H4.
Defined.

Lemma ConsumeOptions_rejected_witness :
  exists p,
    ConsumeOptions one_file 3 ["pg_hexedit"; "-x"; "rel.1"] initial_program
      = Some (OPT_RC_INVALID, p) /\
    exitCode (vars p) = 1 /\ notices p <> [] /\ stdout (vars p) = [].
Proof.
  destruct (ConsumeOptions one_file 3 ["pg_hexedit"; "-x"; "rel.1"]
              initial_program) as [[r p]|] eqn:E;
    [|vm_compute in E; discriminate E].
  assert (Er : r = OPT_RC_INVALID)
    by (vm_compute in E; injection E as E _; symmetry; exact E).
  rewrite Er in E.
  destruct (ConsumeOptions_rejected one_file 3 ["pg_hexedit"; "-x"; "rel.1"]
              OPT_RC_INVALID p ltac:(evaluate) ltac:(evaluate) E)
    as (H1 & _ & H3).
  destruct H1 as (H1 & H2); [discriminate | discriminate |].
  exists p. rewrite Er. repeat split; assumption.
Defined.

Lemma main_exit_status_witness :
  exists f,
    main one_file "12:00:00" zeroed false Pages.no_checksum 3
      ["pg_hexedit"; "-x"; "rel.1"] = Some f /\
    (exit_status f = 0 \/ exit_status f = 1).
Proof.
  destruct (main one_file "12:00:00" zeroed false Pages.no_checksum 3
              ["pg_hexedit"; "-x"; "rel.1"]) as [f|] eqn:E;
    [|vm_compute in E; discriminate E].
  exists f. split; [reflexivity|].
  exact (main_exit_status one_file "12:00:00" zeroed false Pages.no_checksum
           3 ["pg_hexedit"; "-x"; "rel.1"] f ltac:(evaluate) ltac:(evaluate)
           E).
Defined.

Lemma main_success_witness :
  exists f,
    main one_file "12:00:00" zeroed false Pages.no_checksum 2
      ["pg_hexedit"; "rel.1"] = Some f /\
    exit_status f = 0 /\
    exists out,
      printed f
        = Notice (MsgDocHeader "12:00:00" "None" (Some "rel.1"))
          :: map Decoded (out ++ [OutMsg MsgFooter]) /\
      Forall not_footer out.
Proof.
  destruct (main one_file "12:00:00" zeroed false Pages.no_checksum 2
              ["pg_hexedit"; "rel.1"]) as [f|] eqn:E;
    [|vm_compute in E; discriminate E].
  assert (E0 : exit_status f = 0)
    by (vm_compute in E; injection E as <-; reflexivity).
  exists f. split; [reflexivity|]. split; [exact E0|].
  destruct (main_success one_file "12:00:00" zeroed false Pages.no_checksum
              2 ["pg_hexedit"; "rel.1"] f ltac:(evaluate) ltac:(evaluate)
              E E0) as [H | [H | (H & _)]].
  - exfalso. vm_compute in E. injection E as <-. discriminate H.
  - exact H.
  - exfalso. vm_compute in E. injection E as <-. discriminate H.
Defined.

Lemma GetOptionValue_digits_witness :
  GetOptionValue "42" = 42 /\ GetOptionValue "-5" = -1 /\
  GetOptionValue "4294967338" = 42.
Proof.
  destruct GetOptionValue_digits as (Hnon & Hsmall & _ & Hdig & _).
  split; [|split].
  - exact (Hsmall "42" eq_refl ltac:(evaluate)).
  - exact (Hnon "-5" eq_refl).
  - exact (Hdig "4294967338" eq_refl).
Defined.

Lemma GetSegmentNumberFromFileName_suffix_witness :
  GetSegmentNumberFromFileName "base/16384/16385.7" = 7 /\
  GetSegmentNumberFromFileName "base/16384/16385" = 0.
Proof.
  destruct GetSegmentNumberFromFileName_suffix as (Hdot & Hother & _).
  split.
  - exact (Hdot "base/16384/16385" "7" eq_refl ltac:(evaluate)).
  - exact (Hother "base/16384" "/"%char "16385" eq_refl eq_refl
             ltac:(discriminate)).
Defined.

Lemma cache_options_fits_witness :
  cache_options "" ["-k"; "-R"; "0"; "3"] = "-k -R 0 3 ".
Proof.
  exact (proj2 (cache_options_fits ["-k"; "-R"; "0"; "3"]) ltac:(evaluate)).
Defined.

Lemma EmitXmlFile_block_numbers_witness :
  exists new,
    tags_of
      (stdout
         (final
            (EmitXmlFile Pages.no_checksum
               [Pages.heap_page; Pages.btree_page; Pages.heap_page] false
               (set_blockEnd 1
                  (set_blockStart 1 (Pages.start BLOCK_RANGE))))))
      = new /\
    new <> [] /\
    Forall (fun t => tag_blkno t = 1) new.
Proof.
  destruct (proj2 (EmitXmlFile_block_numbers Pages.no_checksum
                     [Pages.heap_page; Pages.btree_page; Pages.heap_page]
                     false
                     (set_blockEnd 1
                        (set_blockStart 1 (Pages.start BLOCK_RANGE))))
              ltac:(evaluate) ltac:(evaluate) ltac:(evaluate)
              ltac:(evaluate) ltac:(evaluate))
    as (new & Hnew & Hall).
  exists new. split; [exact Hnew|]. split.
  - intros ->. vm_compute in Hnew. discriminate Hnew.
  - revert Hall. apply Forall_impl. cbn. intros t H. lia.
Defined.

Lemma EmitXmlFile_nothing_to_read_witness :
  exists g',
    EmitXmlFile Pages.no_checksum [Pages.heap_page] false
      (set_blockEnd 5 (set_blockStart 5 (Pages.start BLOCK_RANGE)))
      = Ret tt g' /\
    stdout g' = [OutMsg ErrPrematureEof; OutMsg MsgFooter] /\
    exitCode g' = 0.
Proof.
  destruct (proj2 (proj2 (EmitXmlFile_nothing_to_read Pages.no_checksum
                            [Pages.heap_page]
                            (set_blockEnd 5
                               (set_blockStart 5 (Pages.start BLOCK_RANGE)))))
              ltac:(evaluate) ltac:(evaluate) ltac:(evaluate))
    as (g' & H1 & H2 & H3 & _).
  exists g'. repeat split; assumption.
Defined.

Lemma fread_run_state_witness :
  exists g',
    fread (firstn 100 Pages.heap_page) (Pages.start 0) = Ret tt g' /\
    run_state g' /\ bytesToFormat g' = 100.
Proof.
  destruct (proj1 (fread_run_state Pages.no_checksum)
              (firstn 100 Pages.heap_page) (Pages.start 0)
              ltac:(unfold buffer_ready; evaluate))
    as (g' & H1 & H2 & H3 & _).
  exists g'. split; [exact H1|]. split; [exact H2|]. rewrite H3. reflexivity.
Defined.

Lemma flag_strings_fit_witness :
  (String.length
     (btpo_flags_string (PG.BTP_LEAF + PG.BTP_ROOT + PG.BTP_INCOMPLETE_SPLIT))
   + 2 <= 100)%nat.
Proof.
  destruct flag_strings_fit as (_ & _ & _ & H & _).
  apply H. right. vm_compute. lia.
Defined.
